(** * YMF262 (OPL3) FM sound generator: envelope, key and register model

    A shallow embedding of [src/sound/YMF262.cc] of openMSX: the operator
    (slot) envelope generator, the key-on / key-off logic, the register
    decoder [writeRegForce], [reset], the status reads and the sample
    generator [generateChannels], followed by the properties checked
    against them.

    Conventions.
    - A C++ [int] is a [Z] brought back to 32 bits two's complement with
      [sint32] where the code stores an arithmetic result; [unsigned] uses
      [uint32] and [byte] uses [byte_of].
    - [x >> n] on an [int] is the arithmetic shift [Z.shiftr]; [~x] is
      [Z.lnot]; [&], [|], [^] are [Z.land], [Z.lor], [Z.lxor].
    - Fixed size arrays are lists; an index outside the array (undefined
      behaviour in C++) reads the default element and writes nothing. *)

From Stdlib Require Import ZArith List Bool Lia Finite.
From stdpp Require Import base list.
Import ListNotations.
Local Open Scope Z_scope.

(** ** Machine integers *)

Definition sint32 (z : Z) : Z := (z + 2 ^ 31) mod 2 ^ 32 - 2 ^ 31.
Definition uint32 (z : Z) : Z := z mod 2 ^ 32.
Definition byte_of (z : Z) : Z := z mod 256.

(** C truthiness of an integer. *)
Definition nz (z : Z) : bool := negb (z =? 0).

(** Table lookup [tab[i]]. *)
Definition tbl (tab : list Z) (i : Z) : Z :=
  if i <? 0 then 0 else nth (Z.to_nat i) tab 0.

(** ** Constants and lookup tables *)

Definition ENV_BITS : Z := 10.
Definition ENV_LEN : Z := Z.shiftl 1 ENV_BITS.
Definition MAX_ATT_INDEX : Z := Z.shiftl 1 (ENV_BITS - 1) - 1.
Definition MIN_ATT_INDEX : Z := 0.
Definition SIN_BITS : Z := 10.
Definition SIN_LEN : Z := Z.shiftl 1 SIN_BITS.
Definition SIN_MASK : Z := SIN_LEN - 1.
Definition TL_RES_LEN : Z := 256.
Definition TL_TAB_LEN : Z := 13 * 2 * TL_RES_LEN.
Definition ENV_QUIET : Z := Z.shiftr TL_TAB_LEN 4.
Definition SLOT1 : Z := 0.
Definition SLOT2 : Z := 1.
Definition RATE_STEPS : Z := 8.
Definition LFO_AM_TAB_ELEMENTS : Z := 210.

Definition slot_array : list Z :=
  [ 0;  2;  4;  1;  3;  5; -1; -1;
    6;  8; 10;  7;  9; 11; -1; -1;
   12; 14; 16; 13; 15; 17; -1; -1;
   -1; -1; -1; -1; -1; -1; -1; -1].

(** [DV(x) = (int)(x / (0.1875 / 2.0))].  Every entry of [ksl_tab] is a
    multiple of 0.375 dB, so the quotient is an exact integer; the argument
    is given here in thousandths of a dB. *)
Definition DV (x_milli : Z) : Z := x_milli * 32 / 3000.

Definition ksl_tab : list Z := map DV
  [ (* OCT 0 *)
        0;     0;     0;     0;     0;     0;     0;     0;
        0;     0;     0;     0;     0;     0;     0;     0;
    (* OCT 1 *)
        0;     0;     0;     0;     0;     0;     0;     0;
        0;   750;  1125;  1500;  1875;  2250;  2625;  3000;
    (* OCT 2 *)
        0;     0;     0;     0;     0;  1125;  1875;  2625;
     3000;  3750;  4125;  4500;  4875;  5250;  5625;  6000;
    (* OCT 3 *)
        0;     0;     0;  1875;  3000;  4125;  4875;  5625;
     6000;  6750;  7125;  7500;  7875;  8250;  8625;  9000;
    (* OCT 4 *)
        0;     0;  3000;  4875;  6000;  7125;  7875;  8625;
     9000;  9750; 10125; 10500; 10875; 11250; 11625; 12000;
    (* OCT 5 *)
        0;  3000;  6000;  7875;  9000; 10125; 10875; 11625;
    12000; 12750; 13125; 13500; 13875; 14250; 14625; 15000;
    (* OCT 6 *)
        0;  6000;  9000; 10875; 12000; 13125; 13875; 14625;
    15000; 15750; 16125; 16500; 16875; 17250; 17625; 18000;
    (* OCT 7 *)
        0;  9000; 12000; 13875; 15000; 16125; 16875; 17625;
    18000; 18750; 19125; 19500; 19875; 20250; 20625; 21000].

(** [SC(db) = (unsigned)(db * (2.0 / ENV_STEP))] with [ENV_STEP = 128 / 1024]. *)
Definition SC (db : Z) : Z := db * 16.

Definition sl_tab : list Z := map SC
  [0; 1; 2; 3; 4; 5; 6; 7; 8; 9; 10; 11; 12; 13; 14; 31].

Definition eg_inc : list Z :=
  [ 0;1; 0;1; 0;1; 0;1;   (*  0  rates 00..12 0 *)
    0;1; 0;1; 1;1; 0;1;   (*  1  rates 00..12 1 *)
    0;1; 1;1; 0;1; 1;1;   (*  2  rates 00..12 2 *)
    0;1; 1;1; 1;1; 1;1;   (*  3  rates 00..12 3 *)
    1;1; 1;1; 1;1; 1;1;   (*  4  rate 13 0 *)
    1;1; 1;2; 1;1; 1;2;   (*  5  rate 13 1 *)
    1;2; 1;2; 1;2; 1;2;   (*  6  rate 13 2 *)
    1;2; 2;2; 1;2; 2;2;   (*  7  rate 13 3 *)
    2;2; 2;2; 2;2; 2;2;   (*  8  rate 14 0 *)
    2;2; 2;4; 2;2; 2;4;   (*  9  rate 14 1 *)
    2;4; 2;4; 2;4; 2;4;   (* 10  rate 14 2 *)
    2;4; 4;4; 2;4; 4;4;   (* 11  rate 14 3 *)
    4;4; 4;4; 4;4; 4;4;   (* 12  rates 15 x for decay *)
    8;8; 8;8; 8;8; 8;8;   (* 13  rates 15 x for attack (zero time) *)
    0;0; 0;0; 0;0; 0;0].  (* 14  infinity rates for attack and decay(s) *)

Definition eg_rate_select : list Z := map (fun a => a * RATE_STEPS)
  ( (* 16 infinite time rates *)
    [14; 14; 14; 14; 14; 14; 14; 14; 14; 14; 14; 14; 14; 14; 14; 14] ++
    (* rates 00-12 *)
    [0; 1; 2; 3;  0; 1; 2; 3;  0; 1; 2; 3;  0; 1; 2; 3;
     0; 1; 2; 3;  0; 1; 2; 3;  0; 1; 2; 3;  0; 1; 2; 3;
     0; 1; 2; 3;  0; 1; 2; 3;  0; 1; 2; 3;  0; 1; 2; 3;
     0; 1; 2; 3] ++
    (* rate 13, rate 14, rate 15 *)
    [4; 5; 6; 7] ++ [8; 9; 10; 11] ++ [12; 12; 12; 12] ++
    (* 16 dummy rates (same as 15 3) *)
    [12; 12; 12; 12; 12; 12; 12; 12; 12; 12; 12; 12; 12; 12; 12; 12]).

Definition eg_rate_shift : list Z :=
  (* 16 infinite time rates *)
  [0; 0; 0; 0; 0; 0; 0; 0; 0; 0; 0; 0; 0; 0; 0; 0] ++
  (* rates 00-15 *)
  [12; 12; 12; 12;  11; 11; 11; 11;  10; 10; 10; 10;  9; 9; 9; 9;
    8;  8;  8;  8;   7;  7;  7;  7;   6;  6;  6;  6;  5; 5; 5; 5;
    4;  4;  4;  4;   3;  3;  3;  3;   2;  2;  2;  2;  1; 1; 1; 1;
    0;  0;  0;  0;   0;  0;  0;  0;   0;  0;  0;  0;  0; 0; 0; 0] ++
  (* 16 dummy rates (same as 15 3) *)
  [0; 0; 0; 0; 0; 0; 0; 0; 0; 0; 0; 0; 0; 0; 0; 0].

(** [ML(x) = (byte)(2 * x)] over 1/2, 1, 2, ..., 15. *)
Definition mul_tab : list Z :=
  [1; 2; 4; 6; 8; 10; 12; 14; 16; 18; 20; 20; 24; 24; 30; 30].

Definition lfo_am_table : list Z :=
  [0; 0; 0] ++
  flat_map (fun k => [k; k; k; k])
    [0; 1; 2; 3; 4; 5; 6; 7; 8; 9; 10; 11; 12; 13; 14; 15; 16; 17; 18; 19;
     20; 21; 22; 23; 24; 25] ++
  [26; 26; 26] ++
  flat_map (fun k => [k; k; k; k])
    [25; 24; 23; 22; 21; 20; 19; 18; 17; 16; 15; 14; 13; 12; 11; 10; 9; 8;
     7; 6; 5; 4; 3; 2; 1].

Definition lfo_pm_table : list Z :=
  [ 0; 0; 0; 0; 0; 0; 0; 0;    0; 0; 0; 0; 0; 0; 0; 0;
    0; 0; 0; 0; 0; 0; 0; 0;    1; 0; 0; 0;-1; 0; 0; 0;
    1; 0; 0; 0;-1; 0; 0; 0;    2; 1; 0;-1;-2;-1; 0; 1;
    1; 0; 0; 0;-1; 0; 0; 0;    3; 1; 0;-1;-3;-1; 0; 1;
    2; 1; 0;-1;-2;-1; 0; 1;    4; 2; 0;-2;-4;-2; 0; 2;
    2; 1; 0;-1;-2;-1; 0; 1;    5; 2; 0;-2;-5;-2; 0; 2;
    3; 1; 0;-1;-3;-1; 0; 1;    6; 3; 0;-3;-6;-3; 0; 3;
    3; 1; 0;-1;-3;-1; 0; 1;    7; 3; 0;-3;-7;-3; 0; 3].

(** ** Operators (slots) *)

Inductive EnvelopeState : Type :=
  EG_ATTACK | EG_DECAY | EG_SUSTAIN | EG_RELEASE | EG_OFF.

(** The target of [int* connect]: null, one of the two static modulation
    inputs, or an element of [chanout]. *)
Inductive Connect : Type :=
  | ConnNull
  | ConnPhaseMod
  | ConnPhaseMod2
  | ConnChanout (n : Z).

(** [FreqIndex] values ([Cnt], [Incr], [fc]) are kept as their raw 16.16
    representation.  [wavetable] is the offset of the selected waveform in
    [sin_tab]. *)
Record YMF262Slot : Type := mkSlot {
  Cnt : Z; Incr : Z; connect : Connect; op1_out0 : Z; op1_out1 : Z;
  TL : Z; TLL : Z; volume : Z; sl : Z;
  wavetable : Z;
  eg_m_ar : Z; eg_m_dr : Z; eg_m_rr : Z;
  eg_sh_ar : Z; eg_sel_ar : Z; eg_sh_dr : Z; eg_sel_dr : Z;
  eg_sh_rr : Z; eg_sel_rr : Z;
  key : Z; fb_shift : Z; CON : bool; eg_type : bool; state : EnvelopeState;
  AMmask : Z; vib : bool; waveform_number : Z;
  ar : Z; dr : Z; rr : Z; KSR : Z; ksl : Z; ksr : Z; mul : Z
}.

(** Field updates. *)
Definition with_Cnt (x : Z) (s : YMF262Slot) : YMF262Slot :=
  mkSlot x (Incr s) (connect s) (op1_out0 s) (op1_out1 s) (TL s) (TLL s) (volume s) (sl s)
    (wavetable s) (eg_m_ar s) (eg_m_dr s) (eg_m_rr s) (eg_sh_ar s) (eg_sel_ar s) (eg_sh_dr s)
    (eg_sel_dr s) (eg_sh_rr s) (eg_sel_rr s) (key s) (fb_shift s) (CON s) (eg_type s) (state s)
    (AMmask s) (vib s) (waveform_number s) (ar s) (dr s) (rr s) (KSR s) (ksl s) (ksr s) (mul s).
Definition with_Incr (x : Z) (s : YMF262Slot) : YMF262Slot :=
  mkSlot (Cnt s) x (connect s) (op1_out0 s) (op1_out1 s) (TL s) (TLL s) (volume s) (sl s)
    (wavetable s) (eg_m_ar s) (eg_m_dr s) (eg_m_rr s) (eg_sh_ar s) (eg_sel_ar s) (eg_sh_dr s)
    (eg_sel_dr s) (eg_sh_rr s) (eg_sel_rr s) (key s) (fb_shift s) (CON s) (eg_type s) (state s)
    (AMmask s) (vib s) (waveform_number s) (ar s) (dr s) (rr s) (KSR s) (ksl s) (ksr s) (mul s).
Definition with_connect (x : Connect) (s : YMF262Slot) : YMF262Slot :=
  mkSlot (Cnt s) (Incr s) x (op1_out0 s) (op1_out1 s) (TL s) (TLL s) (volume s) (sl s)
    (wavetable s) (eg_m_ar s) (eg_m_dr s) (eg_m_rr s) (eg_sh_ar s) (eg_sel_ar s) (eg_sh_dr s)
    (eg_sel_dr s) (eg_sh_rr s) (eg_sel_rr s) (key s) (fb_shift s) (CON s) (eg_type s) (state s)
    (AMmask s) (vib s) (waveform_number s) (ar s) (dr s) (rr s) (KSR s) (ksl s) (ksr s) (mul s).
Definition with_op1_out0 (x : Z) (s : YMF262Slot) : YMF262Slot :=
  mkSlot (Cnt s) (Incr s) (connect s) x (op1_out1 s) (TL s) (TLL s) (volume s) (sl s) (wavetable
    s) (eg_m_ar s) (eg_m_dr s) (eg_m_rr s) (eg_sh_ar s) (eg_sel_ar s) (eg_sh_dr s) (eg_sel_dr s)
    (eg_sh_rr s) (eg_sel_rr s) (key s) (fb_shift s) (CON s) (eg_type s) (state s) (AMmask s)
    (vib s) (waveform_number s) (ar s) (dr s) (rr s) (KSR s) (ksl s) (ksr s) (mul s).
Definition with_op1_out1 (x : Z) (s : YMF262Slot) : YMF262Slot :=
  mkSlot (Cnt s) (Incr s) (connect s) (op1_out0 s) x (TL s) (TLL s) (volume s) (sl s) (wavetable
    s) (eg_m_ar s) (eg_m_dr s) (eg_m_rr s) (eg_sh_ar s) (eg_sel_ar s) (eg_sh_dr s) (eg_sel_dr s)
    (eg_sh_rr s) (eg_sel_rr s) (key s) (fb_shift s) (CON s) (eg_type s) (state s) (AMmask s)
    (vib s) (waveform_number s) (ar s) (dr s) (rr s) (KSR s) (ksl s) (ksr s) (mul s).
Definition with_TL (x : Z) (s : YMF262Slot) : YMF262Slot :=
  mkSlot (Cnt s) (Incr s) (connect s) (op1_out0 s) (op1_out1 s) x (TLL s) (volume s) (sl s)
    (wavetable s) (eg_m_ar s) (eg_m_dr s) (eg_m_rr s) (eg_sh_ar s) (eg_sel_ar s) (eg_sh_dr s)
    (eg_sel_dr s) (eg_sh_rr s) (eg_sel_rr s) (key s) (fb_shift s) (CON s) (eg_type s) (state s)
    (AMmask s) (vib s) (waveform_number s) (ar s) (dr s) (rr s) (KSR s) (ksl s) (ksr s) (mul s).
Definition with_TLL (x : Z) (s : YMF262Slot) : YMF262Slot :=
  mkSlot (Cnt s) (Incr s) (connect s) (op1_out0 s) (op1_out1 s) (TL s) x (volume s) (sl s)
    (wavetable s) (eg_m_ar s) (eg_m_dr s) (eg_m_rr s) (eg_sh_ar s) (eg_sel_ar s) (eg_sh_dr s)
    (eg_sel_dr s) (eg_sh_rr s) (eg_sel_rr s) (key s) (fb_shift s) (CON s) (eg_type s) (state s)
    (AMmask s) (vib s) (waveform_number s) (ar s) (dr s) (rr s) (KSR s) (ksl s) (ksr s) (mul s).
Definition with_volume (x : Z) (s : YMF262Slot) : YMF262Slot :=
  mkSlot (Cnt s) (Incr s) (connect s) (op1_out0 s) (op1_out1 s) (TL s) (TLL s) x (sl s)
    (wavetable s) (eg_m_ar s) (eg_m_dr s) (eg_m_rr s) (eg_sh_ar s) (eg_sel_ar s) (eg_sh_dr s)
    (eg_sel_dr s) (eg_sh_rr s) (eg_sel_rr s) (key s) (fb_shift s) (CON s) (eg_type s) (state s)
    (AMmask s) (vib s) (waveform_number s) (ar s) (dr s) (rr s) (KSR s) (ksl s) (ksr s) (mul s).
Definition with_sl (x : Z) (s : YMF262Slot) : YMF262Slot :=
  mkSlot (Cnt s) (Incr s) (connect s) (op1_out0 s) (op1_out1 s) (TL s) (TLL s) (volume s) x
    (wavetable s) (eg_m_ar s) (eg_m_dr s) (eg_m_rr s) (eg_sh_ar s) (eg_sel_ar s) (eg_sh_dr s)
    (eg_sel_dr s) (eg_sh_rr s) (eg_sel_rr s) (key s) (fb_shift s) (CON s) (eg_type s) (state s)
    (AMmask s) (vib s) (waveform_number s) (ar s) (dr s) (rr s) (KSR s) (ksl s) (ksr s) (mul s).
Definition with_wavetable (x : Z) (s : YMF262Slot) : YMF262Slot :=
  mkSlot (Cnt s) (Incr s) (connect s) (op1_out0 s) (op1_out1 s) (TL s) (TLL s) (volume s) (sl s)
    x (eg_m_ar s) (eg_m_dr s) (eg_m_rr s) (eg_sh_ar s) (eg_sel_ar s) (eg_sh_dr s) (eg_sel_dr s)
    (eg_sh_rr s) (eg_sel_rr s) (key s) (fb_shift s) (CON s) (eg_type s) (state s) (AMmask s)
    (vib s) (waveform_number s) (ar s) (dr s) (rr s) (KSR s) (ksl s) (ksr s) (mul s).
Definition with_eg_m_ar (x : Z) (s : YMF262Slot) : YMF262Slot :=
  mkSlot (Cnt s) (Incr s) (connect s) (op1_out0 s) (op1_out1 s) (TL s) (TLL s) (volume s) (sl s)
    (wavetable s) x (eg_m_dr s) (eg_m_rr s) (eg_sh_ar s) (eg_sel_ar s) (eg_sh_dr s) (eg_sel_dr
    s) (eg_sh_rr s) (eg_sel_rr s) (key s) (fb_shift s) (CON s) (eg_type s) (state s) (AMmask s)
    (vib s) (waveform_number s) (ar s) (dr s) (rr s) (KSR s) (ksl s) (ksr s) (mul s).
Definition with_eg_m_dr (x : Z) (s : YMF262Slot) : YMF262Slot :=
  mkSlot (Cnt s) (Incr s) (connect s) (op1_out0 s) (op1_out1 s) (TL s) (TLL s) (volume s) (sl s)
    (wavetable s) (eg_m_ar s) x (eg_m_rr s) (eg_sh_ar s) (eg_sel_ar s) (eg_sh_dr s) (eg_sel_dr
    s) (eg_sh_rr s) (eg_sel_rr s) (key s) (fb_shift s) (CON s) (eg_type s) (state s) (AMmask s)
    (vib s) (waveform_number s) (ar s) (dr s) (rr s) (KSR s) (ksl s) (ksr s) (mul s).
Definition with_eg_m_rr (x : Z) (s : YMF262Slot) : YMF262Slot :=
  mkSlot (Cnt s) (Incr s) (connect s) (op1_out0 s) (op1_out1 s) (TL s) (TLL s) (volume s) (sl s)
    (wavetable s) (eg_m_ar s) (eg_m_dr s) x (eg_sh_ar s) (eg_sel_ar s) (eg_sh_dr s) (eg_sel_dr
    s) (eg_sh_rr s) (eg_sel_rr s) (key s) (fb_shift s) (CON s) (eg_type s) (state s) (AMmask s)
    (vib s) (waveform_number s) (ar s) (dr s) (rr s) (KSR s) (ksl s) (ksr s) (mul s).
Definition with_eg_sh_ar (x : Z) (s : YMF262Slot) : YMF262Slot :=
  mkSlot (Cnt s) (Incr s) (connect s) (op1_out0 s) (op1_out1 s) (TL s) (TLL s) (volume s) (sl s)
    (wavetable s) (eg_m_ar s) (eg_m_dr s) (eg_m_rr s) x (eg_sel_ar s) (eg_sh_dr s) (eg_sel_dr s)
    (eg_sh_rr s) (eg_sel_rr s) (key s) (fb_shift s) (CON s) (eg_type s) (state s) (AMmask s)
    (vib s) (waveform_number s) (ar s) (dr s) (rr s) (KSR s) (ksl s) (ksr s) (mul s).
Definition with_eg_sel_ar (x : Z) (s : YMF262Slot) : YMF262Slot :=
  mkSlot (Cnt s) (Incr s) (connect s) (op1_out0 s) (op1_out1 s) (TL s) (TLL s) (volume s) (sl s)
    (wavetable s) (eg_m_ar s) (eg_m_dr s) (eg_m_rr s) (eg_sh_ar s) x (eg_sh_dr s) (eg_sel_dr s)
    (eg_sh_rr s) (eg_sel_rr s) (key s) (fb_shift s) (CON s) (eg_type s) (state s) (AMmask s)
    (vib s) (waveform_number s) (ar s) (dr s) (rr s) (KSR s) (ksl s) (ksr s) (mul s).
Definition with_eg_sh_dr (x : Z) (s : YMF262Slot) : YMF262Slot :=
  mkSlot (Cnt s) (Incr s) (connect s) (op1_out0 s) (op1_out1 s) (TL s) (TLL s) (volume s) (sl s)
    (wavetable s) (eg_m_ar s) (eg_m_dr s) (eg_m_rr s) (eg_sh_ar s) (eg_sel_ar s) x (eg_sel_dr s)
    (eg_sh_rr s) (eg_sel_rr s) (key s) (fb_shift s) (CON s) (eg_type s) (state s) (AMmask s)
    (vib s) (waveform_number s) (ar s) (dr s) (rr s) (KSR s) (ksl s) (ksr s) (mul s).
Definition with_eg_sel_dr (x : Z) (s : YMF262Slot) : YMF262Slot :=
  mkSlot (Cnt s) (Incr s) (connect s) (op1_out0 s) (op1_out1 s) (TL s) (TLL s) (volume s) (sl s)
    (wavetable s) (eg_m_ar s) (eg_m_dr s) (eg_m_rr s) (eg_sh_ar s) (eg_sel_ar s) (eg_sh_dr s) x
    (eg_sh_rr s) (eg_sel_rr s) (key s) (fb_shift s) (CON s) (eg_type s) (state s) (AMmask s)
    (vib s) (waveform_number s) (ar s) (dr s) (rr s) (KSR s) (ksl s) (ksr s) (mul s).
Definition with_eg_sh_rr (x : Z) (s : YMF262Slot) : YMF262Slot :=
  mkSlot (Cnt s) (Incr s) (connect s) (op1_out0 s) (op1_out1 s) (TL s) (TLL s) (volume s) (sl s)
    (wavetable s) (eg_m_ar s) (eg_m_dr s) (eg_m_rr s) (eg_sh_ar s) (eg_sel_ar s) (eg_sh_dr s)
    (eg_sel_dr s) x (eg_sel_rr s) (key s) (fb_shift s) (CON s) (eg_type s) (state s) (AMmask s)
    (vib s) (waveform_number s) (ar s) (dr s) (rr s) (KSR s) (ksl s) (ksr s) (mul s).
Definition with_eg_sel_rr (x : Z) (s : YMF262Slot) : YMF262Slot :=
  mkSlot (Cnt s) (Incr s) (connect s) (op1_out0 s) (op1_out1 s) (TL s) (TLL s) (volume s) (sl s)
    (wavetable s) (eg_m_ar s) (eg_m_dr s) (eg_m_rr s) (eg_sh_ar s) (eg_sel_ar s) (eg_sh_dr s)
    (eg_sel_dr s) (eg_sh_rr s) x (key s) (fb_shift s) (CON s) (eg_type s) (state s) (AMmask s)
    (vib s) (waveform_number s) (ar s) (dr s) (rr s) (KSR s) (ksl s) (ksr s) (mul s).
Definition with_key (x : Z) (s : YMF262Slot) : YMF262Slot :=
  mkSlot (Cnt s) (Incr s) (connect s) (op1_out0 s) (op1_out1 s) (TL s) (TLL s) (volume s) (sl s)
    (wavetable s) (eg_m_ar s) (eg_m_dr s) (eg_m_rr s) (eg_sh_ar s) (eg_sel_ar s) (eg_sh_dr s)
    (eg_sel_dr s) (eg_sh_rr s) (eg_sel_rr s) x (fb_shift s) (CON s) (eg_type s) (state s)
    (AMmask s) (vib s) (waveform_number s) (ar s) (dr s) (rr s) (KSR s) (ksl s) (ksr s) (mul s).
Definition with_fb_shift (x : Z) (s : YMF262Slot) : YMF262Slot :=
  mkSlot (Cnt s) (Incr s) (connect s) (op1_out0 s) (op1_out1 s) (TL s) (TLL s) (volume s) (sl s)
    (wavetable s) (eg_m_ar s) (eg_m_dr s) (eg_m_rr s) (eg_sh_ar s) (eg_sel_ar s) (eg_sh_dr s)
    (eg_sel_dr s) (eg_sh_rr s) (eg_sel_rr s) (key s) x (CON s) (eg_type s) (state s) (AMmask s)
    (vib s) (waveform_number s) (ar s) (dr s) (rr s) (KSR s) (ksl s) (ksr s) (mul s).
Definition with_CON (x : bool) (s : YMF262Slot) : YMF262Slot :=
  mkSlot (Cnt s) (Incr s) (connect s) (op1_out0 s) (op1_out1 s) (TL s) (TLL s) (volume s) (sl s)
    (wavetable s) (eg_m_ar s) (eg_m_dr s) (eg_m_rr s) (eg_sh_ar s) (eg_sel_ar s) (eg_sh_dr s)
    (eg_sel_dr s) (eg_sh_rr s) (eg_sel_rr s) (key s) (fb_shift s) x (eg_type s) (state s)
    (AMmask s) (vib s) (waveform_number s) (ar s) (dr s) (rr s) (KSR s) (ksl s) (ksr s) (mul s).
Definition with_eg_type (x : bool) (s : YMF262Slot) : YMF262Slot :=
  mkSlot (Cnt s) (Incr s) (connect s) (op1_out0 s) (op1_out1 s) (TL s) (TLL s) (volume s) (sl s)
    (wavetable s) (eg_m_ar s) (eg_m_dr s) (eg_m_rr s) (eg_sh_ar s) (eg_sel_ar s) (eg_sh_dr s)
    (eg_sel_dr s) (eg_sh_rr s) (eg_sel_rr s) (key s) (fb_shift s) (CON s) x (state s) (AMmask s)
    (vib s) (waveform_number s) (ar s) (dr s) (rr s) (KSR s) (ksl s) (ksr s) (mul s).
Definition with_state (x : EnvelopeState) (s : YMF262Slot) : YMF262Slot :=
  mkSlot (Cnt s) (Incr s) (connect s) (op1_out0 s) (op1_out1 s) (TL s) (TLL s) (volume s) (sl s)
    (wavetable s) (eg_m_ar s) (eg_m_dr s) (eg_m_rr s) (eg_sh_ar s) (eg_sel_ar s) (eg_sh_dr s)
    (eg_sel_dr s) (eg_sh_rr s) (eg_sel_rr s) (key s) (fb_shift s) (CON s) (eg_type s) x (AMmask
    s) (vib s) (waveform_number s) (ar s) (dr s) (rr s) (KSR s) (ksl s) (ksr s) (mul s).
Definition with_AMmask (x : Z) (s : YMF262Slot) : YMF262Slot :=
  mkSlot (Cnt s) (Incr s) (connect s) (op1_out0 s) (op1_out1 s) (TL s) (TLL s) (volume s) (sl s)
    (wavetable s) (eg_m_ar s) (eg_m_dr s) (eg_m_rr s) (eg_sh_ar s) (eg_sel_ar s) (eg_sh_dr s)
    (eg_sel_dr s) (eg_sh_rr s) (eg_sel_rr s) (key s) (fb_shift s) (CON s) (eg_type s) (state s)
    x (vib s) (waveform_number s) (ar s) (dr s) (rr s) (KSR s) (ksl s) (ksr s) (mul s).
Definition with_vib (x : bool) (s : YMF262Slot) : YMF262Slot :=
  mkSlot (Cnt s) (Incr s) (connect s) (op1_out0 s) (op1_out1 s) (TL s) (TLL s) (volume s) (sl s)
    (wavetable s) (eg_m_ar s) (eg_m_dr s) (eg_m_rr s) (eg_sh_ar s) (eg_sel_ar s) (eg_sh_dr s)
    (eg_sel_dr s) (eg_sh_rr s) (eg_sel_rr s) (key s) (fb_shift s) (CON s) (eg_type s) (state s)
    (AMmask s) x (waveform_number s) (ar s) (dr s) (rr s) (KSR s) (ksl s) (ksr s) (mul s).
Definition with_waveform_number (x : Z) (s : YMF262Slot) : YMF262Slot :=
  mkSlot (Cnt s) (Incr s) (connect s) (op1_out0 s) (op1_out1 s) (TL s) (TLL s) (volume s) (sl s)
    (wavetable s) (eg_m_ar s) (eg_m_dr s) (eg_m_rr s) (eg_sh_ar s) (eg_sel_ar s) (eg_sh_dr s)
    (eg_sel_dr s) (eg_sh_rr s) (eg_sel_rr s) (key s) (fb_shift s) (CON s) (eg_type s) (state s)
    (AMmask s) (vib s) x (ar s) (dr s) (rr s) (KSR s) (ksl s) (ksr s) (mul s).
Definition with_ar (x : Z) (s : YMF262Slot) : YMF262Slot :=
  mkSlot (Cnt s) (Incr s) (connect s) (op1_out0 s) (op1_out1 s) (TL s) (TLL s) (volume s) (sl s)
    (wavetable s) (eg_m_ar s) (eg_m_dr s) (eg_m_rr s) (eg_sh_ar s) (eg_sel_ar s) (eg_sh_dr s)
    (eg_sel_dr s) (eg_sh_rr s) (eg_sel_rr s) (key s) (fb_shift s) (CON s) (eg_type s) (state s)
    (AMmask s) (vib s) (waveform_number s) x (dr s) (rr s) (KSR s) (ksl s) (ksr s) (mul s).
Definition with_dr (x : Z) (s : YMF262Slot) : YMF262Slot :=
  mkSlot (Cnt s) (Incr s) (connect s) (op1_out0 s) (op1_out1 s) (TL s) (TLL s) (volume s) (sl s)
    (wavetable s) (eg_m_ar s) (eg_m_dr s) (eg_m_rr s) (eg_sh_ar s) (eg_sel_ar s) (eg_sh_dr s)
    (eg_sel_dr s) (eg_sh_rr s) (eg_sel_rr s) (key s) (fb_shift s) (CON s) (eg_type s) (state s)
    (AMmask s) (vib s) (waveform_number s) (ar s) x (rr s) (KSR s) (ksl s) (ksr s) (mul s).
Definition with_rr (x : Z) (s : YMF262Slot) : YMF262Slot :=
  mkSlot (Cnt s) (Incr s) (connect s) (op1_out0 s) (op1_out1 s) (TL s) (TLL s) (volume s) (sl s)
    (wavetable s) (eg_m_ar s) (eg_m_dr s) (eg_m_rr s) (eg_sh_ar s) (eg_sel_ar s) (eg_sh_dr s)
    (eg_sel_dr s) (eg_sh_rr s) (eg_sel_rr s) (key s) (fb_shift s) (CON s) (eg_type s) (state s)
    (AMmask s) (vib s) (waveform_number s) (ar s) (dr s) x (KSR s) (ksl s) (ksr s) (mul s).
Definition with_KSR (x : Z) (s : YMF262Slot) : YMF262Slot :=
  mkSlot (Cnt s) (Incr s) (connect s) (op1_out0 s) (op1_out1 s) (TL s) (TLL s) (volume s) (sl s)
    (wavetable s) (eg_m_ar s) (eg_m_dr s) (eg_m_rr s) (eg_sh_ar s) (eg_sel_ar s) (eg_sh_dr s)
    (eg_sel_dr s) (eg_sh_rr s) (eg_sel_rr s) (key s) (fb_shift s) (CON s) (eg_type s) (state s)
    (AMmask s) (vib s) (waveform_number s) (ar s) (dr s) (rr s) x (ksl s) (ksr s) (mul s).
Definition with_ksl (x : Z) (s : YMF262Slot) : YMF262Slot :=
  mkSlot (Cnt s) (Incr s) (connect s) (op1_out0 s) (op1_out1 s) (TL s) (TLL s) (volume s) (sl s)
    (wavetable s) (eg_m_ar s) (eg_m_dr s) (eg_m_rr s) (eg_sh_ar s) (eg_sel_ar s) (eg_sh_dr s)
    (eg_sel_dr s) (eg_sh_rr s) (eg_sel_rr s) (key s) (fb_shift s) (CON s) (eg_type s) (state s)
    (AMmask s) (vib s) (waveform_number s) (ar s) (dr s) (rr s) (KSR s) x (ksr s) (mul s).
Definition with_ksr (x : Z) (s : YMF262Slot) : YMF262Slot :=
  mkSlot (Cnt s) (Incr s) (connect s) (op1_out0 s) (op1_out1 s) (TL s) (TLL s) (volume s) (sl s)
    (wavetable s) (eg_m_ar s) (eg_m_dr s) (eg_m_rr s) (eg_sh_ar s) (eg_sel_ar s) (eg_sh_dr s)
    (eg_sel_dr s) (eg_sh_rr s) (eg_sel_rr s) (key s) (fb_shift s) (CON s) (eg_type s) (state s)
    (AMmask s) (vib s) (waveform_number s) (ar s) (dr s) (rr s) (KSR s) (ksl s) x (mul s).
Definition with_mul (x : Z) (s : YMF262Slot) : YMF262Slot :=
  mkSlot (Cnt s) (Incr s) (connect s) (op1_out0 s) (op1_out1 s) (TL s) (TLL s) (volume s) (sl s)
    (wavetable s) (eg_m_ar s) (eg_m_dr s) (eg_m_rr s) (eg_sh_ar s) (eg_sel_ar s) (eg_sh_dr s)
    (eg_sel_dr s) (eg_sh_rr s) (eg_sel_rr s) (key s) (fb_shift s) (CON s) (eg_type s) (state s)
    (AMmask s) (vib s) (waveform_number s) (ar s) (dr s) (rr s) (KSR s) (ksl s) (ksr s) x.

(** [YMF262Slot::YMF262Slot()] *)
Definition new_slot : YMF262Slot :=
  mkSlot 0 0 ConnNull 0 0 0 0 0 0 0 0 0 0 0 0 0 0 0 0 0 0 false false EG_OFF
         0 false 0 0 0 0 0 0 0 0.

Definition EnvelopeState_eqb (a b : EnvelopeState) : bool :=
  match a, b with
  | EG_ATTACK, EG_ATTACK | EG_DECAY, EG_DECAY | EG_SUSTAIN, EG_SUSTAIN
  | EG_RELEASE, EG_RELEASE | EG_OFF, EG_OFF => true
  | _, _ => false
  end.

(** [eg_inc[sel + ((eg_cnt >> sh) & 7)]] *)
Definition eg_step (sel sh eg_cnt : Z) : Z :=
  tbl eg_inc (sel + Z.land (Z.shiftr eg_cnt sh) 7).

(** [YMF262Slot::advanceEnvelopeGenerator] *)
Definition advanceEnvelopeGenerator (eg_cnt : Z) (s : YMF262Slot) : YMF262Slot :=
  match state s with
  | EG_ATTACK =>
      if Z.land eg_cnt (eg_m_ar s) =? 0 then
        let v := sint32 (volume s +
                   Z.shiftr (sint32 (Z.lnot (volume s)
                                     * eg_step (eg_sel_ar s) (eg_sh_ar s) eg_cnt)) 3) in
        if v <=? MIN_ATT_INDEX
        then with_state EG_DECAY (with_volume MIN_ATT_INDEX s)
        else with_volume v s
      else s
  | EG_DECAY =>
      if Z.land eg_cnt (eg_m_dr s) =? 0 then
        let v := sint32 (volume s + eg_step (eg_sel_dr s) (eg_sh_dr s) eg_cnt) in
        if v >=? sl s
        then with_state EG_SUSTAIN (with_volume v s)
        else with_volume v s
      else s
  | EG_SUSTAIN =>
      if eg_type s then s
      else if Z.land eg_cnt (eg_m_rr s) =? 0 then
        let v := sint32 (volume s + eg_step (eg_sel_rr s) (eg_sh_rr s) eg_cnt) in
        if v >=? MAX_ATT_INDEX then with_volume MAX_ATT_INDEX s else with_volume v s
      else s
  | EG_RELEASE =>
      if Z.land eg_cnt (eg_m_rr s) =? 0 then
        let v := sint32 (volume s + eg_step (eg_sel_rr s) (eg_sh_rr s) eg_cnt) in
        if v >=? MAX_ATT_INDEX
        then with_state EG_OFF (with_volume MAX_ATT_INDEX s)
        else with_volume v s
      else s
  | EG_OFF => s
  end.

(** [YMF262Slot::FM_KEYON] *)
Definition FM_KEYON (key_set : Z) (s : YMF262Slot) : YMF262Slot :=
  let s1 := if key s =? 0
            then with_state EG_ATTACK (with_Cnt 0 s)
            else s in
  with_key (byte_of (Z.lor (key s1) key_set)) s1.

(** [YMF262Slot::FM_KEYOFF] *)
Definition FM_KEYOFF (key_clr : Z) (s : YMF262Slot) : YMF262Slot :=
  if key s =? 0 then s
  else
    let s1 := with_key (byte_of (Z.land (key s) (Z.lnot key_clr))) s in
    if key s1 =? 0 then
      match state s1 with
      | EG_OFF => s1
      | _ => with_state EG_RELEASE s1
      end
    else s1.

(** ** Channels *)

(** [slots[2]] is kept as the two fields [slot1] and [slot2]. *)
Record YMF262Channel : Type := mkChannel {
  slot1 : YMF262Slot; slot2 : YMF262Slot;
  block_fnum : Z; fc : Z; ksl_base : Z; kcode : Z; extended : Z
}.

Definition with_slot1 (x : YMF262Slot) (ch : YMF262Channel) : YMF262Channel :=
  mkChannel x (slot2 ch) (block_fnum ch) (fc ch) (ksl_base ch) (kcode ch) (extended ch).
Definition with_slot2 (x : YMF262Slot) (ch : YMF262Channel) : YMF262Channel :=
  mkChannel (slot1 ch) x (block_fnum ch) (fc ch) (ksl_base ch) (kcode ch) (extended ch).
Definition with_block_fnum (x : Z) (ch : YMF262Channel) : YMF262Channel :=
  mkChannel (slot1 ch) (slot2 ch) x (fc ch) (ksl_base ch) (kcode ch) (extended ch).
Definition with_fc (x : Z) (ch : YMF262Channel) : YMF262Channel :=
  mkChannel (slot1 ch) (slot2 ch) (block_fnum ch) x (ksl_base ch) (kcode ch) (extended ch).
Definition with_ksl_base (x : Z) (ch : YMF262Channel) : YMF262Channel :=
  mkChannel (slot1 ch) (slot2 ch) (block_fnum ch) (fc ch) x (kcode ch) (extended ch).
Definition with_kcode (x : Z) (ch : YMF262Channel) : YMF262Channel :=
  mkChannel (slot1 ch) (slot2 ch) (block_fnum ch) (fc ch) (ksl_base ch) x (extended ch).
Definition with_extended (x : Z) (ch : YMF262Channel) : YMF262Channel :=
  mkChannel (slot1 ch) (slot2 ch) (block_fnum ch) (fc ch) (ksl_base ch) (kcode ch) x.

(** [YMF262Channel::YMF262Channel()] *)
Definition new_channel : YMF262Channel := mkChannel new_slot new_slot 0 0 0 0 0.

(** [ch.slots[i]] for [i] in 0, 1. *)
Definition slots (ch : YMF262Channel) (i : Z) : YMF262Slot :=
  if i =? 0 then slot1 ch else slot2 ch.
Definition with_slots (i : Z) (x : YMF262Slot) (ch : YMF262Channel) : YMF262Channel :=
  if i =? 0 then with_slot1 x ch else with_slot2 x ch.

(** Modelled from the spec: [FixedPoint.hh] is not among the sources.  The
    phase accumulator is "fixed-point, 16 fractional bits": [FreqIndex(i)] is
    [i << 16], [>>] and [* int] act on the raw value and [toInt] drops the
    fraction. *)
Definition FreqIndex (i : Z) : Z := sint32 (Z.shiftl i 16).
Definition toInt (frac raw : Z) : Z := Z.shiftr raw frac.

Definition fnumToIncrement (block_fnum : Z) : Z :=
  let block := Z.shiftr (Z.land block_fnum 0x1C00) 10 in
  Z.shiftr (FreqIndex (Z.land block_fnum 0x03FF)) (11 - block).

(** [YMF262Channel::CALC_FCSLOT] *)
Definition CALC_FCSLOT (ch : YMF262Channel) (slot : YMF262Slot) : YMF262Slot :=
  let slot := with_Incr (sint32 (fc ch * mul slot)) slot in
  let ksr_ := Z.shiftr (kcode ch) (KSR slot) in
  if ksr slot =? ksr_ then slot
  else
    let slot := with_ksr (byte_of ksr_) slot in
    let slot :=
      if ar slot + ksr slot <? 16 + 60
      then with_eg_sel_ar (tbl eg_rate_select (ar slot + ksr slot))
             (with_eg_sh_ar (tbl eg_rate_shift (ar slot + ksr slot)) slot)
      else with_eg_sel_ar (13 * RATE_STEPS) (with_eg_sh_ar 0 slot) in
    let slot := with_eg_m_ar (uint32 (Z.shiftl 1 (eg_sh_ar slot) - 1)) slot in
    let slot := with_eg_sh_dr (tbl eg_rate_shift (dr slot + ksr slot)) slot in
    let slot := with_eg_m_dr (uint32 (Z.shiftl 1 (eg_sh_dr slot) - 1)) slot in
    let slot := with_eg_sel_dr (tbl eg_rate_select (dr slot + ksr slot)) slot in
    let slot := with_eg_sh_rr (tbl eg_rate_shift (rr slot + ksr slot)) slot in
    let slot := with_eg_m_rr (uint32 (Z.shiftl 1 (eg_sh_rr slot) - 1)) slot in
    with_eg_sel_rr (tbl eg_rate_select (rr slot + ksr slot)) slot.

(** [YMF262Slot::setFeedbackShift] *)
Definition setFeedbackShift (value : Z) (s : YMF262Slot) : YMF262Slot :=
  with_fb_shift (if nz value then byte_of (9 - value) else 0) s.

(** ** Chip state *)

(** Modelled from the spec: the timer collaborator ([EmuTimer.hh] is not
    among the sources).  [setValue] is the spec's [timer.setReloadValue(v)]
    and [setStart] its [timer.setArmed(bool, time)]; the model records the
    last reload value and whether the timer is armed. *)
Record EmuTimer : Type := mkTimer { tm_value : Z; tm_start : bool }.
Definition setValue (v : Z) (t : EmuTimer) : EmuTimer := mkTimer v (tm_start t).
Definition setStart (b : bool) (t : EmuTimer) : EmuTimer := mkTimer (tm_value t) b.

(** [irq] is the level of the interrupt line ([IRQHelper::set] / [reset]).
    [phase_modulation] and [phase_modulation2] are the two file-level statics
    shared by all channels. *)
Record YMF262Impl : Type := mkChip {
  timer1 : EmuTimer; timer2 : EmuTimer; irq : bool;
  chanout : list Z;
  reg : list Z;
  channels : list YMF262Channel;
  pan : list Z;
  eg_cnt : Z; noise_rng : Z;
  lfo_am_cnt : Z; lfo_pm_cnt : Z; LFO_AM : Z; LFO_PM : Z;
  lfo_am_depth : bool; lfo_pm_depth_range : Z;
  rhythm : Z; nts : bool; OPL3_mode : bool;
  status : Z; status2 : Z; statusMask : Z;
  phase_modulation : Z; phase_modulation2 : Z
}.

Definition with_timer1 (x : EmuTimer) (c : YMF262Impl) : YMF262Impl :=
  mkChip x (timer2 c) (irq c) (chanout c) (reg c) (channels c) (pan c) (eg_cnt c) (noise_rng c)
    (lfo_am_cnt c) (lfo_pm_cnt c) (LFO_AM c) (LFO_PM c) (lfo_am_depth c) (lfo_pm_depth_range c)
    (rhythm c) (nts c) (OPL3_mode c) (status c) (status2 c) (statusMask c) (phase_modulation c)
    (phase_modulation2 c).
Definition with_timer2 (x : EmuTimer) (c : YMF262Impl) : YMF262Impl :=
  mkChip (timer1 c) x (irq c) (chanout c) (reg c) (channels c) (pan c) (eg_cnt c) (noise_rng c)
    (lfo_am_cnt c) (lfo_pm_cnt c) (LFO_AM c) (LFO_PM c) (lfo_am_depth c) (lfo_pm_depth_range c)
    (rhythm c) (nts c) (OPL3_mode c) (status c) (status2 c) (statusMask c) (phase_modulation c)
    (phase_modulation2 c).
Definition with_irq (x : bool) (c : YMF262Impl) : YMF262Impl :=
  mkChip (timer1 c) (timer2 c) x (chanout c) (reg c) (channels c) (pan c) (eg_cnt c) (noise_rng
    c) (lfo_am_cnt c) (lfo_pm_cnt c) (LFO_AM c) (LFO_PM c) (lfo_am_depth c) (lfo_pm_depth_range
    c) (rhythm c) (nts c) (OPL3_mode c) (status c) (status2 c) (statusMask c) (phase_modulation
    c) (phase_modulation2 c).
Definition with_chanout (x : list Z) (c : YMF262Impl) : YMF262Impl :=
  mkChip (timer1 c) (timer2 c) (irq c) x (reg c) (channels c) (pan c) (eg_cnt c) (noise_rng c)
    (lfo_am_cnt c) (lfo_pm_cnt c) (LFO_AM c) (LFO_PM c) (lfo_am_depth c) (lfo_pm_depth_range c)
    (rhythm c) (nts c) (OPL3_mode c) (status c) (status2 c) (statusMask c) (phase_modulation c)
    (phase_modulation2 c).
Definition with_reg (x : list Z) (c : YMF262Impl) : YMF262Impl :=
  mkChip (timer1 c) (timer2 c) (irq c) (chanout c) x (channels c) (pan c) (eg_cnt c) (noise_rng
    c) (lfo_am_cnt c) (lfo_pm_cnt c) (LFO_AM c) (LFO_PM c) (lfo_am_depth c) (lfo_pm_depth_range
    c) (rhythm c) (nts c) (OPL3_mode c) (status c) (status2 c) (statusMask c) (phase_modulation
    c) (phase_modulation2 c).
Definition with_channels (x : list YMF262Channel) (c : YMF262Impl) : YMF262Impl :=
  mkChip (timer1 c) (timer2 c) (irq c) (chanout c) (reg c) x (pan c) (eg_cnt c) (noise_rng c)
    (lfo_am_cnt c) (lfo_pm_cnt c) (LFO_AM c) (LFO_PM c) (lfo_am_depth c) (lfo_pm_depth_range c)
    (rhythm c) (nts c) (OPL3_mode c) (status c) (status2 c) (statusMask c) (phase_modulation c)
    (phase_modulation2 c).
Definition with_pan (x : list Z) (c : YMF262Impl) : YMF262Impl :=
  mkChip (timer1 c) (timer2 c) (irq c) (chanout c) (reg c) (channels c) x (eg_cnt c) (noise_rng
    c) (lfo_am_cnt c) (lfo_pm_cnt c) (LFO_AM c) (LFO_PM c) (lfo_am_depth c) (lfo_pm_depth_range
    c) (rhythm c) (nts c) (OPL3_mode c) (status c) (status2 c) (statusMask c) (phase_modulation
    c) (phase_modulation2 c).
Definition with_eg_cnt (x : Z) (c : YMF262Impl) : YMF262Impl :=
  mkChip (timer1 c) (timer2 c) (irq c) (chanout c) (reg c) (channels c) (pan c) x (noise_rng c)
    (lfo_am_cnt c) (lfo_pm_cnt c) (LFO_AM c) (LFO_PM c) (lfo_am_depth c) (lfo_pm_depth_range c)
    (rhythm c) (nts c) (OPL3_mode c) (status c) (status2 c) (statusMask c) (phase_modulation c)
    (phase_modulation2 c).
Definition with_noise_rng (x : Z) (c : YMF262Impl) : YMF262Impl :=
  mkChip (timer1 c) (timer2 c) (irq c) (chanout c) (reg c) (channels c) (pan c) (eg_cnt c) x
    (lfo_am_cnt c) (lfo_pm_cnt c) (LFO_AM c) (LFO_PM c) (lfo_am_depth c) (lfo_pm_depth_range c)
    (rhythm c) (nts c) (OPL3_mode c) (status c) (status2 c) (statusMask c) (phase_modulation c)
    (phase_modulation2 c).
Definition with_lfo_am_cnt (x : Z) (c : YMF262Impl) : YMF262Impl :=
  mkChip (timer1 c) (timer2 c) (irq c) (chanout c) (reg c) (channels c) (pan c) (eg_cnt c)
    (noise_rng c) x (lfo_pm_cnt c) (LFO_AM c) (LFO_PM c) (lfo_am_depth c) (lfo_pm_depth_range c)
    (rhythm c) (nts c) (OPL3_mode c) (status c) (status2 c) (statusMask c) (phase_modulation c)
    (phase_modulation2 c).
Definition with_lfo_pm_cnt (x : Z) (c : YMF262Impl) : YMF262Impl :=
  mkChip (timer1 c) (timer2 c) (irq c) (chanout c) (reg c) (channels c) (pan c) (eg_cnt c)
    (noise_rng c) (lfo_am_cnt c) x (LFO_AM c) (LFO_PM c) (lfo_am_depth c) (lfo_pm_depth_range c)
    (rhythm c) (nts c) (OPL3_mode c) (status c) (status2 c) (statusMask c) (phase_modulation c)
    (phase_modulation2 c).
Definition with_LFO_AM (x : Z) (c : YMF262Impl) : YMF262Impl :=
  mkChip (timer1 c) (timer2 c) (irq c) (chanout c) (reg c) (channels c) (pan c) (eg_cnt c)
    (noise_rng c) (lfo_am_cnt c) (lfo_pm_cnt c) x (LFO_PM c) (lfo_am_depth c)
    (lfo_pm_depth_range c) (rhythm c) (nts c) (OPL3_mode c) (status c) (status2 c) (statusMask
    c) (phase_modulation c) (phase_modulation2 c).
Definition with_LFO_PM (x : Z) (c : YMF262Impl) : YMF262Impl :=
  mkChip (timer1 c) (timer2 c) (irq c) (chanout c) (reg c) (channels c) (pan c) (eg_cnt c)
    (noise_rng c) (lfo_am_cnt c) (lfo_pm_cnt c) (LFO_AM c) x (lfo_am_depth c)
    (lfo_pm_depth_range c) (rhythm c) (nts c) (OPL3_mode c) (status c) (status2 c) (statusMask
    c) (phase_modulation c) (phase_modulation2 c).
Definition with_lfo_am_depth (x : bool) (c : YMF262Impl) : YMF262Impl :=
  mkChip (timer1 c) (timer2 c) (irq c) (chanout c) (reg c) (channels c) (pan c) (eg_cnt c)
    (noise_rng c) (lfo_am_cnt c) (lfo_pm_cnt c) (LFO_AM c) (LFO_PM c) x (lfo_pm_depth_range c)
    (rhythm c) (nts c) (OPL3_mode c) (status c) (status2 c) (statusMask c) (phase_modulation c)
    (phase_modulation2 c).
Definition with_lfo_pm_depth_range (x : Z) (c : YMF262Impl) : YMF262Impl :=
  mkChip (timer1 c) (timer2 c) (irq c) (chanout c) (reg c) (channels c) (pan c) (eg_cnt c)
    (noise_rng c) (lfo_am_cnt c) (lfo_pm_cnt c) (LFO_AM c) (LFO_PM c) (lfo_am_depth c) x (rhythm
    c) (nts c) (OPL3_mode c) (status c) (status2 c) (statusMask c) (phase_modulation c)
    (phase_modulation2 c).
Definition with_rhythm (x : Z) (c : YMF262Impl) : YMF262Impl :=
  mkChip (timer1 c) (timer2 c) (irq c) (chanout c) (reg c) (channels c) (pan c) (eg_cnt c)
    (noise_rng c) (lfo_am_cnt c) (lfo_pm_cnt c) (LFO_AM c) (LFO_PM c) (lfo_am_depth c)
    (lfo_pm_depth_range c) x (nts c) (OPL3_mode c) (status c) (status2 c) (statusMask c)
    (phase_modulation c) (phase_modulation2 c).
Definition with_nts (x : bool) (c : YMF262Impl) : YMF262Impl :=
  mkChip (timer1 c) (timer2 c) (irq c) (chanout c) (reg c) (channels c) (pan c) (eg_cnt c)
    (noise_rng c) (lfo_am_cnt c) (lfo_pm_cnt c) (LFO_AM c) (LFO_PM c) (lfo_am_depth c)
    (lfo_pm_depth_range c) (rhythm c) x (OPL3_mode c) (status c) (status2 c) (statusMask c)
    (phase_modulation c) (phase_modulation2 c).
Definition with_OPL3_mode (x : bool) (c : YMF262Impl) : YMF262Impl :=
  mkChip (timer1 c) (timer2 c) (irq c) (chanout c) (reg c) (channels c) (pan c) (eg_cnt c)
    (noise_rng c) (lfo_am_cnt c) (lfo_pm_cnt c) (LFO_AM c) (LFO_PM c) (lfo_am_depth c)
    (lfo_pm_depth_range c) (rhythm c) (nts c) x (status c) (status2 c) (statusMask c)
    (phase_modulation c) (phase_modulation2 c).
Definition with_status (x : Z) (c : YMF262Impl) : YMF262Impl :=
  mkChip (timer1 c) (timer2 c) (irq c) (chanout c) (reg c) (channels c) (pan c) (eg_cnt c)
    (noise_rng c) (lfo_am_cnt c) (lfo_pm_cnt c) (LFO_AM c) (LFO_PM c) (lfo_am_depth c)
    (lfo_pm_depth_range c) (rhythm c) (nts c) (OPL3_mode c) x (status2 c) (statusMask c)
    (phase_modulation c) (phase_modulation2 c).
Definition with_status2 (x : Z) (c : YMF262Impl) : YMF262Impl :=
  mkChip (timer1 c) (timer2 c) (irq c) (chanout c) (reg c) (channels c) (pan c) (eg_cnt c)
    (noise_rng c) (lfo_am_cnt c) (lfo_pm_cnt c) (LFO_AM c) (LFO_PM c) (lfo_am_depth c)
    (lfo_pm_depth_range c) (rhythm c) (nts c) (OPL3_mode c) (status c) x (statusMask c)
    (phase_modulation c) (phase_modulation2 c).
Definition with_statusMask (x : Z) (c : YMF262Impl) : YMF262Impl :=
  mkChip (timer1 c) (timer2 c) (irq c) (chanout c) (reg c) (channels c) (pan c) (eg_cnt c)
    (noise_rng c) (lfo_am_cnt c) (lfo_pm_cnt c) (LFO_AM c) (LFO_PM c) (lfo_am_depth c)
    (lfo_pm_depth_range c) (rhythm c) (nts c) (OPL3_mode c) (status c) (status2 c) x
    (phase_modulation c) (phase_modulation2 c).
Definition with_phase_modulation (x : Z) (c : YMF262Impl) : YMF262Impl :=
  mkChip (timer1 c) (timer2 c) (irq c) (chanout c) (reg c) (channels c) (pan c) (eg_cnt c)
    (noise_rng c) (lfo_am_cnt c) (lfo_pm_cnt c) (LFO_AM c) (LFO_PM c) (lfo_am_depth c)
    (lfo_pm_depth_range c) (rhythm c) (nts c) (OPL3_mode c) (status c) (status2 c) (statusMask
    c) x (phase_modulation2 c).
Definition with_phase_modulation2 (x : Z) (c : YMF262Impl) : YMF262Impl :=
  mkChip (timer1 c) (timer2 c) (irq c) (chanout c) (reg c) (channels c) (pan c) (eg_cnt c)
    (noise_rng c) (lfo_am_cnt c) (lfo_pm_cnt c) (LFO_AM c) (LFO_PM c) (lfo_am_depth c)
    (lfo_pm_depth_range c) (rhythm c) (nts c) (OPL3_mode c) (status c) (status2 c) (statusMask
    c) (phase_modulation c) x.

(** Array read [a[i]] and array write [a[i] = x]. *)
Definition aget {A : Type} (d : A) (l : list A) (i : Z) : A :=
  if i <? 0 then d else default d (l !! Z.to_nat i).
Definition aset {A : Type} (l : list A) (i : Z) (x : A) : list A :=
  if i <? 0 then l else <[Z.to_nat i := x]> l.

(** [channels[n]] and its update. *)
Definition chan (c : YMF262Impl) (n : Z) : YMF262Channel :=
  aget new_channel (channels c) n.
Definition put_chan (n : Z) (ch : YMF262Channel) (c : YMF262Impl) : YMF262Impl :=
  with_channels (aset (channels c) n ch) c.

(** [channels[n].slots[i]] and its update. *)
Definition cslot (c : YMF262Impl) (n i : Z) : YMF262Slot := slots (chan c n) i.
Definition put_cslot (n i : Z) (x : YMF262Slot) (c : YMF262Impl) : YMF262Impl :=
  put_chan n (with_slots i x (chan c n)) c.

(** [YMF262Impl::setStatus], [resetStatus], [changeStatusMask] *)
Definition setStatus (flag : Z) (c : YMF262Impl) : YMF262Impl :=
  let c := with_status (byte_of (Z.lor (status c) flag)) c in
  if nz (Z.land (status c) (statusMask c))
  then with_irq true (with_status (byte_of (Z.lor (status c) 0x80)) c)
  else c.

Definition resetStatus (flag : Z) (c : YMF262Impl) : YMF262Impl :=
  let c := with_status (byte_of (Z.land (status c) (Z.lnot flag))) c in
  if nz (Z.land (status c) (statusMask c))
  then c
  else with_irq false (with_status (byte_of (Z.land (status c) 0x7F)) c).

Definition changeStatusMask (flag : Z) (c : YMF262Impl) : YMF262Impl :=
  let c := with_statusMask (byte_of flag) c in
  let c := with_status (byte_of (Z.land (status c) (statusMask c))) c in
  if nz (status c)
  then with_irq true (with_status (byte_of (Z.lor (status c) 0x80)) c)
  else with_irq false (with_status (byte_of (Z.land (status c) 0x7F)) c).

(** [YMF262Impl::callback]: a timer expiry reported by the collaborator. *)
Definition callback (flag : Z) (c : YMF262Impl) : YMF262Impl := setStatus flag c.

(** ** Channel pairing *)

(** The source decides the role of a channel with the same switch in every
    register handler: [case 0: case 1: case 2: case 9: case 10: case 11:]
    (first channel of a pair), [case 3: case 4: case 5: case 12: case 13:
    case 14:] (second channel of a pair), [default:]. *)
Inductive ChannelKind : Type := FirstOfPair | SecondOfPair | TwoOpOnly.

Definition channel_kind (chan_no : Z) : ChannelKind :=
  match chan_no with
  | 0 | 1 | 2 | 9 | 10 | 11 => FirstOfPair
  | 3 | 4 | 5 | 12 | 13 | 14 => SecondOfPair
  | _ => TwoOpOnly
  end.

(** ** Operator parameter registers *)

(** [YMF262Impl::set_mul]: multi, am, vib, EG-TYP, KSR, mul.  [sl_] is the
    slot number, twice the channel number plus the slot index. *)
Definition set_mul (sl_ v : Z) (c : YMF262Impl) : YMF262Impl :=
  let chan_no := sl_ / 2 in
  let ch := chan c chan_no in
  let slot := slots ch (Z.land sl_ 1) in
  let slot := with_mul (tbl mul_tab (Z.land v 0x0f)) slot in
  let slot := with_KSR (if nz (Z.land v 0x10) then 0 else 2) slot in
  let slot := with_eg_type (nz (Z.land v 0x20)) slot in
  let slot := with_vib (nz (Z.land v 0x40)) slot in
  let slot := with_AMmask (if nz (Z.land v 0x80) then byte_of (Z.lnot 0) else 0) slot in
  let slot :=
    if OPL3_mode c then
      match channel_kind chan_no with
      | FirstOfPair =>
          if nz (extended ch) then CALC_FCSLOT ch slot else CALC_FCSLOT ch slot
      | SecondOfPair =>
          let ch3 := chan c (chan_no - 3) in
          if nz (extended ch3) then CALC_FCSLOT ch3 slot else CALC_FCSLOT ch slot
      | TwoOpOnly => CALC_FCSLOT ch slot
      end
    else CALC_FCSLOT ch slot in
  put_cslot chan_no (Z.land sl_ 1) slot c.

(** [slot.TLL = slot.TL + (ch.ksl_base >> slot.ksl)] *)
Definition total_level (ch : YMF262Channel) (slot : YMF262Slot) : YMF262Slot :=
  with_TLL (sint32 (TL slot + Z.shiftr (ksl_base ch) (ksl slot))) slot.

(** [YMF262Impl::set_ksl_tl] *)
Definition set_ksl_tl (sl_ v : Z) (c : YMF262Impl) : YMF262Impl :=
  let chan_no := sl_ / 2 in
  let ch := chan c chan_no in
  let slot := slots ch (Z.land sl_ 1) in
  let ksl_ := Z.shiftr v 6 in
  let slot := with_ksl (if nz ksl_ then byte_of (3 - ksl_) else 31) slot in
  let slot := with_TL (uint32 (Z.shiftl (Z.land v 0x3F) (ENV_BITS - 1 - 7))) slot in
  let slot :=
    if OPL3_mode c then
      match channel_kind chan_no with
      | FirstOfPair =>
          if nz (extended ch) then total_level ch slot else total_level ch slot
      | SecondOfPair =>
          let ch3 := chan c (chan_no - 3) in
          if nz (extended ch3) then total_level ch3 slot else total_level ch slot
      | TwoOpOnly => total_level ch slot
      end
    else total_level ch slot in
  put_cslot chan_no (Z.land sl_ 1) slot c.

(** [YMF262Impl::set_ar_dr] *)
Definition set_ar_dr (sl_ v : Z) (c : YMF262Impl) : YMF262Impl :=
  let slot := cslot c (sl_ / 2) (Z.land sl_ 1) in
  let slot := with_ar (if nz (Z.shiftr v 4)
                       then byte_of (16 + Z.shiftl (Z.shiftr v 4) 2) else 0) slot in
  let slot :=
    if ar slot + ksr slot <? 16 + 60
    then with_eg_sel_ar (tbl eg_rate_select (ar slot + ksr slot))
           (with_eg_sh_ar (tbl eg_rate_shift (ar slot + ksr slot)) slot)
    else with_eg_sel_ar (13 * RATE_STEPS) (with_eg_sh_ar 0 slot) in
  let slot := with_eg_m_ar (uint32 (Z.shiftl 1 (eg_sh_ar slot) - 1)) slot in
  let slot := with_dr (if nz (Z.land v 0x0F)
                       then byte_of (16 + Z.shiftl (Z.land v 0x0F) 2) else 0) slot in
  let slot := with_eg_sh_dr (tbl eg_rate_shift (dr slot + ksr slot)) slot in
  let slot := with_eg_m_dr (uint32 (Z.shiftl 1 (eg_sh_dr slot) - 1)) slot in
  let slot := with_eg_sel_dr (tbl eg_rate_select (dr slot + ksr slot)) slot in
  put_cslot (sl_ / 2) (Z.land sl_ 1) slot c.

(** [YMF262Impl::set_sl_rr] *)
Definition set_sl_rr (sl_ v : Z) (c : YMF262Impl) : YMF262Impl :=
  let slot := cslot c (sl_ / 2) (Z.land sl_ 1) in
  let slot := with_sl (tbl sl_tab (Z.shiftr v 4)) slot in
  let slot := with_rr (if nz (Z.land v 0x0F)
                       then byte_of (16 + Z.shiftl (Z.land v 0x0F) 2) else 0) slot in
  let slot := with_eg_sh_rr (tbl eg_rate_shift (rr slot + ksr slot)) slot in
  let slot := with_eg_m_rr (uint32 (Z.shiftl 1 (eg_sh_rr slot) - 1)) slot in
  let slot := with_eg_sel_rr (tbl eg_rate_select (rr slot + ksr slot)) slot in
  put_cslot (sl_ / 2) (Z.land sl_ 1) slot c.

(** [YMF262Impl::update_channels]: both branches are empty in the source. *)
Definition update_channels (n : Z) (c : YMF262Impl) : YMF262Impl :=
  if nz (extended (chan c n)) then c else c.

(** ** Register decoder *)

(** One line of the [case 0x104] block: channel [n] takes bit [bit] of [v]. *)
Definition set_extended (n bit v : Z) (c : YMF262Impl) : YMF262Impl :=
  let prev := extended (chan c n) in
  let c := put_chan n (with_extended (Z.land (Z.shiftr v bit) 1) (chan c n)) c in
  if negb (prev =? extended (chan c n)) then update_channels n c else c.

(** [case 0x00]: control registers. *)
Definition write_control (r v : Z) (c : YMF262Impl) : YMF262Impl :=
  match Z.land r 0x1F with
  | 0x01 => c
  | 0x02 => with_timer1 (setValue v (timer1 c)) c
  | 0x03 => with_timer2 (setValue v (timer2 c)) c
  | 0x04 =>
      if nz (Z.land v 0x80) then resetStatus 0x60 c
      else
        let c := changeStatusMask (Z.land (Z.lnot v) 0x60) c in
        let c := with_timer1 (setStart (nz (Z.land v 0x01)) (timer1 c)) c in
        with_timer2 (setStart (nz (Z.land v 0x02)) (timer2 c)) c
  | 0x08 => with_nts (nz (Z.land v 0x40)) c
  | _ => c
  end.

(** [channels[n].slots[i].FM_KEYON(k)] or [FM_KEYOFF(k)]. *)
Definition key_slot (on : bool) (k n i : Z) (c : YMF262Impl) : YMF262Impl :=
  put_cslot n i ((if on then FM_KEYON k else FM_KEYOFF k) (cslot c n i)) c.

(** Key on or off both slots of channel [n]. *)
Definition key_channel (on : bool) (k n : Z) (c : YMF262Impl) : YMF262Impl :=
  key_slot on k n SLOT2 (key_slot on k n SLOT1 c).

(** The rhythm register 0xBD of [case 0xA0]. *)
Definition write_rhythm (ch_offset v : Z) (c : YMF262Impl) : YMF262Impl :=
  if negb (ch_offset =? 0) then c
  else
    let c := with_lfo_am_depth (nz (Z.land v 0x80)) c in
    let c := with_lfo_pm_depth_range (if nz (Z.land v 0x40) then 8 else 0) c in
    let c := with_rhythm (Z.land v 0x3F) c in
    if nz (Z.land (rhythm c) 0x20) then
      (* BD, HH, SD, TOM, TOP-CY key on/off *)
      let c := key_channel (nz (Z.land v 0x10)) 2 6 c in
      let c := key_slot (nz (Z.land v 0x01)) 2 7 SLOT1 c in
      let c := key_slot (nz (Z.land v 0x08)) 2 7 SLOT2 c in
      let c := key_slot (nz (Z.land v 0x04)) 2 8 SLOT1 c in
      key_slot (nz (Z.land v 0x02)) 2 8 SLOT2 c
    else
      let c := key_slot false 2 6 SLOT1 c in
      let c := key_slot false 2 6 SLOT2 c in
      let c := key_slot false 2 7 SLOT1 c in
      let c := key_slot false 2 7 SLOT2 c in
      let c := key_slot false 2 8 SLOT1 c in
      key_slot false 2 8 SLOT2 c.

(** Slot [i] of channel [n] takes its total level, or its frequency counter
    and rates, from the data of channel [src]. *)
Definition refresh_TLL (src n i : Z) (c : YMF262Impl) : YMF262Impl :=
  put_cslot n i (total_level (chan c src) (cslot c n i)) c.
Definition refresh_FC (src n i : Z) (c : YMF262Impl) : YMF262Impl :=
  put_cslot n i (CALC_FCSLOT (chan c src) (cslot c n i)) c.

(** "refresh Total Level in both SLOTs of this channel" and "refresh
    frequency counter in both SLOTs of this channel". *)
Definition refresh2 (n : Z) (c : YMF262Impl) : YMF262Impl :=
  let c := refresh_TLL n n SLOT1 c in
  let c := refresh_TLL n n SLOT2 c in
  let c := refresh_FC n n SLOT1 c in
  refresh_FC n n SLOT2 c.

(** The same for the FOUR slots of channel [n] and channel [n + 3], with
    the data of channel [n]. *)
Definition refresh4 (n : Z) (c : YMF262Impl) : YMF262Impl :=
  let c := refresh_TLL n n SLOT1 c in
  let c := refresh_TLL n n SLOT2 c in
  let c := refresh_TLL n (n + 3) SLOT1 c in
  let c := refresh_TLL n (n + 3) SLOT2 c in
  let c := refresh_FC n n SLOT1 c in
  let c := refresh_FC n n SLOT2 c in
  let c := refresh_FC n (n + 3) SLOT1 c in
  refresh_FC n (n + 3) SLOT2 c.

(** The key-on bit of registers b0-b8: "if this is 1st channel forming up a
    4-op channel ALSO keyon/off slots of 2nd channel forming up 4-op
    channel", "if this is 2nd channel forming up 4-op channel just do
    nothing", "else normal 2 operator function keyon/off". *)
Definition key_onoff (on : bool) (chan_no : Z) (c : YMF262Impl) : YMF262Impl :=
  if OPL3_mode c then
    match channel_kind chan_no with
    | FirstOfPair =>
        if nz (extended (chan c chan_no))
        then key_channel on 1 (chan_no + 3) (key_channel on 1 chan_no c)
        else key_channel on 1 chan_no c
    | SecondOfPair =>
        if nz (extended (chan c (chan_no - 3))) then c
        else key_channel on 1 chan_no c
    | TwoOpOnly => key_channel on 1 chan_no c
    end
  else key_channel on 1 chan_no c.

(** The "update" block of registers a0-a8 and b0-b8: a changed
    [block_fnum] is stored with the values derived from it, and the slots
    that follow this channel are refreshed. *)
Definition update_fnum (chan_no block_fnum_ : Z) (c : YMF262Impl) : YMF262Impl :=
  if negb (block_fnum (chan c chan_no) =? block_fnum_) then
    let ch := chan c chan_no in
    let ch := with_block_fnum block_fnum_ ch in
    let ch := with_ksl_base (tbl ksl_tab (Z.shiftr block_fnum_ 6)) ch in
    let ch := with_fc (fnumToIncrement block_fnum_) ch in
    let ch := with_kcode (Z.shiftr (Z.land (block_fnum ch) 0x1C00) 9) ch in
    let ch :=
      if nts c
      then with_kcode (Z.lor (kcode ch) (Z.shiftr (Z.land (block_fnum ch) 0x100) 8)) ch
      else with_kcode (Z.lor (kcode ch) (Z.shiftr (Z.land (block_fnum ch) 0x200) 9)) ch in
    let c := put_chan chan_no ch c in
    if OPL3_mode c then
      match channel_kind chan_no with
      | FirstOfPair =>
          if nz (extended (chan c chan_no)) then refresh4 chan_no c
          else refresh2 chan_no c
      | SecondOfPair =>
          if nz (extended (chan c (chan_no - 3))) then c
          else refresh2 chan_no c
      | TwoOpOnly => refresh2 chan_no c
      end
    else refresh2 chan_no c
  else c.

(** Registers a0-a8 and b0-b8 of [case 0xA0]: keyon, block, fnum. *)
Definition write_fnum (ch_offset r v : Z) (c : YMF262Impl) : YMF262Impl :=
  if Z.land r 0x0F >? 8 then c
  else
    let chan_no := Z.land r 0x0F + ch_offset in
    if negb (nz (Z.land r 0x10)) then
      (* a0-a8 *)
      let block_fnum_ := Z.lor (Z.land (block_fnum (chan c chan_no)) 0x1F00) v in
      update_fnum chan_no block_fnum_ c
    else
      (* b0-b8 *)
      let block_fnum_ :=
        Z.lor (Z.shiftl (Z.land v 0x1F) 8) (Z.land (block_fnum (chan c chan_no)) 0xFF) in
      update_fnum chan_no block_fnum_ (key_onoff (nz (Z.land v 0x20)) chan_no c).

(** [channels[n].slots[i].connect = cn] *)
Definition set_connect (n i : Z) (cn : Connect) (c : YMF262Impl) : YMF262Impl :=
  put_cslot n i (with_connect cn (cslot c n i)) c.

(** "2 operators mode" of [case 0xC0]. *)
Definition connect_2op (n : Z) (c : YMF262Impl) : YMF262Impl :=
  let c := set_connect n SLOT1
             (if CON (cslot c n SLOT1) then ConnChanout n else ConnPhaseMod) c in
  set_connect n SLOT2 (ConnChanout n) c.

(** The four topologies of a 4-operator voice made of channel [n1] and
    channel [n2 = n1 + 3], selected by the two connection bits.  The source
    has this switch twice, once seen from each channel of the pair, with the
    same assignments. *)
Definition connect_4op (n1 n2 : Z) (c : YMF262Impl) : YMF262Impl :=
  match CON (cslot c n1 SLOT1), CON (cslot c n2 SLOT1) with
  | false, false =>
      (* 1 -> 2 -> 3 -> 4 - out *)
      let c := set_connect n1 SLOT1 ConnPhaseMod c in
      let c := set_connect n1 SLOT2 ConnPhaseMod2 c in
      let c := set_connect n2 SLOT1 ConnPhaseMod c in
      set_connect n2 SLOT2 (ConnChanout n2) c
  | false, true =>
      (* 1 -> 2 -\
         3 -> 4 -+- out *)
      let c := set_connect n1 SLOT1 ConnPhaseMod c in
      let c := set_connect n1 SLOT2 (ConnChanout n1) c in
      let c := set_connect n2 SLOT1 ConnPhaseMod c in
      set_connect n2 SLOT2 (ConnChanout n2) c
  | true, false =>
      (* 1 -----------\
         2 -> 3 -> 4 -+- out *)
      let c := set_connect n1 SLOT1 (ConnChanout n1) c in
      let c := set_connect n1 SLOT2 ConnPhaseMod2 c in
      let c := set_connect n2 SLOT1 ConnPhaseMod c in
      set_connect n2 SLOT2 (ConnChanout n2) c
  | true, true =>
      (* 1 ------\
         2 -> 3 -+- out
         4 ------/     *)
      let c := set_connect n1 SLOT1 (ConnChanout n1) c in
      let c := set_connect n1 SLOT2 ConnPhaseMod2 c in
      let c := set_connect n2 SLOT1 (ConnChanout n2) c in
      set_connect n2 SLOT2 (ConnChanout n2) c
  end.

(** [case 0xC0]: CH.D, CH.C, CH.B, CH.A, FB(3bits), C. *)
Definition write_connect (ch_offset r v : Z) (c : YMF262Impl) : YMF262Impl :=
  if Z.land r 0xF >? 8 then c
  else
    let chan_no := Z.land r 0x0F + ch_offset in
    let base := chan_no * 4 in
    let all := uint32 (Z.lnot 0) in
    let c :=
      if OPL3_mode c then
        let c := with_pan (aset (pan c) (base + 0) (if nz (Z.land v 0x10) then all else 0)) c in
        let c := with_pan (aset (pan c) (base + 1) (if nz (Z.land v 0x20) then all else 0)) c in
        let c := with_pan (aset (pan c) (base + 2) (if nz (Z.land v 0x40) then all else 0)) c in
        with_pan (aset (pan c) (base + 3) (if nz (Z.land v 0x80) then all else 0)) c
      else
        let c := with_pan (aset (pan c) (base + 0) all) c in
        let c := with_pan (aset (pan c) (base + 1) all) c in
        let c := with_pan (aset (pan c) (base + 2) all) c in
        with_pan (aset (pan c) (base + 3) all) c in
    let c := put_cslot chan_no SLOT1
               (setFeedbackShift (Z.land (Z.shiftr v 1) 7) (cslot c chan_no SLOT1)) c in
    let c := put_cslot chan_no SLOT1
               (with_CON (nz (Z.land v 1)) (cslot c chan_no SLOT1)) c in
    if OPL3_mode c then
      match channel_kind chan_no with
      | FirstOfPair =>
          if nz (extended (chan c chan_no))
          then connect_4op chan_no (chan_no + 3) c
          else connect_2op chan_no c
      | SecondOfPair =>
          if nz (extended (chan c (chan_no - 3)))
          then connect_4op (chan_no - 3) chan_no c
          else connect_2op chan_no c
      | TwoOpOnly => connect_2op chan_no c
      end
    else connect_2op chan_no c.

(** [case 0xE0]: waveform select. *)
Definition write_waveform (ch_offset r v : Z) (c : YMF262Impl) : YMF262Impl :=
  let slot := tbl slot_array (Z.land r 0x1f) in
  if slot <? 0 then c
  else
    let slot := slot + ch_offset * 2 in
    let v := Z.land v 7 in
    let c := put_cslot (slot / 2) (Z.land slot 1)
               (with_waveform_number v (cslot c (slot / 2) (Z.land slot 1))) c in
    let v := if negb (OPL3_mode c) then Z.land v 3 else v in
    put_cslot (slot / 2) (Z.land slot 1)
      (with_wavetable (v * SIN_LEN) (cslot c (slot / 2) (Z.land slot 1))) c.

(** The four operator register blocks share their slot lookup. *)
Definition write_slot (set : Z -> Z -> YMF262Impl -> YMF262Impl)
    (ch_offset r v : Z) (c : YMF262Impl) : YMF262Impl :=
  let slot := tbl slot_array (Z.land r 0x1F) in
  if slot <? 0 then c else set (slot + ch_offset * 2) v c.

(** The part of [writeRegForce] after the page has been decided:
    [r &= 0xFF; switch (r & 0xE0)]. *)
Definition write_page (ch_offset r v : Z) (c : YMF262Impl) : YMF262Impl :=
  let r := Z.land r 0xFF in
  match Z.land r 0xE0 with
  | 0x00 => write_control r v c
  | 0x20 => write_slot set_mul ch_offset r v c
  | 0x40 => write_slot set_ksl_tl ch_offset r v c
  | 0x60 => write_slot set_ar_dr ch_offset r v c
  | 0x80 => write_slot set_sl_rr ch_offset r v c
  | 0xA0 => if r =? 0xBD then write_rhythm ch_offset v c
            else write_fnum ch_offset r v c
  | 0xC0 => write_connect ch_offset r v c
  | 0xE0 => write_waveform ch_offset r v c
  | _ => c
  end.

(** [YMF262Impl::writeRegForce].  The leading [updateStream(time)] asks the
    mixer to render the samples that are due before the write takes effect;
    that rendering is [generateChannels] below and is a step of its own in
    the model.  The value is a [byte]. *)
Definition writeRegForce (r v : Z) (c : YMF262Impl) : YMF262Impl :=
  let v := byte_of v in
  let c := with_reg (aset (reg c) r v) c in
  if nz (Z.land r 0x100) then
    match r with
    | 0x101 => c
    | 0x104 =>
        let c := set_extended 0 0 v c in
        let c := set_extended 1 1 v c in
        let c := set_extended 2 2 v c in
        let c := set_extended 9 3 v c in
        let c := set_extended 10 4 v c in
        set_extended 11 5 v c
    | 0x105 =>
        let c := with_OPL3_mode (nz (Z.land v 0x01)) c in
        if OPL3_mode c then with_status2 0x02 c else c
    | _ => write_page 9 r v c
    end
  else write_page 0 r v c.

(** [YMF262Impl::writeReg] *)
Definition writeReg (r v : Z) (c : YMF262Impl) : YMF262Impl :=
  let r := if negb (OPL3_mode c) && negb (r =? 0x105)
           then Z.land r (Z.lnot 0x100) else r in
  writeRegForce r v c.

(** [YMF262Impl::peekReg], [readReg] *)
Definition peekReg (r : Z) (c : YMF262Impl) : Z := aget 0 (reg c) r.
Definition readReg (r : Z) (c : YMF262Impl) : Z * YMF262Impl := (peekReg r c, c).

(** [YMF262Impl::readStatus], [peekStatus] *)
Definition readStatus (c : YMF262Impl) : Z * YMF262Impl :=
  let result := Z.lor (status c) (status2 c) in
  (result, with_status2 0 c).
Definition peekStatus (c : YMF262Impl) : Z := Z.lor (status c) (status2 c).

(** The registers [hi], [hi - 1], ..., [hi - n + 1]. *)
Definition regs_down (hi : Z) (n : nat) : list Z :=
  map (fun k => hi - Z.of_nat k) (seq 0 n).

(** [for (c = hi; c >= lo; c--) writeRegForce(c, 0, time);] *)
Definition clear_regs (hi : Z) (n : nat) (c : YMF262Impl) : YMF262Impl :=
  fold_left (fun c r => writeRegForce r 0 c) (regs_down hi n) c.

(** "reset operator parameters" for slot [i] of channel [n]. *)
Definition reset_operator (n i : Z) (c : YMF262Impl) : YMF262Impl :=
  put_cslot n i (with_volume MAX_ATT_INDEX (with_state EG_OFF (cslot c n i))) c.

(** [YMF262Impl::reset] *)
Definition reset (c : YMF262Impl) : YMF262Impl :=
  let c := with_eg_cnt 0 c in
  let c := with_noise_rng 1 c in
  let c := with_nts false c in
  let c := resetStatus 0x60 c in
  let c := writeRegForce 0x01 0 c in
  let c := writeRegForce 0x02 0 c in
  let c := writeRegForce 0x03 0 c in
  let c := writeRegForce 0x04 0 c in
  let c := clear_regs 0xFF (Z.to_nat (0xFF - 0x20 + 1)) c in
  let c := clear_regs 0x1FF (Z.to_nat (0x1FF - 0x120 + 1)) c in
  fold_left (fun c n => reset_operator n 1 (reset_operator n 0 c))
            (map Z.of_nat (seq 0 (9 * 2))) c.

(** The chip as the constructor leaves it before it calls [reset]; the
    members the constructor does not initialise start at zero. *)
Definition new_chip : YMF262Impl :=
  mkChip (mkTimer 0 false) (mkTimer 0 false) false
         (repeat 0 18) (repeat 0 512) (repeat new_channel 18) (repeat 0 (18 * 4))
         0 0 0 0 0 0 false 0 0 false false 0 0 0 0 0.

(** [YMF262Impl::YMF262Impl] *)
Definition power_on : YMF262Impl := reset new_chip.

(** ** Sample generator *)

(** [tl_tab] and [sin_tab] are filled by [init_tables] with [pow], [log] and
    [sin] on doubles; the model takes the two filled tables as they are. *)
Record Tables : Type := mkTables { tl_tab : list Z; sin_tab : list Z }.

(** [YMF262Impl::advance_lfo] *)
Definition advance_lfo (c : YMF262Impl) : YMF262Impl :=
  let c := with_lfo_am_cnt (sint32 (lfo_am_cnt c + 1)) c in
  let c := if lfo_am_cnt c =? Z.shiftl LFO_AM_TAB_ELEMENTS 6
           then with_lfo_am_cnt 0 c else c in
  let tmp := tbl lfo_am_table (toInt 6 (lfo_am_cnt c)) in
  let c := with_LFO_AM (if lfo_am_depth c then tmp else tmp / 4) c in
  let c := with_lfo_pm_cnt (sint32 (lfo_pm_cnt c + 1)) c in
  with_LFO_PM
    (byte_of (Z.lor (Z.land (toInt 10 (lfo_pm_cnt c)) 7) (lfo_pm_depth_range c))) c.

(** [YMF262Slot::advancePhaseGenerator] *)
Definition advancePhaseGenerator (ch : YMF262Channel) (LFO_PM_ : Z)
    (s : YMF262Slot) : YMF262Slot :=
  if vib s then
    let block_fnum_ := uint32 (block_fnum ch) in
    let fnum_lfo := Z.shiftr (Z.land block_fnum_ 0x0380) 7 in
    let lfo_fn_table_index_offset := tbl lfo_pm_table (LFO_PM_ + 16 * fnum_lfo) in
    if nz lfo_fn_table_index_offset then
      with_Cnt (sint32 (Cnt s +
                  sint32 (fnumToIncrement
                            (sint32 (block_fnum_ + lfo_fn_table_index_offset))
                          * mul s))) s
    else with_Cnt (sint32 (Cnt s + Incr s)) s
  else with_Cnt (sint32 (Cnt s + Incr s)) s.

(** The body of the inner loop of [advance]. *)
Definition advance_slot (n i : Z) (c : YMF262Impl) : YMF262Impl :=
  let c := put_cslot n i (advanceEnvelopeGenerator (eg_cnt c) (cslot c n i)) c in
  put_cslot n i (advancePhaseGenerator (chan c n) (LFO_PM c) (cslot c n i)) c.

(** [YMF262Impl::advance] *)
Definition advance (c : YMF262Impl) : YMF262Impl :=
  let c := with_eg_cnt (uint32 (eg_cnt c + 1)) c in
  let c := fold_left (fun c n => advance_slot n 1 (advance_slot n 0 c))
                     (map Z.of_nat (seq 0 18)) c in
  let c := if nz (Z.land (noise_rng c) 1)
           then with_noise_rng (Z.lxor (noise_rng c) 0x800302) c else c in
  with_noise_rng (Z.shiftr (noise_rng c) 1) c.

(** [YMF262Slot::op_calc] *)
Definition op_calc (T : Tables) (s : YMF262Slot) (phase pm LFO_AM_ : Z) : Z :=
  let env := uint32 (Z.shiftl (TLL s + volume s + Z.land LFO_AM_ (AMmask s)) 4) in
  let p := sint32 (env + tbl (sin_tab T) (wavetable s + Z.land (phase + pm) SIN_MASK)) in
  if p <? TL_TAB_LEN then tbl (tl_tab T) p else 0.

(** [*connect += x] *)
Definition connect_add (cn : Connect) (x : Z) (c : YMF262Impl) : YMF262Impl :=
  match cn with
  | ConnNull => c
  | ConnPhaseMod => with_phase_modulation (sint32 (phase_modulation c + x)) c
  | ConnPhaseMod2 => with_phase_modulation2 (sint32 (phase_modulation2 c + x)) c
  | ConnChanout n => with_chanout (aset (chanout c) n (sint32 (aget 0 (chanout c) n + x))) c
  end.

(** [YMF262Channel::chan_calc] on channel [n]. *)
Definition chan_calc (T : Tables) (n LFO_AM_ : Z) (c : YMF262Impl) : YMF262Impl :=
  let c := with_phase_modulation 0 c in
  let c := with_phase_modulation2 0 c in
  (* SLOT 1 *)
  let c := put_cslot n SLOT1 (with_op1_out0 (op1_out1 (cslot c n SLOT1)) (cslot c n SLOT1)) c in
  let s1 := cslot c n SLOT1 in
  let out := if nz (fb_shift s1) then sint32 (op1_out0 s1 + op1_out1 s1) else 0 in
  let c := put_cslot n SLOT1
             (with_op1_out1
                (op_calc T s1 (toInt 16 (Cnt s1)) (Z.shiftr out (fb_shift s1)) LFO_AM_) s1) c in
  let c := connect_add (connect (cslot c n SLOT1)) (op1_out1 (cslot c n SLOT1)) c in
  (* SLOT 2 *)
  let s2 := cslot c n SLOT2 in
  connect_add (connect s2)
    (op_calc T s2 (toInt 16 (Cnt s2)) (phase_modulation c) LFO_AM_) c.

(** [YMF262Channel::chan_calc_ext] on channel [n]. *)
Definition chan_calc_ext (T : Tables) (n LFO_AM_ : Z) (c : YMF262Impl) : YMF262Impl :=
  let c := with_phase_modulation 0 c in
  let s1 := cslot c n SLOT1 in
  let c := connect_add (connect s1)
             (op_calc T s1 (toInt 16 (Cnt s1)) (phase_modulation2 c) LFO_AM_) c in
  let s2 := cslot c n SLOT2 in
  connect_add (connect s2)
    (op_calc T s2 (toInt 16 (Cnt s2)) (phase_modulation c) LFO_AM_) c.

(** [YMF262Impl::genPhaseHighHat] *)
Definition genPhaseHighHat (c : YMF262Impl) : Z :=
  let op71phase := toInt 16 (Cnt (cslot c 7 SLOT1)) in
  let bit7 := nz (Z.land op71phase 0x80) in
  let bit3 := nz (Z.land op71phase 0x08) in
  let bit2 := nz (Z.land op71phase 0x04) in
  let res1 := xorb bit2 bit7 || bit3 in
  let phase := if res1 then Z.lor 0x200 (Z.shiftr 0xd0 2) else 0xd0 in
  let op82phase := toInt 16 (Cnt (cslot c 8 SLOT2)) in
  let bit5e := nz (Z.land op82phase 0x20) in
  let bit3e := nz (Z.land op82phase 0x08) in
  let res2 := xorb bit3e bit5e in
  let phase := if res2 then Z.lor 0x200 (Z.shiftr 0xd0 2) else phase in
  if nz (Z.land phase 0x200) then
    if nz (Z.land (noise_rng c) 1) then Z.lor 0x200 0xd0 else phase
  else
    if nz (Z.land (noise_rng c) 1) then Z.shiftr 0xd0 2 else phase.

(** [YMF262Impl::genPhaseSnare] *)
Definition genPhaseSnare (c : YMF262Impl) : Z :=
  Z.lxor (Z.land (toInt 16 (Cnt (cslot c 7 SLOT1))) 0x100 + 0x100)
         (Z.shiftl (Z.land (noise_rng c) 1) 8).

(** [YMF262Impl::genPhaseCymbal] *)
Definition genPhaseCymbal (c : YMF262Impl) : Z :=
  let op82phase := toInt 16 (Cnt (cslot c 8 SLOT2)) in
  if nz (Z.land (Z.lxor op82phase (Z.shiftl op82phase 2)) 0x20) then 0x300
  else
    let op71phase := toInt 16 (Cnt (cslot c 7 SLOT1)) in
    let bit7 := nz (Z.land op71phase 0x80) in
    let bit3 := nz (Z.land op71phase 0x08) in
    let bit2 := nz (Z.land op71phase 0x04) in
    if xorb bit2 bit7 || bit3 then 0x300 else 0x100.

(** [chanout[n] += x] *)
Definition chanout_add (n x : Z) (c : YMF262Impl) : YMF262Impl :=
  with_chanout (aset (chanout c) n (sint32 (aget 0 (chanout c) n + x))) c.

(** [YMF262Impl::chan_calc_rhythm] *)
Definition chan_calc_rhythm (T : Tables) (c : YMF262Impl) : YMF262Impl :=
  let c := with_phase_modulation 0 c in
  (* Bass Drum, SLOT 1 *)
  let c := put_cslot 6 SLOT1 (with_op1_out0 (op1_out1 (cslot c 6 SLOT1)) (cslot c 6 SLOT1)) c in
  let s61 := cslot c 6 SLOT1 in
  let c := if negb (CON s61) then with_phase_modulation (op1_out0 s61) c else c in
  let out := if nz (fb_shift s61) then sint32 (op1_out0 s61 + op1_out1 s61) else 0 in
  let c := put_cslot 6 SLOT1
             (with_op1_out1
                (op_calc T s61 (toInt 16 (Cnt s61)) (Z.shiftr out (fb_shift s61)) (LFO_AM c))
                s61) c in
  (* SLOT 2 *)
  let s62 := cslot c 6 SLOT2 in
  let c := chanout_add 6
             (sint32 (op_calc T s62 (toInt 16 (Cnt s62)) (phase_modulation c) (LFO_AM c) * 2)) c in
  (* High Hat *)
  let c := chanout_add 7
             (sint32 (op_calc T (cslot c 7 SLOT1) (genPhaseHighHat c) 0 (LFO_AM c) * 2)) c in
  (* Snare Drum *)
  let c := chanout_add 7
             (sint32 (op_calc T (cslot c 7 SLOT2) (genPhaseSnare c) 0 (LFO_AM c) * 2)) c in
  (* Tom Tom *)
  let c := chanout_add 8
             (sint32 (op_calc T (cslot c 8 SLOT1) (toInt 16 (Cnt (cslot c 8 SLOT1))) 0
                        (LFO_AM c) * 2)) c in
  (* Top Cymbal *)
  chanout_add 8
    (sint32 (op_calc T (cslot c 8 SLOT2) (genPhaseCymbal c) 0 (LFO_AM c) * 2)) c.

(** [YMF262Impl::checkMuteHelper] *)
Definition slot_muted (s : YMF262Slot) : bool :=
  EnvelopeState_eqb (state s) EG_OFF
  || (EnvelopeState_eqb (state s) EG_RELEASE && (sint32 (TLL s + volume s) >=? ENV_QUIET)).

Definition checkMuteHelper (c : YMF262Impl) : bool :=
  forallb (fun i => slot_muted (cslot c i 0) && slot_muted (cslot c i 1))
          (map Z.of_nat (seq 0 18)).

(** [YMF262Impl::adjust] *)
Definition adjust (x : Z) : Z := sint32 (Z.shiftl x 2).

(** A first channel of a pair followed by its partner: either the second
    half of the 4-operator voice or an ordinary 2-operator channel. *)
Definition calc_pair (T : Tables) (n : Z) (c : YMF262Impl) : YMF262Impl :=
  let c := chan_calc T n (LFO_AM c) c in
  if nz (extended (chan c n))
  then chan_calc_ext T (n + 3) (LFO_AM c) c
  else chan_calc T (n + 3) (LFO_AM c) c.

(** One turn of the sample loop of [generateChannels]: the state after the
    sample and the two values written to each of the 18 buffers. *)
Definition generate_sample (T : Tables) (rhythmEnabled : bool) (c : YMF262Impl)
  : list (Z * Z) * YMF262Impl :=
  let c := advance_lfo c in
  let c := with_chanout (repeat 0 18) c in
  (* register set #1 *)
  let c := calc_pair T 0 c in
  let c := calc_pair T 1 c in
  let c := calc_pair T 2 c in
  let c :=
    if negb rhythmEnabled then
      let c := chan_calc T 6 (LFO_AM c) c in
      let c := chan_calc T 7 (LFO_AM c) c in
      chan_calc T 8 (LFO_AM c) c
    else chan_calc_rhythm T c in
  (* register set #2 *)
  let c := calc_pair T 9 c in
  let c := calc_pair T 10 c in
  let c := calc_pair T 11 c in
  let c := chan_calc T 15 (LFO_AM c) c in
  let c := chan_calc T 16 (LFO_AM c) c in
  let c := chan_calc T 17 (LFO_AM c) c in
  let out :=
    map (fun i =>
           (adjust (sint32 (Z.land (aget 0 (chanout c) i) (aget 0 (pan c) (4 * i + 0)))),
            adjust (sint32 (Z.land (aget 0 (chanout c) i) (aget 0 (pan c) (4 * i + 1))))))
        (map Z.of_nat (seq 0 18)) in
  (out, advance c).

(** The sample loop, [num] turns; the rows come out in sample order. *)
Fixpoint generate_loop (T : Tables) (rhythmEnabled : bool) (num : nat) (c : YMF262Impl)
  : list (list (Z * Z)) * YMF262Impl :=
  match num with
  | O => ([], c)
  | S k =>
      let '(row, c) := generate_sample T rhythmEnabled c in
      let '(rows, c) := generate_loop T rhythmEnabled k c in
      (row :: rows, c)
  end.

(** What [generateChannels] leaves in [bufs]: all 18 pointers nulled, or all
    18 buffers filled, given here as one row of 18 stereo pairs per sample. *)
Inductive Output : Type :=
  | Muted
  | Samples (rows : list (list (Z * Z))).

(** The full per-sample evaluation of [generateChannels], below its mute
    test. *)
Definition generateChannels_full (T : Tables) (num : nat) (c : YMF262Impl)
  : Output * YMF262Impl :=
  let rhythmEnabled := nz (Z.land (rhythm c) 0x20) in
  let '(rows, c) := generate_loop T rhythmEnabled num c in
  (Samples rows, c).

(** [YMF262Impl::generateChannels] *)
Definition generateChannels (T : Tables) (num : nat) (c : YMF262Impl)
  : Output * YMF262Impl :=
  if checkMuteHelper c then (Muted, c)
  else generateChannels_full T num c.

(** ** Vocabulary of the properties *)

(** The rate selectors and the sustain level of a slot come from the chip's
    tables, as [set_ar_dr], [set_sl_rr] and [CALC_FCSLOT] leave them: a row
    of [eg_rate_select] (or the zero-time attack row 13) and an entry of
    [sl_tab]. *)
Definition programmed (s : YMF262Slot) : bool :=
  (existsb (Z.eqb (eg_sel_ar s)) eg_rate_select || (eg_sel_ar s =? 13 * RATE_STEPS))
  && existsb (Z.eqb (eg_sel_dr s)) eg_rate_select
  && existsb (Z.eqb (eg_sel_rr s)) eg_rate_select
  && existsb (Z.eqb (sl s)) sl_tab.

(** The largest step of a programmed decay (row 12 of [eg_inc]). *)
Definition DECAY_STEP_MAX : Z := 4.

(** The envelope counter is in range, with room for one decay step while the
    slot is in DECAY (the DECAY branch does not clamp). *)
Definition envelope_in_range (s : YMF262Slot) : Prop :=
  MIN_ATT_INDEX <= volume s <= MAX_ATT_INDEX /\
  (state s = EG_DECAY -> volume s <= MAX_ATT_INDEX - DECAY_STEP_MAX).

(** A run of envelope advances, one per value of the global counter. *)
Definition advance_envelopes (eg_cnts : list Z) (s : YMF262Slot) : YMF262Slot :=
  fold_left (fun s eg_cnt => advanceEnvelopeGenerator eg_cnt s) eg_cnts s.

(** The arrays of the chip have their declared sizes: [channels[18]],
    [reg[512]], [pan[18*4]], [chanout[18]]. *)
Definition wf (c : YMF262Impl) : Prop :=
  length (channels c) = 18%nat /\ length (reg c) = 512%nat /\
  length (pan c) = 72%nat /\ length (chanout c) = 18%nat.

(** Index tests. *)
Definition in18 (n : Z) : bool := (0 <=? n) && (n <? 18).
Definition same_slot (i j : Z) : bool := Bool.eqb (i =? 0) (j =? 0).

(** The six operators of the five percussion voices: channel and slot. *)
Definition percussion_slots : list (Z * Z) :=
  [(6, SLOT1); (6, SLOT2); (7, SLOT1); (7, SLOT2); (8, SLOT1); (8, SLOT2)].

(** What belongs to register page 2 alone: the register file above 255, the
    channels 9-17 with their operators, their output masks, and what only
    the page-2 registers 0x104 and 0x105 decode into: the 4-operator flags
    of the channels, the OPL3 mode flag and [status2]. *)
Definition page2_same (c c' : YMF262Impl) : Prop :=
  (forall a, 256 <= a -> peekReg a c' = peekReg a c) /\
  (forall n, 9 <= n -> chan c' n = chan c n) /\
  (forall k, 36 <= k -> aget 0 (pan c') k = aget 0 (pan c) k) /\
  (forall n, extended (chan c' n) = extended (chan c n)) /\
  OPL3_mode c' = OPL3_mode c /\
  status2 c' = status2 c.

(** A step that keeps the arrays at their sizes and leaves page 2 alone. *)
Definition page1_step (c c' : YMF262Impl) : Prop :=
  wf c -> wf c' /\ page2_same c c'.

(** Rhythm mode on with all five percussion voices keyed. *)
Definition rhythm_all_keyed : YMF262Impl := writeReg 0xBD 0x3F power_on.

(** Rhythm mode on with all five percussion voices keyed, on a chip whose
    channels 6 and 7 are keyed on by their own registers 0xB6 and 0xB7. *)
Definition rhythm_and_channel_keyed : YMF262Impl :=
  writeReg 0xBD 0x3F (writeReg 0xB7 0x20 (writeReg 0xB6 0x20 power_on)).

(** The envelope state [FM_KEYOFF] leaves when the last key source goes:
    [if (state > EG_REL) state = EG_REL]. *)
Definition released_state (st : EnvelopeState) : EnvelopeState :=
  match st with
  | EG_OFF => EG_OFF
  | _ => EG_RELEASE
  end.

(** ** Envelope transitions *)

(** What the chip can be asked to do: a register write through [writeReg],
    a debugger write through [writeRegForce], one sample of
    [generateChannels], [reset], a timer [callback], [readStatus]. *)
Inductive Action : Type :=
  | Write (r v : Z)
  | ForceWrite (r v : Z)
  | Sample (T : Tables) (rhythmEnabled : bool)
  | Reset
  | Callback (flag : Z)
  | ReadStatus.

Definition run (a : Action) (c : YMF262Impl) : YMF262Impl :=
  match a with
  | Write r v => writeReg r v c
  | ForceWrite r v => writeRegForce r v c
  | Sample T rhythmEnabled => snd (generate_sample T rhythmEnabled c)
  | Reset => reset c
  | Callback flag => callback flag c
  | ReadStatus => snd (readStatus c)
  end.

(** The states the chip reaches from its construction. *)
Definition reachable (c : YMF262Impl) : Prop :=
  exists actions : list Action, c = fold_left (fun c a => run a c) actions power_on.

(** Position in the order ATTACK, DECAY, SUSTAIN, RELEASE, OFF. *)
Definition eg_rank (st : EnvelopeState) : Z :=
  match st with
  | EG_ATTACK => 0 | EG_DECAY => 1 | EG_SUSTAIN => 2 | EG_RELEASE => 3 | EG_OFF => 4
  end.

(** The key-off edge: the last key source goes, a state other than OFF
    becomes RELEASE.  The key-on edge: the first key source arrives, the
    state becomes ATTACK; the operator held no key, so it was in RELEASE or
    in OFF. *)
Definition key_off_edge (s s' : YMF262Slot) : Prop :=
  key s <> 0 /\ key s' = 0 /\ state s <> EG_OFF /\ state s' = EG_RELEASE.
Definition key_on_edge (s s' : YMF262Slot) : Prop :=
  key s = 0 /\ key s' <> 0 /\ state s' = EG_ATTACK /\
  (state s = EG_RELEASE \/ state s = EG_OFF).

(** The changes of envelope state each action may make to an operator. *)
Definition allowed (a : Action) (s s' : YMF262Slot) : Prop :=
  match a with
  | Write _ _ | ForceWrite _ _ =>
      state s' = state s \/ key_off_edge s s' \/ key_on_edge s s'
  | Sample _ _ =>
      state s' = state s \/
      (state s = EG_ATTACK /\ state s' = EG_DECAY) \/
      (state s = EG_DECAY /\ state s' = EG_SUSTAIN) \/
      (state s = EG_RELEASE /\ state s' = EG_OFF)
  | Reset => state s' = EG_OFF
  | Callback _ | ReadStatus => state s' = state s
  end.

(** The envelope state and the key bitmask of an operator, and what
    [FM_KEYON] and [FM_KEYOFF] make of them. *)
Definition kst (s : YMF262Slot) : EnvelopeState * Z := (state s, key s).

Definition keyon_kst (k : Z) (p : EnvelopeState * Z) : EnvelopeState * Z :=
  (if snd p =? 0 then EG_ATTACK else fst p, byte_of (Z.lor (snd p) k)).

Definition keyoff_kst (k : Z) (p : EnvelopeState * Z) : EnvelopeState * Z :=
  if snd p =? 0 then p
  else
    let k' := byte_of (Z.land (snd p) (Z.lnot k)) in
    (if k' =? 0 then match fst p with EG_OFF => EG_OFF | _ => EG_RELEASE end else fst p,
     k').

(** A register write keys an operator on or off at most once, with key
    source 1 (the channel's key-on bit) or 2 (the rhythm bits). *)
Definition key_related (s s' : YMF262Slot) : Prop :=
  kst s' = kst s \/
  exists k, (k = 1 \/ k = 2) /\
            (kst s' = keyon_kst k (kst s) \/ kst s' = keyoff_kst k (kst s)).

(** A sample runs the envelope generator of an operator at most once, on
    the operator as the channel evaluation left it ([s1]: same envelope
    state and keys). *)
Definition gen_related (s s' : YMF262Slot) : Prop :=
  kst s' = kst s \/
  exists eg_cnt s1, kst s1 = kst s /\ kst s' = kst (advanceEnvelopeGenerator eg_cnt s1).

(** An operator holding no key is in RELEASE or in OFF. *)
Definition unkeyed_is_released (s : YMF262Slot) : Prop :=
  key s = 0 -> state s = EG_RELEASE \/ state s = EG_OFF.

(** Steps of the chip seen from the operators. *)
Definition quiet_step (c c' : YMF262Impl) : Prop :=
  wf c -> wf c' /\ forall m j, kst (cslot c' m j) = kst (cslot c m j).
Definition key_step (c c' : YMF262Impl) : Prop :=
  wf c -> wf c' /\ forall m j, key_related (cslot c m j) (cslot c' m j).
Definition gen_step (c c' : YMF262Impl) : Prop :=
  wf c -> wf c' /\ forall m j, gen_related (cslot c m j) (cslot c' m j).

(** Key on channel 0, key off, key on again. *)
Definition keyed_once : YMF262Impl := writeReg 0xB0 0x20 power_on.
Definition keyed_off : YMF262Impl := writeReg 0xB0 0x00 keyed_once.
Definition keyed_again : YMF262Impl := writeReg 0xB0 0x20 keyed_off.

(** The arrays have their sizes and no operator is both unkeyed and still
    in ATTACK, DECAY or SUSTAIN. *)
Definition chip_inv (c : YMF262Impl) : Prop :=
  wf c /\ forall m j, unkeyed_is_released (cslot c m j).

(** ** The state [reset] leaves *)

(** The channel whose block, F-number and key bit the operators of channel
    [n] follow: the first channel of the pair for the second channel of a
    4-operator voice, the channel itself otherwise. *)
Definition follows (c : YMF262Impl) (n : Z) : Z :=
  if OPL3_mode c then
    match channel_kind n with
    | SecondOfPair => if nz (extended (chan c (n - 3))) then n - 3 else n
    | _ => n
    end
  else n.

(** What a zero written to one register leaves in an operator: the waveform
    (e0), the feedback (c0), the key bit [k] (b0, bd), sustain level and
    release rate (80), attack and decay rate (60), key scale level and total
    level (40), the multiplier byte (20); and what the end of [reset]
    leaves in the envelope. *)
Inductive Cleared : Type :=
  | ClearedWaveform
  | ClearedFeedback
  | ClearedKey (k : Z)
  | ClearedRelease
  | ClearedAttack
  | ClearedLevel
  | ClearedMultiple
  | ClearedEnvelope.

(** The operator [s] holds what the zero leaves, [fc_], [kcode_] and
    [ksl_base_] being the frequency data of the channel it follows. *)
Definition cleared (f : Cleared) (fc_ kcode_ ksl_base_ : Z) (s : YMF262Slot) : Prop :=
  match f with
  | ClearedWaveform => waveform_number s = 0 /\ wavetable s = 0
  | ClearedFeedback => fb_shift s = 0
  | ClearedKey k => 0 <= key s < 256 /\ Z.land (key s) k = 0
  | ClearedRelease =>
      sl s = 0 /\ rr s = 0 /\
      eg_sh_rr s = tbl eg_rate_shift (rr s + ksr s) /\
      eg_m_rr s = uint32 (Z.shiftl 1 (eg_sh_rr s) - 1) /\
      eg_sel_rr s = tbl eg_rate_select (rr s + ksr s)
  | ClearedAttack =>
      ar s = 0 /\ dr s = 0 /\
      eg_sh_ar s = (if ar s + ksr s <? 16 + 60
                    then tbl eg_rate_shift (ar s + ksr s) else 0) /\
      eg_sel_ar s = (if ar s + ksr s <? 16 + 60
                     then tbl eg_rate_select (ar s + ksr s) else 13 * RATE_STEPS) /\
      eg_m_ar s = uint32 (Z.shiftl 1 (eg_sh_ar s) - 1) /\
      eg_sh_dr s = tbl eg_rate_shift (dr s + ksr s) /\
      eg_m_dr s = uint32 (Z.shiftl 1 (eg_sh_dr s) - 1) /\
      eg_sel_dr s = tbl eg_rate_select (dr s + ksr s)
  | ClearedLevel =>
      ksl s = 31 /\ TL s = 0 /\
      TLL s = sint32 (TL s + Z.shiftr ksl_base_ (ksl s))
  | ClearedMultiple =>
      mul s = 1 /\ KSR s = 2 /\ eg_type s = false /\ vib s = false /\ AMmask s = 0 /\
      Incr s = sint32 (fc_ * mul s) /\
      (ksr s = Z.shiftr kcode_ (KSR s) \/ ksr s = byte_of (Z.shiftr kcode_ (KSR s)))
  | ClearedEnvelope => state s = EG_OFF /\ volume s = MAX_ATT_INDEX
  end.

(** Slot [i] of channel [n] holds what the zero leaves. *)
Definition settled (c : YMF262Impl) (n i : Z) (f : Cleared) : Prop :=
  cleared f (fc (chan c (follows c n))) (kcode (chan c (follows c n)))
    (ksl_base (chan c (follows c n))) (cslot c n i).

(** Channel [n] is half of a 4-operator voice. *)
Definition four_op (c : YMF262Impl) (n : Z) : bool :=
  OPL3_mode c &&
  match channel_kind n with
  | FirstOfPair => nz (extended (chan c n))
  | SecondOfPair => nz (extended (chan c (n - 3)))
  | TwoOpOnly => false
  end.

Definition first_of_pair (n : Z) : bool :=
  match channel_kind n with FirstOfPair => true | _ => false end.

(** Where slot [i] of channel [n] sends its output once both connection
    bits of its voice are zero, and the channel whose zeroed connection bit
    settles it. *)
Definition reset_connect (c : YMF262Impl) (n i : Z) : Connect :=
  if i =? 0 then ConnPhaseMod
  else if four_op c n && first_of_pair n then ConnPhaseMod2
  else ConnChanout n.

Definition deciding_channel (c : YMF262Impl) (n i : Z) : Z :=
  if four_op c n && first_of_pair n && negb (i =? 0) then n + 3 else n.

Definition routed (c : YMF262Impl) (n i : Z) : Prop :=
  connect (cslot c n i) = reset_connect c n i /\
  CON (cslot c (deciding_channel c n i) SLOT1) = false.

(** The members no operator or channel register decodes into. *)
Definition controls (c : YMF262Impl)
    : EmuTimer * EmuTimer * bool * Z * Z * bool * bool * Z * Z :=
  (timer1 c, timer2 c, irq c, eg_cnt c, noise_rng c, nts c, OPL3_mode c,
   status c, statusMask c).

Definition rhythm_cleared (c : YMF262Impl) : Prop :=
  rhythm c = 0 /\ lfo_am_depth c = false /\ lfo_pm_depth_range c = 0.

(** The output mask a zero in c0-c8 leaves. *)
Definition pan_reset (c : YMF262Impl) : Z :=
  if OPL3_mode c then 0 else uint32 (Z.lnot 0).

(** [block_fnum] after a zero in b0-b8, and after a zero in a0-a8. *)
Definition fnum_high_cleared (ch : YMF262Channel) : Prop :=
  0 <= block_fnum ch < 256.
Definition fnum_low_cleared (ch : YMF262Channel) : Prop :=
  Z.land (block_fnum ch) 0x1F00 = block_fnum ch.

(** A step that undoes nothing of what the zeros written so far have left. *)
Definition clearing_step (c c' : YMF262Impl) : Prop :=
  wf c ->
  wf c' /\
  controls c' = controls c /\
  (forall n, extended (chan c' n) = extended (chan c n)) /\
  (rhythm_cleared c -> rhythm_cleared c') /\
  (forall a, peekReg a c = 0 -> peekReg a c' = 0) /\
  (forall k, aget 0 (pan c) k = pan_reset c -> aget 0 (pan c') k = pan_reset c') /\
  (forall n, fnum_high_cleared (chan c n) -> fnum_high_cleared (chan c' n)) /\
  (forall n, fnum_low_cleared (chan c n) -> fnum_low_cleared (chan c' n)) /\
  (forall n i f, settled c n i f -> settled c' n i f) /\
  (forall n i, routed c n i -> routed c' n i).

(** Two channel records with the same data outside their slots. *)
Definition same_data (ch ch' : YMF262Channel) : Prop :=
  block_fnum ch' = block_fnum ch /\ fc ch' = fc ch /\ ksl_base ch' = ksl_base ch /\
  kcode ch' = kcode ch /\ extended ch' = extended ch.

(** Two chip states with the same members outside the channels. *)
Definition same_globals (c c' : YMF262Impl) : Prop :=
  controls c' = controls c /\ rhythm c' = rhythm c /\
  lfo_am_depth c' = lfo_am_depth c /\ lfo_pm_depth_range c' = lfo_pm_depth_range c /\
  reg c' = reg c /\ pan c' = pan c.

(** An operator without its routing: [connect] and [CON] blanked. *)
Definition unrouted (s : YMF262Slot) : YMF262Slot :=
  with_connect ConnNull (with_CON false s).

(** What the zero written to register [r] leaves, by the register block as
    [writeRegForce] decodes it: in the operator the register addresses (20,
    40, 60, 80, e0), in the channel and in the operators that follow it (a0,
    b0), in the percussion operators (bd), in the routing the channel
    decides and in its output masks (c0). *)
Definition register_settled (r : Z) (c : YMF262Impl) : Prop :=
  let ch_offset := if nz (Z.land r 0x100) then 9 else 0 in
  let slot := tbl slot_array (Z.land (Z.land r 0xFF) 0x1F) + ch_offset * 2 in
  let chan_no := Z.land (Z.land r 0xFF) 0x0F + ch_offset in
  let operator f :=
    0 <= tbl slot_array (Z.land (Z.land r 0xFF) 0x1F) ->
    settled c (slot / 2) (Z.land slot 1) f in
  peekReg r c = 0 /\
  match Z.land (Z.land r 0xFF) 0xE0 with
  | 0x20 => operator ClearedMultiple
  | 0x40 => operator ClearedLevel
  | 0x60 => operator ClearedAttack
  | 0x80 => operator ClearedRelease
  | 0xA0 =>
      if Z.land r 0xFF =? 0xBD then
        ch_offset = 0 ->
        rhythm_cleared c /\ forall n i, 6 <= n <= 8 -> settled c n i (ClearedKey 2)
      else
        Z.land (Z.land r 0xFF) 0x0F <= 8 ->
        if nz (Z.land (Z.land r 0xFF) 0x10)
        then fnum_high_cleared (chan c chan_no) /\
             forall m j, follows c m = chan_no -> settled c m j (ClearedKey 1)
        else fnum_low_cleared (chan c chan_no)
  | 0xC0 =>
      Z.land (Z.land r 0xFF) 0x0F <= 8 ->
      settled c chan_no SLOT1 ClearedFeedback /\
      (forall m j, deciding_channel c m j = chan_no -> routed c m j) /\
      (forall k, 0 <= k < 4 -> aget 0 (pan c) (chan_no * 4 + k) = pan_reset c)
  | 0xE0 => operator ClearedWaveform
  | _ => True
  end.

(** The registers [reset] writes in its two loops. *)
Definition reset_register (r : Z) : Prop :=
  0x20 <= r <= 0xFF \/ 0x120 <= r <= 0x1FF.

(** The operators a zero is written to: the feedback is a parameter of the
    first operator of a channel, the rhythm key bit one of the operators of
    channels 6, 7 and 8. *)
Definition operator_cleared (n i : Z) (f : Cleared) : bool :=
  match f with
  | ClearedFeedback => i =? 0
  | ClearedKey k => (k =? 1) || ((k =? 2) && (6 <=? n) && (n <=? 8))
  | _ => true
  end.

(** The state [reset] leaves, but for the members it does not touch. *)
Definition reset_state (c : YMF262Impl) : Prop :=
  wf c /\
  eg_cnt c = 0 /\ noise_rng c = 1 /\ nts c = false /\
  status c = 0 /\ statusMask c = 0x60 /\ irq c = false /\
  timer1 c = mkTimer 0 false /\ timer2 c = mkTimer 0 false /\
  rhythm_cleared c /\
  (forall r, 1 <= r <= 4 \/ reset_register r -> peekReg r c = 0) /\
  (forall k, 0 <= k < 72 -> aget 0 (pan c) k = pan_reset c) /\
  (forall n, in18 n = true -> block_fnum (chan c n) = 0) /\
  (forall n i, in18 n = true -> routed c n i) /\
  (forall n i f, in18 n = true -> operator_cleared n i f = true -> settled c n i f).

(** The chip without what the operator and channel registers 20-ff decode
    into: the channels, the output masks and the rhythm and LFO depth
    settings of bd are blanked. *)
Definition outside_voices (c : YMF262Impl) : YMF262Impl :=
  with_channels []
    (with_pan [] (with_rhythm 0 (with_lfo_am_depth false (with_lfo_pm_depth_range 0 c)))).

(** ** Further vocabulary *)

(** A 4-operator voice in OPL3 mode: channels 0 and 3 paired, F-number and
    block written, key on. *)
Definition four_op_voice : YMF262Impl :=
  writeReg 0xB0 0x3F (writeReg 0xA0 0x55 (writeReg 0x104 0x01 (writeReg 0x105 0x01 power_on))).

(** The registers [reset] writes a zero to. *)
Definition reset_writes (r : Z) : bool :=
  ((1 <=? r) && (r <=? 4)) || ((0x20 <=? r) && (r <=? 0xFF)) ||
  ((0x120 <=? r) && (r <=? 0x1FF)).

(** An operator without what the sample generator computes in it: the phase
    counter, the feedback memory, the envelope level and the envelope
    state are blanked. *)
Definition settings_slot (s : YMF262Slot) : YMF262Slot :=
  with_Cnt 0 (with_op1_out0 0 (with_op1_out1 0 (with_volume 0 (with_state EG_OFF s)))).

Definition settings_channel (ch : YMF262Channel) : YMF262Channel :=
  with_slot1 (settings_slot (slot1 ch)) (with_slot2 (settings_slot (slot2 ch)) ch).

(** The chip without what the sample generator computes: the operators as
    above, and the outputs, the modulation inputs, the LFO, the envelope
    counter and the noise generator blanked.  What is left is what the
    registers program, with the status, the timers and the interrupt. *)
Definition settings (c : YMF262Impl) : YMF262Impl :=
  with_channels (map settings_channel (channels c))
    (with_chanout []
       (with_phase_modulation 0 (with_phase_modulation2 0
          (with_lfo_am_cnt 0 (with_lfo_pm_cnt 0 (with_LFO_AM 0 (with_LFO_PM 0
             (with_eg_cnt 0 (with_noise_rng 0 c))))))))).

(** The clocks of the generator: the envelope counter, the noise shift
    register and the two LFOs with their current values. *)
Definition clocks (c : YMF262Impl) : Z * Z * Z * Z * Z * Z :=
  (eg_cnt c, noise_rng c, lfo_am_cnt c, lfo_pm_cnt c, LFO_AM c, LFO_PM c).

(** One step of the noise generator, as [advance] does it: a 23 bit shift
    register, fed back when its low bit is set. *)
Definition noise_step (n : Z) : Z :=
  Z.shiftr (if nz (Z.land n 1) then Z.lxor n 0x800302 else n) 1.

(** The status byte, the interrupt mask and the level of the interrupt
    line. *)
Definition status_view (c : YMF262Impl) : Z * Z * bool :=
  (status c, statusMask c, irq c).

(** The interrupt line follows the status byte: the mask holds only the two
    timer bits, the line is up exactly when bit 7 of the status is set, and
    exactly when a timer flag that is not masked out is pending. *)
Definition irq_consistent (c : YMF262Impl) : bool :=
  (0 <=? status c) && (status c <? 256) &&
  (Z.land (statusMask c) 0x60 =? statusMask c) &&
  Bool.eqb (irq c) (nz (Z.land (status c) 0x80)) &&
  Bool.eqb (irq c) (nz (Z.land (status c) (statusMask c))).

(** A chip that holds a status byte, a mask and an interrupt level and
    nothing else. *)
Definition status_chip (s m : Z) (i : bool) : YMF262Impl :=
  mkChip (mkTimer 0 false) (mkTimer 0 false) i [] [] [] []
         0 0 0 0 0 0 false 0 0 false false s 0 m 0 0.

(** The flag of a timer expiry: a byte below the interrupt bit, as
    [STATUS_T1] = 0x40 and [STATUS_T2] = 0x20 are. *)
Definition timer_flag (flag : Z) : bool :=
  (0 <=? flag) && (flag <? 256) && (Z.land flag 0x80 =? 0).

(** A callback reports a timer flag. *)
Definition timer_callback (a : Action) : bool :=
  match a with Callback flag => timer_flag flag | _ => true end.

(** The channel record [update_fnum] stores for a new [block_fnum]: the
    value itself and what is derived from it, the key scale level base, the
    frequency increment and the key code, whose low bit the note select
    flag [nts] picks from the F-number. *)
Definition retuned (nts_ : bool) (block_fnum_ : Z) (ch : YMF262Channel) : YMF262Channel :=
  let ch := with_block_fnum block_fnum_ ch in
  let ch := with_ksl_base (tbl ksl_tab (Z.shiftr block_fnum_ 6)) ch in
  let ch := with_fc (fnumToIncrement block_fnum_) ch in
  let ch := with_kcode (Z.shiftr (Z.land (block_fnum ch) 0x1C00) 9) ch in
  if nts_
  then with_kcode (Z.lor (kcode ch) (Z.shiftr (Z.land (block_fnum ch) 0x100) 8)) ch
  else with_kcode (Z.lor (kcode ch) (Z.shiftr (Z.land (block_fnum ch) 0x200) 9)) ch.

(** The frequency data of a channel and of all channels. *)
Definition channel_tuning (ch : YMF262Channel) : Z * Z * Z * Z :=
  (block_fnum ch, fc ch, ksl_base ch, kcode ch).
Definition tuning (c : YMF262Impl) : list (Z * Z * Z * Z) :=
  map channel_tuning (channels c).

(** The settings of register bd. *)
Definition rhythm_settings (c : YMF262Impl) : Z * bool * Z :=
  (rhythm c, lfo_am_depth c, lfo_pm_depth_range c).

(** Frequency data that fits its [block_fnum]: 13 bits of block and
    F-number, the increment and the key scale level base computed from
    them, a 4 bit key code. *)
Definition tuned (d : Z * Z * Z * Z) : Prop :=
  let '(block_fnum_, fc_, ksl_base_, kcode_) := d in
  0 <= block_fnum_ < 8192 /\
  fc_ = fnumToIncrement block_fnum_ /\
  ksl_base_ = tbl ksl_tab (Z.shiftr block_fnum_ 6) /\
  0 <= kcode_ < 16.

(** The LFOs within their ranges: the tremolo counter within the 210
    entries of its table (64 samples each), the tremolo value within the 27
    levels, the vibrato value within the 16 columns of a row of
    [lfo_pm_table], the vibrato depth one of the two the register offers. *)
Definition lfo_in_range (c : YMF262Impl) : Prop :=
  0 <= lfo_am_cnt c < Z.shiftl LFO_AM_TAB_ELEMENTS 6 /\
  0 <= LFO_AM c <= 26 /\
  0 <= LFO_PM c < 16 /\
  (lfo_pm_depth_range c = 0 \/ lfo_pm_depth_range c = 8).

(** [YMF262Debuggable::read] and [YMF262Debuggable::write]: the debugger's
    view of the 0x200 registers. *)
Definition YMF262Debuggable_read (address : Z) (c : YMF262Impl) : Z :=
  peekReg address c.
Definition YMF262Debuggable_write (address value : Z) (c : YMF262Impl) : YMF262Impl :=
  writeRegForce address value c.

(** The registers of the operators and channels: 20-ff on either page. *)
Definition voice_register (r : Z) : bool :=
  ((0x20 <=? r) && (r <=? 0xFF)) || ((0x120 <=? r) && (r <=? 0x1FF)).

(** An operator as the register handlers and the envelope generator keep
    it: rate selectors and sustain level from the tables, envelope counter
    in range. *)
Definition slot_ok (s : YMF262Slot) : Prop :=
  programmed s = true /\ envelope_in_range s.

Definition slots_ok (c : YMF262Impl) : Prop :=
  Forall (fun ch => slot_ok (slot1 ch) /\ slot_ok (slot2 ch)) (channels c).

(** The largest entry of [ksl_tab] (21 dB). *)
Definition KSL_BASE_MAX : Z := 224.

(** The level settings of an operator as the handlers leave them: the total
    level [TL] of six bits in steps of 4, a key scale shift that is not
    negative, [TLL] their sum with the shifted key scale base, the tremolo
    mask a byte, and [wavetable] the start of one of the eight waveforms of
    [sin_tab]. *)
Definition level_ok (s : YMF262Slot) : Prop :=
  0 <= TL s <= 252 /\ 0 <= ksl s /\ 0 <= TLL s <= 252 + KSL_BASE_MAX /\
  0 <= AMmask s <= 255 /\ 0 <= wavetable s <= 7 * SIN_LEN.

Definition levels_ok (c : YMF262Impl) : Prop :=
  Forall (fun ch => 0 <= ksl_base ch <= KSL_BASE_MAX /\
                    level_ok (slot1 ch) /\ level_ok (slot2 ch))
         (channels c).

(** The two table indices of [op_calc]: into [sin_tab] (through the
    [wavetable] pointer) and into [tl_tab]. *)
Definition sin_index (s : YMF262Slot) (phase pm : Z) : Z :=
  wavetable s + Z.land (phase + pm) SIN_MASK.

Definition tl_index (T : Tables) (s : YMF262Slot) (phase pm LFO_AM_ : Z) : Z :=
  let env := uint32 (Z.shiftl (TLL s + volume s + Z.land LFO_AM_ (AMmask s)) 4) in
  sint32 (env + tbl (sin_tab T) (sin_index s phase pm)).

(** A sine table within the range [init_tables] gives it: logarithmic
    attenuations from 0 up to the mark [TL_TAB_LEN] of silence. *)
Definition sin_tab_ok (T : Tables) : Prop :=
  length (sin_tab T) = Z.to_nat (SIN_LEN * 8) /\
  Forall (fun x => 0 <= x <= TL_TAB_LEN) (sin_tab T).

(** A table of silence. *)
Definition silent_tables : Tables :=
  mkTables (repeat 0 (Z.to_nat TL_TAB_LEN)) (repeat TL_TAB_LEN (Z.to_nat (SIN_LEN * 8))).

(** The bit of register 0x104 that gives channel [n] its 4-operator flag:
    bits 0-2 for the channels 0-2, bits 3-5 for the channels 9-11. *)
Definition four_op_bit (n : Z) : option Z :=
  if n =? 0 then Some 0 else if n =? 1 then Some 1 else if n =? 2 then Some 2
  else if n =? 9 then Some 3 else if n =? 10 then Some 4 else if n =? 11 then Some 5
  else None.
(** Where an operator of channel [n] may send its output: one of the two
    phase modulation inputs, or the output of its own channel. *)
Definition own_connect (n : Z) (cn : Connect) : Prop :=
  cn = ConnPhaseMod \/ cn = ConnPhaseMod2 \/ cn = ConnChanout n.

(** All 18 channels are there and every operator has such a destination. *)
Definition connected (c : YMF262Impl) : Prop :=
  length (channels c) = 18%nat /\
  forall n i, in18 n = true -> own_connect n (connect (cslot c n i)).

(** * Properties *)

(** ** Machine integers and tables *)

Lemma sint32_small (z : Z) : - 2 ^ 31 <= z < 2 ^ 31 -> sint32 z = z.
Proof.
  intros H. unfold sint32.
  rewrite Z.mod_small by lia. lia.
Qed.

Lemma land7_range (x : Z) : 0 <= Z.land x 7 <= 7.
Proof.
  assert (E : Z.land x 7 = x mod 8) by (apply (Z.land_ones x 3); lia).
  rewrite E. pose proof (Z.mod_pos_bound x 8). lia.
Qed.

(** Every entry of a selected row of [eg_inc]. *)
Lemma eg_inc_rows (bound : Z) (rows : list Z) (sel k : Z) :
  forallb (fun sel =>
    forallb (fun k => (0 <=? tbl eg_inc (sel + k)) && (tbl eg_inc (sel + k) <=? bound))
            [0; 1; 2; 3; 4; 5; 6; 7]) rows = true ->
  In sel rows -> 0 <= k <= 7 ->
  0 <= tbl eg_inc (sel + k) <= bound.
Proof.
  intros Hall Hsel Hk.
  rewrite forallb_forall in Hall. specialize (Hall sel Hsel).
  rewrite forallb_forall in Hall.
  assert (Hin : In k [0; 1; 2; 3; 4; 5; 6; 7]) by (simpl; lia).
  specialize (Hall k Hin). apply andb_true_iff in Hall. lia.
Qed.

Lemma eg_step_select (sel sh eg_cnt : Z) :
  existsb (Z.eqb sel) eg_rate_select = true ->
  0 <= eg_step sel sh eg_cnt <= DECAY_STEP_MAX.
Proof.
  intros H. unfold eg_step.
  apply existsb_exists in H. destruct H as [x [Hin Heq]].
  apply Z.eqb_eq in Heq. subst x.
  apply (eg_inc_rows DECAY_STEP_MAX eg_rate_select); auto using land7_range.
Qed.

Lemma eg_step_attack (sel sh eg_cnt : Z) :
  existsb (Z.eqb sel) eg_rate_select || (sel =? 13 * RATE_STEPS) = true ->
  0 <= eg_step sel sh eg_cnt <= 8.
Proof.
  intros H. apply orb_true_iff in H. destruct H as [H | H].
  - pose proof (eg_step_select sel sh eg_cnt H). unfold DECAY_STEP_MAX in *. lia.
  - apply Z.eqb_eq in H. subst sel. unfold eg_step.
    apply (eg_inc_rows 8 [13 * RATE_STEPS]); auto using land7_range.
    simpl; auto.
Qed.

Lemma sl_tab_bound (x : Z) : existsb (Z.eqb x) sl_tab = true -> 0 <= x <= 496.
Proof.
  intros H. apply existsb_exists in H. destruct H as [y [Hin Heq]].
  apply Z.eqb_eq in Heq. subst y. vm_compute in Hin. intuition lia.
Qed.

(** ** Envelope generator *)

Lemma programmed_fields (s : YMF262Slot) :
  programmed s = true ->
  (existsb (Z.eqb (eg_sel_ar s)) eg_rate_select || (eg_sel_ar s =? 13 * RATE_STEPS) = true) /\
  existsb (Z.eqb (eg_sel_dr s)) eg_rate_select = true /\
  existsb (Z.eqb (eg_sel_rr s)) eg_rate_select = true /\
  existsb (Z.eqb (sl s)) sl_tab = true.
Proof.
  unfold programmed. rewrite !andb_true_iff. tauto.
Qed.

(** The envelope generator writes [volume] and [state] only. *)
Lemma advanceEnvelopeGenerator_frame (eg_cnt : Z) (s : YMF262Slot) :
  advanceEnvelopeGenerator eg_cnt s =
  with_state (state (advanceEnvelopeGenerator eg_cnt s))
    (with_volume (volume (advanceEnvelopeGenerator eg_cnt s)) s).
Proof.
  destruct s as [? ? ? ? ? ? ? ? ? ? ? ? ? ? ? ? ? ? ? ? ? ? ? st ? ? ? ? ? ? ? ? ? ?].
  unfold advanceEnvelopeGenerator; cbn [state volume eg_type].
  destruct st;
    repeat match goal with
           | |- context [if ?b then _ else _] => destruct b
           end; reflexivity.
Qed.

Lemma advanceEnvelopeGenerator_programmed (eg_cnt : Z) (s : YMF262Slot) :
  programmed (advanceEnvelopeGenerator eg_cnt s) = programmed s.
Proof.
  rewrite advanceEnvelopeGenerator_frame. reflexivity.
Qed.

(** The attack step in plain integers: from a volume in range and an
    increment of at most 8 the new value lies between -1 and the old one. *)
Lemma attack_arith (v inc : Z) :
  0 <= v <= 511 -> 0 <= inc <= 8 ->
  sint32 (v + Z.shiftr (sint32 (Z.lnot v * inc)) 3) = v + (Z.lnot v * inc) / 8 /\
  -1 <= v + (Z.lnot v * inc) / 8 <= v.
Proof.
  intros Hv Hi. unfold Z.lnot, Z.pred.
  assert (Hp : - 4096 <= (- v + -1) * inc <= 0) by nia.
  rewrite (sint32_small ((- v + -1) * inc)) by lia.
  rewrite Z.shiftr_div_pow2 by lia. change (2 ^ 3) with 8.
  assert (Hq : - (v + 1) <= (- v + -1) * inc / 8 <= 0).
  { split.
    - apply Z.div_le_lower_bound; nia.
    - apply Z.div_le_upper_bound; nia. }
  rewrite sint32_small by lia. lia.
Qed.

Lemma advanceEnvelopeGenerator_in_range (eg_cnt : Z) (s : YMF262Slot) :
  programmed s = true -> envelope_in_range s ->
  envelope_in_range (advanceEnvelopeGenerator eg_cnt s).
Proof.
  intros Hp [Hv Hd]. apply programmed_fields in Hp.
  destruct Hp as (Har & Hdr & Hrr & Hsl).
  pose proof (eg_step_attack _ (eg_sh_ar s) eg_cnt Har) as Ia.
  pose proof (eg_step_select _ (eg_sh_dr s) eg_cnt Hdr) as Id.
  pose proof (eg_step_select _ (eg_sh_rr s) eg_cnt Hrr) as Ir.
  pose proof (sl_tab_bound _ Hsl) as Isl.
  unfold envelope_in_range, MIN_ATT_INDEX, MAX_ATT_INDEX, DECAY_STEP_MAX in *.
  change (Z.shiftl 1 (ENV_BITS - 1) - 1) with 511 in *.
  destruct s as [? ? ? ? ? ? ? vol sus ? ? ? ? ? ? ? ? ? ? ? ? ? et st ? ? ? ? ? ? ? ? ? ?].
  cbn [state volume sl eg_type eg_sel_ar eg_sel_dr eg_sel_rr eg_sh_ar eg_sh_dr
       eg_sh_rr eg_m_ar eg_m_dr eg_m_rr] in *.
  unfold advanceEnvelopeGenerator, MIN_ATT_INDEX, MAX_ATT_INDEX.
  change (Z.shiftl 1 (ENV_BITS - 1) - 1) with 511.
  cbn [state volume sl eg_type eg_sel_ar eg_sel_dr eg_sel_rr eg_sh_ar eg_sh_dr
       eg_sh_rr eg_m_ar eg_m_dr eg_m_rr].
  destruct st.
  - (* ATTACK *)
    destruct (Z.land eg_cnt _ =? 0); [| cbn; split; [lia | discriminate]].
    destruct (attack_arith vol _ Hv Ia) as [E B]. rewrite E.
    destruct (_ <=? 0) eqn:C; cbn; split; try lia; try discriminate.
  - (* DECAY *)
    specialize (Hd eq_refl).
    destruct (Z.land eg_cnt _ =? 0); [| cbn; split; [lia | intros _; lia]].
    rewrite sint32_small by lia.
    destruct (_ >=? sus) eqn:C; cbn; split; try lia; try discriminate.
  - (* SUSTAIN *)
    destruct et; [cbn; split; [lia | discriminate] |].
    destruct (Z.land eg_cnt _ =? 0); [| cbn; split; [lia | discriminate]].
    rewrite sint32_small by lia.
    destruct (_ >=? 511) eqn:C; cbn; split; try lia; try discriminate.
  - (* RELEASE *)
    destruct (Z.land eg_cnt _ =? 0); [| cbn; split; [lia | discriminate]].
    rewrite sint32_small by lia.
    destruct (_ >=? 511) eqn:C; cbn; split; try lia; try discriminate.
  - (* OFF *)
    cbn. split; [lia | discriminate].
Qed.

(** A run of envelope advances keeps the volume in [0, MAX_ATT_INDEX = 511]
    on an operator with programmed rate and sustain-level settings which,
    while it is in DECAY, has room for one decay step (volume <= 511 - 4):
    ATTACK, SUSTAIN and RELEASE clamp, DECAY leaves at the sustain level. *)
Lemma advance_envelopes_in_range (eg_cnts : list Z) (s : YMF262Slot) :
  programmed s = true ->
  MIN_ATT_INDEX <= volume s <= MAX_ATT_INDEX ->
  (state s = EG_DECAY -> volume s <= MAX_ATT_INDEX - DECAY_STEP_MAX) ->
  MIN_ATT_INDEX <= volume (advance_envelopes eg_cnts s) <= MAX_ATT_INDEX.
Proof.
  intros Hp Hv Hd.
  assert (H : programmed (advance_envelopes eg_cnts s) = true /\
              envelope_in_range (advance_envelopes eg_cnts s)).
  { assert (Hi : envelope_in_range s) by (split; assumption).
    clear Hv Hd. revert s Hp Hi. unfold advance_envelopes.
    induction eg_cnts as [| eg_cnt rest IH]; intros s Hp Hi; cbn [fold_left].
    - split; assumption.
    - apply IH.
      + rewrite advanceEnvelopeGenerator_programmed. exact Hp.
      + apply advanceEnvelopeGenerator_in_range; assumption. }
  exact (proj1 (proj2 H)).
Qed.

(** C5.  For an operator in ATTACK, on an advance where the tick counter
    passes the rate mask ([eg_cnt & eg_m_ar == 0]) the volume becomes
    [volume + ((~volume * inc) >> 3)] with [inc] read from [eg_inc] at the
    precomputed selector plus the three counter bits above the precomputed
    shift; the result is clamped to 0 and the state becomes DECAY exactly
    when it reaches 0, otherwise the state stays ATTACK.  For a volume in
    [0, 511] and a table increment the [int] arithmetic does not wrap. *)
Theorem attack_step (eg_cnt : Z) (s : YMF262Slot) :
  state s = EG_ATTACK ->
  Z.land eg_cnt (eg_m_ar s) = 0 ->
  let inc := tbl eg_inc (eg_sel_ar s + Z.land (Z.shiftr eg_cnt (eg_sh_ar s)) 7) in
  let v := sint32 (volume s + Z.shiftr (sint32 (Z.lnot (volume s) * inc)) 3) in
  let s' := advanceEnvelopeGenerator eg_cnt s in
  volume s' = Z.max MIN_ATT_INDEX v /\
  (state s' = EG_DECAY <-> v <= MIN_ATT_INDEX) /\
  (state s' = EG_DECAY <-> volume s' = MIN_ATT_INDEX) /\
  (state s' = EG_ATTACK \/ state s' = EG_DECAY) /\
  (MIN_ATT_INDEX <= volume s <= MAX_ATT_INDEX -> 0 <= inc <= 8 ->
   v = volume s + Z.shiftr (Z.lnot (volume s) * inc) 3).
Proof.
  intros Hst Hm inc v s'.
  assert (Hs' : s' = if v <=? MIN_ATT_INDEX
                     then with_state EG_DECAY (with_volume MIN_ATT_INDEX s)
                     else with_volume v s).
  { subst s'. unfold advanceEnvelopeGenerator. rewrite Hst.
    apply Z.eqb_eq in Hm. rewrite Hm. reflexivity. }
  assert (Hnowrap : MIN_ATT_INDEX <= volume s <= MAX_ATT_INDEX -> 0 <= inc <= 8 ->
                    v = volume s + Z.shiftr (Z.lnot (volume s) * inc) 3).
  { intros Hv Hi. subst v. unfold MIN_ATT_INDEX, MAX_ATT_INDEX in Hv.
    change (Z.shiftl 1 (ENV_BITS - 1) - 1) with 511 in Hv.
    destruct (attack_arith (volume s) inc Hv Hi) as [E _]. rewrite E.
    rewrite Z.shiftr_div_pow2 by lia. reflexivity. }
  unfold MIN_ATT_INDEX in *.
  destruct (v <=? 0) eqn:C; rewrite Hs'.
  - apply Z.leb_le in C. cbn [volume state with_state with_volume].
    repeat split; auto; try lia.
  - apply Z.leb_gt in C. cbn [volume state with_state with_volume].
    rewrite Hst.
    repeat split; auto; try lia; try discriminate.
Qed.

Lemma attack_step_witness :
  let s := with_volume 511 (with_eg_sel_ar (13 * RATE_STEPS) (with_state EG_ATTACK new_slot)) in
  volume (advanceEnvelopeGenerator 0 s) = 0 /\
  state (advanceEnvelopeGenerator 0 s) = EG_DECAY.
Proof.
  intros s.
  destruct (attack_step 0 s eq_refl eq_refl) as (Hv & Hd & _).
  split.
  - rewrite Hv. reflexivity.
  - apply Hd. vm_compute. discriminate.
Defined.

(** ** Key on and key off *)


(** C2.  FM_KEYON on an operator holding no key source (key bitmask 0)
    resets the phase counter [Cnt] to 0 and sets the envelope state to
    ATTACK; on an operator whose key bitmask is already nonzero it leaves
    [Cnt], the envelope state and the volume (and every other field)
    unchanged and only ORs in the new key bit. *)
Theorem FM_KEYON_edge (key_set : Z) (s : YMF262Slot) :
  (key s = 0 ->
     Cnt (FM_KEYON key_set s) = 0 /\
     state (FM_KEYON key_set s) = EG_ATTACK /\
     FM_KEYON key_set s =
       with_key (byte_of (Z.lor 0 key_set)) (with_state EG_ATTACK (with_Cnt 0 s))) /\
  (key s <> 0 ->
     Cnt (FM_KEYON key_set s) = Cnt s /\
     state (FM_KEYON key_set s) = state s /\
     volume (FM_KEYON key_set s) = volume s /\
     FM_KEYON key_set s = with_key (byte_of (Z.lor (key s) key_set)) s).
Proof.
  unfold FM_KEYON. split; intros H.
  - rewrite H. cbn [Z.eqb]. cbn [key with_state with_Cnt]. rewrite H.
    repeat split.
  - apply Z.eqb_neq in H. rewrite H. repeat split.
Qed.

Lemma FM_KEYON_edge_witness :
  (Cnt (FM_KEYON 1 (with_Cnt 77 new_slot)) = 0 /\
   state (FM_KEYON 1 (with_Cnt 77 new_slot)) = EG_ATTACK) /\
  (Cnt (FM_KEYON 2 (with_key 1 (with_Cnt 77 new_slot))) = 77 /\
   state (FM_KEYON 2 (with_key 1 (with_Cnt 77 new_slot))) = EG_OFF /\
   key (FM_KEYON 2 (with_key 1 (with_Cnt 77 new_slot))) = 3).
Proof.
  split.
  - destruct (proj1 (FM_KEYON_edge 1 (with_Cnt 77 new_slot)) eq_refl) as (H1 & H2 & _).
    split; assumption.
  - assert (Hk : key (with_key 1 (with_Cnt 77 new_slot)) <> 0) by (cbn; discriminate).
    destruct (proj2 (FM_KEYON_edge 2 (with_key 1 (with_Cnt 77 new_slot))) Hk)
      as (H1 & H2 & _ & H4).
    split; [exact H1 | split; [exact H2 | rewrite H4; reflexivity]].
Defined.

(** C10.  FM_KEYOFF changes nothing but [key] and [state]: the phase
    counter, the volume and every rate and level parameter are untouched.
    It clears the given key bits; the state moves to RELEASE only when the
    operator was keyed, the last key bit has just been cleared and the state
    is not OFF; an operator in OFF stays in OFF. *)
Theorem FM_KEYOFF_frame (key_clr : Z) (s : YMF262Slot) :
  FM_KEYOFF key_clr s =
    with_state (state (FM_KEYOFF key_clr s)) (with_key (key (FM_KEYOFF key_clr s)) s) /\
  Cnt (FM_KEYOFF key_clr s) = Cnt s /\
  volume (FM_KEYOFF key_clr s) = volume s /\
  key (FM_KEYOFF key_clr s) = byte_of (Z.land (key s) (Z.lnot key_clr)) /\
  (key s <> 0 -> key (FM_KEYOFF key_clr s) = 0 -> state s <> EG_OFF ->
     state (FM_KEYOFF key_clr s) = EG_RELEASE) /\
  (key s = 0 \/ key (FM_KEYOFF key_clr s) <> 0 ->
     state (FM_KEYOFF key_clr s) = state s) /\
  (state s = EG_OFF -> state (FM_KEYOFF key_clr s) = EG_OFF).
Proof.
  destruct s as [? ? ? ? ? ? ? ? ? ? ? ? ? ? ? ? ? ? ? k ? ? ? st ? ? ? ? ? ? ? ? ? ?].
  unfold FM_KEYOFF. cbn [key state with_key].
  destruct (k =? 0) eqn:Hk.
  - apply Z.eqb_eq in Hk. subst k. cbn [key state Cnt volume with_state with_key].
    repeat split; auto; try contradiction.
  - apply Z.eqb_neq in Hk.
    destruct (byte_of (Z.land k (Z.lnot key_clr)) =? 0) eqn:Hk'.
    + apply Z.eqb_eq in Hk'.
      destruct st; cbn [key state Cnt volume with_state with_key];
        repeat split; auto; try contradiction; try discriminate;
        intros [H | H]; congruence.
    + apply Z.eqb_neq in Hk'.
      cbn [key state Cnt volume with_state with_key].
      repeat split; auto; try contradiction.
Qed.

Lemma FM_KEYOFF_frame_witness :
  state (FM_KEYOFF 1 (with_key 1 (with_state EG_SUSTAIN new_slot))) = EG_RELEASE /\
  state (FM_KEYOFF 1 (with_key 3 (with_state EG_SUSTAIN new_slot))) = EG_SUSTAIN /\
  state (FM_KEYOFF 1 (with_key 1 new_slot)) = EG_OFF.
Proof.
  split; [| split].
  - destruct (FM_KEYOFF_frame 1 (with_key 1 (with_state EG_SUSTAIN new_slot)))
      as (_ & _ & _ & _ & H & _).
    apply H; [cbn; discriminate | reflexivity | cbn; discriminate].
  - destruct (FM_KEYOFF_frame 1 (with_key 3 (with_state EG_SUSTAIN new_slot)))
      as (_ & _ & _ & _ & _ & H & _).
    apply H. right. cbn. discriminate.
  - destruct (FM_KEYOFF_frame 1 (with_key 1 new_slot)) as (_ & _ & _ & _ & _ & _ & H).
    apply H. reflexivity.
Defined.

(** ** Arrays, channels and slots of the chip *)

Lemma aget_aset {A : Type} (d : A) (l : list A) (i j : Z) (x : A) :
  aget d (aset l i x) j =
  if (i =? j) && (0 <=? i) && (i <? Z.of_nat (length l)) then x else aget d l j.
Proof.
  unfold aget, aset.
  destruct (i <? 0) eqn:Hi.
  - assert (E : (0 <=? i) = false) by lia. rewrite E, andb_false_r. reflexivity.
  - assert (E : (0 <=? i) = true) by lia. rewrite E, andb_true_r.
    destruct (i =? j) eqn:Hij.
    + apply Z.eqb_eq in Hij. subst j. rewrite Hi. cbn [andb].
      destruct (i <? Z.of_nat (length l)) eqn:Hl.
      * rewrite list_lookup_insert_eq by lia. reflexivity.
      * rewrite list_insert_ge by lia. reflexivity.
    + cbn [andb]. destruct (j <? 0) eqn:Hj; [reflexivity |].
      rewrite list_lookup_insert_ne by lia. reflexivity.
Qed.

Lemma aset_length {A : Type} (l : list A) (i : Z) (x : A) :
  length (aset l i x) = length l.
Proof.
  unfold aset. destruct (i <? 0); [reflexivity | apply length_insert].
Qed.

Lemma aset_same {A : Type} (d : A) (l : list A) (i : Z) :
  aset l i (aget d l i) = l.
Proof.
  unfold aset, aget. destruct (i <? 0); [reflexivity |].
  destruct (l !! Z.to_nat i) eqn:E.
  - cbn [default]. apply list_insert_id. exact E.
  - apply list_insert_ge. apply lookup_ge_None. exact E.
Qed.

Lemma wf_put_chan (n : Z) (ch : YMF262Channel) (c : YMF262Impl) :
  wf c -> wf (put_chan n ch c).
Proof.
  unfold wf, put_chan. cbn. rewrite aset_length. tauto.
Qed.

Lemma wf_put_cslot (n i : Z) (x : YMF262Slot) (c : YMF262Impl) :
  wf c -> wf (put_cslot n i x c).
Proof. apply wf_put_chan. Qed.

Lemma chan_put_chan (n m : Z) (ch : YMF262Channel) (c : YMF262Impl) :
  wf c ->
  chan (put_chan n ch c) m = if (n =? m) && in18 n then ch else chan c m.
Proof.
  intros (Hc & _). unfold chan, put_chan, in18. cbn [channels with_channels].
  rewrite aget_aset, Hc. change (Z.of_nat 18) with 18.
  rewrite andb_assoc. reflexivity.
Qed.

Lemma slots_with_slots (i j : Z) (x : YMF262Slot) (ch : YMF262Channel) :
  slots (with_slots i x ch) j = if same_slot i j then x else slots ch j.
Proof.
  unfold slots, with_slots, same_slot.
  destruct (i =? 0), (j =? 0); reflexivity.
Qed.

Lemma cslot_put_cslot (n i m j : Z) (x : YMF262Slot) (c : YMF262Impl) :
  wf c ->
  cslot (put_cslot n i x c) m j =
  if (n =? m) && in18 n && same_slot i j then x else cslot c m j.
Proof.
  intros H. unfold cslot, put_cslot. rewrite chan_put_chan by exact H.
  destruct ((n =? m) && in18 n) eqn:E; cbn [andb]; [| reflexivity].
  rewrite slots_with_slots.
  apply andb_true_iff in E. destruct E as [E _]. apply Z.eqb_eq in E. subst m.
  reflexivity.
Qed.

Lemma wf_key_slot (on : bool) (k n i : Z) (c : YMF262Impl) :
  wf c -> wf (key_slot on k n i c).
Proof. apply wf_put_cslot. Qed.

Lemma cslot_key_slot (on : bool) (k n i m j : Z) (c : YMF262Impl) :
  wf c ->
  cslot (key_slot on k n i c) m j =
  if (n =? m) && in18 n && same_slot i j
  then (if on then FM_KEYON k else FM_KEYOFF k) (cslot c m j)
  else cslot c m j.
Proof.
  intros H. unfold key_slot. rewrite cslot_put_cslot by exact H.
  destruct ((n =? m) && in18 n && same_slot i j) eqn:E; [| reflexivity].
  apply andb_true_iff in E. destruct E as [E Es].
  apply andb_true_iff in E. destruct E as [E _]. apply Z.eqb_eq in E. subst m.
  unfold cslot, slots, same_slot in *.
  destruct (i =? 0), (j =? 0); try discriminate; reflexivity.
Qed.

(** ** The rhythm register *)

Lemma FM_KEYOFF_key (key_clr : Z) (s : YMF262Slot) :
  key (FM_KEYOFF key_clr s) = byte_of (Z.land (key s) (Z.lnot key_clr)).
Proof.
  destruct s as [? ? ? ? ? ? ? ? ? ? ? ? ? ? ? ? ? ? ? k ? ? ? st ? ? ? ? ? ? ? ? ? ?].
  unfold FM_KEYOFF. cbn [key state with_key].
  destruct (k =? 0) eqn:Hk.
  - apply Z.eqb_eq in Hk. subst k. reflexivity.
  - destruct (byte_of (Z.land k (Z.lnot key_clr)) =? 0); [| reflexivity].
    destruct st; reflexivity.
Qed.

Lemma FM_KEYOFF_rhythm_bit (s : YMF262Slot) :
  Z.testbit (key (FM_KEYOFF 2 s)) 1 = false.
Proof.
  rewrite FM_KEYOFF_key. unfold byte_of. change 256 with (2 ^ 8).
  rewrite Z.mod_pow2_bits_low by lia.
  rewrite Z.land_spec. change (Z.testbit (Z.lnot 2) 1) with false.
  apply andb_false_r.
Qed.

Lemma rhythm_bit_masked (v : Z) :
  Z.land v 0x20 = 0 -> Z.land (Z.land v 0x3F) 0x20 = 0.
Proof.
  intros H. rewrite <- Z.land_assoc. exact H.
Qed.

Lemma FM_KEYOFF_state (key_clr : Z) (s : YMF262Slot) :
  state (FM_KEYOFF key_clr s) =
  if negb (key s =? 0) && (byte_of (Z.land (key s) (Z.lnot key_clr)) =? 0)
  then released_state (state s) else state s.
Proof.
  destruct s as [? ? ? ? ? ? ? ? ? ? ? ? ? ? ? ? ? ? ? k ? ? ? st ? ? ? ? ? ? ? ? ? ?].
  unfold FM_KEYOFF. cbn [key state with_key].
  destruct (k =? 0) eqn:Hk; [reflexivity |]. cbn [negb andb].
  destruct (byte_of (Z.land k (Z.lnot key_clr)) =? 0); [| reflexivity].
  destruct st; reflexivity.
Qed.

Lemma FM_KEYOFF_unkeyed (key_clr : Z) (s : YMF262Slot) :
  key s = 0 -> FM_KEYOFF key_clr s = s.
Proof.
  intros H. unfold FM_KEYOFF. rewrite H. reflexivity.
Qed.

Lemma rhythm_page2_ignored (v : Z) (c : YMF262Impl) :
  channels (writeRegForce 0x1BD v c) = channels c /\
  rhythm (writeRegForce 0x1BD v c) = rhythm c.
Proof.
  change (writeRegForce 0x1BD v c)
    with (write_rhythm 1 (byte_of v) (with_reg (aset (reg c) 0x1BD (byte_of v)) c)).
  unfold write_rhythm. cbn [Z.eqb negb]. split; reflexivity.
Qed.

(** C3 (as amended).  Writing the rhythm/mode register 0xBD with the
    rhythm-enable bit (0x20) clear performs, within that write, FM_KEYOFF of
    the rhythm key source (bit value 2) on all six percussion slots:
    channels 6, 7 and 8, slots 1 and 2.  Afterwards the rhythm flag is off
    and the rhythm key bit of each of the six slots is clear; the other key
    bits are kept.  A slot is released by the write (RELEASE, or OFF if it
    was OFF) exactly when it was keyed and no other key source is left; in
    every other case it keeps its envelope state.  So a slot keyed by
    rhythm alone (key 2) is released with key 0, and a slot that is also
    keyed by its channel's key-on bit of 0xB6-0xB8 (key 3) stays keyed on
    with key 1 in the state it had; a slot that holds no key is left as it
    is.  The register is on page 1 only: a write to 0x1BD changes no
    channel and not the rhythm flag. *)
Theorem rhythm_off_keys_off (v : Z) (c : YMF262Impl) :
  wf c ->
  Z.land (byte_of v) 0x20 = 0 ->
  Z.land (rhythm (writeReg 0xBD v c)) 0x20 = 0 /\
  (forall n i, In (n, i) percussion_slots ->
    cslot (writeReg 0xBD v c) n i = FM_KEYOFF 2 (cslot c n i) /\
    Z.testbit (key (cslot (writeReg 0xBD v c) n i)) 1 = false /\
    key (cslot (writeReg 0xBD v c) n i) =
      byte_of (Z.land (key (cslot c n i)) (Z.lnot 2)) /\
    state (cslot (writeReg 0xBD v c) n i) =
      (if negb (key (cslot c n i) =? 0) &&
          (key (cslot (writeReg 0xBD v c) n i) =? 0)
       then released_state (state (cslot c n i))
       else state (cslot c n i)) /\
    (key (cslot c n i) = 2 ->
     key (cslot (writeReg 0xBD v c) n i) = 0 /\
     state (cslot (writeReg 0xBD v c) n i) = released_state (state (cslot c n i))) /\
    (key (cslot c n i) = 3 ->
     key (cslot (writeReg 0xBD v c) n i) = 1 /\
     state (cslot (writeReg 0xBD v c) n i) = state (cslot c n i)) /\
    (key (cslot c n i) = 0 -> cslot (writeReg 0xBD v c) n i = cslot c n i)) /\
  channels (writeRegForce 0x1BD v c) = channels c /\
  rhythm (writeRegForce 0x1BD v c) = rhythm c.
Proof.
  intros Hwf Hv.
  set (c0 := with_rhythm (Z.land (byte_of v) 0x3F)
               (with_lfo_pm_depth_range (if nz (Z.land (byte_of v) 0x40) then 8 else 0)
                  (with_lfo_am_depth (nz (Z.land (byte_of v) 0x80))
                     (with_reg (aset (reg c) 0xBD (byte_of v)) c)))).
  assert (Hwf0 : wf c0).
  { destruct Hwf as (H1 & H2 & H3 & H4). unfold wf, c0. cbn -[aset].
    rewrite aset_length. tauto. }
  assert (E : writeReg 0xBD v c =
              key_slot false 2 8 SLOT2 (key_slot false 2 8 SLOT1
                (key_slot false 2 7 SLOT2 (key_slot false 2 7 SLOT1
                   (key_slot false 2 6 SLOT2 (key_slot false 2 6 SLOT1 c0)))))).
  { unfold writeReg.
    change (Z.land 0xBD (Z.lnot 0x100)) with 0xBD.
    assert (E : (if negb (OPL3_mode c) && negb (0xBD =? 0x105) then 0xBD else 0xBD) = 0xBD)
      by (destruct (negb (OPL3_mode c) && negb (0xBD =? 0x105)); reflexivity).
    rewrite E.
    change (writeRegForce 0xBD v c)
      with (write_rhythm 0 (byte_of v) (with_reg (aset (reg c) 0xBD (byte_of v)) c)).
    unfold write_rhythm. cbn [Z.eqb negb].
    cbn [rhythm with_rhythm].
    rewrite (rhythm_bit_masked _ Hv). reflexivity. }
  rewrite E. split; [| split; [| apply rhythm_page2_ignored]].
  - cbn [key_slot put_cslot put_chan rhythm with_channels].
    unfold c0. cbn [rhythm with_rhythm]. apply rhythm_bit_masked. exact Hv.
  - assert (Hc : forall n i, In (n, i) percussion_slots ->
               cslot (key_slot false 2 8 SLOT2 (key_slot false 2 8 SLOT1
                 (key_slot false 2 7 SLOT2 (key_slot false 2 7 SLOT1
                    (key_slot false 2 6 SLOT2 (key_slot false 2 6 SLOT1 c0)))))) n i
               = FM_KEYOFF 2 (cslot c n i)).
    { intros n i Hin.
      rewrite !cslot_key_slot by (repeat apply wf_key_slot; exact Hwf0).
      cbn in Hin.
      repeat (destruct Hin as [Hin | Hin]; [inversion Hin; subst n i; reflexivity |]).
      contradiction. }
    intros n i Hin. rewrite (Hc n i Hin).
    generalize (cslot c n i). intros s.
    assert (Hk : key (FM_KEYOFF 2 s) = byte_of (Z.land (key s) (Z.lnot 2)))
      by apply FM_KEYOFF_key.
    assert (Hs : state (FM_KEYOFF 2 s) =
                 if negb (key s =? 0) && (key (FM_KEYOFF 2 s) =? 0)
                 then released_state (state s) else state s)
      by (rewrite Hk; apply FM_KEYOFF_state).
    split; [reflexivity |].
    split; [apply FM_KEYOFF_rhythm_bit |].
    split; [exact Hk |].
    split; [exact Hs |].
    split; [intros K; rewrite Hs, Hk, K; split; reflexivity |].
    split; [intros K; rewrite Hs, Hk, K; split; reflexivity |].
    apply FM_KEYOFF_unkeyed.
Qed.

Lemma wf_power_on : wf power_on.
Proof. vm_compute. repeat split. Qed.

Lemma wf_writeReg_rhythm (v : Z) (c : YMF262Impl) : wf c -> wf (writeReg 0xBD v c).
Proof.
  intros (H1 & H2 & H3 & H4).
  assert (E : writeReg 0xBD v c =
              write_rhythm 0 (byte_of v) (with_reg (aset (reg c) 0xBD (byte_of v)) c)).
  { unfold writeReg. change (Z.land 0xBD (Z.lnot 0x100)) with 0xBD.
    destruct (negb (OPL3_mode c) && negb (0xBD =? 0x105)); reflexivity. }
  rewrite E. unfold write_rhythm. cbn [Z.eqb negb].
  match goal with |- wf (if ?b then _ else _) => destruct b end;
    unfold key_channel; repeat apply wf_key_slot;
    unfold wf; cbn -[aset]; rewrite aset_length; tauto.
Qed.

Lemma rhythm_off_keys_off_witness :
  key (cslot rhythm_all_keyed 7 SLOT1) = 2 /\
  state (cslot rhythm_all_keyed 7 SLOT1) = EG_ATTACK /\
  key (cslot (writeReg 0xBD 0 rhythm_all_keyed) 7 SLOT1) = 0 /\
  state (cslot (writeReg 0xBD 0 rhythm_all_keyed) 7 SLOT1) = EG_RELEASE.
Proof.
  split; [reflexivity |]. split; [reflexivity |].
  assert (Hwf : wf rhythm_all_keyed) by (apply wf_writeReg_rhythm, wf_power_on).
  destruct (rhythm_off_keys_off 0 rhythm_all_keyed Hwf eq_refl) as [_ [H _]].
  destruct (H 7 SLOT1) as (_ & _ & _ & _ & K & _ & _).
  - cbn. tauto.
  - destruct (K eq_refl) as [K1 K2]. split; [exact K1 |].
    rewrite K2. reflexivity.
Defined.

(** C3 (as stated) fails: with channels 6 and 7 keyed on by their own
    registers and all percussion voices keyed, the rhythm-off write leaves
    the four operators of channels 6 and 7 keyed on (key 1) and in ATTACK:
    the voices are not released. *)
Lemma rhythm_off_keeps_channel_key :
  reachable rhythm_and_channel_keyed /\
  Forall (fun '(n, i) =>
            key (cslot rhythm_and_channel_keyed n i) = 3 /\
            key (cslot (writeReg 0xBD 0 rhythm_and_channel_keyed) n i) = 1 /\
            state (cslot (writeReg 0xBD 0 rhythm_and_channel_keyed) n i) = EG_ATTACK)
         [(6, SLOT1); (6, SLOT2); (7, SLOT1); (7, SLOT2)] /\
  ~ (forall n i, In (n, i) percussion_slots ->
       key (cslot (writeReg 0xBD 0 rhythm_and_channel_keyed) n i) = 0 /\
       (state (cslot (writeReg 0xBD 0 rhythm_and_channel_keyed) n i) = EG_RELEASE \/
        state (cslot (writeReg 0xBD 0 rhythm_and_channel_keyed) n i) = EG_OFF)).
Proof.
  split.
  - exists [Write 0xB6 0x20; Write 0xB7 0x20; Write 0xBD 0x3F].
    cbn [fold_left run]. unfold rhythm_and_channel_keyed. exact eq_refl.
  - split.
    + repeat constructor; vm_compute; reflexivity.
    + intros H. destruct (H 7 SLOT1) as [K _]; [cbn; tauto |].
      vm_compute in K. discriminate K.
Qed.

(** ** Status and register reads *)

(** C9.  [readStatus] returns the current status byte [status | status2]
    and clears the transient bits [status2], changing nothing else, so that
    a following [peekStatus] shows [status] alone; [peekStatus] returns the
    byte [readStatus] would return at that moment (it is a function of the
    state and has no state to return); [readReg] returns the register-file
    byte and the unchanged state. *)
Theorem status_and_register_reads (c : YMF262Impl) (r : Z) :
  fst (readStatus c) = Z.lor (status c) (status2 c) /\
  snd (readStatus c) = with_status2 0 c /\
  status2 (snd (readStatus c)) = 0 /\
  status (snd (readStatus c)) = status c /\
  peekStatus (snd (readStatus c)) = status c /\
  peekStatus c = fst (readStatus c) /\
  readReg r c = (aget 0 (reg c) r, c) /\
  peekReg r (snd (readReg r c)) = fst (readReg r c).
Proof.
  unfold readStatus, peekStatus, readReg, peekReg. cbn [fst snd status status2 with_status2].
  rewrite Z.lor_0_r. repeat split.
Qed.

(** ** Bytes and register numbers *)

Lemma land255_range (x : Z) : 0 <= Z.land x 255 < 256.
Proof.
  assert (E : Z.land x 255 = x mod 256) by (apply (Z.land_ones x 8); lia).
  rewrite E. apply Z.mod_pos_bound. lia.
Qed.

Lemma byte_of_range (x : Z) : 0 <= byte_of x < 256.
Proof. apply Z.mod_pos_bound. lia. Qed.

(** A property checked on the 256 bytes holds of every byte. *)
Lemma byte_forallb (f : Z -> bool) :
  forallb f (map Z.of_nat (seq 0 256)) = true ->
  forall x, 0 <= x < 256 -> f x = true.
Proof.
  intros H x Hx. rewrite forallb_forall in H. apply H.
  apply in_map_iff. exists (Z.to_nat x). split; [lia |].
  apply in_seq. lia.
Qed.

Lemma channel_kind_first (n : Z) :
  channel_kind n = FirstOfPair -> In n [0; 1; 2; 9; 10; 11].
Proof.
  destruct n as [| p | p]; cbn; try discriminate; auto.
  do 5 (try (destruct p as [p | p |]); cbn; try discriminate; auto 8).
Qed.

Lemma channel_kind_second (n : Z) :
  channel_kind n = SecondOfPair -> In n [3; 4; 5; 12; 13; 14].
Proof.
  destruct n as [| p | p]; cbn; try discriminate; auto.
  do 5 (try (destruct p as [p | p |]); cbn; try discriminate; auto 8).
Qed.

Lemma slot_array_range (k : Z) :
  tbl slot_array k < 0 \/ 0 <= tbl slot_array k < 18.
Proof.
  unfold tbl. destruct (k <? 0) eqn:Hk; [lia |].
  destruct (Z.to_nat k <? 32)%nat eqn:Hn.
  - apply Nat.ltb_lt in Hn.
    assert (Hin : In (Z.to_nat k) (seq 0 32)) by (apply in_seq; lia).
    cbn in Hin.
    repeat (destruct Hin as [<- | Hin]; [cbn; lia |]). contradiction.
  - apply Nat.ltb_ge in Hn. rewrite nth_overflow by (cbn; lia). lia.
Qed.

(** The eight register blocks of a page. *)
Lemma register_block (r : Z) :
  In (Z.land (Z.land r 0xFF) 0xE0) [0x00; 0x20; 0x40; 0x60; 0x80; 0xA0; 0xC0; 0xE0].
Proof.
  pose proof (land255_range r) as Hr.
  set (x := Z.land r 255) in *. clearbody x.
  assert (H : existsb (Z.eqb (Z.land x 0xE0))
                [0x00; 0x20; 0x40; 0x60; 0x80; 0xA0; 0xC0; 0xE0] = true).
  { revert x Hr. apply byte_forallb. vm_compute. reflexivity. }
  apply existsb_exists in H. destruct H as [y [Hin Hy]].
  apply Z.eqb_eq in Hy. rewrite Hy. exact Hin.
Qed.

(** Case analysis on the register block: a property of what each handler
    returns is a property of [write_page]. *)
Lemma write_page_cases (P : YMF262Impl -> Prop) (ch_offset r v : Z) (c : YMF262Impl) :
  P c ->
  (forall r', P (write_control r' v c)) ->
  (forall sl_, ch_offset * 2 <= sl_ < ch_offset * 2 + 18 -> P (set_mul sl_ v c)) ->
  (forall sl_, ch_offset * 2 <= sl_ < ch_offset * 2 + 18 -> P (set_ksl_tl sl_ v c)) ->
  (forall sl_, ch_offset * 2 <= sl_ < ch_offset * 2 + 18 -> P (set_ar_dr sl_ v c)) ->
  (forall sl_, ch_offset * 2 <= sl_ < ch_offset * 2 + 18 -> P (set_sl_rr sl_ v c)) ->
  P (write_rhythm ch_offset v c) ->
  (forall r', P (write_fnum ch_offset r' v c)) ->
  (forall r', P (write_connect ch_offset r' v c)) ->
  (forall r', P (write_waveform ch_offset r' v c)) ->
  P (write_page ch_offset r v c).
Proof.
  intros Hc Hctl Hmul Hksl Har Hsl Hrh Hfn Hcon Hwav.
  assert (Hslot : forall set,
            (forall sl_, ch_offset * 2 <= sl_ < ch_offset * 2 + 18 -> P (set sl_ v c)) ->
            P (write_slot set ch_offset (Z.land r 0xFF) v c)).
  { intros set Hset. unfold write_slot.
    destruct (slot_array_range (Z.land (Z.land r 255) 31)) as [Hneg | Hpos].
    - apply Z.ltb_lt in Hneg. rewrite Hneg. exact Hc.
    - assert (E : (tbl slot_array (Z.land (Z.land r 255) 31) <? 0) = false) by lia.
      rewrite E. apply Hset. lia. }
  unfold write_page.
  pose proof (register_block r) as Hb. cbn [In] in Hb.
  destruct Hb as [E | [E | [E | [E | [E | [E | [E | [E | []]]]]]]]];
    cbv zeta; rewrite <- E; cbv iota beta; auto.
  destruct (Z.land r 255 =? 189); auto.
Qed.

(** ** Page 1 writes leave page 2 alone *)

Lemma page1_refl (c : YMF262Impl) : page1_step c c.
Proof. intros H. split; [exact H |]. unfold page2_same. repeat split; auto. Qed.

Lemma page1_trans (a b c : YMF262Impl) :
  page1_step a b -> page1_step b c -> page1_step a c.
Proof.
  intros Hab Hbc Ha. destruct (Hab Ha) as [Hb (A1 & A2 & A3 & A4 & A5 & A6)].
  destruct (Hbc Hb) as [Hc (B1 & B2 & B3 & B4 & B5 & B6)].
  split; [exact Hc |]. unfold page2_same. repeat split; intros.
  - rewrite B1, A1 by assumption. reflexivity.
  - rewrite B2, A2 by assumption. reflexivity.
  - rewrite B3, A3 by assumption. reflexivity.
  - rewrite B4, A4. reflexivity.
  - congruence.
  - congruence.
Qed.

Lemma page1_put_chan (n : Z) (ch : YMF262Channel) (c : YMF262Impl) :
  n < 9 -> extended ch = extended (chan c n) -> page1_step c (put_chan n ch c).
Proof.
  intros Hn He Hwf. split; [apply wf_put_chan; exact Hwf |].
  unfold page2_same. repeat split; intros; try reflexivity.
  - rewrite chan_put_chan by exact Hwf.
    assert (E : (n =? n0) = false) by lia. rewrite E. reflexivity.
  - rewrite chan_put_chan by exact Hwf.
    destruct ((n =? n0) && in18 n) eqn:E; [| reflexivity].
    apply andb_true_iff in E. destruct E as [E _]. apply Z.eqb_eq in E. subst n0.
    exact He.
Qed.

Lemma page1_put_cslot (n i : Z) (x : YMF262Slot) (c : YMF262Impl) :
  n < 9 -> page1_step c (put_cslot n i x c).
Proof.
  intros Hn. apply page1_put_chan; [exact Hn |].
  unfold with_slots. destruct (i =? 0); reflexivity.
Qed.

Lemma page1_reg (a v : Z) (c : YMF262Impl) :
  a < 256 -> page1_step c (with_reg (aset (reg c) a v) c).
Proof.
  intros Ha (H1 & H2 & H3 & H4). split.
  - unfold wf. cbn -[aset]. rewrite aset_length. tauto.
  - unfold page2_same, peekReg. cbn -[aset]. repeat split; intros; try reflexivity.
    rewrite aget_aset. assert (E : (a =? a0) = false) by lia. rewrite E. reflexivity.
Qed.

Lemma page1_pan (k x : Z) (c : YMF262Impl) :
  k < 36 -> page1_step c (with_pan (aset (pan c) k x) c).
Proof.
  intros Hk (H1 & H2 & H3 & H4). split.
  - unfold wf. cbn -[aset]. rewrite aset_length. tauto.
  - unfold page2_same, peekReg. cbn -[aset]. repeat split; intros; try reflexivity.
    rewrite aget_aset. assert (E : (k =? k0) = false) by lia. rewrite E. reflexivity.
Qed.

(** A step that touches none of the arrays nor the mode flags. *)
Lemma page1_scalar (c c' : YMF262Impl) :
  channels c' = channels c -> reg c' = reg c -> pan c' = pan c ->
  chanout c' = chanout c -> OPL3_mode c' = OPL3_mode c -> status2 c' = status2 c ->
  page1_step c c'.
Proof.
  intros E1 E2 E3 E4 E5 E6 (H1 & H2 & H3 & H4). split.
  - unfold wf. rewrite E1, E2, E3, E4. tauto.
  - unfold page2_same, peekReg, chan. rewrite E1, E2, E3. repeat split; auto.
Qed.

(** Peel the last update off a chain of updates. *)
Ltac page1_peel :=
  match goal with
  | |- page1_step ?c ?c => apply page1_refl
  | |- page1_step ?c (put_cslot ?n ?i ?x ?c1) =>
      apply (page1_trans c c1); [| apply page1_put_cslot; try lia]
  | |- page1_step ?c (with_reg (aset (reg ?c1) ?a ?v) ?c1) =>
      apply (page1_trans c c1); [| apply page1_reg; try lia]
  | |- page1_step ?c (with_pan (aset (pan ?c1) ?k ?x) ?c1) =>
      apply (page1_trans c c1); [| apply page1_pan; try lia]
  | |- page1_step ?c (if ?b then _ else _) => destruct b eqn:?
  | |- page1_step ?c (match channel_kind ?n with _ => _ end) =>
      let K := fresh "K" in
      destruct (channel_kind n) eqn:K;
      [apply channel_kind_first in K; cbn [In] in K
      |apply channel_kind_second in K; cbn [In] in K |]
  end.

Lemma page1_key_slot (on : bool) (k n i : Z) (c : YMF262Impl) :
  n < 9 -> page1_step c (key_slot on k n i c).
Proof. intros Hn. unfold key_slot. repeat page1_peel. Qed.

Lemma page1_key_channel (on : bool) (k n : Z) (c : YMF262Impl) :
  n < 9 -> page1_step c (key_channel on k n c).
Proof.
  intros Hn. unfold key_channel.
  eapply page1_trans; apply page1_key_slot; exact Hn.
Qed.

Lemma page1_set_connect (n i : Z) (cn : Connect) (c : YMF262Impl) :
  n < 9 -> page1_step c (set_connect n i cn c).
Proof. intros Hn. unfold set_connect. repeat page1_peel. Qed.

Lemma page1_refresh_TLL (src n i : Z) (c : YMF262Impl) :
  n < 9 -> page1_step c (refresh_TLL src n i c).
Proof. intros Hn. unfold refresh_TLL. repeat page1_peel. Qed.

Lemma page1_refresh_FC (src n i : Z) (c : YMF262Impl) :
  n < 9 -> page1_step c (refresh_FC src n i c).
Proof. intros Hn. unfold refresh_FC. repeat page1_peel. Qed.

Lemma page1_refresh2 (n : Z) (c : YMF262Impl) :
  n < 9 -> page1_step c (refresh2 n c).
Proof.
  intros Hn. unfold refresh2.
  repeat (eapply page1_trans;
          [| first [apply page1_refresh_FC | apply page1_refresh_TLL]; exact Hn]).
  apply page1_refl.
Qed.

Lemma page1_refresh4 (n : Z) (c : YMF262Impl) :
  n + 3 < 9 -> page1_step c (refresh4 n c).
Proof.
  intros Hn. unfold refresh4.
  repeat (eapply page1_trans;
          [| first [apply page1_refresh_FC | apply page1_refresh_TLL]; lia]).
  apply page1_refl.
Qed.

Lemma page1_set_mul (sl_ v : Z) (c : YMF262Impl) :
  sl_ < 18 -> page1_step c (set_mul sl_ v c).
Proof.
  intros H. unfold set_mul. cbv zeta.
  apply page1_put_cslot. apply Z.div_lt_upper_bound; lia.
Qed.

Lemma page1_set_ksl_tl (sl_ v : Z) (c : YMF262Impl) :
  sl_ < 18 -> page1_step c (set_ksl_tl sl_ v c).
Proof.
  intros H. unfold set_ksl_tl. cbv zeta.
  apply page1_put_cslot. apply Z.div_lt_upper_bound; lia.
Qed.

Lemma page1_set_ar_dr (sl_ v : Z) (c : YMF262Impl) :
  sl_ < 18 -> page1_step c (set_ar_dr sl_ v c).
Proof.
  intros H. unfold set_ar_dr. cbv zeta.
  apply page1_put_cslot. apply Z.div_lt_upper_bound; lia.
Qed.

Lemma page1_set_sl_rr (sl_ v : Z) (c : YMF262Impl) :
  sl_ < 18 -> page1_step c (set_sl_rr sl_ v c).
Proof.
  intros H. unfold set_sl_rr. cbv zeta.
  apply page1_put_cslot. apply Z.div_lt_upper_bound; lia.
Qed.

Lemma page1_resetStatus (flag : Z) (c : YMF262Impl) :
  page1_step c (resetStatus flag c).
Proof.
  unfold resetStatus. cbv zeta.
  match goal with |- context [if ?b then _ else _] => destruct b end;
    apply page1_scalar; reflexivity.
Qed.

Lemma page1_changeStatusMask (flag : Z) (c : YMF262Impl) :
  page1_step c (changeStatusMask flag c).
Proof.
  unfold changeStatusMask. cbv zeta.
  match goal with |- context [if ?b then _ else _] => destruct b end;
    apply page1_scalar; reflexivity.
Qed.

Lemma page1_write_control (r v : Z) (c : YMF262Impl) :
  page1_step c (write_control r v c).
Proof.
  unfold write_control.
  destruct (Z.land r 31) as [| p | p]; try apply page1_refl.
  repeat match goal with
         | |- page1_step _ (match ?q with _ => _ end) => destruct q
         end;
    first [ apply page1_refl
          | apply page1_scalar; reflexivity
          | apply page1_resetStatus
          | eapply page1_trans; [apply page1_changeStatusMask |];
            apply page1_scalar; reflexivity ].
Qed.

Lemma page1_write_rhythm (v : Z) (c : YMF262Impl) :
  page1_step c (write_rhythm 0 v c).
Proof.
  unfold write_rhythm. cbn [Z.eqb negb]. cbv zeta.
  assert (H0 : page1_step c
            (with_rhythm (Z.land v 63)
               (with_lfo_pm_depth_range (if nz (Z.land v 64) then 8 else 0)
                  (with_lfo_am_depth (nz (Z.land v 128)) c))))
    by (apply page1_scalar; reflexivity).
  match goal with |- page1_step _ (if ?b then _ else _) => destruct b end;
    unfold key_channel;
    repeat (eapply page1_trans; [| apply page1_key_slot; lia]);
    exact H0.
Qed.

Lemma page1_key_onoff (on : bool) (n : Z) (c : YMF262Impl) :
  n < 9 -> page1_step c (key_onoff on n c).
Proof.
  intros Hn. unfold key_onoff.
  repeat page1_peel;
    lazymatch goal with
    | |- page1_step _ (key_channel _ _ _ (key_channel _ _ _ _)) =>
        eapply page1_trans; apply page1_key_channel; lia
    | |- page1_step _ (key_channel _ _ _ _) => apply page1_key_channel; lia
    | |- _ => apply page1_refl
    end.
Qed.

Lemma page1_update_fnum (n bf : Z) (c : YMF262Impl) :
  n < 9 -> page1_step c (update_fnum n bf c).
Proof.
  intros Hn. unfold update_fnum. cbv zeta.
  match goal with
  | |- page1_step _ (if ?b then _ else _) => destruct b; [| apply page1_refl]
  end.
  match goal with
  | |- context [put_chan n ?ch c] =>
      assert (H1 : page1_step c (put_chan n ch c))
  end.
  { apply page1_put_chan; [exact Hn |]. destruct (nts c); reflexivity. }
  repeat page1_peel;
    lazymatch goal with
    | |- page1_step _ (refresh2 _ _) =>
        eapply page1_trans; [exact H1 | apply page1_refresh2; lia]
    | |- page1_step _ (refresh4 _ _) =>
        eapply page1_trans; [exact H1 | apply page1_refresh4; lia]
    | |- _ => exact H1
    end.
Qed.

Lemma page1_write_fnum (r v : Z) (c : YMF262Impl) :
  page1_step c (write_fnum 0 r v c).
Proof.
  unfold write_fnum.
  destruct (Z.land r 15 >? 8) eqn:Hr; [apply page1_refl |].
  cbv zeta.
  destruct (negb (nz (Z.land r 16))).
  - apply page1_update_fnum. lia.
  - eapply page1_trans; [apply page1_key_onoff | apply page1_update_fnum]; lia.
Qed.

Lemma page1_connect_2op (n : Z) (c0 c : YMF262Impl) :
  n < 9 -> page1_step c0 c -> page1_step c0 (connect_2op n c).
Proof.
  intros Hn H. unfold connect_2op. cbv zeta.
  repeat (eapply page1_trans; [| apply page1_set_connect; lia]). exact H.
Qed.

Lemma page1_connect_4op (n1 n2 : Z) (c0 c : YMF262Impl) :
  n1 < 9 -> n2 < 9 -> page1_step c0 c -> page1_step c0 (connect_4op n1 n2 c).
Proof.
  intros H1 H2 H. unfold connect_4op.
  destruct (CON (cslot c n1 SLOT1)), (CON (cslot c n2 SLOT1)); cbv zeta;
    repeat (eapply page1_trans; [| apply page1_set_connect; lia]); exact H.
Qed.

Lemma page1_write_connect (r v : Z) (c : YMF262Impl) :
  page1_step c (write_connect 0 r v c).
Proof.
  unfold write_connect.
  destruct (Z.land r 15 >? 8) eqn:Hr; [apply page1_refl |].
  cbv zeta.
  set (n := Z.land r 15 + 0). assert (Hn : n < 9) by lia. clearbody n.
  match goal with
  | |- context [put_cslot n SLOT1 (with_CON ?b ?s) ?c1] =>
      assert (H1 : page1_step c (put_cslot n SLOT1 (with_CON b s) c1))
  end.
  { repeat page1_peel. }
  repeat page1_peel;
    lazymatch goal with
    | |- page1_step _ (connect_2op _ _) => apply page1_connect_2op; [lia | exact H1]
    | |- page1_step _ (connect_4op _ _ _) =>
        apply page1_connect_4op; [lia | lia | exact H1]
    end.
Qed.

Lemma page1_write_waveform (r v : Z) (c : YMF262Impl) :
  page1_step c (write_waveform 0 r v c).
Proof.
  unfold write_waveform.
  destruct (slot_array_range (Z.land r 31)) as [Hneg | Hpos].
  - apply Z.ltb_lt in Hneg. cbv zeta. rewrite Hneg. apply page1_refl.
  - assert (E : (tbl slot_array (Z.land r 31) <? 0) = false) by lia.
    cbv zeta. rewrite E.
    set (sl_ := tbl slot_array (Z.land r 31) + 0 * 2).
    assert (Hs : sl_ / 2 < 9) by (apply Z.div_lt_upper_bound; lia).
    clearbody sl_.
    repeat page1_peel.
Qed.

Lemma page1_write_page (r v : Z) (c : YMF262Impl) :
  page1_step c (write_page 0 r v c).
Proof.
  apply write_page_cases; intros.
  - apply page1_refl.
  - apply page1_write_control.
  - apply page1_set_mul. lia.
  - apply page1_set_ksl_tl. lia.
  - apply page1_set_ar_dr. lia.
  - apply page1_set_sl_rr. lia.
  - apply page1_write_rhythm.
  - apply page1_write_fnum.
  - apply page1_write_connect.
  - apply page1_write_waveform.
Qed.

(** In OPL2 mode [writeReg] folds page 2 onto page 1. *)
Lemma page2_address_folded (r : Z) :
  256 <= r <= 511 ->
  0 <= Z.land r (Z.lnot 0x100) < 256 /\ Z.land (Z.land r (Z.lnot 0x100)) 0x100 = 0.
Proof.
  intros Hr.
  assert (E : r = 256 + (r - 256)) by lia.
  assert (Hk : 0 <= r - 256 < 256) by lia.
  clear Hr. revert E Hk. generalize (r - 256). intros k E Hk. subst r.
  assert (H : (fun k => (Z.land (256 + k) (Z.lnot 0x100) =? k)
                        && (Z.land k 0x100 =? 0)) k = true).
  { revert k Hk. apply byte_forallb. vm_compute. reflexivity. }
  cbv beta in H. apply andb_true_iff in H. destruct H as [H1 H2].
  apply Z.eqb_eq in H1, H2. rewrite H1. split; [lia | exact H2].
Qed.

Lemma low_bit_odd (v : Z) : nz (Z.land (byte_of v) 0x01) = Z.odd v.
Proof.
  assert (E : Z.land (byte_of v) 1 = byte_of v mod 2)
    by (apply (Z.land_ones (byte_of v) 1); lia).
  unfold nz. rewrite E, Zmod_odd.
  assert (Ho : Z.odd (byte_of v) = Z.odd v).
  { rewrite <- !Z.bit0_odd. unfold byte_of. change 256 with (2 ^ 8).
    apply Z.mod_pow2_bits_low. lia. }
  rewrite Ho. destruct (Z.odd v); reflexivity.
Qed.

(** C4.  In OPL2 mode (extended mode disabled) a [writeReg] to an address
    in [256, 511] other than 0x105 modifies no page-2 state: the register
    file above 255, the channels 9-17 and their output masks, the
    4-operator flags, the mode flag and [status2] are as before.  Register
    0x105 is decoded in either mode, stores the byte written and sets the
    mode flag to bit 0 of that byte. *)
Theorem page2_gated_by_mode (r v : Z) (c : YMF262Impl) :
  wf c ->
  (256 <= r <= 511 -> r <> 0x105 -> OPL3_mode c = false ->
   page2_same c (writeReg r v c)) /\
  (OPL3_mode (writeReg 0x105 v c) = Z.odd v /\
   peekReg 0x105 (writeReg 0x105 v c) = byte_of v).
Proof.
  intros Hwf. split.
  - intros Hr Hne Hmode.
    unfold writeReg. rewrite Hmode.
    assert (E : (r =? 0x105) = false) by lia. rewrite E. cbn [negb andb].
    destruct (page2_address_folded r Hr) as [Hlo Hbit].
    set (r' := Z.land r (Z.lnot 256)) in *. clearbody r'.
    unfold writeRegForce. cbv zeta. rewrite Hbit. cbn [nz Z.eqb negb].
    assert (H : page1_step c
                  (write_page 0 r' (byte_of v)
                     (with_reg (aset (reg c) r' (byte_of v)) c))).
    { eapply page1_trans; [| apply page1_write_page]. apply page1_reg. lia. }
    exact (proj2 (H Hwf)).
  - assert (E : writeReg 0x105 v c =
                let c1 := with_OPL3_mode (nz (Z.land (byte_of v) 0x01))
                            (with_reg (aset (reg c) 0x105 (byte_of v)) c) in
                if OPL3_mode c1 then with_status2 0x02 c1 else c1).
    { unfold writeReg. cbn [Z.eqb Pos.eqb negb andb]. rewrite andb_false_r.
      reflexivity. }
    rewrite E. cbv zeta. cbn [OPL3_mode with_OPL3_mode].
    destruct Hwf as (_ & Hreg & _).
    rewrite low_bit_odd.
    destruct (Z.odd v); unfold peekReg; cbn -[aset aget]; rewrite aget_aset, Hreg;
      split; reflexivity.
Qed.

Lemma page2_gated_by_mode_witness :
  chan (writeReg 0x1B0 0x20 power_on) 9 = chan power_on 9 /\
  OPL3_mode (writeReg 0x105 1 power_on) = true.
Proof.
  split.
  - destruct (page2_gated_by_mode 0x1B0 0x20 power_on wf_power_on) as [H _].
    destruct H as (_ & H & _); [lia | discriminate | reflexivity |].
    apply H. lia.
  - destruct (page2_gated_by_mode 0x105 1 power_on wf_power_on) as [_ [H _]].
    exact H.
Defined.

(** ** The mute fast path *)

(** C7 (the code departs from it).  On the chip as constructed every
    operator is OFF, so [generateChannels] takes the silence fast path and
    returns the state untouched, while the full per-sample path for the same
    single sample advances the envelope counter, the two LFO counters and
    the noise register: the two states differ, whatever the tables hold. *)
Theorem mute_fast_path_skips_advance (T : Tables) :
  checkMuteHelper power_on = true /\
  generateChannels T 1 power_on = (Muted, power_on) /\
  eg_cnt power_on = 0 /\
  eg_cnt (snd (generateChannels_full T 1 power_on)) = 1 /\
  lfo_am_cnt (snd (generateChannels_full T 1 power_on)) = 1 /\
  lfo_pm_cnt (snd (generateChannels_full T 1 power_on)) = 1 /\
  noise_rng power_on = 1 /\
  noise_rng (snd (generateChannels_full T 1 power_on)) = 0x400181 /\
  snd (generateChannels T 1 power_on) <> snd (generateChannels_full T 1 power_on).
Proof.
  assert (Hm : checkMuteHelper power_on = true) by (vm_compute; reflexivity).
  assert (Hg : generateChannels T 1 power_on = (Muted, power_on)).
  { unfold generateChannels. rewrite Hm. reflexivity. }
  assert (He : eg_cnt (snd (generateChannels_full T 1 power_on)) = 1)
    by (lazy; reflexivity).
  assert (H0 : eg_cnt power_on = 0) by (lazy; reflexivity).
  split; [exact Hm |]. split; [exact Hg |]. split; [exact H0 |].
  split; [exact He |].
  split; [lazy; reflexivity |]. split; [lazy; reflexivity |].
  split; [lazy; reflexivity |]. split; [lazy; reflexivity |].
  rewrite Hg. cbn [snd]. intros E.
  rewrite <- E, H0 in He. discriminate He.
Qed.

(** ** Steps that leave the envelope state and the keys alone *)

Lemma quiet_refl (c : YMF262Impl) : quiet_step c c.
Proof. intros H. split; [exact H | reflexivity]. Qed.

Lemma quiet_trans (a b c : YMF262Impl) :
  quiet_step a b -> quiet_step b c -> quiet_step a c.
Proof.
  intros Hab Hbc Ha. destruct (Hab Ha) as [Hb A]. destruct (Hbc Hb) as [Hc B].
  split; [exact Hc |]. intros m j. rewrite B, A. reflexivity.
Qed.

Lemma cslot_same_slot (c : YMF262Impl) (n i j : Z) :
  same_slot i j = true -> cslot c n i = cslot c n j.
Proof.
  unfold same_slot, cslot, slots. destruct (i =? 0), (j =? 0); try discriminate; reflexivity.
Qed.

Lemma quiet_put_cslot (n i : Z) (x : YMF262Slot) (c : YMF262Impl) :
  kst x = kst (cslot c n i) -> quiet_step c (put_cslot n i x c).
Proof.
  intros Hx Hwf. split; [apply wf_put_cslot; exact Hwf |].
  intros m j. rewrite cslot_put_cslot by exact Hwf.
  destruct ((n =? m) && in18 n && same_slot i j) eqn:E; [| reflexivity].
  apply andb_true_iff in E. destruct E as [E Es].
  apply andb_true_iff in E. destruct E as [E _]. apply Z.eqb_eq in E. subst m.
  rewrite Hx, (cslot_same_slot c n i j Es). reflexivity.
Qed.

Lemma quiet_put_chan (n : Z) (ch : YMF262Channel) (c : YMF262Impl) :
  kst (slot1 ch) = kst (slot1 (chan c n)) ->
  kst (slot2 ch) = kst (slot2 (chan c n)) ->
  quiet_step c (put_chan n ch c).
Proof.
  intros H1 H2 Hwf. split; [apply wf_put_chan; exact Hwf |].
  intros m j. unfold cslot. rewrite chan_put_chan by exact Hwf.
  destruct ((n =? m) && in18 n) eqn:E; [| reflexivity].
  apply andb_true_iff in E. destruct E as [E _]. apply Z.eqb_eq in E. subst m.
  unfold slots. destruct (j =? 0); assumption.
Qed.

Lemma quiet_scalar (c c' : YMF262Impl) :
  channels c' = channels c ->
  length (reg c') = length (reg c) ->
  length (pan c') = length (pan c) ->
  length (chanout c') = length (chanout c) ->
  quiet_step c c'.
Proof.
  intros E1 E2 E3 E4 (H1 & H2 & H3 & H4). split.
  - unfold wf. rewrite E1, E2, E3, E4. tauto.
  - intros m j. unfold cslot, chan. rewrite E1. reflexivity.
Qed.

Lemma kst_CALC_FCSLOT (ch : YMF262Channel) (s : YMF262Slot) :
  kst (CALC_FCSLOT ch s) = kst s.
Proof.
  unfold CALC_FCSLOT. cbv zeta.
  repeat match goal with |- context [if ?b then _ else _] => destruct b end;
    reflexivity.
Qed.

Lemma kst_total_level (ch : YMF262Channel) (s : YMF262Slot) :
  kst (total_level ch s) = kst s.
Proof. reflexivity. Qed.

Lemma kst_advancePhaseGenerator (ch : YMF262Channel) (pm : Z) (s : YMF262Slot) :
  kst (advancePhaseGenerator ch pm s) = kst s.
Proof.
  unfold advancePhaseGenerator. cbv zeta.
  repeat match goal with |- context [if ?b then _ else _] => destruct b end;
    reflexivity.
Qed.

(** The new slot is the old one but for fields other than [state] and
    [key]. *)
Ltac kst_same :=
  unfold cslot;
  repeat match goal with
         | |- context [if ?b then _ else _] => destruct b
         | |- context [match channel_kind ?n with _ => _ end] => destruct (channel_kind n)
         end;
  rewrite ?kst_CALC_FCSLOT, ?kst_total_level; reflexivity.

Ltac quiet_peel :=
  lazymatch goal with
  | |- quiet_step ?c ?c => apply quiet_refl
  | |- quiet_step ?c (put_cslot ?n ?i ?x ?c1) =>
      apply (quiet_trans c c1); [| apply quiet_put_cslot; kst_same]
  | |- quiet_step ?c (with_reg (aset (reg ?c1) ?a ?v) ?c1) =>
      apply (quiet_trans c c1);
      [| apply quiet_scalar; cbn -[aset]; rewrite ?aset_length; reflexivity]
  | |- quiet_step ?c (with_pan (aset (pan ?c1) ?k ?x) ?c1) =>
      apply (quiet_trans c c1);
      [| apply quiet_scalar; cbn -[aset]; rewrite ?aset_length; reflexivity]
  | |- quiet_step ?c (if ?b then _ else _) => destruct b eqn:?
  | |- quiet_step ?c (match channel_kind ?n with _ => _ end) =>
      destruct (channel_kind n) eqn:?
  end.

Lemma quiet_set_mul (sl_ v : Z) (c : YMF262Impl) : quiet_step c (set_mul sl_ v c).
Proof. unfold set_mul. cbv zeta. apply quiet_put_cslot. kst_same. Qed.

Lemma quiet_set_ksl_tl (sl_ v : Z) (c : YMF262Impl) : quiet_step c (set_ksl_tl sl_ v c).
Proof. unfold set_ksl_tl. cbv zeta. apply quiet_put_cslot. kst_same. Qed.

Lemma quiet_set_ar_dr (sl_ v : Z) (c : YMF262Impl) : quiet_step c (set_ar_dr sl_ v c).
Proof. unfold set_ar_dr. cbv zeta. apply quiet_put_cslot. kst_same. Qed.

Lemma quiet_set_sl_rr (sl_ v : Z) (c : YMF262Impl) : quiet_step c (set_sl_rr sl_ v c).
Proof. unfold set_sl_rr. cbv zeta. apply quiet_put_cslot. kst_same. Qed.

Lemma quiet_resetStatus (flag : Z) (c : YMF262Impl) : quiet_step c (resetStatus flag c).
Proof.
  unfold resetStatus. cbv zeta.
  match goal with |- context [if ?b then _ else _] => destruct b end;
    apply quiet_scalar; reflexivity.
Qed.

Lemma quiet_changeStatusMask (flag : Z) (c : YMF262Impl) :
  quiet_step c (changeStatusMask flag c).
Proof.
  unfold changeStatusMask. cbv zeta.
  match goal with |- context [if ?b then _ else _] => destruct b end;
    apply quiet_scalar; reflexivity.
Qed.

Lemma quiet_setStatus (flag : Z) (c : YMF262Impl) : quiet_step c (setStatus flag c).
Proof.
  unfold setStatus. cbv zeta.
  match goal with |- context [if ?b then _ else _] => destruct b end;
    apply quiet_scalar; reflexivity.
Qed.

Lemma quiet_write_control (r v : Z) (c : YMF262Impl) : quiet_step c (write_control r v c).
Proof.
  unfold write_control.
  destruct (Z.land r 31) as [| p | p]; try apply quiet_refl.
  repeat match goal with
         | |- quiet_step _ (match ?q with _ => _ end) => destruct q
         end;
    first [ apply quiet_refl
          | apply quiet_scalar; reflexivity
          | apply quiet_resetStatus
          | eapply quiet_trans; [apply quiet_changeStatusMask |];
            apply quiet_scalar; reflexivity ].
Qed.

Lemma quiet_set_connect (n i : Z) (cn : Connect) (c : YMF262Impl) :
  quiet_step c (set_connect n i cn c).
Proof. unfold set_connect. apply quiet_put_cslot. reflexivity. Qed.

Lemma quiet_connect_2op (n : Z) (c0 c : YMF262Impl) :
  quiet_step c0 c -> quiet_step c0 (connect_2op n c).
Proof.
  intros H. unfold connect_2op. cbv zeta.
  repeat (eapply quiet_trans; [| apply quiet_set_connect]). exact H.
Qed.

Lemma quiet_connect_4op (n1 n2 : Z) (c0 c : YMF262Impl) :
  quiet_step c0 c -> quiet_step c0 (connect_4op n1 n2 c).
Proof.
  intros H. unfold connect_4op.
  destruct (CON (cslot c n1 SLOT1)), (CON (cslot c n2 SLOT1)); cbv zeta;
    repeat (eapply quiet_trans; [| apply quiet_set_connect]); exact H.
Qed.

Lemma quiet_write_connect (ch_offset r v : Z) (c : YMF262Impl) :
  quiet_step c (write_connect ch_offset r v c).
Proof.
  unfold write_connect.
  destruct (Z.land r 15 >? 8) eqn:Hr; [apply quiet_refl |].
  cbv zeta.
  set (n := Z.land r 15 + ch_offset). clearbody n.
  match goal with
  | |- context [put_cslot n SLOT1 (with_CON ?b ?s) ?c1] =>
      assert (H1 : quiet_step c (put_cslot n SLOT1 (with_CON b s) c1))
  end.
  { repeat quiet_peel. }
  repeat quiet_peel;
    lazymatch goal with
    | |- quiet_step _ (connect_2op _ _) => apply quiet_connect_2op; exact H1
    | |- quiet_step _ (connect_4op _ _ _) => apply quiet_connect_4op; exact H1
    end.
Qed.

Lemma quiet_write_waveform (ch_offset r v : Z) (c : YMF262Impl) :
  quiet_step c (write_waveform ch_offset r v c).
Proof.
  unfold write_waveform. cbv zeta.
  destruct (tbl slot_array (Z.land r 31) <? 0); [apply quiet_refl |].
  repeat quiet_peel.
Qed.

Lemma quiet_refresh2 (n : Z) (c : YMF262Impl) : quiet_step c (refresh2 n c).
Proof.
  unfold refresh2, refresh_FC, refresh_TLL. cbv zeta. repeat quiet_peel.
Qed.

Lemma quiet_refresh4 (n : Z) (c : YMF262Impl) : quiet_step c (refresh4 n c).
Proof.
  unfold refresh4, refresh_FC, refresh_TLL. cbv zeta. repeat quiet_peel.
Qed.

Lemma quiet_set_extended (n bit v : Z) (c : YMF262Impl) :
  quiet_step c (set_extended n bit v c).
Proof.
  unfold set_extended, update_channels. cbv zeta.
  repeat match goal with |- context [if ?b then _ else _] => destruct b end;
    apply quiet_put_chan; reflexivity.
Qed.

Lemma quiet_update_fnum (n bf : Z) (c : YMF262Impl) : quiet_step c (update_fnum n bf c).
Proof.
  unfold update_fnum. cbv zeta.
  match goal with
  | |- quiet_step _ (if ?b then _ else _) => destruct b; [| apply quiet_refl]
  end.
  match goal with
  | |- context [put_chan n ?ch c] =>
      assert (H1 : quiet_step c (put_chan n ch c))
  end.
  { apply quiet_put_chan; destruct (nts c); reflexivity. }
  repeat quiet_peel;
    lazymatch goal with
    | |- quiet_step _ (refresh2 _ _) =>
        eapply quiet_trans; [exact H1 | apply quiet_refresh2]
    | |- quiet_step _ (refresh4 _ _) =>
        eapply quiet_trans; [exact H1 | apply quiet_refresh4]
    | |- _ => exact H1
    end.
Qed.

(** ** Steps that key operators on or off *)

Lemma kst_FM_KEYON (k : Z) (s : YMF262Slot) : kst (FM_KEYON k s) = keyon_kst k (kst s).
Proof.
  unfold FM_KEYON, keyon_kst, kst. cbn [fst snd].
  destruct (key s =? 0); reflexivity.
Qed.

Lemma kst_FM_KEYOFF (k : Z) (s : YMF262Slot) : kst (FM_KEYOFF k s) = keyoff_kst k (kst s).
Proof.
  destruct s as [? ? ? ? ? ? ? ? ? ? ? ? ? ? ? ? ? ? ? ky ? ? ? st ? ? ? ? ? ? ? ? ? ?].
  unfold FM_KEYOFF, keyoff_kst, kst. cbn [fst snd key state with_key].
  destruct (ky =? 0); [reflexivity |]. cbv zeta.
  destruct (byte_of (Z.land ky (Z.lnot k)) =? 0); [| reflexivity].
  destruct st; reflexivity.
Qed.

Lemma key_of_quiet (a b : YMF262Impl) : quiet_step a b -> key_step a b.
Proof.
  intros H Ha. destruct (H Ha) as [Hb Q]. split; [exact Hb |].
  intros m j. left. apply Q.
Qed.

Lemma quiet_then_key (a b c : YMF262Impl) :
  quiet_step a b -> key_step b c -> key_step a c.
Proof.
  intros Hab Hbc Ha. destruct (Hab Ha) as [Hb Q]. destruct (Hbc Hb) as [Hc K].
  split; [exact Hc |]. intros m j. specialize (K m j).
  unfold key_related in *. rewrite <- (Q m j). exact K.
Qed.

Lemma key_then_quiet (a b c : YMF262Impl) :
  key_step a b -> quiet_step b c -> key_step a c.
Proof.
  intros Hab Hbc Ha. destruct (Hab Ha) as [Hb K]. destruct (Hbc Hb) as [Hc Q].
  split; [exact Hc |]. intros m j. specialize (K m j).
  unfold key_related in *. rewrite (Q m j). exact K.
Qed.

Ltac key_related_tac :=
  lazymatch goal with
  | |- key_related ?x ?x => left; reflexivity
  | |- key_related ?x (FM_KEYON ?k ?x) =>
      right; exists k; split; [auto | left; apply kst_FM_KEYON]
  | |- key_related ?x (FM_KEYOFF ?k ?x) =>
      right; exists k; split; [auto | right; apply kst_FM_KEYOFF]
  | |- key_related ?x ((if ?b then _ else _) ?x) => destruct b; key_related_tac
  end.

(** Decide which of the keyed slots, if any, slot [j] of channel [m] is. *)
Ltac key_slot_cases :=
  unfold same_slot, SLOT1, SLOT2; cbn [Z.eqb Bool.eqb];
  repeat match goal with
         | |- context [?a =? ?b] =>
             lazymatch a with
             | 0 => fail
             | _ => let E := fresh "E" in destruct (a =? b) eqn:E
             end
         | |- context [in18 ?n] => destruct (in18 n)
         end;
  cbn [andb Bool.eqb negb];
  try (exfalso; lia);
  key_related_tac.

Lemma key_key_channels (on : bool) (n : Z) (c : YMF262Impl) :
  key_step c (key_channel on 1 n c) /\
  key_step c (key_channel on 1 (n + 3) (key_channel on 1 n c)).
Proof.
  unfold key_channel. split; intros Hwf;
    (split; [repeat apply wf_key_slot; exact Hwf |]);
    intros m j;
    rewrite !cslot_key_slot by (repeat apply wf_key_slot; exact Hwf);
    key_slot_cases.
Qed.

Lemma key_key_onoff (on : bool) (n : Z) (c : YMF262Impl) : key_step c (key_onoff on n c).
Proof.
  unfold key_onoff.
  destruct (key_key_channels on n c) as [H2 H4].
  repeat match goal with
         | |- key_step _ (if ?b then _ else _) => destruct b
         | |- key_step _ (match channel_kind ?k with _ => _ end) => destruct (channel_kind k)
         end;
    lazymatch goal with
    | |- key_step _ (key_channel _ _ _ (key_channel _ _ _ _)) => exact H4
    | |- key_step _ (key_channel _ _ _ _) => exact H2
    | |- _ => apply key_of_quiet, quiet_refl
    end.
Qed.

Lemma key_write_fnum (ch_offset r v : Z) (c : YMF262Impl) :
  key_step c (write_fnum ch_offset r v c).
Proof.
  unfold write_fnum.
  destruct (Z.land r 15 >? 8); [apply key_of_quiet, quiet_refl |].
  cbv zeta.
  destruct (negb (nz (Z.land r 16))).
  - apply key_of_quiet, quiet_update_fnum.
  - eapply key_then_quiet; [apply key_key_onoff | apply quiet_update_fnum].
Qed.

Lemma cslot_key_slot_other (on : bool) (k n i m j : Z) (c : YMF262Impl) :
  wf c -> n <> m \/ same_slot i j = false ->
  cslot (key_slot on k n i c) m j = cslot c m j.
Proof.
  intros Hwf H. rewrite cslot_key_slot by exact Hwf.
  destruct H as [H | H].
  - assert (E : (n =? m) = false) by lia. rewrite E. reflexivity.
  - rewrite H, andb_false_r. reflexivity.
Qed.

(** Keying one more slot, untouched so far, keeps a key step a key step. *)
Lemma key_step_key_slot (on : bool) (k n i : Z) (a b : YMF262Impl) :
  k = 1 \/ k = 2 ->
  key_step a b ->
  (wf a -> cslot b n i = cslot a n i) ->
  key_step a (key_slot on k n i b).
Proof.
  intros Hk Hab Hsame Ha. destruct (Hab Ha) as [Hb K].
  split; [apply wf_key_slot; exact Hb |].
  intros m j. rewrite cslot_key_slot by exact Hb.
  destruct ((n =? m) && in18 n && same_slot i j) eqn:E; [| apply K].
  apply andb_true_iff in E. destruct E as [E Es].
  apply andb_true_iff in E. destruct E as [E _]. apply Z.eqb_eq in E. subst m.
  rewrite <- (cslot_same_slot b n i j Es), <- (cslot_same_slot a n i j Es).
  rewrite (Hsame Ha).
  destruct on; key_related_tac.
Qed.

Lemma key_write_rhythm (ch_offset v : Z) (c : YMF262Impl) :
  key_step c (write_rhythm ch_offset v c).
Proof.
  unfold write_rhythm.
  destruct (negb (ch_offset =? 0)); [apply key_of_quiet, quiet_refl |].
  cbv zeta.
  set (c0 := with_rhythm (Z.land v 63)
               (with_lfo_pm_depth_range (if nz (Z.land v 64) then 8 else 0)
                  (with_lfo_am_depth (nz (Z.land v 128)) c))).
  assert (Q0 : quiet_step c c0) by (apply quiet_scalar; reflexivity).
  apply (quiet_then_key c c0); [exact Q0 |]. clearbody c0.
  match goal with |- key_step _ (if ?b then _ else _) => destruct b end;
    unfold key_channel;
    repeat (apply key_step_key_slot;
            [ auto
            |
            | intros Hwf;
              repeat (rewrite cslot_key_slot_other;
                      [| repeat apply wf_key_slot; exact Hwf
                       | first [left; lia | right; reflexivity]]);
              reflexivity ]);
    apply key_of_quiet, quiet_refl.
Qed.

Lemma key_write_page (ch_offset r v : Z) (c : YMF262Impl) :
  key_step c (write_page ch_offset r v c).
Proof.
  apply write_page_cases; intros.
  - apply key_of_quiet, quiet_refl.
  - apply key_of_quiet, quiet_write_control.
  - apply key_of_quiet, quiet_set_mul.
  - apply key_of_quiet, quiet_set_ksl_tl.
  - apply key_of_quiet, quiet_set_ar_dr.
  - apply key_of_quiet, quiet_set_sl_rr.
  - apply key_write_rhythm.
  - apply key_write_fnum.
  - apply key_of_quiet, quiet_write_connect.
  - apply key_of_quiet, quiet_write_waveform.
Qed.

Lemma quiet_with_reg (a v : Z) (c : YMF262Impl) :
  quiet_step c (with_reg (aset (reg c) a v) c).
Proof. apply quiet_scalar; cbn -[aset]; rewrite ?aset_length; reflexivity. Qed.

Lemma key_writeRegForce (r v : Z) (c : YMF262Impl) : key_step c (writeRegForce r v c).
Proof.
  unfold writeRegForce. cbv zeta.
  apply (quiet_then_key c (with_reg (aset (reg c) r (byte_of v)) c));
    [apply quiet_with_reg |].
  set (c1 := with_reg (aset (reg c) r (byte_of v)) c). clearbody c1.
  destruct (nz (Z.land r 256)); [| apply key_write_page].
  assert (Hdef : key_step c1 (write_page 9 r (byte_of v) c1)) by apply key_write_page.
  assert (H101 : key_step c1 c1) by apply key_of_quiet, quiet_refl.
  assert (H104 : key_step c1
            (set_extended 11 5 (byte_of v) (set_extended 10 4 (byte_of v)
               (set_extended 9 3 (byte_of v) (set_extended 2 2 (byte_of v)
                  (set_extended 1 1 (byte_of v) (set_extended 0 0 (byte_of v) c1))))))).
  { apply key_of_quiet.
    repeat (eapply quiet_trans; [| apply quiet_set_extended]). apply quiet_refl. }
  assert (H105 : key_step c1
            (if OPL3_mode (with_OPL3_mode (nz (Z.land (byte_of v) 1)) c1)
             then with_status2 2 (with_OPL3_mode (nz (Z.land (byte_of v) 1)) c1)
             else with_OPL3_mode (nz (Z.land (byte_of v) 1)) c1)).
  { apply key_of_quiet.
    match goal with |- quiet_step _ (if ?b then _ else _) => destruct b end;
      apply quiet_scalar; reflexivity. }
  destruct r as [| p | p]; try exact Hdef.
  do 9 (try (destruct p as [p | p |]); try exact Hdef);
    lazymatch goal with
    | |- key_step _ (set_extended _ _ _ _) => exact H104
    | |- key_step _ (if _ then _ else _) => exact H105
    | |- key_step ?a ?a => exact H101
    end.
Qed.

Lemma key_writeReg (r v : Z) (c : YMF262Impl) : key_step c (writeReg r v c).
Proof. unfold writeReg. apply key_writeRegForce. Qed.

(** ** The sample step *)

Lemma quiet_connect_add (cn : Connect) (x : Z) (c : YMF262Impl) :
  quiet_step c (connect_add cn x c).
Proof.
  destruct cn; cbn [connect_add];
    first [apply quiet_refl
          | apply quiet_scalar; cbn -[aset]; rewrite ?aset_length; reflexivity].
Qed.

Lemma quiet_chanout_add (n x : Z) (c : YMF262Impl) : quiet_step c (chanout_add n x c).
Proof.
  unfold chanout_add. apply quiet_scalar; cbn -[aset]; rewrite ?aset_length; reflexivity.
Qed.

Ltac quiet_calc :=
  lazymatch goal with
  | |- quiet_step ?c ?c => apply quiet_refl
  | |- quiet_step ?c (connect_add ?cn ?x ?c1) =>
      apply (quiet_trans c c1); [| apply quiet_connect_add]
  | |- quiet_step ?c (chanout_add ?n ?x ?c1) =>
      apply (quiet_trans c c1); [| apply quiet_chanout_add]
  | |- quiet_step ?c (put_cslot ?n ?i ?x ?c1) =>
      apply (quiet_trans c c1); [| apply quiet_put_cslot; reflexivity]
  | |- quiet_step ?c (with_phase_modulation ?x ?c1) =>
      apply (quiet_trans c c1); [| apply quiet_scalar; reflexivity]
  | |- quiet_step ?c (with_phase_modulation2 ?x ?c1) =>
      apply (quiet_trans c c1); [| apply quiet_scalar; reflexivity]
  | |- quiet_step ?c (if ?b then _ else _) => destruct b
  end.

Lemma quiet_chan_calc (T : Tables) (n a : Z) (c : YMF262Impl) :
  quiet_step c (chan_calc T n a c).
Proof. unfold chan_calc. cbv zeta. repeat quiet_calc. Qed.

Lemma quiet_chan_calc_ext (T : Tables) (n a : Z) (c : YMF262Impl) :
  quiet_step c (chan_calc_ext T n a c).
Proof. unfold chan_calc_ext. cbv zeta. repeat quiet_calc. Qed.

Lemma quiet_chan_calc_rhythm (T : Tables) (c : YMF262Impl) :
  quiet_step c (chan_calc_rhythm T c).
Proof.
  unfold chan_calc_rhythm. cbv zeta.
  repeat match goal with |- context [if ?b then _ else _] => destruct b end;
    repeat quiet_calc.
Qed.

Lemma quiet_calc_pair (T : Tables) (n : Z) (c : YMF262Impl) :
  quiet_step c (calc_pair T n c).
Proof.
  unfold calc_pair. cbv zeta.
  match goal with |- quiet_step _ (if ?b then _ else _) => destruct b end;
    lazymatch goal with
    | |- quiet_step ?c (chan_calc_ext ?T ?n ?a ?c1) =>
        apply (quiet_trans c c1); [apply quiet_chan_calc | apply quiet_chan_calc_ext]
    | |- quiet_step ?c (chan_calc ?T ?n ?a ?c1) =>
        apply (quiet_trans c c1); apply quiet_chan_calc
    end.
Qed.

Lemma quiet_advance_lfo (c : YMF262Impl) : quiet_step c (advance_lfo c).
Proof.
  unfold advance_lfo. cbv zeta.
  repeat match goal with |- context [if ?b then _ else _] => destruct b end;
    apply quiet_scalar; reflexivity.
Qed.

Lemma quiet_clear_chanout (c : YMF262Impl) : quiet_step c (with_chanout (repeat 0 18) c).
Proof.
  intros (H1 & H2 & H3 & H4). split.
  - unfold wf. cbn. tauto.
  - reflexivity.
Qed.

Ltac quiet_chain :=
  lazymatch goal with
  | |- quiet_step ?c (chan_calc ?T ?n ?a ?c1) =>
      apply (quiet_trans c c1); [| apply quiet_chan_calc]
  | |- quiet_step ?c (calc_pair ?T ?n ?c1) =>
      apply (quiet_trans c c1); [| apply quiet_calc_pair]
  | |- quiet_step ?c (chan_calc_rhythm ?T ?c1) =>
      apply (quiet_trans c c1); [| apply quiet_chan_calc_rhythm]
  | |- quiet_step ?c (with_chanout (repeat 0 18) ?c1) =>
      apply (quiet_trans c c1); [| apply quiet_clear_chanout]
  | |- quiet_step ?c (advance_lfo ?c) => apply quiet_advance_lfo
  end.

(** The channel evaluation of one sample, before [advance]. *)
Lemma quiet_evaluate (T : Tables) (b : bool) (c : YMF262Impl) :
  exists c1, snd (generate_sample T b c) = advance c1 /\ quiet_step c c1.
Proof.
  unfold generate_sample. cbv zeta. cbn [snd].
  eexists. split; [reflexivity |].
  destruct (negb b); repeat quiet_chain.
Qed.

Lemma cslot_advance_slot (n i m j : Z) (c : YMF262Impl) :
  wf c ->
  wf (advance_slot n i c) /\
  (n <> m \/ same_slot i j = false -> cslot (advance_slot n i c) m j = cslot c m j) /\
  gen_related (cslot c m j) (cslot (advance_slot n i c) m j).
Proof.
  intros Hwf. unfold advance_slot. cbv zeta.
  set (c1 := put_cslot n i (advanceEnvelopeGenerator (eg_cnt c) (cslot c n i)) c).
  assert (Hwf1 : wf c1) by (apply wf_put_cslot; exact Hwf).
  split; [apply wf_put_cslot; exact Hwf1 |].
  assert (E : cslot (put_cslot n i
                (advancePhaseGenerator (chan c1 n) (LFO_PM c1) (cslot c1 n i)) c1) m j =
              if (n =? m) && in18 n && same_slot i j
              then advancePhaseGenerator (chan c1 n) (LFO_PM c1)
                     (advanceEnvelopeGenerator (eg_cnt c) (cslot c m j))
              else cslot c m j).
  { rewrite cslot_put_cslot by exact Hwf1.
    destruct ((n =? m) && in18 n && same_slot i j) eqn:C.
    - f_equal. unfold c1. rewrite cslot_put_cslot by exact Hwf.
      apply andb_true_iff in C. destruct C as [C Cs].
      apply andb_true_iff in C. destruct C as [C Cr]. apply Z.eqb_eq in C. subst m.
      rewrite Z.eqb_refl, Cr. unfold same_slot at 1. rewrite eqb_reflx. cbn [andb].
      rewrite (cslot_same_slot c n i j Cs). reflexivity.
    - unfold c1. rewrite cslot_put_cslot by exact Hwf. rewrite C. reflexivity. }
  rewrite E. split.
  - intros [H | H].
    + assert (C : (n =? m) = false) by lia. rewrite C. reflexivity.
    + rewrite H, andb_false_r. reflexivity.
  - destruct ((n =? m) && in18 n && same_slot i j).
    + right. exists (eg_cnt c), (cslot c m j). split; [reflexivity |].
      apply kst_advancePhaseGenerator.
    + left. reflexivity.
Qed.

(** The two operators of one channel. *)
Lemma cslot_advance_channel (n m j : Z) (c : YMF262Impl) :
  wf c ->
  wf (advance_slot n 1 (advance_slot n 0 c)) /\
  (n <> m -> cslot (advance_slot n 1 (advance_slot n 0 c)) m j = cslot c m j) /\
  gen_related (cslot c m j) (cslot (advance_slot n 1 (advance_slot n 0 c)) m j).
Proof.
  intros Hwf.
  destruct (cslot_advance_slot n 0 m j c Hwf) as (Hwf0 & U0 & G0).
  destruct (cslot_advance_slot n 1 m j (advance_slot n 0 c) Hwf0) as (Hwf1 & U1 & G1).
  split; [exact Hwf1 |]. split.
  - intros Hne. rewrite U1, U0 by (left; exact Hne). reflexivity.
  - destruct (j =? 0) eqn:Hj.
    + rewrite U1 by (right; unfold same_slot; rewrite Hj; reflexivity). exact G0.
    + rewrite U0 in G1 by (right; unfold same_slot; rewrite Hj; reflexivity). exact G1.
Qed.

Lemma gen_advance_fold (l : list Z) :
  forall c, List.NoDup l -> wf c ->
  wf (fold_left (fun c n => advance_slot n 1 (advance_slot n 0 c)) l c) /\
  forall m j,
    (~ In m l ->
     cslot (fold_left (fun c n => advance_slot n 1 (advance_slot n 0 c)) l c) m j
     = cslot c m j) /\
    gen_related (cslot c m j)
      (cslot (fold_left (fun c n => advance_slot n 1 (advance_slot n 0 c)) l c) m j).
Proof.
  induction l as [| n l IH]; intros c Hnd Hwf; cbn [fold_left].
  - split; [exact Hwf |]. intros m j. split; [reflexivity | left; reflexivity].
  - inversion Hnd as [| ? ? Hnin Hnd']; subst.
    set (c1 := advance_slot n 1 (advance_slot n 0 c)).
    assert (Hwf1 : wf c1) by (apply (cslot_advance_channel n 0 0 c Hwf)).
    destruct (IH c1 Hnd' Hwf1) as [Hwf' H].
    split; [exact Hwf' |]. intros m j.
    destruct (H m j) as [Hun Hg].
    destruct (cslot_advance_channel n m j c Hwf) as (_ & Hun1 & Hg1). fold c1 in Hun1, Hg1.
    split.
    + intros Hni. rewrite Hun by (intros F; apply Hni; right; exact F).
      apply Hun1. intros F. apply Hni. left. exact F.
    + destruct (Z.eq_dec n m) as [-> | Hne].
      * rewrite Hun by exact Hnin. exact Hg1.
      * rewrite (Hun1 Hne) in Hg. exact Hg.
Qed.

Lemma quiet_then_gen (a b c : YMF262Impl) :
  quiet_step a b -> gen_step b c -> gen_step a c.
Proof.
  intros Hab Hbc Ha. destruct (Hab Ha) as [Hb Q]. destruct (Hbc Hb) as [Hc G].
  split; [exact Hc |]. intros m j. specialize (G m j). specialize (Q m j).
  unfold gen_related in *. destruct G as [G | (cnt & s1 & G1 & G2)].
  - left. congruence.
  - right. exists cnt, s1. split; [congruence | exact G2].
Qed.

Lemma gen_then_quiet (a b c : YMF262Impl) :
  gen_step a b -> quiet_step b c -> gen_step a c.
Proof.
  intros Hab Hbc Ha. destruct (Hab Ha) as [Hb G]. destruct (Hbc Hb) as [Hc Q].
  split; [exact Hc |]. intros m j. specialize (G m j). specialize (Q m j).
  unfold gen_related in *. rewrite Q. exact G.
Qed.

Lemma channel_numbers_NoDup (n : nat) : List.NoDup (map Z.of_nat (seq 0 n)).
Proof.
  apply Finite.Injective_map_NoDup; [| apply seq_NoDup].
  intros x y. apply Nat2Z.inj.
Qed.

Lemma gen_advance (c : YMF262Impl) : gen_step c (advance c).
Proof.
  unfold advance. cbv zeta.
  set (c0 := with_eg_cnt (uint32 (eg_cnt c + 1)) c).
  assert (Q0 : quiet_step c c0) by (apply quiet_scalar; reflexivity).
  set (c1 := fold_left (fun c n => advance_slot n 1 (advance_slot n 0 c))
               (map Z.of_nat (seq 0 18)) c0).
  assert (G1 : gen_step c0 c1).
  { intros Hwf0.
    destruct (gen_advance_fold _ c0 (channel_numbers_NoDup 18) Hwf0) as [Hwf1 H].
    split; [exact Hwf1 |]. intros m j. apply H. }
  apply (quiet_then_gen c c0); [exact Q0 |].
  eapply gen_then_quiet; [exact G1 |]. clearbody c1.
  match goal with |- context [if ?b then _ else _] => destruct b end;
    apply quiet_scalar; reflexivity.
Qed.

Lemma gen_sample (T : Tables) (b : bool) (c : YMF262Impl) :
  gen_step c (snd (generate_sample T b c)).
Proof.
  destruct (quiet_evaluate T b c) as (c1 & E & Q). rewrite E.
  eapply quiet_then_gen; [exact Q | apply gen_advance].
Qed.

(** ** The reset step *)

Lemma wf_fold_writes (l : list Z) :
  forall c, wf c -> wf (fold_left (fun c r => writeRegForce r 0 c) l c).
Proof.
  induction l as [| r l IH]; intros c Hwf; cbn [fold_left]; [exact Hwf |].
  apply IH. apply (key_writeRegForce r 0 c Hwf).
Qed.

Lemma cslot_out_of_range (c : YMF262Impl) (m j : Z) :
  wf c -> in18 m = false -> cslot c m j = new_slot.
Proof.
  intros (Hc & _) Hm. unfold cslot, chan, aget, in18 in *.
  destruct (m <? 0) eqn:E.
  - unfold slots. destruct (j =? 0); reflexivity.
  - rewrite lookup_ge_None_2 by lia. cbn [default].
    unfold slots. destruct (j =? 0); reflexivity.
Qed.

Lemma state_reset_operator (n i m j : Z) (c : YMF262Impl) :
  wf c ->
  wf (reset_operator n i c) /\
  (state (cslot c m j) = EG_OFF -> state (cslot (reset_operator n i c) m j) = EG_OFF) /\
  (n = m -> same_slot i j = true -> state (cslot (reset_operator n i c) m j) = EG_OFF).
Proof.
  intros Hwf. unfold reset_operator.
  split; [apply wf_put_cslot; exact Hwf |].
  rewrite cslot_put_cslot by exact Hwf.
  split.
  - intros H. destruct ((n =? m) && in18 n && same_slot i j); [reflexivity | exact H].
  - intros -> Hs. rewrite Z.eqb_refl, Hs. cbn [andb].
    destruct (in18 m) eqn:Hm; [reflexivity |].
    cbn [andb]. rewrite (cslot_out_of_range c m j Hwf Hm). reflexivity.
Qed.

Lemma state_reset_channel (n m j : Z) (c : YMF262Impl) :
  wf c ->
  wf (reset_operator n 1 (reset_operator n 0 c)) /\
  (state (cslot c m j) = EG_OFF \/ n = m ->
   state (cslot (reset_operator n 1 (reset_operator n 0 c)) m j) = EG_OFF).
Proof.
  intros Hwf.
  destruct (state_reset_operator n 0 m j c Hwf) as (Hwf0 & K0 & S0).
  destruct (state_reset_operator n 1 m j (reset_operator n 0 c) Hwf0) as (Hwf1 & K1 & S1).
  split; [exact Hwf1 |].
  intros [H | H].
  - apply K1, K0, H.
  - destruct (j =? 0) eqn:Hj.
    + apply K1, S0; [exact H |]. unfold same_slot. rewrite Hj. reflexivity.
    + apply S1; [exact H |]. unfold same_slot. rewrite Hj. reflexivity.
Qed.

Lemma state_reset_fold (l : list Z) :
  forall c, wf c ->
  wf (fold_left (fun c n => reset_operator n 1 (reset_operator n 0 c)) l c) /\
  forall m j,
    state (cslot c m j) = EG_OFF \/ In m l ->
    state (cslot (fold_left (fun c n => reset_operator n 1 (reset_operator n 0 c)) l c)
             m j) = EG_OFF.
Proof.
  induction l as [| n l IH]; intros c Hwf; cbn [fold_left].
  - split; [exact Hwf |]. intros m j [H | []]. exact H.
  - assert (Hwf1 : wf (reset_operator n 1 (reset_operator n 0 c)))
      by apply (state_reset_channel n 0 0 c Hwf).
    destruct (IH _ Hwf1) as [Hwf' H]. split; [exact Hwf' |].
    intros m j Hm. apply H.
    destruct (state_reset_channel n m j c Hwf) as [_ S].
    destruct Hm as [Hm | [Hm | Hm]]; auto.
Qed.

Lemma reset_all_off (c : YMF262Impl) :
  wf c -> wf (reset c) /\ forall m j, state (cslot (reset c) m j) = EG_OFF.
Proof.
  intros Hwf. unfold reset, clear_regs. cbv zeta.
  match goal with
  | |- context [fold_left _ (map Z.of_nat (seq 0 (9 * 2))) ?c1] => set (c' := c1)
  end.
  assert (Hwf' : wf c').
  { unfold c'. repeat apply wf_fold_writes.
    repeat match goal with
           | |- wf (writeRegForce ?r ?v ?x) => apply (key_writeRegForce r v x)
           end.
    apply (quiet_resetStatus 96).
    destruct Hwf as (H1 & H2 & H3 & H4). unfold wf. cbn. tauto. }
  clearbody c'.
  destruct (state_reset_fold (map Z.of_nat (seq 0 (9 * 2))) c' Hwf') as [Hwf2 H].
  split; [exact Hwf2 |]. intros m j.
  destruct (in18 m) eqn:Hm.
  - apply H. right. unfold in18 in Hm.
    apply in_map_iff. exists (Z.to_nat m). split; [lia |].
    apply in_seq. lia.
  - rewrite (cslot_out_of_range _ m j Hwf2 Hm). reflexivity.
Qed.

(** ** Envelope transitions of the reachable chip *)

Lemma key_source_sets_key (k x : Z) : k = 1 \/ k = 2 -> byte_of (Z.lor x k) <> 0.
Proof.
  intros Hk E.
  assert (Hb : forall n, 0 <= n < 8 ->
            Z.testbit (byte_of (Z.lor x k)) n = Z.testbit x n || Z.testbit k n).
  { intros n Hn. unfold byte_of. change 256 with (2 ^ 8).
    rewrite Z.mod_pow2_bits_low by lia. apply Z.lor_spec. }
  rewrite E in Hb.
  destruct Hk as [-> | ->].
  - specialize (Hb 0 ltac:(lia)). rewrite Z.bits_0 in Hb.
    change (Z.testbit 1 0) with true in Hb. rewrite orb_true_r in Hb. discriminate.
  - specialize (Hb 1 ltac:(lia)). rewrite Z.bits_0 in Hb.
    change (Z.testbit 2 1) with true in Hb. rewrite orb_true_r in Hb. discriminate.
Qed.

Lemma key_related_edges (s s' : YMF262Slot) :
  key_related s s' -> unkeyed_is_released s ->
  unkeyed_is_released s' /\
  (state s' = state s \/ key_off_edge s s' \/ key_on_edge s s').
Proof.
  unfold key_related, unkeyed_is_released, key_off_edge, key_on_edge, kst.
  intros [E | (k & Hk & [E | E])] Hinv.
  - injection E as Es Ek. rewrite Es, Ek. auto.
  - unfold keyon_kst in E. cbn [fst snd] in E. injection E as Es Ek.
    pose proof (key_source_sets_key k (key s) Hk) as Hnz. rewrite <- Ek in Hnz.
    split; [intros F; contradiction |].
    destruct (key s =? 0) eqn:K.
    + apply Z.eqb_eq in K. right; right. auto.
    + left. exact Es.
  - unfold keyoff_kst in E. cbn [fst snd] in E.
    destruct (key s =? 0) eqn:K.
    + injection E as Es Ek. rewrite Es, Ek. auto.
    + cbv zeta in E. injection E as Es Ek. apply Z.eqb_neq in K.
      destruct (byte_of (Z.land (key s) (Z.lnot k)) =? 0) eqn:K'.
      * apply Z.eqb_eq in K'. rewrite K' in Ek.
        destruct (state s) eqn:St; rewrite Es;
          (split; [intros _; auto |]);
          first [ left; reflexivity
                | right; left; repeat split; auto; discriminate ].
      * apply Z.eqb_neq in K'. rewrite <- Ek in K'.
        split; [intros F; contradiction | left; exact Es].
Qed.

Lemma advanceEnvelopeGenerator_edges (eg_cnt : Z) (s : YMF262Slot) :
  key (advanceEnvelopeGenerator eg_cnt s) = key s /\
  (state (advanceEnvelopeGenerator eg_cnt s) = state s \/
   (state s = EG_ATTACK /\ state (advanceEnvelopeGenerator eg_cnt s) = EG_DECAY) \/
   (state s = EG_DECAY /\ state (advanceEnvelopeGenerator eg_cnt s) = EG_SUSTAIN) \/
   (state s = EG_RELEASE /\ state (advanceEnvelopeGenerator eg_cnt s) = EG_OFF)).
Proof.
  destruct s as [? ? ? ? ? ? ? ? ? ? ? ? ? ? ? ? ? ? ? ? ? ? ? st ? ? ? ? ? ? ? ? ? ?].
  unfold advanceEnvelopeGenerator; cbn [state volume eg_type key].
  destruct st;
    repeat match goal with
           | |- context [if ?b then _ else _] => destruct b
           end; cbn [state key with_state with_volume]; split; auto 6.
Qed.

Lemma gen_related_edges (s s' : YMF262Slot) :
  gen_related s s' -> unkeyed_is_released s ->
  unkeyed_is_released s' /\
  (state s' = state s \/
   (state s = EG_ATTACK /\ state s' = EG_DECAY) \/
   (state s = EG_DECAY /\ state s' = EG_SUSTAIN) \/
   (state s = EG_RELEASE /\ state s' = EG_OFF)).
Proof.
  unfold gen_related, unkeyed_is_released, kst.
  intros [E | (cnt & s1 & E1 & E2)] Hinv.
  - injection E as Es Ek. rewrite Es, Ek. auto.
  - injection E1 as Es1 Ek1. injection E2 as Es Ek.
    destruct (advanceEnvelopeGenerator_edges cnt s1) as [Hk He].
    rewrite <- Es, <- Ek in *. rewrite Es1, Hk, Ek1 in *.
    split; [| exact He].
    intros K. specialize (Hinv K).
    destruct He as [He | [[H1 H2] | [[H1 H2] | [H1 H2]]]];
      destruct Hinv as [Hi | Hi]; try congruence; auto;
      first [left; congruence | right; congruence].
Qed.

(** What each action does to the arrays and to the operators. *)
Lemma run_step (a : Action) (c : YMF262Impl) :
  chip_inv c ->
  chip_inv (run a c) /\ forall m j, allowed a (cslot c m j) (cslot (run a c) m j).
Proof.
  intros [Hwf Hinv].
  assert (Hkey : forall c', key_step c c' ->
            chip_inv c' /\
            forall m j, state (cslot c' m j) = state (cslot c m j) \/
                        key_off_edge (cslot c m j) (cslot c' m j) \/
                        key_on_edge (cslot c m j) (cslot c' m j)).
  { intros c' K. destruct (K Hwf) as [Hwf' R].
    split; [split; [exact Hwf' |] |]; intros m j;
      apply (key_related_edges _ _ (R m j) (Hinv m j)). }
  assert (Hquiet : forall c', quiet_step c c' ->
            chip_inv c' /\
            forall m j, state (cslot c' m j) = state (cslot c m j)).
  { intros c' Q. destruct (Q Hwf) as [Hwf' R].
    split; [split; [exact Hwf' |] |]; intros m j; specialize (R m j);
      unfold kst in R; injection R as Rs Rk.
    - unfold unkeyed_is_released. rewrite Rs, Rk. apply Hinv.
    - exact Rs. }
  destruct a as [r v | r v | T b | | flag |]; cbn [run allowed].
  - apply Hkey, key_writeReg.
  - apply Hkey, key_writeRegForce.
  - destruct (gen_sample T b c Hwf) as [Hwf' R].
    split; [split; [exact Hwf' |] |]; intros m j;
      apply (gen_related_edges _ _ (R m j) (Hinv m j)).
  - destruct (reset_all_off c Hwf) as [Hwf' R].
    split; [split; [exact Hwf' |] |]; intros m j.
    + intros _. right. apply R.
    + apply R.
  - apply Hquiet. unfold callback. apply quiet_setStatus.
  - apply Hquiet. unfold readStatus. cbn [snd]. apply quiet_scalar; reflexivity.
Qed.

Lemma wf_new_chip : wf new_chip.
Proof. vm_compute. repeat split. Qed.

Lemma power_on_inv : chip_inv power_on.
Proof.
  destruct (reset_all_off new_chip wf_new_chip) as [Hwf H].
  split; [exact Hwf |]. intros m j _. right. apply H.
Qed.

Lemma reachable_inv (c : YMF262Impl) : reachable c -> chip_inv c.
Proof.
  intros [actions ->].
  induction actions as [| a actions IH] using rev_ind.
  - exact power_on_inv.
  - rewrite fold_left_app. cbn [fold_left]. apply (run_step a _ IH).
Qed.

(** C6 (as amended).  In every reachable chip state every action changes
    the envelope state of every operator only as follows: a register write
    leaves it, or moves a state other than OFF to RELEASE when the last key
    source goes, or moves it to ATTACK on a key-on edge (key bitmask from 0
    to nonzero), and then the operator was in RELEASE or in OFF; a sample
    leaves it or moves ATTACK to DECAY, DECAY to SUSTAIN or RELEASE to OFF;
    reset moves it to OFF.  So the state only moves forward in the order
    ATTACK, DECAY, SUSTAIN, RELEASE, OFF, except for the key-on edge, which
    re-enters ATTACK from RELEASE as well as from OFF. *)
Theorem envelope_state_order (c : YMF262Impl) (a : Action) (n i : Z) :
  reachable c ->
  allowed a (cslot c n i) (cslot (run a c) n i) /\
  (state (cslot (run a c) n i) = state (cslot c n i) \/
   eg_rank (state (cslot c n i)) < eg_rank (state (cslot (run a c) n i)) \/
   key_on_edge (cslot c n i) (cslot (run a c) n i)).
Proof.
  intros Hr. pose proof (reachable_inv c Hr) as Hinv.
  destruct (run_step a c Hinv) as [_ H]. specialize (H n i).
  split; [exact H |].
  set (s := cslot c n i) in *. set (s' := cslot (run a c) n i) in *.
  clearbody s s'. unfold key_off_edge in *.
  destruct a; cbn [allowed] in H.
  - destruct H as [H | [(H1 & H2 & H3 & H4) | H]]; auto.
    rewrite H4. destruct (state s); cbn; try lia; auto. contradiction.
  - destruct H as [H | [(H1 & H2 & H3 & H4) | H]]; auto.
    rewrite H4. destruct (state s); cbn; try lia; auto. contradiction.
  - destruct H as [H | [[H1 H2] | [[H1 H2] | [H1 H2]]]]; auto;
      rewrite H1, H2; cbn; right; left; lia.
  - rewrite H. destruct (state s); cbn; auto; right; left; lia.
  - auto.
  - auto.
Qed.

Lemma envelope_state_order_witness :
  key_on_edge (cslot power_on 0 SLOT1) (cslot (run (Write 0xB0 0x20) power_on) 0 SLOT1).
Proof.
  assert (Hr : reachable power_on) by (exists []; cbn [fold_left]; exact eq_refl).
  destruct (envelope_state_order power_on (Write 0xB0 0x20) 0 SLOT1 Hr) as [H _].
  cbn [allowed] in H.
  destruct H as [H | [H | H]].
  - vm_compute in H. discriminate H.
  - destruct H as (H & _). exfalso. apply H. vm_compute. reflexivity.
  - exact H.
Defined.

(** C6 (as stated) fails: after key-on and key-off on channel 0 its first
    operator is in RELEASE with no key held; the next key-on moves it to
    ATTACK from RELEASE, not from OFF. *)
Lemma attack_reentered_from_release :
  reachable keyed_off /\
  state (cslot keyed_off 0 SLOT1) = EG_RELEASE /\
  key (cslot keyed_off 0 SLOT1) = 0 /\
  state (cslot (run (Write 0xB0 0x20) keyed_off) 0 SLOT1) = EG_ATTACK /\
  ~ (state (cslot (run (Write 0xB0 0x20) keyed_off) 0 SLOT1) = EG_ATTACK ->
     state (cslot keyed_off 0 SLOT1) = EG_OFF).
Proof.
  split.
  - exists [Write 0xB0 0x20; Write 0xB0 0x00].
    cbn [fold_left run]. unfold keyed_off, keyed_once. exact eq_refl.
  - split; [vm_compute; reflexivity |].
    split; [vm_compute; reflexivity |].
    split; [vm_compute; reflexivity |].
    intros H. assert (E : state (cslot keyed_off 0 SLOT1) = EG_OFF)
      by (apply H; vm_compute; reflexivity).
    vm_compute in E. discriminate E.
Qed.
(** ** Reset twice *)

Lemma controls_flags (c c' : YMF262Impl) :
  controls c' = controls c ->
  (forall n, extended (chan c' n) = extended (chan c n)) ->
  OPL3_mode c' = OPL3_mode c /\
  pan_reset c' = pan_reset c /\
  (forall n, follows c' n = follows c n) /\
  (forall n, four_op c' n = four_op c n) /\
  (forall n i, reset_connect c' n i = reset_connect c n i) /\
  (forall n i, deciding_channel c' n i = deciding_channel c n i).
Proof.
  intros Hc He.
  assert (Ho : OPL3_mode c' = OPL3_mode c) by (unfold controls in Hc; congruence).
  assert (Hf : forall n, four_op c' n = four_op c n).
  { intros n. unfold four_op. rewrite Ho, !He. reflexivity. }
  split; [exact Ho |].
  split; [unfold pan_reset; rewrite Ho; reflexivity |].
  split; [intros n; unfold follows; rewrite Ho, He; reflexivity |].
  split; [exact Hf |].
  split; intros n i.
  - unfold reset_connect. rewrite Hf. reflexivity.
  - unfold deciding_channel. rewrite Hf. reflexivity.
Qed.

Lemma clearing_refl (c : YMF262Impl) : clearing_step c c.
Proof.
  intros H. split; [exact H |].
  split; [reflexivity |]. split; [reflexivity |].
  repeat (split; [solve [auto] |]). auto.
Qed.

Lemma clearing_trans (a b c : YMF262Impl) :
  clearing_step a b -> clearing_step b c -> clearing_step a c.
Proof.
  intros Hab Hbc Ha.
  destruct (Hab Ha) as (Hb & A1 & A2 & A3 & A4 & A5 & A6 & A7 & A8 & A9).
  destruct (Hbc Hb) as (Hc & B1 & B2 & B3 & B4 & B5 & B6 & B7 & B8 & B9).
  split; [exact Hc |].
  split; [rewrite B1; exact A1 |].
  split; [intros n; rewrite B2; apply A2 |].
  repeat (split; [solve [auto] |]). auto.
Qed.

Lemma same_data_refl (ch : YMF262Channel) : same_data ch ch.
Proof. repeat split. Qed.

(** A step that changes operators only. *)
Lemma clearing_slots (c c' : YMF262Impl) :
  (wf c -> wf c') ->
  controls c' = controls c ->
  rhythm c' = rhythm c -> lfo_am_depth c' = lfo_am_depth c ->
  lfo_pm_depth_range c' = lfo_pm_depth_range c ->
  reg c' = reg c -> pan c' = pan c ->
  (wf c -> forall m, same_data (chan c m) (chan c' m)) ->
  (wf c -> forall m j f,
     settled c m j f ->
     cleared f (fc (chan c (follows c m))) (kcode (chan c (follows c m)))
       (ksl_base (chan c (follows c m))) (cslot c' m j)) ->
  (wf c -> forall m j,
     connect (cslot c' m j) = connect (cslot c m j) /\
     CON (cslot c' m j) = CON (cslot c m j)) ->
  clearing_step c c'.
Proof.
  intros Hwf Hc Hr Ha Hp Hreg Hpan Hd Hs Hcon H.
  specialize (Hd H). specialize (Hs H). specialize (Hcon H).
  assert (He : forall n, extended (chan c' n) = extended (chan c n))
    by (intros n; apply (Hd n)).
  destruct (controls_flags c c' Hc He) as (Ho & Hpr & Hfo & H4 & Hrc & Hdc).
  split; [apply Hwf, H |].
  split; [exact Hc |].
  split; [exact He |].
  split; [unfold rhythm_cleared; rewrite Hr, Ha, Hp; tauto |].
  split; [unfold peekReg; rewrite Hreg; tauto |].
  split; [rewrite Hpan, Hpr; tauto |].
  split; [intros n; unfold fnum_high_cleared; destruct (Hd n) as (-> & _); tauto |].
  split; [intros n; unfold fnum_low_cleared; destruct (Hd n) as (-> & _); tauto |].
  split.
  - intros n i f Hset. unfold settled. rewrite Hfo.
    destruct (Hd (follows c n)) as (_ & -> & -> & -> & _).
    apply Hs, Hset.
  - intros n i (R1 & R2). unfold routed. rewrite Hrc, Hdc.
    destruct (Hcon n i) as [-> _]. destruct (Hcon (deciding_channel c n i) SLOT1) as [_ ->].
    split; assumption.
Qed.

Lemma data_put_cslot (n i m : Z) (x : YMF262Slot) (c : YMF262Impl) :
  wf c -> same_data (chan c m) (chan (put_cslot n i x c) m).
Proof.
  intros H. unfold put_cslot. rewrite chan_put_chan by exact H.
  destruct ((n =? m) && in18 n) eqn:E; [| apply same_data_refl].
  apply andb_true_iff in E. destruct E as [E _]. apply Z.eqb_eq in E. subst m.
  unfold with_slots. destruct (i =? 0); repeat split.
Qed.

(** One operator replaced by one that keeps what has been cleared. *)
Lemma clearing_put_cslot (n i : Z) (x : YMF262Slot) (c : YMF262Impl) :
  (forall f,
     cleared f (fc (chan c (follows c n))) (kcode (chan c (follows c n)))
       (ksl_base (chan c (follows c n))) (cslot c n i) ->
     cleared f (fc (chan c (follows c n))) (kcode (chan c (follows c n)))
       (ksl_base (chan c (follows c n))) x) ->
  connect x = connect (cslot c n i) ->
  CON x = CON (cslot c n i) ->
  clearing_step c (put_cslot n i x c).
Proof.
  intros Hx Hcn Hco.
  apply clearing_slots; try reflexivity.
  - apply wf_put_cslot.
  - intros H m. apply data_put_cslot, H.
  - intros H m j f Hs. rewrite cslot_put_cslot by exact H.
    destruct ((n =? m) && in18 n && same_slot i j) eqn:E; [| exact Hs].
    apply andb_true_iff in E. destruct E as [E Es].
    apply andb_true_iff in E. destruct E as [E _]. apply Z.eqb_eq in E. subst m.
    apply Hx. unfold settled in Hs. rewrite (cslot_same_slot c n i j Es). exact Hs.
  - intros H m j. rewrite cslot_put_cslot by exact H.
    destruct ((n =? m) && in18 n && same_slot i j) eqn:E; [| split; reflexivity].
    apply andb_true_iff in E. destruct E as [E Es].
    apply andb_true_iff in E. destruct E as [E _]. apply Z.eqb_eq in E. subst m.
    rewrite Hcn, Hco, (cslot_same_slot c n i j Es). split; reflexivity.
Qed.

(** Projections of updated operators. *)
Ltac slot_cbv :=
  cbv [Cnt Incr connect op1_out0 op1_out1 TL TLL volume sl wavetable
       eg_m_ar eg_m_dr eg_m_rr eg_sh_ar eg_sel_ar eg_sh_dr eg_sel_dr eg_sh_rr eg_sel_rr
       key fb_shift CON eg_type state AMmask vib waveform_number ar dr rr KSR ksl ksr mul
       with_Cnt with_Incr with_connect with_op1_out0 with_op1_out1 with_TL with_TLL
       with_volume with_sl with_wavetable with_eg_m_ar with_eg_m_dr with_eg_m_rr
       with_eg_sh_ar with_eg_sel_ar with_eg_sh_dr with_eg_sel_dr with_eg_sh_rr
       with_eg_sel_rr with_key with_fb_shift with_CON with_eg_type with_state
       with_AMmask with_vib with_waveform_number with_ar with_dr with_rr with_KSR
       with_ksl with_ksr with_mul
       CALC_FCSLOT total_level setFeedbackShift FM_KEYOFF cleared] in *.

(** The constants a zero byte decodes into. *)
Ltac zero_consts :=
  repeat first
    [ progress change (Z.land 0 1) with 0
    | progress change (Z.land 0 7) with 0
    | progress change (Z.land 0 3) with 0
    | progress change (Z.land 0 15) with 0
    | progress change (Z.land 0 16) with 0
    | progress change (Z.land 0 31) with 0
    | progress change (Z.land 0 32) with 0
    | progress change (Z.land 0 63) with 0
    | progress change (Z.land 0 64) with 0
    | progress change (Z.land 0 128) with 0
    | progress change (Z.shiftr 0 1) with 0
    | progress change (Z.shiftr 0 4) with 0
    | progress change (Z.shiftr 0 6) with 0
    | progress change (Z.shiftl 0 8) with 0
    | progress change (Z.shiftl 0 (ENV_BITS - 1 - 7)) with 0
    | progress change (uint32 0) with 0
    | progress change (nz 0) with false
    | progress change (tbl mul_tab 0) with 1
    | progress change (tbl sl_tab 0) with 0
    | progress change (0 * SIN_LEN) with 0
    | progress cbv iota ].

(** Case analysis on the tests of an operator update, the operator being a
    record of variables. *)
Ltac slot_cases :=
  repeat (slot_cbv;
          match goal with
          | |- context [if ?b then _ else _] => destruct b eqn:?
          | |- context [match ?s with EG_OFF => _ | _ => _ end] => destruct s eqn:?
          end);
  slot_cbv.

Lemma cleared_CALC_FCSLOT (f : Cleared) (a b d : Z) (ch : YMF262Channel) (s : YMF262Slot) :
  cleared f a b d s -> cleared f (fc ch) (kcode ch) d (CALC_FCSLOT ch s).
Proof.
  destruct s, f; slot_cases; intuition (try congruence; try lia).
Qed.

Lemma cleared_total_level (f : Cleared) (a b d : Z) (ch : YMF262Channel) (s : YMF262Slot) :
  cleared f a b d s -> cleared f a b (ksl_base ch) (total_level ch s).
Proof.
  destruct s, f; slot_cases; intuition (try congruence; try lia).
Qed.

Lemma fields_CALC_FCSLOT (ch : YMF262Channel) (s : YMF262Slot) :
  connect (CALC_FCSLOT ch s) = connect s /\ CON (CALC_FCSLOT ch s) = CON s.
Proof. destruct s; slot_cases; split; reflexivity. Qed.

(** A chain of field updates with the constants of a zero byte keeps what
    has been cleared. *)
Ltac keeps_cleared :=
  unfold cslot, setFeedbackShift; cbv zeta; zero_consts;
  repeat match goal with
         | |- context [slots ?ch ?i] =>
             let s := fresh "s" in generalize (slots ch i); intros s; destruct s
         end;
  let f := fresh "f" in
  intros f; destruct f; slot_cases; intuition (try congruence; try lia; try reflexivity).

(** An updated operator keeps [connect] and [CON]. *)
Ltac keeps_field :=
  unfold cslot; cbv zeta;
  repeat match goal with
         | |- context [if ?b then _ else _] => destruct b
         | |- context [match channel_kind ?n with _ => _ end] => destruct (channel_kind n)
         end;
  repeat match goal with
         | |- context [CALC_FCSLOT ?ch ?s] =>
             first [rewrite (proj1 (fields_CALC_FCSLOT ch s))
                   |rewrite (proj2 (fields_CALC_FCSLOT ch s))]
         end;
  reflexivity.

(** The channel data an operator register takes is that of the channel the
    operator follows. *)
Ltac by_flags c n :=
  unfold follows;
  destruct (OPL3_mode c); [destruct (channel_kind n) |];
  repeat match goal with
         | |- context [nz (extended ?ch)] => destruct (nz (extended ch))
         end.

Lemma clearing_set_sl_rr (sl_ : Z) (c : YMF262Impl) : clearing_step c (set_sl_rr sl_ 0 c).
Proof.
  unfold set_sl_rr. cbv zeta. apply clearing_put_cslot; [keeps_cleared | keeps_field ..].
Qed.

Lemma clearing_set_ar_dr (sl_ : Z) (c : YMF262Impl) : clearing_step c (set_ar_dr sl_ 0 c).
Proof.
  unfold set_ar_dr. cbv zeta. apply clearing_put_cslot; [keeps_cleared | keeps_field ..].
Qed.

Lemma clearing_set_ksl_tl (sl_ : Z) (c : YMF262Impl) : clearing_step c (set_ksl_tl sl_ 0 c).
Proof.
  unfold set_ksl_tl. cbv zeta.
  apply clearing_put_cslot; [| keeps_field ..].
  by_flags c (sl_ / 2); intros f H;
    match goal with
    | |- cleared _ ?a ?b _ (total_level ?e _) => apply (cleared_total_level f a b (ksl_base e))
    end;
    revert f H; keeps_cleared.
Qed.

Lemma clearing_set_mul (sl_ : Z) (c : YMF262Impl) : clearing_step c (set_mul sl_ 0 c).
Proof.
  unfold set_mul. cbv zeta.
  apply clearing_put_cslot; [| keeps_field ..].
  by_flags c (sl_ / 2); intros f H;
    match goal with
    | |- cleared _ _ _ ?d (CALC_FCSLOT ?e _) =>
        apply (cleared_CALC_FCSLOT f (fc e) (kcode e) d)
    end;
    revert f H; keeps_cleared.
Qed.

Lemma clearing_write_waveform (ch_offset r : Z) (c : YMF262Impl) :
  clearing_step c (write_waveform ch_offset r 0 c).
Proof.
  unfold write_waveform. cbv zeta.
  destruct (tbl slot_array (Z.land r 31) <? 0); [apply clearing_refl |].
  match goal with
  | |- clearing_step c (put_cslot ?n ?i ?x ?c1) => apply (clearing_trans c c1)
  end;
    (apply clearing_put_cslot; [keeps_cleared | keeps_field ..]).
Qed.

Lemma land_byte_clear (x m k : Z) :
  Z.land x k = 0 -> Z.land (byte_of (Z.land x m)) k = 0.
Proof.
  intros H. unfold byte_of. change 256 with (2 ^ 8).
  rewrite <- Z.land_ones by lia.
  apply Z.bits_inj'. intros n Hn.
  apply (f_equal (fun z => Z.testbit z n)) in H.
  rewrite Z.land_spec, Z.bits_0 in H.
  rewrite !Z.land_spec, Z.bits_0.
  destruct (Z.testbit x n), (Z.testbit k n); try discriminate;
    rewrite ?andb_false_r; reflexivity.
Qed.

Lemma cleared_FM_KEYOFF (f : Cleared) (a b d k : Z) (s : YMF262Slot) :
  cleared f a b d s -> cleared f a b d (FM_KEYOFF k s).
Proof.
  destruct s, f; slot_cases; intuition (try congruence; try lia);
    try apply byte_of_range; try (apply land_byte_clear; assumption).
Qed.

Lemma fields_FM_KEYOFF (k : Z) (s : YMF262Slot) :
  connect (FM_KEYOFF k s) = connect s /\ CON (FM_KEYOFF k s) = CON s.
Proof. destruct s; slot_cases; split; reflexivity. Qed.

Lemma clearing_key_off (k n i : Z) (c : YMF262Impl) :
  clearing_step c (key_slot false k n i c).
Proof.
  unfold key_slot. apply clearing_put_cslot.
  - intros f. apply cleared_FM_KEYOFF.
  - apply fields_FM_KEYOFF.
  - apply fields_FM_KEYOFF.
Qed.

Lemma clearing_key_channel (k n : Z) (c : YMF262Impl) :
  clearing_step c (key_channel false k n c).
Proof.
  unfold key_channel. eapply clearing_trans; apply clearing_key_off.
Qed.

Lemma clearing_key_onoff (n : Z) (c : YMF262Impl) :
  clearing_step c (key_onoff false n c).
Proof.
  unfold key_onoff.
  repeat lazymatch goal with
         | |- clearing_step _ (if ?b then _ else _) => destruct b
         | |- clearing_step _ (match channel_kind ?n with _ => _ end) =>
             destruct (channel_kind n)
         end;
    repeat lazymatch goal with
           | |- clearing_step ?c ?c => apply clearing_refl
           | |- clearing_step ?c (key_channel false ?k ?n ?c1) =>
               apply (clearing_trans c c1); [| apply clearing_key_channel]
           end.
Qed.

(** A step that changes no channel. *)
Lemma clearing_globals (c c' : YMF262Impl) :
  channels c' = channels c ->
  controls c' = controls c ->
  length (reg c') = length (reg c) ->
  length (pan c') = length (pan c) ->
  length (chanout c') = length (chanout c) ->
  (rhythm_cleared c -> rhythm_cleared c') ->
  (forall a, peekReg a c = 0 -> peekReg a c' = 0) ->
  (forall k, aget 0 (pan c) k = pan_reset c -> aget 0 (pan c') k = pan_reset c) ->
  clearing_step c c'.
Proof.
  intros Hch Hc L1 L2 L3 Hr Hreg Hpan (W1 & W2 & W3 & W4).
  assert (E : forall n, chan c' n = chan c n) by (intros n; unfold chan; rewrite Hch; reflexivity).
  assert (He : forall n, extended (chan c' n) = extended (chan c n))
    by (intros n; rewrite E; reflexivity).
  destruct (controls_flags c c' Hc He) as (Ho & Hpr & Hfo & H4 & Hrc & Hdc).
  split; [unfold wf; rewrite Hch, L1, L2, L3; tauto |].
  split; [exact Hc |].
  split; [exact He |].
  split; [exact Hr |].
  split; [exact Hreg |].
  split; [rewrite Hpr; exact Hpan |].
  split; [intros n; rewrite E; tauto |].
  split; [intros n; rewrite E; tauto |].
  split.
  - intros n i f. unfold settled, cslot. rewrite Hfo, !E. tauto.
  - intros n i. unfold routed, cslot. rewrite Hrc, Hdc, !E. tauto.
Qed.

Lemma clearing_with_reg (a : Z) (c : YMF262Impl) :
  clearing_step c (with_reg (aset (reg c) a 0) c).
Proof.
  apply clearing_globals; try reflexivity; try tauto.
  - cbn -[aset]. apply aset_length.
  - intros b Hb. unfold peekReg. cbn -[aset aget]. rewrite aget_aset.
    destruct ((a =? b) && (0 <=? a) && (a <? Z.of_nat (length (reg c)))); [reflexivity | exact Hb].
Qed.

Lemma clearing_with_pan (k : Z) (c : YMF262Impl) :
  clearing_step c (with_pan (aset (pan c) k (pan_reset c)) c).
Proof.
  apply clearing_globals; try reflexivity; try tauto.
  - cbn -[aset]. apply aset_length.
  - intros b Hb. cbn -[aset aget]. rewrite aget_aset.
    destruct ((k =? b) && (0 <=? k) && (k <? Z.of_nat (length (pan c)))); [reflexivity | exact Hb].
Qed.

Lemma clearing_write_rhythm (ch_offset : Z) (c : YMF262Impl) :
  clearing_step c (write_rhythm ch_offset 0 c).
Proof.
  unfold write_rhythm.
  destruct (negb (ch_offset =? 0)); [apply clearing_refl |].
  cbv zeta.
  match goal with
  | |- context [nz (Z.land (rhythm ?x) 32)] => change (nz (Z.land (rhythm x) 32)) with false
  end.
  cbv iota.
  repeat lazymatch goal with
         | |- clearing_step ?c (key_slot false ?k ?n ?i ?c1) =>
             apply (clearing_trans c c1); [| apply clearing_key_off]
         end.
  apply clearing_globals; try reflexivity; try tauto.
  intros _. repeat split; reflexivity.
Qed.

(** *** A changed [block_fnum] *)

Lemma same_data_trans (a b c : YMF262Channel) :
  same_data a b -> same_data b c -> same_data a c.
Proof.
  intros (A1 & A2 & A3 & A4 & A5) (B1 & B2 & B3 & B4 & B5).
  repeat split; congruence.
Qed.

Lemma same_globals_refl (c : YMF262Impl) : same_globals c c.
Proof. repeat split. Qed.

Lemma same_globals_trans (a b c : YMF262Impl) :
  same_globals a b -> same_globals b c -> same_globals a c.
Proof.
  intros (A1 & A2 & A3 & A4 & A5 & A6) (B1 & B2 & B3 & B4 & B5 & B6).
  repeat split; congruence.
Qed.

Lemma CALC_FCSLOT_data (ch ch' : YMF262Channel) (s : YMF262Slot) :
  same_data ch ch' -> CALC_FCSLOT ch' s = CALC_FCSLOT ch s.
Proof.
  intros (_ & H1 & _ & H2 & _). unfold CALC_FCSLOT. rewrite H1, H2. reflexivity.
Qed.

Lemma total_level_data (ch ch' : YMF262Channel) (s : YMF262Slot) :
  same_data ch ch' -> total_level ch' s = total_level ch s.
Proof.
  intros (_ & _ & H1 & _). unfold total_level. rewrite H1. reflexivity.
Qed.

(** What one refresh leaves. *)
Lemma refresh_TLL_spec (src n i : Z) (c : YMF262Impl) :
  wf c ->
  wf (refresh_TLL src n i c) /\
  same_globals c (refresh_TLL src n i c) /\
  (forall m, same_data (chan c m) (chan (refresh_TLL src n i c) m)) /\
  forall m j,
    cslot (refresh_TLL src n i c) m j =
    if (n =? m) && in18 n && same_slot i j
    then total_level (chan c src) (cslot c m j) else cslot c m j.
Proof.
  intros H. unfold refresh_TLL.
  split; [apply wf_put_cslot, H |].
  split; [repeat split |].
  split; [intros m; apply data_put_cslot, H |].
  intros m j. rewrite cslot_put_cslot by exact H.
  destruct ((n =? m) && in18 n && same_slot i j) eqn:E; [| reflexivity].
  apply andb_true_iff in E. destruct E as [E Es].
  apply andb_true_iff in E. destruct E as [E _]. apply Z.eqb_eq in E. subst m.
  rewrite (cslot_same_slot c n i j Es). reflexivity.
Qed.

Lemma refresh_FC_spec (src n i : Z) (c : YMF262Impl) :
  wf c ->
  wf (refresh_FC src n i c) /\
  same_globals c (refresh_FC src n i c) /\
  (forall m, same_data (chan c m) (chan (refresh_FC src n i c) m)) /\
  forall m j,
    cslot (refresh_FC src n i c) m j =
    if (n =? m) && in18 n && same_slot i j
    then CALC_FCSLOT (chan c src) (cslot c m j) else cslot c m j.
Proof.
  intros H. unfold refresh_FC.
  split; [apply wf_put_cslot, H |].
  split; [repeat split |].
  split; [intros m; apply data_put_cslot, H |].
  intros m j. rewrite cslot_put_cslot by exact H.
  destruct ((n =? m) && in18 n && same_slot i j) eqn:E; [| reflexivity].
  apply andb_true_iff in E. destruct E as [E Es].
  apply andb_true_iff in E. destruct E as [E _]. apply Z.eqb_eq in E. subst m.
  rewrite (cslot_same_slot c n i j Es). reflexivity.
Qed.

(** The refreshed operators of channel [n] alone, and of channels [n] and
    [n + 3]. *)
Lemma refresh2_spec (n : Z) (c : YMF262Impl) :
  wf c ->
  wf (refresh2 n c) /\
  same_globals c (refresh2 n c) /\
  (forall m, same_data (chan c m) (chan (refresh2 n c) m)) /\
  forall m j,
    cslot (refresh2 n c) m j =
    if (n =? m) && in18 n
    then CALC_FCSLOT (chan c n) (total_level (chan c n) (cslot c m j)) else cslot c m j.
Proof.
  intros H0. unfold refresh2. cbv zeta.
  destruct (refresh_TLL_spec n n SLOT1 c H0) as (H1 & G1 & D1 & S1).
  destruct (refresh_TLL_spec n n SLOT2 _ H1) as (H2 & G2 & D2 & S2).
  destruct (refresh_FC_spec n n SLOT1 _ H2) as (H3 & G3 & D3 & S3).
  destruct (refresh_FC_spec n n SLOT2 _ H3) as (H4 & G4 & D4 & S4).
  split; [exact H4 |].
  split; [exact (same_globals_trans _ _ _ (same_globals_trans _ _ _
                    (same_globals_trans _ _ _ G1 G2) G3) G4) |].
  split; [intros m; eauto using same_data_trans |].
  intros m j. rewrite S4, S3, S2, S1.
  assert (E3 : same_data (chan c n) (chan (refresh_TLL n n SLOT2 (refresh_TLL n n SLOT1 c)) n))
    by eauto using same_data_trans.
  assert (E4 : same_data (chan c n)
                 (chan (refresh_FC n n SLOT1
                          (refresh_TLL n n SLOT2 (refresh_TLL n n SLOT1 c))) n))
    by eauto using same_data_trans.
  rewrite (CALC_FCSLOT_data _ _ _ E3), (CALC_FCSLOT_data _ _ _ E4).
  rewrite (total_level_data _ _ _ (D1 n)).
  unfold same_slot, SLOT1, SLOT2. cbn [Z.eqb].
  destruct ((n =? m) && in18 n), (j =? 0); cbn [andb orb Bool.eqb]; reflexivity.
Qed.

Lemma refresh4_spec (n : Z) (c : YMF262Impl) :
  wf c ->
  wf (refresh4 n c) /\
  same_globals c (refresh4 n c) /\
  (forall m, same_data (chan c m) (chan (refresh4 n c) m)) /\
  forall m j,
    cslot (refresh4 n c) m j =
    if (n =? m) && in18 n || (n + 3 =? m) && in18 (n + 3)
    then CALC_FCSLOT (chan c n) (total_level (chan c n) (cslot c m j)) else cslot c m j.
Proof.
  intros H0. unfold refresh4. cbv zeta.
  destruct (refresh_TLL_spec n n SLOT1 c H0) as (H1 & G1 & D1 & S1).
  destruct (refresh_TLL_spec n n SLOT2 _ H1) as (H2 & G2 & D2 & S2).
  assert (D2' := fun m => same_data_trans _ _ _ (D1 m) (D2 m)).
  assert (G2' := same_globals_trans _ _ _ G1 G2).
  destruct (refresh_TLL_spec n (n + 3) SLOT1 _ H2) as (H3 & G3 & D3 & S3).
  assert (D3' := fun m => same_data_trans _ _ _ (D2' m) (D3 m)).
  assert (G3' := same_globals_trans _ _ _ G2' G3).
  destruct (refresh_TLL_spec n (n + 3) SLOT2 _ H3) as (H4 & G4 & D4 & S4).
  assert (D4' := fun m => same_data_trans _ _ _ (D3' m) (D4 m)).
  assert (G4' := same_globals_trans _ _ _ G3' G4).
  destruct (refresh_FC_spec n n SLOT1 _ H4) as (H5 & G5 & D5 & S5).
  assert (D5' := fun m => same_data_trans _ _ _ (D4' m) (D5 m)).
  assert (G5' := same_globals_trans _ _ _ G4' G5).
  destruct (refresh_FC_spec n n SLOT2 _ H5) as (H6 & G6 & D6 & S6).
  assert (D6' := fun m => same_data_trans _ _ _ (D5' m) (D6 m)).
  assert (G6' := same_globals_trans _ _ _ G5' G6).
  destruct (refresh_FC_spec n (n + 3) SLOT1 _ H6) as (H7 & G7 & D7 & S7).
  assert (D7' := fun m => same_data_trans _ _ _ (D6' m) (D7 m)).
  assert (G7' := same_globals_trans _ _ _ G6' G7).
  destruct (refresh_FC_spec n (n + 3) SLOT2 _ H7) as (H8 & G8 & D8 & S8).
  assert (D8' := fun m => same_data_trans _ _ _ (D7' m) (D8 m)).
  assert (G8' := same_globals_trans _ _ _ G7' G8).
  split; [exact H8 |].
  split; [exact G8' |].
  split; [exact D8' |].
  intros m j. rewrite S8, S7, S6, S5, S4, S3, S2, S1.
  rewrite (CALC_FCSLOT_data _ _ _ (D7' n)), (CALC_FCSLOT_data _ _ _ (D6' n)),
    (CALC_FCSLOT_data _ _ _ (D5' n)), (CALC_FCSLOT_data _ _ _ (D4' n)).
  rewrite (total_level_data _ _ _ (D3' n)), (total_level_data _ _ _ (D2' n)),
    (total_level_data _ _ _ (D1 n)).
  unfold same_slot, SLOT1, SLOT2. cbn [Z.eqb].
  clear. generalize (chan c n). intros e. generalize (cslot c m j). intros s.
  destruct (n =? m) eqn:E1; destruct (n + 3 =? m) eqn:E2; try lia;
    destruct (in18 n), (in18 (n + 3)), (j =? 0); cbn [andb orb Bool.eqb]; reflexivity.
Qed.

Lemma channel_kind_pair (n : Z) :
  (channel_kind n = FirstOfPair ->
   channel_kind (n + 3) = SecondOfPair /\ in18 n = true /\ in18 (n + 3) = true) /\
  (channel_kind n = SecondOfPair ->
   channel_kind (n - 3) = FirstOfPair /\ in18 n = true /\ in18 (n - 3) = true).
Proof.
  split; intros K.
  - apply channel_kind_first in K. cbn [In] in K.
    repeat (destruct K as [<- | K]; [repeat split |]). contradiction.
  - apply channel_kind_second in K. cbn [In] in K.
    repeat (destruct K as [<- | K]; [repeat split |]). contradiction.
Qed.

(** The operators that follow channel [n] are its own, unless it is the
    second half of a 4-operator voice, and those of channel [n + 3] when it
    is the first half of one. *)
Lemma follows_eq (c : YMF262Impl) (m n : Z) :
  follows c m = n <->
  (m = n /\ follows c n = n) \/
  (m = n + 3 /\ OPL3_mode c = true /\ channel_kind n = FirstOfPair /\
   nz (extended (chan c n)) = true).
Proof.
  split.
  - intros H. unfold follows in H.
    destruct (OPL3_mode c) eqn:Ho; [| left; subst; unfold follows; rewrite Ho; auto].
    destruct (channel_kind m) eqn:K;
      try (left; subst; unfold follows; rewrite Ho, K; auto; fail).
    destruct (nz (extended (chan c (m - 3)))) eqn:E.
    + right. subst n. destruct (proj2 (channel_kind_pair m) K) as (K' & _).
      repeat split; auto. lia.
    + left. subst. unfold follows. rewrite Ho, K, E. auto.
  - intros [[-> H] | (-> & Ho & K & E)]; [exact H |].
    unfold follows. rewrite Ho.
    destruct (proj1 (channel_kind_pair n) K) as (-> & _).
    replace (n + 3 - 3) with n by lia. rewrite E. lia.
Qed.

Lemma follows_in18 (c : YMF262Impl) (m : Z) :
  in18 (follows c m) = true -> in18 m = true.
Proof.
  unfold follows.
  destruct (OPL3_mode c); [| auto].
  destruct (channel_kind m) eqn:K; auto.
  intros _. apply (proj2 (channel_kind_pair m) K).
Qed.

(** The operators that follow a channel whose data changes are refreshed
    from the new data. *)
Lemma clearing_retuned (c c' : YMF262Impl) (n : Z) (e : YMF262Channel) (P : Z -> bool) :
  wf c -> wf c' ->
  same_globals c c' ->
  (forall m, extended (chan c' m) = extended (chan c m)) ->
  (forall m, (n =? m) && in18 n = false -> same_data (chan c m) (chan c' m)) ->
  (in18 n = true ->
   fc (chan c' n) = fc e /\ kcode (chan c' n) = kcode e /\
   ksl_base (chan c' n) = ksl_base e) ->
  (fnum_high_cleared (chan c n) -> fnum_high_cleared (chan c' n)) ->
  (fnum_low_cleared (chan c n) -> fnum_low_cleared (chan c' n)) ->
  (forall m j,
     cslot c' m j =
     if P m then CALC_FCSLOT e (total_level e (cslot c m j)) else cslot c m j) ->
  (forall m, P m = true <-> follows c m = n /\ in18 n = true) ->
  wf c' /\
  controls c' = controls c /\
  (forall n, extended (chan c' n) = extended (chan c n)) /\
  (rhythm_cleared c -> rhythm_cleared c') /\
  (forall a, peekReg a c = 0 -> peekReg a c' = 0) /\
  (forall k, aget 0 (pan c) k = pan_reset c -> aget 0 (pan c') k = pan_reset c') /\
  (forall n, fnum_high_cleared (chan c n) -> fnum_high_cleared (chan c' n)) /\
  (forall n, fnum_low_cleared (chan c n) -> fnum_low_cleared (chan c' n)) /\
  (forall n i f, settled c n i f -> settled c' n i f) /\
  (forall n i, routed c n i -> routed c' n i).
Proof.
  intros Hwf Hwf' (G1 & G2 & G3 & G4 & G5 & G6) He Hd Hn Hhi Hlo Hs HP.
  destruct (controls_flags c c' G1 He) as (Ho & Hpr & Hfo & H4 & Hrc & Hdc).
  assert (Hbf : forall m, (n =? m) && in18 n = true -> m = n).
  { intros m E. apply andb_true_iff in E. destruct E as [E _]. lia. }
  split; [exact Hwf' |].
  split; [exact G1 |].
  split; [exact He |].
  split; [unfold rhythm_cleared; rewrite G2, G3, G4; tauto |].
  split; [unfold peekReg; rewrite G5; tauto |].
  split; [rewrite G6, Hpr; tauto |].
  split.
  { intros m. destruct ((n =? m) && in18 n) eqn:E.
    - rewrite (Hbf m E). exact Hhi.
    - unfold fnum_high_cleared. destruct (Hd m E) as (-> & _). tauto. }
  split.
  { intros m. destruct ((n =? m) && in18 n) eqn:E.
    - rewrite (Hbf m E). exact Hlo.
    - unfold fnum_low_cleared. destruct (Hd m E) as (-> & _). tauto. }
  split.
  - intros m j f Hset. unfold settled in *. rewrite Hfo, Hs.
    destruct (P m) eqn:EP.
    + apply HP in EP. destruct EP as [Ef Hin]. rewrite Ef.
      destruct (Hn Hin) as (-> & -> & ->).
      apply (cleared_CALC_FCSLOT f (fc (chan c (follows c m))) (kcode (chan c (follows c m)))).
      apply (cleared_total_level f _ _ (ksl_base (chan c (follows c m)))).
      exact Hset.
    + destruct ((n =? follows c m) && in18 n) eqn:E.
      * exfalso. assert (P m = true); [| congruence].
        apply HP. apply andb_true_iff in E. destruct E as [E1 E2]. split; [lia | exact E2].
      * destruct (Hd _ E) as (_ & -> & -> & -> & _). exact Hset.
  - intros m j (R1 & R2). unfold routed. rewrite Hrc, Hdc, !Hs.
    split.
    + destruct (P m); [| exact R1].
      rewrite (proj1 (fields_CALC_FCSLOT _ _)). exact R1.
    + destruct (P (deciding_channel c m j)); [| exact R2].
      rewrite (proj2 (fields_CALC_FCSLOT _ _)). exact R2.
Qed.

Lemma clearing_update_fnum (n bf : Z) (c : YMF262Impl) :
  (fnum_high_cleared (chan c n) -> 0 <= bf < 256) ->
  (fnum_low_cleared (chan c n) -> Z.land bf 0x1F00 = bf) ->
  clearing_step c (update_fnum n bf c).
Proof.
  intros Hhi Hlo. unfold update_fnum.
  destruct (negb (block_fnum (chan c n) =? bf)); [| apply clearing_refl].
  cbv zeta.
  match goal with |- context [put_chan n ?ch c] => set (ch' := ch) end.
  assert (Hch : slot1 ch' = slot1 (chan c n) /\ slot2 ch' = slot2 (chan c n) /\
                extended ch' = extended (chan c n) /\ block_fnum ch' = bf).
  { unfold ch'. destruct (nts c); repeat split. }
  clearbody ch'. destruct Hch as (C1 & C2 & C3 & C4).
  set (c1 := put_chan n ch' c).
  intros Hwf.
  assert (Hwf1 : wf c1) by (apply wf_put_chan; exact Hwf).
  assert (Hc1 : forall m, chan c1 m = if (n =? m) && in18 n then ch' else chan c m)
    by (intros m; apply chan_put_chan; exact Hwf).
  assert (Hs1 : forall m j, cslot c1 m j = cslot c m j).
  { intros m j. unfold cslot. rewrite Hc1.
    destruct ((n =? m) && in18 n) eqn:E; [| reflexivity].
    apply andb_true_iff in E. destruct E as [E _]. apply Z.eqb_eq in E. subst m.
    unfold slots. rewrite C1, C2. reflexivity. }
  assert (He1 : forall m, extended (chan c1 m) = extended (chan c m)).
  { intros m. rewrite Hc1.
    destruct ((n =? m) && in18 n) eqn:E; [| reflexivity].
    apply andb_true_iff in E. destruct E as [E _]. apply Z.eqb_eq in E. subst m.
    exact C3. }
  assert (G1 : same_globals c c1) by (repeat split).
  change (OPL3_mode c1) with (OPL3_mode c). rewrite !He1.
  assert (Fin : forall (c' : YMF262Impl) (P : Z -> bool),
            wf c' -> same_globals c1 c' ->
            (forall m, same_data (chan c1 m) (chan c' m)) ->
            (forall m j,
               cslot c' m j =
               if P m then CALC_FCSLOT (chan c1 n) (total_level (chan c1 n) (cslot c1 m j))
               else cslot c1 m j) ->
            (forall m, P m = true <-> follows c m = n /\ in18 n = true) ->
            clearing_step c c').
  { intros c' P W G D S HP _.
    apply (clearing_retuned c c' n (chan c1 n) P).
    - exact Hwf.
    - exact W.
    - exact (same_globals_trans _ _ _ G1 G).
    - intros m. destruct (D m) as (_ & _ & _ & _ & ->). apply He1.
    - intros m E. eapply same_data_trans; [| apply D]. rewrite Hc1, E. apply same_data_refl.
    - intros _. destruct (D n) as (_ & -> & -> & -> & _). auto.
    - unfold fnum_high_cleared at 2. destruct (D n) as (-> & _). rewrite Hc1.
      destruct ((n =? n) && in18 n); [rewrite C4; exact Hhi | unfold fnum_high_cleared; tauto].
    - unfold fnum_low_cleared at 2. destruct (D n) as (-> & _). rewrite Hc1.
      destruct ((n =? n) && in18 n); [rewrite C4; exact Hlo | unfold fnum_low_cleared; tauto].
    - intros m j. rewrite S, Hs1. reflexivity.
    - exact HP. }
  assert (R2 : follows c n = n ->
               (OPL3_mode c = true -> channel_kind n = FirstOfPair ->
                nz (extended (chan c n)) = true -> False) ->
               clearing_step c (refresh2 n c1)).
  { intros Hf Hno.
    destruct (refresh2_spec n c1 Hwf1) as (W & G & D & S).
    apply (Fin _ (fun m => (n =? m) && in18 n) W G D S).
    intros m. rewrite follows_eq. split.
    - intros E. apply andb_true_iff in E. destruct E as [E E']. split; [left | exact E'].
      split; [lia | exact Hf].
    - intros [[[-> _] | (_ & Ho & K & E)] Hin]; [| contradiction (Hno Ho K E)].
      rewrite Z.eqb_refl. exact Hin. }
  apply (fun H => H Hwf).
  destruct (OPL3_mode c) eqn:Ho.
  2:{ apply R2; [unfold follows; rewrite Ho; reflexivity | discriminate]. }
  destruct (channel_kind n) eqn:K.
  - destruct (nz (extended (chan c n))) eqn:E.
    + destruct (refresh4_spec n c1 Hwf1) as (W & G & D & S).
      destruct (proj1 (channel_kind_pair n) K) as (K3 & I0 & I3).
      apply (Fin _ (fun m => (n =? m) && in18 n || (n + 3 =? m) && in18 (n + 3)) W G D S).
      intros m. rewrite follows_eq. split.
      * intros H. split; [| exact I0].
        apply orb_true_iff in H. destruct H as [H | H];
          apply andb_true_iff in H; destruct H as [H _].
        -- left. split; [lia |]. unfold follows. rewrite Ho, K. reflexivity.
        -- right. repeat split; auto. lia.
      * intros [[[-> _] | (-> & _)] _].
        -- rewrite Z.eqb_refl, I0. reflexivity.
        -- rewrite Z.eqb_refl, I3. apply orb_true_r.
    + apply R2; [unfold follows; rewrite Ho, K; reflexivity | congruence].
  - destruct (nz (extended (chan c (n - 3)))) eqn:E.
    + apply (Fin c1 (fun _ => false) Hwf1 (same_globals_refl c1)
               (fun m => same_data_refl _) (fun m j => eq_refl)).
      intros m. rewrite follows_eq. split; [discriminate |].
      intros [[[_ Hf] | (_ & _ & K' & _)] _]; [| congruence].
      unfold follows in Hf. rewrite Ho, K, E in Hf. lia.
    + apply R2; [unfold follows; rewrite Ho, K, E; reflexivity | congruence].
  - apply R2; [unfold follows; rewrite Ho, K; reflexivity | congruence].
Qed.

Lemma data_key_slot (on : bool) (k n i m : Z) (c : YMF262Impl) :
  wf c -> same_data (chan c m) (chan (key_slot on k n i c) m).
Proof. apply data_put_cslot. Qed.

Lemma data_key_channel (on : bool) (k n m : Z) (c : YMF262Impl) :
  wf c -> wf (key_channel on k n c) /\ same_data (chan c m) (chan (key_channel on k n c) m).
Proof.
  intros H. unfold key_channel.
  assert (H1 := wf_key_slot on k n SLOT1 c H).
  split; [apply wf_key_slot, H1 |].
  eapply same_data_trans; [apply data_key_slot, H | apply data_key_slot, H1].
Qed.

Lemma data_key_onoff (on : bool) (n m : Z) (c : YMF262Impl) :
  wf c -> same_data (chan c m) (chan (key_onoff on n c) m).
Proof.
  intros H. unfold key_onoff.
  repeat lazymatch goal with
         | |- same_data _ (chan (if ?b then _ else _) _) => destruct b
         | |- same_data _ (chan (match channel_kind ?n with _ => _ end) _) =>
             destruct (channel_kind n)
         end;
    try apply same_data_refl;
    try (apply data_key_channel; exact H).
  destruct (data_key_channel on 1 n m c H) as [H1 D1].
  eapply same_data_trans; [exact D1 |].
  apply data_key_channel. apply (data_key_channel on 1 n 0 c H).
Qed.

Lemma land_low_high (x : Z) : Z.land (Z.land x 255) 7936 = 0.
Proof.
  rewrite <- Z.land_assoc. change (Z.land 255 7936) with 0. apply Z.land_0_r.
Qed.

Lemma land_high_low (x : Z) : Z.land (Z.land x 7936) 255 = 0.
Proof.
  rewrite <- Z.land_assoc. change (Z.land 7936 255) with 0. apply Z.land_0_r.
Qed.

Lemma land_high_high (x : Z) : Z.land (Z.land x 7936) 7936 = Z.land x 7936.
Proof.
  rewrite <- Z.land_assoc. reflexivity.
Qed.

Lemma land_byte (x : Z) : 0 <= x < 256 -> Z.land x 255 = x.
Proof.
  intros H. change 255 with (Z.ones 8). rewrite Z.land_ones by lia.
  apply Z.mod_small. exact H.
Qed.

Lemma clearing_write_fnum (ch_offset r : Z) (c : YMF262Impl) :
  clearing_step c (write_fnum ch_offset r 0 c).
Proof.
  unfold write_fnum.
  destruct (Z.land r 15 >? 8); [apply clearing_refl |].
  cbv zeta. set (n := Z.land r 15 + ch_offset).
  destruct (negb (nz (Z.land r 16))).
  - rewrite Z.lor_0_r. apply clearing_update_fnum.
    + unfold fnum_high_cleared. intros H.
      rewrite <- (land_byte _ H), land_low_high. lia.
    + intros _. apply land_high_high.
  - change (Z.lor (Z.shiftl (Z.land 0 31) 8) (Z.land (block_fnum (chan c n)) 255))
      with (Z.land (block_fnum (chan c n)) 255).
    change (nz (Z.land 0 32)) with false.
    intros Hwf.
    assert (Hk := clearing_key_onoff n c).
    assert (Hd := data_key_onoff false n n c Hwf).
    refine (clearing_trans _ _ _ Hk _ Hwf).
    apply clearing_update_fnum.
    + intros _. apply land255_range.
    + unfold fnum_low_cleared. destruct Hd as (-> & _). intros H.
      rewrite land_low_high. rewrite <- H, land_high_low. reflexivity.
Qed.

(** *** The connection registers *)

Lemma cleared_unrouted (f : Cleared) (a b d : Z) (s s' : YMF262Slot) :
  unrouted s' = unrouted s -> cleared f a b d s -> cleared f a b d s'.
Proof.
  destruct s, s'. unfold unrouted. slot_cbv. intros E. inversion E. subst.
  destruct f; slot_cbv; tauto.
Qed.

(** A step that changes the routing of operators only. *)
Lemma clearing_rerouted (c c' : YMF262Impl) :
  (wf c -> wf c') ->
  same_globals c c' ->
  (wf c -> forall m, same_data (chan c m) (chan c' m)) ->
  (wf c -> forall m j, unrouted (cslot c' m j) = unrouted (cslot c m j)) ->
  (wf c -> forall m j, routed c m j -> routed c' m j) ->
  clearing_step c c'.
Proof.
  intros Hwf (G1 & G2 & G3 & G4 & G5 & G6) Hd Hu Hr H.
  specialize (Hd H). specialize (Hu H). specialize (Hr H).
  assert (He : forall n, extended (chan c' n) = extended (chan c n))
    by (intros n; apply (Hd n)).
  destruct (controls_flags c c' G1 He) as (Ho & Hpr & Hfo & H4 & Hrc & Hdc).
  split; [apply Hwf, H |].
  split; [exact G1 |].
  split; [exact He |].
  split; [unfold rhythm_cleared; rewrite G2, G3, G4; tauto |].
  split; [unfold peekReg; rewrite G5; tauto |].
  split; [rewrite G6, Hpr; tauto |].
  split; [intros n; unfold fnum_high_cleared; destruct (Hd n) as (-> & _); tauto |].
  split; [intros n; unfold fnum_low_cleared; destruct (Hd n) as (-> & _); tauto |].
  split; [| exact Hr].
  intros n i f Hset. unfold settled. rewrite Hfo.
  destruct (Hd (follows c n)) as (_ & -> & -> & -> & _).
  apply (cleared_unrouted f _ _ _ (cslot c n i)); [apply Hu | exact Hset].
Qed.

(** What one routing update leaves. *)
Lemma set_connect_spec (n i : Z) (k : Connect) (c : YMF262Impl) :
  wf c ->
  wf (set_connect n i k c) /\
  same_globals c (set_connect n i k c) /\
  (forall m, same_data (chan c m) (chan (set_connect n i k c) m)) /\
  (forall m j, unrouted (cslot (set_connect n i k c) m j) = unrouted (cslot c m j)) /\
  (forall m j, CON (cslot (set_connect n i k c) m j) = CON (cslot c m j)) /\
  (forall m j, connect (cslot (set_connect n i k c) m j) =
               if (n =? m) && in18 n && same_slot i j then k else connect (cslot c m j)).
Proof.
  intros H. unfold set_connect.
  split; [apply wf_put_cslot, H |].
  split; [repeat split |].
  split; [intros m; apply data_put_cslot, H |].
  assert (E : forall m j,
            cslot (put_cslot n i (with_connect k (cslot c n i)) c) m j =
            if (n =? m) && in18 n && same_slot i j
            then with_connect k (cslot c m j) else cslot c m j).
  { intros m j. rewrite cslot_put_cslot by exact H.
    destruct ((n =? m) && in18 n && same_slot i j) eqn:E; [| reflexivity].
    apply andb_true_iff in E. destruct E as [E Es].
    apply andb_true_iff in E. destruct E as [E _]. apply Z.eqb_eq in E. subst m.
    rewrite (cslot_same_slot c n i j Es). reflexivity. }
  repeat split; intros m j; rewrite E;
    destruct ((n =? m) && in18 n && same_slot i j); try reflexivity;
    destruct (cslot c m j); reflexivity.
Qed.

Lemma set_CON_spec (n : Z) (b : bool) (c : YMF262Impl) :
  wf c ->
  wf (put_cslot n SLOT1 (with_CON b (cslot c n SLOT1)) c) /\
  same_globals c (put_cslot n SLOT1 (with_CON b (cslot c n SLOT1)) c) /\
  (forall m, same_data (chan c m)
               (chan (put_cslot n SLOT1 (with_CON b (cslot c n SLOT1)) c) m)) /\
  (forall m j, unrouted (cslot (put_cslot n SLOT1 (with_CON b (cslot c n SLOT1)) c) m j)
               = unrouted (cslot c m j)) /\
  (forall m j, CON (cslot (put_cslot n SLOT1 (with_CON b (cslot c n SLOT1)) c) m j) =
               if (n =? m) && in18 n && (j =? 0) then b else CON (cslot c m j)) /\
  (forall m j, connect (cslot (put_cslot n SLOT1 (with_CON b (cslot c n SLOT1)) c) m j) =
               connect (cslot c m j)).
Proof.
  intros H.
  split; [apply wf_put_cslot, H |].
  split; [repeat split |].
  split; [intros m; apply data_put_cslot, H |].
  assert (E : forall m j,
            cslot (put_cslot n SLOT1 (with_CON b (cslot c n SLOT1)) c) m j =
            if (n =? m) && in18 n && (j =? 0)
            then with_CON b (cslot c m j) else cslot c m j).
  { intros m j. rewrite cslot_put_cslot by exact H.
    unfold same_slot, SLOT1. cbn [Z.eqb].
    destruct (n =? m) eqn:E1; [| reflexivity]. apply Z.eqb_eq in E1. subst m.
    destruct (in18 n); [| reflexivity].
    destruct (j =? 0) eqn:E2; [| reflexivity]. cbn [andb Bool.eqb].
    unfold cslot, slots. rewrite E2. reflexivity. }
  repeat split; intros m j; rewrite E;
    destruct ((n =? m) && in18 n && (j =? 0)); try reflexivity;
    destruct (cslot c m j); reflexivity.
Qed.

Lemma connect_2op_spec (n : Z) (c : YMF262Impl) :
  wf c ->
  wf (connect_2op n c) /\
  same_globals c (connect_2op n c) /\
  (forall m, same_data (chan c m) (chan (connect_2op n c) m)) /\
  (forall m j, unrouted (cslot (connect_2op n c) m j) = unrouted (cslot c m j)) /\
  (forall m j, CON (cslot (connect_2op n c) m j) = CON (cslot c m j)) /\
  (forall m j, connect (cslot (connect_2op n c) m j) =
               if (n =? m) && in18 n
               then (if j =? 0
                     then (if CON (cslot c n SLOT1) then ConnChanout n else ConnPhaseMod)
                     else ConnChanout n)
               else connect (cslot c m j)).
Proof.
  intros H0. unfold connect_2op. cbv zeta.
  generalize (if CON (cslot c n SLOT1) then ConnChanout n else ConnPhaseMod). intros k.
  destruct (set_connect_spec n SLOT1 k c H0) as (H1 & G1 & D1 & U1 & B1 & C1).
  destruct (set_connect_spec n SLOT2 (ConnChanout n) _ H1) as (H2 & G2 & D2 & U2 & B2 & C2).
  split; [exact H2 |].
  split; [exact (same_globals_trans _ _ _ G1 G2) |].
  split; [intros m; exact (same_data_trans _ _ _ (D1 m) (D2 m)) |].
  split; [intros m j; rewrite U2; apply U1 |].
  split; [intros m j; rewrite B2; apply B1 |].
  intros m j. rewrite C2, C1. unfold same_slot, SLOT1, SLOT2. cbn [Z.eqb].
  destruct ((n =? m) && in18 n), (j =? 0); reflexivity.
Qed.

Lemma connect_4op_spec (n1 n2 : Z) (c : YMF262Impl) :
  wf c -> n1 <> n2 ->
  wf (connect_4op n1 n2 c) /\
  same_globals c (connect_4op n1 n2 c) /\
  (forall m, same_data (chan c m) (chan (connect_4op n1 n2 c) m)) /\
  (forall m j, unrouted (cslot (connect_4op n1 n2 c) m j) = unrouted (cslot c m j)) /\
  (forall m j, CON (cslot (connect_4op n1 n2 c) m j) = CON (cslot c m j)) /\
  (forall m j, connect (cslot (connect_4op n1 n2 c) m j) =
               if (n1 =? m) && in18 n1
               then (if j =? 0
                     then (if CON (cslot c n1 SLOT1) then ConnChanout n1 else ConnPhaseMod)
                     else (if negb (CON (cslot c n1 SLOT1)) && CON (cslot c n2 SLOT1)
                           then ConnChanout n1 else ConnPhaseMod2))
               else if (n2 =? m) && in18 n2
               then (if j =? 0
                     then (if CON (cslot c n1 SLOT1) && CON (cslot c n2 SLOT1)
                           then ConnChanout n2 else ConnPhaseMod)
                     else ConnChanout n2)
               else connect (cslot c m j)).
Proof.
  intros H0 Hne.
  assert (E : exists k1 k2 k3,
            connect_4op n1 n2 c =
            set_connect n2 SLOT2 (ConnChanout n2)
              (set_connect n2 SLOT1 k3 (set_connect n1 SLOT2 k2 (set_connect n1 SLOT1 k1 c))) /\
            k1 = (if CON (cslot c n1 SLOT1) then ConnChanout n1 else ConnPhaseMod) /\
            k2 = (if negb (CON (cslot c n1 SLOT1)) && CON (cslot c n2 SLOT1)
                  then ConnChanout n1 else ConnPhaseMod2) /\
            k3 = (if CON (cslot c n1 SLOT1) && CON (cslot c n2 SLOT1)
                  then ConnChanout n2 else ConnPhaseMod)).
  { unfold connect_4op.
    destruct (CON (cslot c n1 SLOT1)), (CON (cslot c n2 SLOT1));
      do 3 eexists; split; try reflexivity; repeat split. }
  destruct E as (k1 & k2 & k3 & -> & <- & <- & <-).
  destruct (set_connect_spec n1 SLOT1 k1 c H0) as (H1 & G1 & D1 & U1 & B1 & C1).
  destruct (set_connect_spec n1 SLOT2 k2 _ H1) as (H2 & G2 & D2 & U2 & B2 & C2).
  destruct (set_connect_spec n2 SLOT1 k3 _ H2) as (H3 & G3 & D3 & U3 & B3 & C3).
  destruct (set_connect_spec n2 SLOT2 (ConnChanout n2) _ H3)
    as (H4 & G4 & D4 & U4 & B4 & C4).
  split; [exact H4 |].
  split; [exact (same_globals_trans _ _ _ (same_globals_trans _ _ _
                    (same_globals_trans _ _ _ G1 G2) G3) G4) |].
  split; [intros m; exact (same_data_trans _ _ _ (same_data_trans _ _ _
                    (same_data_trans _ _ _ (D1 m) (D2 m)) (D3 m)) (D4 m)) |].
  split; [intros m j; rewrite U4, U3, U2; apply U1 |].
  split; [intros m j; rewrite B4, B3, B2; apply B1 |].
  intros m j. rewrite C4, C3, C2, C1. unfold same_slot, SLOT1, SLOT2. cbn [Z.eqb].
  clear - Hne.
  destruct (n1 =? m) eqn:E1; destruct (n2 =? m) eqn:E2; try lia;
    destruct (in18 n1), (in18 n2), (j =? 0); reflexivity.
Qed.

Lemma four_op_pair (c : YMF262Impl) (n : Z) :
  four_op c n = true ->
  (first_of_pair n = true /\ channel_kind n = FirstOfPair /\
   channel_kind (n + 3) = SecondOfPair /\ four_op c (n + 3) = true /\
   first_of_pair (n + 3) = false /\ OPL3_mode c = true /\
   nz (extended (chan c n)) = true /\ in18 n = true /\ in18 (n + 3) = true) \/
  (first_of_pair n = false /\ channel_kind n = SecondOfPair /\
   channel_kind (n - 3) = FirstOfPair /\ four_op c (n - 3) = true /\
   first_of_pair (n - 3) = true /\ OPL3_mode c = true /\
   nz (extended (chan c (n - 3))) = true /\ in18 n = true /\ in18 (n - 3) = true).
Proof.
  unfold four_op, first_of_pair. intros H.
  apply andb_true_iff in H. destruct H as [Ho H]. rewrite Ho. cbn [andb].
  destruct (channel_kind n) eqn:K; [left | right | discriminate].
  - destruct (proj1 (channel_kind_pair n) K) as (K3 & I0 & I3).
    rewrite K3. replace (n + 3 - 3) with n by lia. repeat split; auto.
  - destruct (proj2 (channel_kind_pair n) K) as (K3 & I0 & I3).
    rewrite K3. repeat split; auto.
Qed.

(** The end of the c0-c8 handler: the connection bit is cleared and the
    operators of the voice are routed again.  What was routed as [reset]
    leaves it stays so, and the operators this channel decides become so. *)
Lemma connect_zero_spec (n : Z) (c : YMF262Impl) :
  wf c ->
  let c2 := put_cslot n SLOT1 (with_CON false (cslot c n SLOT1)) c in
  let c' :=
    if OPL3_mode c2 then
      match channel_kind n with
      | FirstOfPair =>
          if nz (extended (chan c2 n)) then connect_4op n (n + 3) c2 else connect_2op n c2
      | SecondOfPair =>
          if nz (extended (chan c2 (n - 3))) then connect_4op (n - 3) n c2
          else connect_2op n c2
      | TwoOpOnly => connect_2op n c2
      end
    else connect_2op n c2 in
  wf c' /\ same_globals c c' /\
  (forall m, same_data (chan c m) (chan c' m)) /\
  (forall m j, unrouted (cslot c' m j) = unrouted (cslot c m j)) /\
  (forall m j,
     routed c m j \/ (deciding_channel c m j = n /\ in18 n = true) -> routed c' m j).
Proof.
  intros H0 c2.
  destruct (set_CON_spec n false c H0) as (H1 & G1 & D1 & U1 & B1 & C1).
  fold c2 in H1, G1, D1, U1, B1, C1.
  assert (He2 : forall m, extended (chan c2 m) = extended (chan c m))
    by (intros m; apply (D1 m)).
  change (OPL3_mode c2) with (OPL3_mode c). rewrite !He2.
  assert (Fin : forall c' : YMF262Impl,
            wf c' -> same_globals c2 c' ->
            (forall m, same_data (chan c2 m) (chan c' m)) ->
            (forall m j, unrouted (cslot c' m j) = unrouted (cslot c2 m j)) ->
            (forall m j, CON (cslot c' m j) = CON (cslot c2 m j)) ->
            (forall m j,
               routed c m j \/ (deciding_channel c m j = n /\ in18 n = true) ->
               connect (cslot c' m j) = reset_connect c m j) ->
            wf c' /\ same_globals c c' /\
            (forall m, same_data (chan c m) (chan c' m)) /\
            (forall m j, unrouted (cslot c' m j) = unrouted (cslot c m j)) /\
            (forall m j,
               routed c m j \/ (deciding_channel c m j = n /\ in18 n = true) ->
               routed c' m j)).
  { intros c' W G D U B C.
    assert (G' := same_globals_trans _ _ _ G1 G).
    assert (D' := fun m => same_data_trans _ _ _ (D1 m) (D m)).
    assert (He : forall m, extended (chan c' m) = extended (chan c m))
      by (intros m; apply (D' m)).
    destruct (controls_flags c c' (proj1 G') He) as (Ho & Hpr & Hfo & H4 & Hrc & Hdc).
    split; [exact W |]. split; [exact G' |]. split; [exact D' |].
    split; [intros m j; rewrite U; apply U1 |].
    intros m j Hr. unfold routed. rewrite Hrc, Hdc. split; [apply C, Hr |].
    rewrite B, B1. change (SLOT1 =? 0) with true. rewrite andb_true_r.
    destruct Hr as [[_ R2] | [-> Hin]].
    - rewrite R2. destruct ((n =? deciding_channel c m j) && in18 n); reflexivity.
    - rewrite Z.eqb_refl, Hin. reflexivity. }
  assert (Hcon : in18 n = true -> CON (cslot c2 n SLOT1) = false).
  { intros Hin. rewrite B1, Z.eqb_refl, Hin. reflexivity. }
  assert (Hdec : forall m j,
            deciding_channel c m j = n -> m <> n ->
            m = n - 3 /\ four_op c m = true /\ first_of_pair m = true /\ (j =? 0) = false).
  { intros m j Hd Hm. unfold deciding_channel in Hd.
    destruct (four_op c m) eqn:F4; [| cbn [andb] in Hd; lia].
    destruct (first_of_pair m) eqn:F1; [| cbn [andb] in Hd; lia].
    destruct (j =? 0); cbn [andb negb] in Hd; [lia |].
    repeat split. lia. }
  assert (F2 : four_op c n = false ->
               wf (connect_2op n c2) /\ same_globals c (connect_2op n c2) /\
               (forall m, same_data (chan c m) (chan (connect_2op n c2) m)) /\
               (forall m j, unrouted (cslot (connect_2op n c2) m j) = unrouted (cslot c m j)) /\
               (forall m j,
                  routed c m j \/ (deciding_channel c m j = n /\ in18 n = true) ->
                  routed (connect_2op n c2) m j)).
  { intros F.
    destruct (connect_2op_spec n c2 H1) as (W & G & D & U & B & C).
    apply (Fin _ W G D U B). intros m j Hr. rewrite C, C1.
    destruct ((n =? m) && in18 n) eqn:E.
    - apply andb_true_iff in E. destruct E as [E Hin]. apply Z.eqb_eq in E. subst m.
      rewrite (Hcon Hin). unfold reset_connect. rewrite F. reflexivity.
    - destruct Hr as [[R1 _] | [Hd Hin]]; [exact R1 |].
      exfalso. rewrite Hin, andb_true_r in E.
      destruct (Hdec m j Hd ltac:(lia)) as (-> & F4 & _).
      destruct (four_op_pair c (n - 3) F4) as [(_ & _ & _ & F4' & _) | (F1' & _)].
      + replace (n - 3 + 3) with n in F4' by lia. congruence.
      + destruct (Hdec (n - 3) j Hd ltac:(lia)) as (_ & _ & F1 & _). congruence. }
  unfold four_op in F2.
  destruct (OPL3_mode c) eqn:Ho; [| apply F2; reflexivity].
  cbn [andb] in F2.
  destruct (channel_kind n) eqn:K.
  - (* first channel of a pair *)
    destruct (nz (extended (chan c n))) eqn:E; [| apply F2; reflexivity].
    destruct (proj1 (channel_kind_pair n) K) as (K3 & I0 & I3).
    assert (F4 : four_op c n = true) by (unfold four_op; rewrite Ho, K, E; reflexivity).
    assert (F1 : first_of_pair n = true) by (unfold first_of_pair; rewrite K; reflexivity).
    assert (F13 : first_of_pair (n + 3) = false)
      by (unfold first_of_pair; rewrite K3; reflexivity).
    destruct (connect_4op_spec n (n + 3) c2 H1 ltac:(lia)) as (W & G & D & U & B & C).
    apply (Fin _ W G D U B). intros m j Hr. rewrite C, !C1, (Hcon I0), ?B1.
    replace (n =? n + 3) with false by lia. cbn [andb negb].
    rewrite I0, I3, !andb_true_r.
    destruct (n =? m) eqn:E1.
    { apply Z.eqb_eq in E1. subst m. unfold reset_connect. rewrite F4, F1. cbn [andb].
      destruct (j =? 0) eqn:Ej; [reflexivity |].
      destruct Hr as [[_ R2] | [Hd _]].
      - unfold deciding_channel in R2. rewrite F4, F1, Ej in R2. cbn [andb negb] in R2.
        rewrite R2. reflexivity.
      - unfold deciding_channel in Hd. rewrite F4, F1, Ej in Hd. cbn [andb negb] in Hd. lia. }
    destruct (n + 3 =? m) eqn:E2.
    { apply Z.eqb_eq in E2. subst m. unfold reset_connect. rewrite F13, andb_false_r.
      reflexivity. }
    destruct Hr as [[R1 _] | [Hd _]]; [exact R1 |].
    exfalso. destruct (Hdec m j Hd ltac:(lia)) as (-> & _ & F1' & _).
    unfold first_of_pair in F1'. destruct (channel_kind (n - 3)) eqn:K'; try discriminate.
    destruct (proj1 (channel_kind_pair (n - 3)) K') as (K'' & _).
    replace (n - 3 + 3) with n in K'' by lia. congruence.
  - (* second channel of a pair *)
    destruct (nz (extended (chan c (n - 3)))) eqn:E; [| apply F2; reflexivity].
    destruct (proj2 (channel_kind_pair n) K) as (K3 & I0 & I3).
    assert (F4 : four_op c (n - 3) = true) by (unfold four_op; rewrite Ho, K3, E; reflexivity).
    assert (F1 : first_of_pair (n - 3) = true)
      by (unfold first_of_pair; rewrite K3; reflexivity).
    assert (F13 : first_of_pair n = false) by (unfold first_of_pair; rewrite K; reflexivity).
    destruct (connect_4op_spec (n - 3) n c2 H1 ltac:(lia)) as (W & G & D & U & B & C).
    apply (Fin _ W G D U B). intros m j Hr. rewrite C, !C1, (Hcon I0), ?B1.
    replace (n =? n - 3) with false by lia. cbn [andb negb].
    rewrite I0, I3, !andb_true_r, !andb_false_r.
    destruct (n - 3 =? m) eqn:E1.
    { apply Z.eqb_eq in E1. subst m. unfold reset_connect. rewrite F4, F1. cbn [andb].
      destruct (j =? 0) eqn:Ej; [| reflexivity].
      destruct Hr as [[_ R2] | [Hd _]].
      - unfold deciding_channel in R2. rewrite F4, F1, Ej in R2. cbn [andb negb] in R2.
        rewrite R2. reflexivity.
      - unfold deciding_channel in Hd. rewrite F4, F1, Ej in Hd. cbn [andb negb] in Hd. lia. }
    destruct (n =? m) eqn:E2.
    { apply Z.eqb_eq in E2. subst m. unfold reset_connect. rewrite F13, andb_false_r.
      reflexivity. }
    destruct Hr as [[R1 _] | [Hd _]]; [exact R1 |].
    exfalso. destruct (Hdec m j Hd ltac:(lia)) as (-> & _). lia.
  - apply F2. reflexivity.
Qed.

Lemma settled_put_cslot (n i : Z) (x : YMF262Slot) (f : Cleared) (c : YMF262Impl) :
  wf c -> in18 n = true ->
  cleared f (fc (chan c (follows c n))) (kcode (chan c (follows c n)))
    (ksl_base (chan c (follows c n))) x ->
  settled (put_cslot n i x c) n i f.
Proof.
  intros H Hin Hx. unfold settled.
  assert (He : forall m, extended (chan (put_cslot n i x c) m) = extended (chan c m))
    by (intros m; apply (data_put_cslot n i m x c H)).
  destruct (controls_flags c (put_cslot n i x c) eq_refl He) as (_ & _ & -> & _).
  destruct (data_put_cslot n i (follows c n) x c H) as (_ & -> & -> & -> & _).
  rewrite cslot_put_cslot by exact H.
  rewrite Z.eqb_refl, Hin. unfold same_slot. rewrite eqb_reflx. exact Hx.
Qed.

(** A zero in c0-c8. *)
Lemma write_connect_zero (ch_offset r : Z) (c : YMF262Impl) :
  clearing_step c (write_connect ch_offset r 0 c) /\
  (wf c -> (Z.land r 15 >? 8) = false -> in18 (Z.land r 15 + ch_offset) = true ->
   settled (write_connect ch_offset r 0 c) (Z.land r 15 + ch_offset) SLOT1 ClearedFeedback /\
   (forall m j,
      deciding_channel (write_connect ch_offset r 0 c) m j = Z.land r 15 + ch_offset ->
      routed (write_connect ch_offset r 0 c) m j) /\
   (forall k, 0 <= k < 4 ->
      aget 0 (pan (write_connect ch_offset r 0 c)) ((Z.land r 15 + ch_offset) * 4 + k) =
      pan_reset (write_connect ch_offset r 0 c))).
Proof.
  unfold write_connect.
  destruct (Z.land r 15 >? 8) eqn:Hr.
  { split; [apply clearing_refl | discriminate]. }
  cbv zeta. set (n := Z.land r 15 + ch_offset).
  match goal with
  | |- context [put_cslot n SLOT1 (setFeedbackShift _ (cslot ?x n SLOT1)) ?x] =>
      set (c1 := x)
  end.
  assert (E1 : c1 =
               with_pan (aset (aset (aset (aset (pan c) (n * 4 + 0) (pan_reset c))
                                       (n * 4 + 1) (pan_reset c))
                                 (n * 4 + 2) (pan_reset c))
                           (n * 4 + 3) (pan_reset c)) c).
  { unfold c1, pan_reset. destruct (OPL3_mode c); reflexivity. }
  clearbody c1.
  assert (S1 : clearing_step c c1).
  { rewrite E1. apply clearing_globals; try reflexivity; try tauto.
    - cbn -[aset]. rewrite !aset_length. reflexivity.
    - intros k Hk. cbn -[aset aget]. rewrite !aget_aset.
      repeat match goal with
             | |- context [if ?b then _ else _] => destruct b
             end; auto. }
  match goal with
  | |- context [put_cslot n SLOT1 (with_CON _ (cslot ?x n SLOT1)) ?x] =>
      assert (S2 : clearing_step c1 x)
        by (apply clearing_put_cslot; [keeps_cleared | reflexivity ..]);
      set (c2 := x) in *
  end.
  change (nz (Z.land 0 1)) with false.
  assert (S3 := fun H => connect_zero_spec n c2 H).
  cbv zeta in S3.
  match type of S3 with
  | forall _, wf ?x /\ _ => set (c3 := x) in *
  end.
  assert (S12 := clearing_trans _ _ _ S1 S2).
  split.
  - intros H. destruct (S12 H) as (H2 & _).
    destruct (S3 H2) as (H3 & G3 & D3 & U3 & R3).
    refine (clearing_trans _ _ _ S12 _ H).
    apply clearing_rerouted; auto.
  - intros H _ Hin.
    destruct (S1 H) as (H1 & A1 & A2 & _).
    destruct (S2 H1) as (H2 & B1 & B2 & _).
    destruct (S3 H2) as (H3 & G3 & D3 & U3 & R3).
    assert (S23 : clearing_step c2 c3) by (apply clearing_rerouted; auto).
    destruct (S23 H2) as (_ & C1 & C2 & _ & _ & C6 & _ & _ & C9 & _).
    split; [| split].
    + apply C9. unfold c2. apply settled_put_cslot; [exact H1 | exact Hin |].
      unfold setFeedbackShift. zero_consts. cbn. reflexivity.
    + intros m j Hd. apply R3. right. split; [| exact Hin].
      destruct (controls_flags c2 c3 C1 C2) as (_ & _ & _ & _ & _ & <-). exact Hd.
    + intros k Hk. apply C6.
      destruct (S2 H1) as (_ & _ & _ & _ & _ & B6 & _). apply B6.
      destruct (controls_flags c c1 A1 A2) as (_ & -> & _).
      rewrite E1. cbn -[aset aget]. rewrite !aget_aset, !aset_length.
      destruct H as (_ & _ & -> & _). change (Z.of_nat 72) with 72.
      unfold in18 in Hin.
      assert (Hk' : k = 0 \/ k = 1 \/ k = 2 \/ k = 3) by lia.
      destruct Hk' as [-> | [-> | [-> | ->]]];
        repeat match goal with
               | |- context [if ?b then _ else _] => destruct b eqn:?
               end; try reflexivity; lia.
Qed.

(** *** Zero writes *)

(** Outside 0x101, 0x104 and 0x105 a register write is a page write. *)
Lemma writeRegForce_page (r v : Z) (c : YMF262Impl) :
  r <> 0x101 -> r <> 0x104 -> r <> 0x105 ->
  writeRegForce r v c =
  write_page (if nz (Z.land r 0x100) then 9 else 0) r (byte_of v)
    (with_reg (aset (reg c) r (byte_of v)) c).
Proof.
  intros H1 H4 H5. unfold writeRegForce. cbv zeta.
  destruct (nz (Z.land r 256)); [| reflexivity].
  destruct r as [| p | p]; try reflexivity.
  do 9 (try (destruct p as [p | p |]); try reflexivity); contradiction.
Qed.

(** Case analysis on the register block of an operator or channel
    register. *)
Lemma write_page_cases_hi (P : YMF262Impl -> Prop) (ch_offset r v : Z) (c : YMF262Impl) :
  Z.land (Z.land r 0xFF) 0xE0 <> 0 ->
  P c ->
  (forall sl_, ch_offset * 2 <= sl_ < ch_offset * 2 + 18 -> P (set_mul sl_ v c)) ->
  (forall sl_, ch_offset * 2 <= sl_ < ch_offset * 2 + 18 -> P (set_ksl_tl sl_ v c)) ->
  (forall sl_, ch_offset * 2 <= sl_ < ch_offset * 2 + 18 -> P (set_ar_dr sl_ v c)) ->
  (forall sl_, ch_offset * 2 <= sl_ < ch_offset * 2 + 18 -> P (set_sl_rr sl_ v c)) ->
  P (write_rhythm ch_offset v c) ->
  (forall r', P (write_fnum ch_offset r' v c)) ->
  (forall r', P (write_connect ch_offset r' v c)) ->
  (forall r', P (write_waveform ch_offset r' v c)) ->
  P (write_page ch_offset r v c).
Proof.
  intros Hb Hc Hmul Hksl Har Hsl Hrh Hfn Hcon Hwav.
  assert (Hslot : forall set,
            (forall sl_, ch_offset * 2 <= sl_ < ch_offset * 2 + 18 -> P (set sl_ v c)) ->
            P (write_slot set ch_offset (Z.land r 0xFF) v c)).
  { intros set Hset. unfold write_slot.
    destruct (slot_array_range (Z.land (Z.land r 255) 31)) as [Hneg | Hpos].
    - apply Z.ltb_lt in Hneg. rewrite Hneg. exact Hc.
    - assert (E : (tbl slot_array (Z.land (Z.land r 255) 31) <? 0) = false) by lia.
      rewrite E. apply Hset. lia. }
  unfold write_page.
  pose proof (register_block r) as Hblk. cbn [In] in Hblk.
  destruct Hblk as [E | [E | [E | [E | [E | [E | [E | [E | []]]]]]]]];
    try (symmetry in E; contradiction);
    cbv zeta; rewrite <- E; cbv iota beta; auto.
  destruct (Z.land r 255 =? 189); auto.
Qed.

Lemma clearing_write_page (ch_offset r : Z) (c : YMF262Impl) :
  Z.land (Z.land r 0xFF) 0xE0 <> 0 ->
  clearing_step c (write_page ch_offset r 0 c).
Proof.
  intros Hb. apply write_page_cases_hi; [exact Hb | apply clearing_refl | ..].
  - intros sl_ _. apply clearing_set_mul.
  - intros sl_ _. apply clearing_set_ksl_tl.
  - intros sl_ _. apply clearing_set_ar_dr.
  - intros sl_ _. apply clearing_set_sl_rr.
  - apply clearing_write_rhythm.
  - intros r'. apply clearing_write_fnum.
  - intros r'. apply write_connect_zero.
  - intros r'. apply clearing_write_waveform.
Qed.

Lemma reset_register_block (r : Z) :
  reset_register r ->
  r <> 0x101 /\ r <> 0x104 /\ r <> 0x105 /\ Z.land (Z.land r 0xFF) 0xE0 <> 0 /\
  0 <= r < 512.
Proof.
  intros Hr. unfold reset_register in Hr.
  repeat (split; [lia |]). split; [| lia].
  assert (Hx : exists x, 0x20 <= x < 256 /\ Z.land r 255 = x).
  { destruct Hr as [Hr | Hr].
    - exists r. split; [lia |]. apply land_byte. lia.
    - exists (r - 256). split; [lia |].
      change 255 with (Z.ones 8). rewrite Z.land_ones by lia.
      replace r with (r - 256 + 1 * 2 ^ 8) at 1 by lia.
      rewrite Z.mod_add by lia. apply Z.mod_small. lia. }
  destruct Hx as (x & Hx & ->).
  assert (H : negb (Z.land x 224 =? 0) || (x <? 32) = true).
  { revert x Hx. intros x Hx.
    apply (byte_forallb (fun x => negb (Z.land x 224 =? 0) || (x <? 32)));
      [vm_compute; reflexivity | lia]. }
  apply orb_true_iff in H. destruct H as [H | H]; lia.
Qed.

Lemma clearing_writeRegForce (r : Z) (c : YMF262Impl) :
  reset_register r -> clearing_step c (writeRegForce r 0 c).
Proof.
  intros Hr. destruct (reset_register_block r Hr) as (H1 & H4 & H5 & Hb & _).
  rewrite (writeRegForce_page r 0 c H1 H4 H5).
  change (byte_of 0) with 0.
  eapply clearing_trans; [apply clearing_with_reg | apply clearing_write_page, Hb].
Qed.

(** *** What each zero leaves *)

(** The operator written by a zero holds what the zero leaves. *)
Ltac settles :=
  apply settled_put_cslot; [assumption | assumption |];
  unfold follows, cslot, setFeedbackShift; cbv zeta; zero_consts;
  repeat match goal with
         | |- context [slots ?ch ?i] =>
             let s := fresh "s" in generalize (slots ch i); intros s; destruct s
         end;
  repeat match goal with
         | |- context [OPL3_mode ?c] => destruct (OPL3_mode c)
         | |- context [match channel_kind ?n with _ => _ end] => destruct (channel_kind n)
         | |- context [nz (extended ?ch)] => destruct (nz (extended ch))
         end;
  slot_cases; intuition (try congruence; try lia; try reflexivity).

Lemma settles_set_mul (sl_ : Z) (c : YMF262Impl) :
  wf c -> in18 (sl_ / 2) = true ->
  settled (set_mul sl_ 0 c) (sl_ / 2) (Z.land sl_ 1) ClearedMultiple.
Proof. intros H Hin. unfold set_mul. cbv zeta. settles. Qed.

Lemma settles_set_ksl_tl (sl_ : Z) (c : YMF262Impl) :
  wf c -> in18 (sl_ / 2) = true ->
  settled (set_ksl_tl sl_ 0 c) (sl_ / 2) (Z.land sl_ 1) ClearedLevel.
Proof. intros H Hin. unfold set_ksl_tl. cbv zeta. settles. Qed.

Lemma settles_set_ar_dr (sl_ : Z) (c : YMF262Impl) :
  wf c -> in18 (sl_ / 2) = true ->
  settled (set_ar_dr sl_ 0 c) (sl_ / 2) (Z.land sl_ 1) ClearedAttack.
Proof. intros H Hin. unfold set_ar_dr. cbv zeta. settles. Qed.

Lemma settles_set_sl_rr (sl_ : Z) (c : YMF262Impl) :
  wf c -> in18 (sl_ / 2) = true ->
  settled (set_sl_rr sl_ 0 c) (sl_ / 2) (Z.land sl_ 1) ClearedRelease.
Proof. intros H Hin. unfold set_sl_rr. cbv zeta. settles. Qed.

Lemma settled_same_slot (c : YMF262Impl) (n i j : Z) (f : Cleared) :
  same_slot i j = true -> settled c n i f -> settled c n j f.
Proof.
  intros Hs. unfold settled. rewrite (cslot_same_slot c n i j Hs). tauto.
Qed.

Lemma settles_write_waveform (sl_ : Z) (c : YMF262Impl) :
  wf c -> in18 (sl_ / 2) = true ->
  let c1 := put_cslot (sl_ / 2) (Z.land sl_ 1)
              (with_waveform_number (Z.land 0 7) (cslot c (sl_ / 2) (Z.land sl_ 1))) c in
  settled
    (put_cslot (sl_ / 2) (Z.land sl_ 1)
       (with_wavetable
          ((if negb (OPL3_mode c1) then Z.land (Z.land 0 7) 3 else Z.land 0 7) * SIN_LEN)
          (cslot c1 (sl_ / 2) (Z.land sl_ 1))) c1)
    (sl_ / 2) (Z.land sl_ 1) ClearedWaveform.
Proof.
  intros H Hin c1.
  assert (H1 : wf c1) by (apply wf_put_cslot; exact H).
  assert (E : cslot c1 (sl_ / 2) (Z.land sl_ 1) =
              with_waveform_number (Z.land 0 7) (cslot c (sl_ / 2) (Z.land sl_ 1))).
  { unfold c1. rewrite cslot_put_cslot by exact H.
    rewrite Z.eqb_refl, Hin. unfold same_slot. rewrite eqb_reflx. reflexivity. }
  apply settled_put_cslot; [exact H1 | exact Hin |].
  rewrite E. zero_consts. destruct (negb (OPL3_mode c1)); split; reflexivity.
Qed.

Lemma land_byte_lnot (x k : Z) : Z.land (byte_of (Z.land x (Z.lnot k))) k = 0.
Proof.
  unfold byte_of. change 256 with (2 ^ 8). rewrite <- Z.land_ones by lia.
  apply Z.bits_inj'. intros n Hn.
  rewrite !Z.land_spec, Z.lnot_spec, Z.bits_0 by exact Hn.
  destruct (Z.testbit x n), (Z.testbit k n), (Z.testbit (Z.ones 8) n); reflexivity.
Qed.

Lemma settles_key_off (k n i : Z) (c : YMF262Impl) :
  wf c -> in18 n = true -> settled (key_slot false k n i c) n i (ClearedKey k).
Proof.
  intros H Hin. unfold key_slot. apply settled_put_cslot; [exact H | exact Hin |].
  unfold cleared. rewrite FM_KEYOFF_key.
  split; [apply byte_of_range | apply land_byte_lnot].
Qed.

Lemma settles_key_channel (k n j : Z) (c : YMF262Impl) :
  wf c -> in18 n = true -> settled (key_channel false k n c) n j (ClearedKey k).
Proof.
  intros H Hin. unfold key_channel.
  assert (H1 : wf (key_slot false k n SLOT1 c)) by (apply wf_key_slot; exact H).
  destruct (j =? 0) eqn:Ej.
  - apply (settled_same_slot _ n SLOT1 j); [unfold same_slot; rewrite Ej; reflexivity |].
    apply (clearing_key_off k n SLOT2 _ H1). apply settles_key_off; assumption.
  - apply (settled_same_slot _ n SLOT2 j); [unfold same_slot; rewrite Ej; reflexivity |].
    apply settles_key_off; assumption.
Qed.

(** A zero in bd. *)
Lemma settles_write_rhythm (c : YMF262Impl) :
  wf c ->
  rhythm_cleared (write_rhythm 0 0 c) /\
  forall n i, 6 <= n <= 8 -> settled (write_rhythm 0 0 c) n i (ClearedKey 2).
Proof.
  intros H. unfold write_rhythm. cbn [Z.eqb negb]. cbv zeta.
  match goal with
  | |- context [nz (Z.land (rhythm ?x) 32)] => change (nz (Z.land (rhythm x) 32)) with false
  end.
  cbv iota. zero_consts.
  set (c0 := with_rhythm 0 (with_lfo_pm_depth_range 0 (with_lfo_am_depth false c))).
  assert (H0 : wf c0) by exact H.
  assert (R0 : rhythm_cleared c0) by (repeat split).
  clearbody c0.
  assert (K6 := settles_key_channel 2 6).
  unfold key_channel in K6.
  set (c1 := key_slot false 2 6 SLOT2 (key_slot false 2 6 SLOT1 c0)).
  set (c2 := key_slot false 2 7 SLOT2 (key_slot false 2 7 SLOT1 c1)).
  assert (S1 : clearing_step c0 c1) by apply clearing_key_channel.
  assert (S2 : clearing_step c1 c2) by apply clearing_key_channel.
  assert (S3 : clearing_step c2
                 (key_slot false 2 8 SLOT2 (key_slot false 2 8 SLOT1 c2)))
    by apply clearing_key_channel.
  destruct (S1 H0) as (H1 & _ & _ & A4 & _ & _ & _ & _ & A9 & _).
  destruct (S2 H1) as (H2 & _ & _ & B4 & _ & _ & _ & _ & B9 & _).
  destruct (S3 H2) as (H3 & _ & _ & C4 & _ & _ & _ & _ & C9 & _).
  split; [auto |].
  intros n i Hn.
  assert (Hn' : n = 6 \/ n = 7 \/ n = 8) by lia.
  destruct Hn' as [-> | [-> | ->]].
  - apply C9, B9. apply (settles_key_channel 2 6 i c0 H0). reflexivity.
  - apply C9. apply (settles_key_channel 2 7 i c1 H1). reflexivity.
  - apply (settles_key_channel 2 8 i c2 H2). reflexivity.
Qed.

(** The key bit of a zero in b0-b8. *)
Lemma settles_key_onoff (n : Z) (c : YMF262Impl) :
  wf c -> in18 n = true ->
  forall m j, follows c m = n -> settled (key_onoff false n c) m j (ClearedKey 1).
Proof.
  intros H Hin m j Hf. apply follows_eq in Hf.
  unfold key_onoff.
  destruct Hf as [[-> Hf] | (-> & Ho & K & E)].
  - unfold follows in Hf.
    destruct (OPL3_mode c); [| apply settles_key_channel; assumption].
    destruct (channel_kind n) eqn:K.
    + destruct (nz (extended (chan c n))).
      * destruct (data_key_channel false 1 n 0 c H) as [H1 _].
        apply (clearing_key_channel 1 (n + 3) _ H1).
        apply settles_key_channel; assumption.
      * apply settles_key_channel; assumption.
    + destruct (nz (extended (chan c (n - 3)))); [lia |].
      apply settles_key_channel; assumption.
    + apply settles_key_channel; assumption.
  - rewrite Ho, K, E.
    destruct (data_key_channel false 1 n 0 c H) as [H1 _].
    apply settles_key_channel; [exact H1 |].
    apply (proj1 (channel_kind_pair n) K).
Qed.

(** A zero in a0-a8 or b0-b8. *)
Lemma settles_write_fnum (ch_offset r : Z) (c : YMF262Impl) :
  wf c -> (Z.land r 15 >? 8) = false -> in18 (Z.land r 15 + ch_offset) = true ->
  if nz (Z.land r 16)
  then fnum_high_cleared (chan (write_fnum ch_offset r 0 c) (Z.land r 15 + ch_offset)) /\
       forall m j,
         follows (write_fnum ch_offset r 0 c) m = Z.land r 15 + ch_offset ->
         settled (write_fnum ch_offset r 0 c) m j (ClearedKey 1)
  else fnum_low_cleared (chan (write_fnum ch_offset r 0 c) (Z.land r 15 + ch_offset)).
Proof.
  intros H Hr Hin. unfold write_fnum. rewrite Hr. cbv zeta.
  set (n := Z.land r 15 + ch_offset) in *.
  assert (Hbf : forall bf c0, wf c0 ->
            block_fnum (chan (update_fnum n bf c0) n) = bf).
  { intros bf c0 H0. unfold update_fnum.
    destruct (negb (block_fnum (chan c0 n) =? bf)) eqn:E.
    - cbv zeta.
      match goal with |- context [put_chan n ?ch c0] => set (ch' := ch) end.
      assert (C4 : block_fnum ch' = bf) by (unfold ch'; destruct (nts c0); reflexivity).
      assert (C3 : extended ch' = extended (chan c0 n))
        by (unfold ch'; destruct (nts c0); reflexivity).
      clearbody ch'.
      assert (H1 : wf (put_chan n ch' c0)) by (apply wf_put_chan; exact H0).
      assert (E1 : chan (put_chan n ch' c0) n = ch').
      { rewrite chan_put_chan by exact H0. rewrite Z.eqb_refl, Hin. reflexivity. }
      repeat lazymatch goal with
             | |- context [if ?b then _ else _] => destruct b
             | |- context [match channel_kind ?k with _ => _ end] =>
                 destruct (channel_kind k)
             end;
        first [ destruct (refresh2_spec n _ H1) as (_ & _ & D & _);
                destruct (D n) as (-> & _); rewrite E1; exact C4
              | destruct (refresh4_spec n _ H1) as (_ & _ & D & _);
                destruct (D n) as (-> & _); rewrite E1; exact C4
              | rewrite E1; exact C4 ].
    - apply negb_false_iff in E. lia. }
  destruct (nz (Z.land r 16)); cbn [negb].
  - change (Z.lor (Z.shiftl (Z.land 0 31) 8) (Z.land (block_fnum (chan c n)) 255))
      with (Z.land (block_fnum (chan c n)) 255).
    change (nz (Z.land 0 32)) with false.
    assert (Hk := clearing_key_onoff n c H).
    destruct Hk as (H1 & _).
    split.
    + unfold fnum_high_cleared. rewrite Hbf by exact H1. apply land255_range.
    + intros m j Hf.
      assert (Su : clearing_step (key_onoff false n c)
                     (update_fnum n (Z.land (block_fnum (chan c n)) 255)
                        (key_onoff false n c))).
      { apply clearing_update_fnum.
        - intros _. apply land255_range.
        - unfold fnum_low_cleared.
          destruct (data_key_onoff false n n c H) as (-> & _). intros Hl.
          rewrite land_low_high. rewrite <- Hl, land_high_low. reflexivity. }
      destruct (Su H1) as (_ & U1 & U2 & _ & _ & _ & _ & _ & U9 & _).
      apply U9.
      destruct (clearing_key_onoff n c H) as (_ & K1 & K2 & _).
      apply settles_key_onoff; [exact H | exact Hin |].
      destruct (controls_flags _ _ U1 U2) as (_ & _ & Hfo & _).
      destruct (controls_flags _ _ K1 K2) as (_ & _ & Hfo' & _).
      rewrite <- Hfo', <- Hfo. exact Hf.
  - rewrite Z.lor_0_r. unfold fnum_low_cleared. rewrite Hbf by exact H.
    apply land_high_high.
Qed.

Lemma peekReg_with_reg (r v : Z) (c : YMF262Impl) :
  wf c -> 0 <= r < 512 -> peekReg r (with_reg (aset (reg c) r v) c) = v.
Proof.
  intros (_ & Hl & _) Hr. unfold peekReg. cbn -[aset aget].
  rewrite aget_aset, Hl, Z.eqb_refl. change (Z.of_nat 512) with 512.
  assert (E1 : (0 <=? r) = true) by lia.
  assert (E2 : (r <? 512) = true) by lia.
  rewrite E1, E2. reflexivity.
Qed.

Lemma in18_slot (t ch_offset : Z) :
  0 <= t < 18 -> ch_offset = 0 \/ ch_offset = 9 -> in18 ((t + ch_offset * 2) / 2) = true.
Proof.
  intros Ht Ho. unfold in18.
  assert (H : 0 <= (t + ch_offset * 2) / 2 < 18).
  { split; [apply Z.div_pos; lia | apply Z.div_lt_upper_bound; lia]. }
  apply andb_true_iff. split; lia.
Qed.

(** The zero written to a register leaves what [register_settled] says. *)
Lemma settles_writeRegForce (r : Z) (c : YMF262Impl) :
  reset_register r -> wf c -> register_settled r (writeRegForce r 0 c).
Proof.
  intros Hr H. destruct (reset_register_block r Hr) as (H1 & H4 & H5 & Hb & Hrange).
  rewrite (writeRegForce_page r 0 c H1 H4 H5). change (byte_of 0) with 0.
  unfold register_settled.
  set (off := if nz (Z.land r 256) then 9 else 0).
  assert (Hoff : off = 0 \/ off = 9) by (unfold off; destruct (nz (Z.land r 256)); auto).
  set (c1 := with_reg (aset (reg c) r 0) c).
  assert (Hc1 : wf c1) by (apply (clearing_with_reg r c H)).
  cbv zeta. split.
  { apply (clearing_write_page off r c1 Hb Hc1). apply peekReg_with_reg; assumption. }
  assert (Hop : forall f set,
            (forall sl_, in18 (sl_ / 2) = true ->
               settled (set sl_ 0 c1) (sl_ / 2) (Z.land sl_ 1) f) ->
            0 <= tbl slot_array (Z.land (Z.land r 255) 31) ->
            settled (write_slot set off (Z.land r 255) 0 c1)
              ((tbl slot_array (Z.land (Z.land r 255) 31) + off * 2) / 2)
              (Z.land (tbl slot_array (Z.land (Z.land r 255) 31) + off * 2) 1) f).
  { intros f set Hset Ht. unfold write_slot.
    assert (E : (tbl slot_array (Z.land (Z.land r 255) 31) <? 0) = false) by lia.
    rewrite E. apply Hset. apply in18_slot; [| exact Hoff].
    destruct (slot_array_range (Z.land (Z.land r 255) 31)); lia. }
  assert (Hlow : 0 <= Z.land (Z.land r 255) 15) by (apply Z.land_nonneg; lia).
  unfold write_page. cbv zeta.
  pose proof (register_block r) as Hblk. cbn [In] in Hblk.
  destruct Hblk as [E | [E | [E | [E | [E | [E | [E | [E | []]]]]]]]];
    try (symmetry in E; contradiction);
    rewrite <- E; cbv iota beta.
  - apply Hop. intros sl_ Hin. apply settles_set_mul; assumption.
  - apply Hop. intros sl_ Hin. apply settles_set_ksl_tl; assumption.
  - apply Hop. intros sl_ Hin. apply settles_set_ar_dr; assumption.
  - apply Hop. intros sl_ Hin. apply settles_set_sl_rr; assumption.
  - destruct (Z.land r 255 =? 189).
    + intros ->. apply settles_write_rhythm. exact Hc1.
    + intros Hle. apply settles_write_fnum; [exact Hc1 | lia |].
      unfold in18. apply andb_true_iff. destruct Hoff as [-> | ->]; split; lia.
  - intros Hle. apply write_connect_zero; [exact Hc1 | lia |].
    unfold in18. apply andb_true_iff. destruct Hoff as [-> | ->]; split; lia.
  - intros Ht. unfold write_waveform.
    assert (E' : (tbl slot_array (Z.land (Z.land r 255) 31) <? 0) = false) by lia.
    rewrite E'. cbv zeta. apply settles_write_waveform; [exact Hc1 |].
    apply in18_slot; [| exact Hoff].
    destruct (slot_array_range (Z.land (Z.land r 255) 31)); lia.
Qed.

Lemma register_settled_step (r : Z) (c c' : YMF262Impl) :
  clearing_step c c' -> wf c -> register_settled r c -> register_settled r c'.
Proof.
  intros S H. destruct (S H) as (H' & A1 & A2 & A3 & A4 & A5 & A6 & A7 & A8 & A9).
  destruct (controls_flags c c' A1 A2) as (Ho & Hpr & Hfo & H4 & Hrc & Hdc).
  unfold register_settled. cbv zeta. intros [R0 R]. split; [apply A4, R0 |].
  pose proof (register_block r) as Hblk. cbn [In] in Hblk.
  destruct Hblk as [E | [E | [E | [E | [E | [E | [E | [E | []]]]]]]]];
    rewrite <- E in *; cbv iota beta in *; auto.
  - destruct (Z.land r 255 =? 189).
    + intros Ho'. destruct (R Ho') as [R1 R2]. split; auto.
    + intros Hle. specialize (R Hle).
      destruct (nz (Z.land (Z.land r 255) 16)); [| auto].
      destruct R as [R1 R2]. split; [auto |].
      intros m j Hf. apply A8, R2. rewrite <- Hfo. exact Hf.
  - intros Hle. destruct (R Hle) as (R1 & R2 & R3). split; [auto |]. split.
    + intros m j Hd. apply A9, R2. rewrite <- Hdc. exact Hd.
    + intros k Hk. apply A5, R3, Hk.
Qed.

(** *** The loops of [reset] *)

Lemma In_regs_down (hi : Z) (n : nat) (r : Z) :
  In r (regs_down hi n) <-> hi - Z.of_nat n < r <= hi.
Proof.
  unfold regs_down. rewrite in_map_iff. split.
  - intros (k & <- & Hk). apply in_seq in Hk. lia.
  - intros Hr. exists (Z.to_nat (hi - r)). split; [lia |]. apply in_seq. lia.
Qed.

Lemma clear_regs_settles (l : list Z) :
  (forall r, In r l -> reset_register r) ->
  forall c, wf c ->
  clearing_step c (fold_left (fun c r => writeRegForce r 0 c) l c) /\
  forall r, In r l ->
    register_settled r (fold_left (fun c r => writeRegForce r 0 c) l c).
Proof.
  induction l as [| r0 l IH]; intros Hl c H; cbn [fold_left].
  - split; [apply clearing_refl | intros r []].
  - assert (Hr0 : reset_register r0) by (apply Hl; left; reflexivity).
    assert (S0 := clearing_writeRegForce r0 c Hr0).
    destruct (S0 H) as (H0 & _).
    destruct (IH (fun r Hr => Hl r (or_intror Hr)) _ H0) as [S1 R1].
    split; [exact (clearing_trans _ _ _ S0 S1) |].
    intros r [<- | Hr]; [| apply R1, Hr].
    apply (register_settled_step r0 _ _ S1 H0).
    apply settles_writeRegForce; assumption.
Qed.

(** After the two loops every register they write is settled. *)
Lemma reset_loops_settle (c : YMF262Impl) :
  wf c ->
  let c' := clear_regs 0x1FF (Z.to_nat (0x1FF - 0x120 + 1))
              (clear_regs 0xFF (Z.to_nat (0xFF - 0x20 + 1)) c) in
  clearing_step c c' /\ forall r, reset_register r -> register_settled r c'.
Proof.
  intros H c'. unfold c', clear_regs.
  set (l1 := regs_down 255 (Z.to_nat (255 - 32 + 1))).
  set (l2 := regs_down 511 (Z.to_nat (511 - 288 + 1))).
  assert (L1 : forall r, In r l1 <-> 0x20 <= r <= 0xFF).
  { intros r. unfold l1. rewrite In_regs_down. lia. }
  assert (L2 : forall r, In r l2 <-> 0x120 <= r <= 0x1FF).
  { intros r. unfold l2. rewrite In_regs_down. lia. }
  destruct (clear_regs_settles l1 (fun r Hr => or_introl (proj1 (L1 r) Hr)) c H) as [S1 R1].
  destruct (S1 H) as (H1 & _).
  destruct (clear_regs_settles l2 (fun r Hr => or_intror (proj1 (L2 r) Hr)) _ H1) as [S2 R2].
  split; [exact (clearing_trans _ _ _ S1 S2) |].
  intros r [Hr | Hr].
  - apply (register_settled_step r _ _ S2 H1). apply R1, L1, Hr.
  - apply R2, L2, Hr.
Qed.

(** The last loop of [reset]. *)
Lemma clearing_reset_operator (n i : Z) (c : YMF262Impl) :
  clearing_step c (reset_operator n i c).
Proof.
  unfold reset_operator. apply clearing_put_cslot; [keeps_cleared | reflexivity ..].
Qed.

Lemma settles_reset_channel (n j : Z) (c : YMF262Impl) :
  wf c -> in18 n = true ->
  settled (reset_operator n 1 (reset_operator n 0 c)) n j ClearedEnvelope.
Proof.
  intros H Hin.
  assert (H1 : wf (reset_operator n 0 c)) by (apply wf_put_cslot; exact H).
  assert (E : forall i c0, wf c0 -> settled (reset_operator n i c0) n i ClearedEnvelope).
  { intros i c0 H0. unfold reset_operator.
    apply settled_put_cslot; [exact H0 | exact Hin |]. split; reflexivity. }
  destruct (j =? 0) eqn:Ej.
  - apply (settled_same_slot _ n 0 j); [unfold same_slot; rewrite Ej; reflexivity |].
    apply (clearing_reset_operator n 1 _ H1). apply E, H.
  - apply (settled_same_slot _ n 1 j); [unfold same_slot; rewrite Ej; reflexivity |].
    apply E, H1.
Qed.

Lemma reset_operators_settle (l : list Z) :
  forall c, wf c ->
  clearing_step c (fold_left (fun c n => reset_operator n 1 (reset_operator n 0 c)) l c) /\
  forall n j, In n l -> in18 n = true ->
    settled (fold_left (fun c n => reset_operator n 1 (reset_operator n 0 c)) l c)
      n j ClearedEnvelope.
Proof.
  induction l as [| n0 l IH]; intros c H; cbn [fold_left].
  - split; [apply clearing_refl | intros n j []].
  - assert (S0 : clearing_step c (reset_operator n0 1 (reset_operator n0 0 c))).
    { eapply clearing_trans; apply clearing_reset_operator. }
    destruct (S0 H) as (H0 & _).
    destruct (IH _ H0) as [S1 R1].
    split; [exact (clearing_trans _ _ _ S0 S1) |].
    intros n j [<- | Hn] Hin; [| apply R1; assumption].
    destruct (S1 H0) as (_ & _ & _ & _ & _ & _ & _ & _ & A9 & _).
    apply A9. apply settles_reset_channel; assumption.
Qed.

(** *** The control registers of [reset] *)

Lemma writeRegForce_test (c : YMF262Impl) :
  writeRegForce 0x01 0 c = with_reg (aset (reg c) 0x01 0) c.
Proof. reflexivity. Qed.

Lemma writeRegForce_timer1 (v : Z) (c : YMF262Impl) :
  writeRegForce 0x02 v c =
  with_timer1 (setValue (byte_of v) (timer1 c)) (with_reg (aset (reg c) 0x02 (byte_of v)) c).
Proof. reflexivity. Qed.

Lemma writeRegForce_timer2 (v : Z) (c : YMF262Impl) :
  writeRegForce 0x03 v c =
  with_timer2 (setValue (byte_of v) (timer2 c)) (with_reg (aset (reg c) 0x03 (byte_of v)) c).
Proof. reflexivity. Qed.

Lemma writeRegForce_mask_zero (c : YMF262Impl) :
  writeRegForce 0x04 0 c =
  let c1 := changeStatusMask 0x60 (with_reg (aset (reg c) 0x04 0) c) in
  with_timer2 (setStart false (timer2 c1)) (with_timer1 (setStart false (timer1 c1)) c1).
Proof. reflexivity. Qed.

(** The start of [reset]: the counters, the status and the four control
    registers. *)
Lemma reset_controls_eq (c : YMF262Impl) :
  writeRegForce 0x04 0 (writeRegForce 0x03 0 (writeRegForce 0x02 0 (writeRegForce 0x01 0
    (resetStatus 0x60 (with_nts false (with_noise_rng 1 (with_eg_cnt 0 c))))))) =
  with_timer2 (mkTimer 0 false) (with_timer1 (mkTimer 0 false)
    (with_irq false (with_status 0 (with_statusMask 0x60
       (with_reg (aset (aset (aset (aset (reg c) 1 0) 2 0) 3 0) 4 0)
          (with_nts false (with_noise_rng 1 (with_eg_cnt 0 c)))))))).
Proof.
  set (c0 := resetStatus 0x60 (with_nts false (with_noise_rng 1 (with_eg_cnt 0 c)))).
  assert (E0 : exists st ir,
            c0 = with_irq ir (with_status st
                   (with_nts false (with_noise_rng 1 (with_eg_cnt 0 c)))) /\
            Z.land st 0x60 = 0).
  { unfold c0, resetStatus. cbv zeta.
    cbn [status statusMask with_status with_nts with_noise_rng with_eg_cnt].
    destruct (nz _).
    - exists (byte_of (Z.land (status c) (Z.lnot 96))), (irq c). split.
      + destruct c; reflexivity.
      + apply land_byte_lnot.
    - eexists _, false. split; [reflexivity |].
      apply land_byte_clear, land_byte_lnot. }
  destruct E0 as (st & ir & E0 & Hst). clearbody c0. subst c0.
  rewrite writeRegForce_mask_zero, writeRegForce_timer2, writeRegForce_timer1,
    writeRegForce_test.
  cbv zeta. unfold changeStatusMask. cbv zeta. change (byte_of 0) with 0.
  cbn [status statusMask with_status with_statusMask with_reg with_irq with_timer1
       with_timer2 with_nts with_noise_rng with_eg_cnt reg timer1 timer2 setValue
       setStart tm_value tm_start].
  change (byte_of 96) with 96. rewrite Hst. change (byte_of 0) with 0.
  change (nz 0) with false. cbv iota.
  cbn [status statusMask with_status with_statusMask with_reg with_irq with_timer1
       with_timer2 with_nts with_noise_rng with_eg_cnt reg timer1 timer2 setValue
       setStart tm_value tm_start].
  reflexivity.
Qed.

Lemma reset_controls (c : YMF262Impl) :
  wf c ->
  let c4 :=
    writeRegForce 0x04 0 (writeRegForce 0x03 0 (writeRegForce 0x02 0 (writeRegForce 0x01 0
      (resetStatus 0x60 (with_nts false (with_noise_rng 1 (with_eg_cnt 0 c))))))) in
  wf c4 /\
  eg_cnt c4 = 0 /\ noise_rng c4 = 1 /\ nts c4 = false /\
  status c4 = 0 /\ statusMask c4 = 0x60 /\ irq c4 = false /\
  timer1 c4 = mkTimer 0 false /\ timer2 c4 = mkTimer 0 false /\
  (forall r, 1 <= r <= 4 -> peekReg r c4 = 0) /\
  (forall r, ~ 1 <= r <= 4 -> peekReg r c4 = peekReg r c) /\
  channels c4 = channels c /\ pan c4 = pan c /\ chanout c4 = chanout c /\
  OPL3_mode c4 = OPL3_mode c /\ status2 c4 = status2 c /\ rhythm c4 = rhythm c /\
  lfo_am_depth c4 = lfo_am_depth c /\ lfo_pm_depth_range c4 = lfo_pm_depth_range c /\
  lfo_am_cnt c4 = lfo_am_cnt c /\ lfo_pm_cnt c4 = lfo_pm_cnt c /\
  LFO_AM c4 = LFO_AM c /\ LFO_PM c4 = LFO_PM c.
Proof.
  intros (W1 & W2 & W3 & W4) c4.
  assert (E4 := reset_controls_eq c). fold c4 in E4. clearbody c4. subst c4.
  assert (Hreg : forall r,
            aget 0 (aset (aset (aset (aset (reg c) 1 0) 2 0) 3 0) 4 0) r =
            if (1 <=? r) && (r <=? 4) then 0 else aget 0 (reg c) r).
  { intros r. rewrite !aget_aset, !aset_length, W2. change (Z.of_nat 512) with 512.
    cbn [Z.leb Z.ltb Z.compare Pos.compare Pos.compare_cont andb].
    rewrite !andb_true_r.
    destruct (4 =? r) eqn:E4; [replace ((1 <=? r) && (r <=? 4)) with true by lia; reflexivity |].
    destruct (3 =? r) eqn:E3; [replace ((1 <=? r) && (r <=? 4)) with true by lia; reflexivity |].
    destruct (2 =? r) eqn:E2; [replace ((1 <=? r) && (r <=? 4)) with true by lia; reflexivity |].
    destruct (1 =? r) eqn:E1; [replace ((1 <=? r) && (r <=? 4)) with true by lia; reflexivity |].
    replace ((1 <=? r) && (r <=? 4)) with false by lia. reflexivity. }
  unfold wf, peekReg.
  cbn [channels reg pan chanout eg_cnt noise_rng nts status statusMask irq timer1 timer2
       OPL3_mode status2 rhythm lfo_am_depth lfo_pm_depth_range lfo_am_cnt lfo_pm_cnt
       LFO_AM LFO_PM
       with_timer1 with_timer2 with_irq with_status with_statusMask with_reg with_nts
       with_noise_rng with_eg_cnt].
  rewrite !aset_length.
  split; [tauto |].
  repeat (split; [reflexivity |]).
  split; [intros r Hr; rewrite Hreg; replace ((1 <=? r) && (r <=? 4)) with true by lia;
          reflexivity |].
  split; [intros r Hr; rewrite Hreg; replace ((1 <=? r) && (r <=? 4)) with false by lia;
          reflexivity |].
  repeat split.
Qed.

(** *** From registers to operators and channels *)

(** What the zero in the register [base + offset] of operator [sl_] left. *)
Ltac operator_register HR base sl_ :=
  let r := eval vm_compute in
    (base + 256 * (sl_ / 18) + 8 * ((sl_ mod 18) / 2 / 3) + 3 * (sl_ mod 2)
     + ((sl_ mod 18) / 2) mod 3) in
  let R := fresh "R" in
  assert (R := HR r ltac:(unfold reset_register; lia));
  unfold register_settled in R;
  lazy -[settled Z.le peekReg] in R;
  apply (proj2 R); lia.

Ltac channel_register HR base n :=
  let r := eval vm_compute in (base + 256 * (n / 9) + n mod 9) in
  let R := fresh "R" in
  assert (R := HR r ltac:(unfold reset_register; lia));
  unfold register_settled in R;
  lazy -[settled Z.le Z.lt peekReg fnum_high_cleared fnum_low_cleared routed follows
         deciding_channel pan_reset aget pan chan] in R;
  apply (proj2 R); lia.

Lemma settled_operators (c : YMF262Impl) :
  (forall r, reset_register r -> register_settled r c) ->
  forall sl_, 0 <= sl_ < 36 ->
  settled c (sl_ / 2) (Z.land sl_ 1) ClearedMultiple /\
  settled c (sl_ / 2) (Z.land sl_ 1) ClearedLevel /\
  settled c (sl_ / 2) (Z.land sl_ 1) ClearedAttack /\
  settled c (sl_ / 2) (Z.land sl_ 1) ClearedRelease /\
  settled c (sl_ / 2) (Z.land sl_ 1) ClearedWaveform.
Proof.
  intros HR sl_ Hsl.
  assert (Hin : In sl_ (map Z.of_nat (seq 0 36))).
  { apply in_map_iff. exists (Z.to_nat sl_). split; [lia | apply in_seq; lia]. }
  cbn in Hin.
  repeat (destruct Hin as [<- | Hin];
          [lazy -[settled];
           split; [| split; [| split; [| split]]];
           lazymatch goal with
           | |- settled _ ?n ?i ClearedMultiple => operator_register HR 0x20 (2 * n + i)
           | |- settled _ ?n ?i ClearedLevel => operator_register HR 0x40 (2 * n + i)
           | |- settled _ ?n ?i ClearedAttack => operator_register HR 0x60 (2 * n + i)
           | |- settled _ ?n ?i ClearedRelease => operator_register HR 0x80 (2 * n + i)
           | |- settled _ ?n ?i ClearedWaveform => operator_register HR 0xE0 (2 * n + i)
           end |]).
  contradiction.
Qed.

Lemma settled_channels (c : YMF262Impl) :
  (forall r, reset_register r -> register_settled r c) ->
  forall n, 0 <= n < 18 ->
  fnum_low_cleared (chan c n) /\
  (fnum_high_cleared (chan c n) /\
   forall m j, follows c m = n -> settled c m j (ClearedKey 1)) /\
  (settled c n SLOT1 ClearedFeedback /\
   (forall m j, deciding_channel c m j = n -> routed c m j) /\
   (forall k, 0 <= k < 4 -> aget 0 (pan c) (n * 4 + k) = pan_reset c)).
Proof.
  intros HR n Hn.
  assert (Hin : In n (map Z.of_nat (seq 0 18))).
  { apply in_map_iff. exists (Z.to_nat n). split; [lia | apply in_seq; lia]. }
  cbn in Hin.
  repeat (destruct Hin as [<- | Hin];
          [split; [| split];
           lazymatch goal with
           | |- fnum_low_cleared (chan _ ?n) => channel_register HR 0xA0 n
           | |- fnum_high_cleared (chan _ ?n) /\ _ => channel_register HR 0xB0 n
           | |- settled _ ?n _ _ /\ _ => channel_register HR 0xC0 n
           end |]).
  contradiction.
Qed.

Lemma settled_percussion (c : YMF262Impl) :
  (forall r, reset_register r -> register_settled r c) ->
  rhythm_cleared c /\ forall n i, 6 <= n <= 8 -> settled c n i (ClearedKey 2).
Proof.
  intros HR.
  assert (R := HR 0xBD ltac:(unfold reset_register; lia)).
  unfold register_settled in R.
  lazy -[settled Z.le Z.lt peekReg rhythm_cleared] in R.
  apply (proj2 R). reflexivity.
Qed.

Lemma in18_range (n : Z) : in18 n = true <-> 0 <= n < 18.
Proof. unfold in18. rewrite andb_true_iff. lia. Qed.

Lemma follows_range (c : YMF262Impl) (n : Z) : in18 n = true -> in18 (follows c n) = true.
Proof.
  intros H. unfold follows.
  destruct (OPL3_mode c); [| exact H].
  destruct (channel_kind n) eqn:K; try exact H.
  destruct (nz (extended (chan c (n - 3)))); [| exact H].
  apply (proj2 (channel_kind_pair n) K).
Qed.

Lemma deciding_range (c : YMF262Impl) (n i : Z) :
  in18 n = true -> in18 (deciding_channel c n i) = true.
Proof.
  intros H. unfold deciding_channel, first_of_pair.
  destruct (four_op c n); [| exact H].
  destruct (channel_kind n) eqn:K; try exact H.
  destruct (negb (i =? 0)); [| exact H].
  apply (proj1 (channel_kind_pair n) K).
Qed.

Lemma fnum_cleared (ch : YMF262Channel) :
  fnum_high_cleared ch -> fnum_low_cleared ch -> block_fnum ch = 0.
Proof.
  unfold fnum_high_cleared, fnum_low_cleared. intros Hh Hl.
  rewrite <- Hl. rewrite <- (land_byte _ Hh). apply land_low_high.
Qed.

(** What the zeros in all registers leave in every operator and channel. *)
Lemma settled_chip (c : YMF262Impl) :
  (forall r, reset_register r -> register_settled r c) ->
  rhythm_cleared c /\
  (forall k, 0 <= k < 72 -> aget 0 (pan c) k = pan_reset c) /\
  (forall n, in18 n = true -> fnum_high_cleared (chan c n) /\ fnum_low_cleared (chan c n)) /\
  (forall n i, in18 n = true -> routed c n i) /\
  (forall n i f, in18 n = true -> operator_cleared n i f = true ->
                 f <> ClearedEnvelope -> settled c n i f).
Proof.
  intros HR.
  assert (Hop := settled_operators c HR).
  assert (Hch := settled_channels c HR).
  destruct (settled_percussion c HR) as [Hrh Hk2].
  split; [exact Hrh |].
  split.
  { intros k Hk.
    destruct (Hch (k / 4)) as (_ & _ & _ & _ & Hp).
    { split; [apply Z.div_pos; lia | apply Z.div_lt_upper_bound; lia]. }
    replace k with (k / 4 * 4 + k mod 4) at 1 by (pose proof (Z.div_mod k 4); lia).
    apply Hp. apply Z.mod_pos_bound. lia. }
  split.
  { intros n Hn. apply in18_range in Hn.
    destruct (Hch n Hn) as (Hl & (Hh & _) & _). split; assumption. }
  split.
  { intros n i Hn.
    assert (Hd := deciding_range c n i Hn). apply in18_range in Hd.
    destruct (Hch _ Hd) as (_ & _ & _ & Hr & _). apply Hr. reflexivity. }
  intros n i f Hn Hf Hne.
  assert (Hsl : forall g,
            (forall sl_, 0 <= sl_ < 36 -> settled c (sl_ / 2) (Z.land sl_ 1) g) ->
            settled c n i g).
  { intros g Hg. apply in18_range in Hn.
    destruct (i =? 0) eqn:Ei.
    - apply (settled_same_slot c n 0 i); [unfold same_slot; rewrite Ei; reflexivity |].
      specialize (Hg (2 * n) ltac:(lia)).
      replace (2 * n / 2) with n in Hg by (apply (Z.div_unique _ 2 n 0); lia).
      replace (Z.land (2 * n) 1) with 0 in Hg; [exact Hg |].
      change 1 with (Z.ones 1). rewrite Z.land_ones by lia.
      apply (Z.mod_unique _ (2 ^ 1) n 0); lia.
    - apply (settled_same_slot c n 1 i); [unfold same_slot; rewrite Ei; reflexivity |].
      specialize (Hg (2 * n + 1) ltac:(lia)).
      replace ((2 * n + 1) / 2) with n in Hg by (apply (Z.div_unique _ 2 n 1); lia).
      replace (Z.land (2 * n + 1) 1) with 1 in Hg; [exact Hg |].
      change (Z.land (2 * n + 1) 1) with (Z.land (2 * n + 1) (Z.ones 1)).
      rewrite Z.land_ones by lia.
      apply (Z.mod_unique _ (2 ^ 1) n 1); lia. }
  destruct f; cbn [operator_cleared] in Hf.
  - apply Hsl. intros sl_ H. apply (Hop sl_ H).
  - apply (settled_same_slot c n SLOT1 i); [unfold same_slot; rewrite Hf; reflexivity |].
    apply in18_range in Hn. apply (Hch n Hn).
  - apply orb_true_iff in Hf. destruct Hf as [Hf | Hf].
    + apply Z.eqb_eq in Hf. subst k.
      assert (Hd := follows_range c n Hn). apply in18_range in Hd.
      destruct (Hch _ Hd) as (_ & (_ & Hk) & _). apply Hk. reflexivity.
    + apply andb_true_iff in Hf. destruct Hf as [Hf H8].
      apply andb_true_iff in Hf. destruct Hf as [Hf H6].
      apply Z.eqb_eq in Hf. subst k. apply Hk2. lia.
  - apply Hsl. intros sl_ H. apply (Hop sl_ H).
  - apply Hsl. intros sl_ H. apply (Hop sl_ H).
  - apply Hsl. intros sl_ H. apply (Hop sl_ H).
  - apply Hsl. intros sl_ H. apply (Hop sl_ H).
  - contradiction.
Qed.

(** [reset] reaches the reset state. *)
Lemma reset_reaches_reset_state (c : YMF262Impl) : wf c -> reset_state (reset c).
Proof.
  intros H. unfold reset. cbv zeta.
  assert (HC := reset_controls c H). cbv zeta in HC.
  set (c4 := writeRegForce 4 0 _) in *.
  destruct HC as (H4 & C1 & C2 & C3 & C4 & C5 & C6 & C7 & C8 & C9 & _).
  assert (HL := reset_loops_settle c4 H4). cbv zeta in HL.
  set (c5 := clear_regs 511 _ _) in *.
  destruct HL as [S5 R5].
  destruct (S5 H4) as (H5 & A1 & A2 & A3 & A4 & A5 & A6 & A7 & A8 & A9).
  destruct (reset_operators_settle (map Z.of_nat (seq 0 (9 * 2))) c5 H5) as [S6 E6].
  set (c6 := fold_left _ _ c5) in *.
  destruct (S6 H5) as (H6 & B1 & B2 & B3 & B4 & B5 & B6 & B7 & B8 & B9).
  destruct (settled_chip c5 R5) as (Hrh & Hpan & Hbf & Hro & Hse).
  assert (Ectl : controls c6 = controls c4) by (rewrite B1; exact A1).
  clearbody c6 c5 c4.
  unfold controls in Ectl. inversion Ectl as [[E1 E2 E3 E4 E5 E6' E7 E8 E9]].
  unfold reset_state.
  split; [exact H6 |].
  split; [congruence |]. split; [congruence |]. split; [congruence |].
  split; [congruence |]. split; [congruence |]. split; [congruence |].
  split; [congruence |]. split; [congruence |].
  split; [auto |].
  split.
  { intros r [Hr | Hr].
    - apply B4, A4, C9, Hr.
    - apply B4. apply (R5 r Hr). }
  split; [intros k Hk; apply B5, Hpan, Hk |].
  split.
  { intros n Hn. destruct (Hbf n Hn) as [Hh Hl]. apply fnum_cleared; auto. }
  split; [intros n i Hn; apply B9, Hro, Hn |].
  intros n i f Hn Hf.
  assert (Hf' : f = ClearedEnvelope \/ f <> ClearedEnvelope)
    by (destruct f; auto; right; discriminate).
  destruct Hf' as [-> | Hne].
  - apply E6; [| exact Hn]. apply in18_range in Hn.
    apply in_map_iff. exists (Z.to_nat n). split; [lia | apply in_seq; lia].
  - apply B8, Hse; assumption.
Qed.

(** *** [reset] on the reset state *)



Lemma land_lnot_clear (x k : Z) : Z.land x k = 0 -> Z.land x (Z.lnot k) = x.
Proof.
  intros H. apply Z.bits_inj'. intros n Hn.
  apply (f_equal (fun z => Z.testbit z n)) in H.
  rewrite Z.land_spec, Z.bits_0 in H.
  rewrite Z.land_spec, Z.lnot_spec by exact Hn.
  destruct (Z.testbit x n), (Z.testbit k n); try discriminate; reflexivity.
Qed.



















(** ** What the operator and channel registers leave alone *)

Lemma outside_put_cslot (n i : Z) (x : YMF262Slot) (c : YMF262Impl) :
  outside_voices (put_cslot n i x c) = outside_voices c.
Proof. reflexivity. Qed.

Lemma outside_put_chan (n : Z) (x : YMF262Channel) (c : YMF262Impl) :
  outside_voices (put_chan n x c) = outside_voices c.
Proof. reflexivity. Qed.

Lemma outside_set_connect (n i : Z) (cn : Connect) (c : YMF262Impl) :
  outside_voices (set_connect n i cn c) = outside_voices c.
Proof. reflexivity. Qed.

Lemma outside_with_pan (p : list Z) (c : YMF262Impl) :
  outside_voices (with_pan p c) = outside_voices c.
Proof. reflexivity. Qed.

Ltac outside_peel :=
  repeat first
    [ rewrite outside_set_connect
    | rewrite outside_put_cslot
    | rewrite outside_put_chan
    | rewrite outside_with_pan
    | lazymatch goal with
      | |- outside_voices (if ?b then _ else _) = _ => destruct b
      | |- outside_voices (match channel_kind ?n with _ => _ end) = _ =>
          destruct (channel_kind n)
      | |- outside_voices (match ?b with true => _ | false => _ end) = _ => destruct b
      end ];
  try reflexivity.

Lemma outside_key_onoff (on : bool) (n : Z) (c : YMF262Impl) :
  outside_voices (key_onoff on n c) = outside_voices c.
Proof. unfold key_onoff. outside_peel. Qed.

Lemma outside_update_fnum (n bf : Z) (c : YMF262Impl) :
  outside_voices (update_fnum n bf c) = outside_voices c.
Proof. unfold update_fnum. cbv zeta. outside_peel. Qed.

Lemma outside_write_fnum (ch_offset r v : Z) (c : YMF262Impl) :
  outside_voices (write_fnum ch_offset r v c) = outside_voices c.
Proof.
  unfold write_fnum. cbv zeta.
  repeat lazymatch goal with
         | |- outside_voices (if ?b then _ else _) = _ => destruct b
         end;
    rewrite ?outside_update_fnum, ?outside_key_onoff; reflexivity.
Qed.

Lemma outside_write_connect (ch_offset r v : Z) (c : YMF262Impl) :
  outside_voices (write_connect ch_offset r v c) = outside_voices c.
Proof.
  unfold write_connect, connect_2op, connect_4op. cbv zeta. outside_peel.
Qed.

Lemma outside_write_rhythm (ch_offset v : Z) (c : YMF262Impl) :
  outside_voices (write_rhythm ch_offset v c) = outside_voices c.
Proof. unfold write_rhythm. cbv zeta. outside_peel. Qed.

Lemma outside_write_page (ch_offset r v : Z) (c : YMF262Impl) :
  Z.land (Z.land r 0xFF) 0xE0 <> 0 ->
  outside_voices (write_page ch_offset r v c) = outside_voices c.
Proof.
  intros Hb.
  apply (write_page_cases_hi (fun c' => outside_voices c' = outside_voices c));
    [exact Hb | reflexivity | ..].
  - intros sl_ _. unfold set_mul. cbv zeta. outside_peel.
  - intros sl_ _. unfold set_ksl_tl. cbv zeta. outside_peel.
  - intros sl_ _. reflexivity.
  - intros sl_ _. reflexivity.
  - apply outside_write_rhythm.
  - intros r'. apply outside_write_fnum.
  - intros r'. apply outside_write_connect.
  - intros r'. unfold write_waveform. cbv zeta. outside_peel.
Qed.

(** ** The register file *)

Lemma reg_outside (c : YMF262Impl) : reg c = reg (outside_voices c).
Proof. reflexivity. Qed.

Lemma reg_set_extended (n bit v : Z) (c : YMF262Impl) :
  reg (set_extended n bit v c) = reg c.
Proof.
  unfold set_extended, update_channels. cbv zeta.
  repeat match goal with |- context [if ?b then _ else _] => destruct b end; reflexivity.
Qed.

Lemma write_page_control (ch_offset r v : Z) (c : YMF262Impl) :
  Z.land (Z.land r 0xFF) 0xE0 = 0 ->
  write_page ch_offset r v c = write_control (Z.land r 0xFF) v c.
Proof. intros H. unfold write_page. cbv zeta. rewrite H. reflexivity. Qed.

Lemma reg_write_control (r v : Z) (c : YMF262Impl) : reg (write_control r v c) = reg c.
Proof.
  unfold write_control, resetStatus, changeStatusMask. cbv zeta.
  destruct (Z.land r 31) as [| p | p]; try reflexivity.
  do 5 (try destruct p as [p | p |]; try reflexivity);
    repeat match goal with |- context [if ?b then _ else _] => destruct b end; reflexivity.
Qed.

Lemma writeRegForce_extended (v : Z) (c : YMF262Impl) :
  writeRegForce 0x104 v c =
  set_extended 11 5 (byte_of v) (set_extended 10 4 (byte_of v) (set_extended 9 3 (byte_of v)
    (set_extended 2 2 (byte_of v) (set_extended 1 1 (byte_of v) (set_extended 0 0 (byte_of v)
      (with_reg (aset (reg c) 0x104 (byte_of v)) c)))))).
Proof. reflexivity. Qed.

Lemma writeRegForce_mode (v : Z) (c : YMF262Impl) :
  writeRegForce 0x105 v c =
  let c := with_OPL3_mode (nz (Z.land (byte_of v) 0x01))
             (with_reg (aset (reg c) 0x105 (byte_of v)) c) in
  if OPL3_mode c then with_status2 0x02 c else c.
Proof. reflexivity. Qed.

(** Every write stores its byte in the register file and changes no other
    entry of it. *)
Lemma reg_writeRegForce (r v : Z) (c : YMF262Impl) :
  reg (writeRegForce r v c) = aset (reg c) r (byte_of v).
Proof.
  destruct (Z.eq_dec r 0x101) as [-> | H1]; [reflexivity |].
  destruct (Z.eq_dec r 0x104) as [-> | H4].
  { rewrite writeRegForce_extended, !reg_set_extended. reflexivity. }
  destruct (Z.eq_dec r 0x105) as [-> | H5].
  { rewrite writeRegForce_mode. cbv zeta.
    match goal with |- context [if ?b then _ else _] => destruct b end; reflexivity. }
  rewrite writeRegForce_page by assumption.
  destruct (Z.eq_dec (Z.land (Z.land r 0xFF) 0xE0) 0) as [Hb | Hb].
  - rewrite write_page_control by exact Hb. rewrite reg_write_control. reflexivity.
  - rewrite reg_outside, outside_write_page by exact Hb. reflexivity.
Qed.

Lemma wf_writeRegForce (r v : Z) (c : YMF262Impl) : wf c -> wf (writeRegForce r v c).
Proof. apply (key_writeRegForce r v c). Qed.

Lemma peekReg_writeRegForce (a r v : Z) (c : YMF262Impl) :
  wf c -> 0 <= r < 512 ->
  peekReg a (writeRegForce r v c) = if a =? r then byte_of v else peekReg a c.
Proof.
  intros (_ & W & _) Hr. unfold peekReg. rewrite reg_writeRegForce, aget_aset, W.
  rewrite Z.eqb_sym.
  destruct (a =? r) eqn:E; [| rewrite andb_false_l; reflexivity].
  assert (E0 : (0 <=? r) = true) by (apply Z.leb_le; lia).
  assert (E1 : (r <? Z.of_nat 512) = true) by (apply Z.ltb_lt; lia).
  rewrite E0, E1. reflexivity.
Qed.

(** An operator or channel register changes nothing outside the voices but
    its own entry of the register file. *)
Lemma outside_writeRegForce (r v : Z) (c : YMF262Impl) :
  r <> 0x101 -> r <> 0x104 -> r <> 0x105 -> Z.land (Z.land r 0xFF) 0xE0 <> 0 ->
  outside_voices (writeRegForce r v c) =
  with_reg (aset (reg c) r (byte_of v)) (outside_voices c).
Proof.
  intros H1 H4 H5 Hb.
  rewrite writeRegForce_page, outside_write_page by assumption. reflexivity.
Qed.

(** ** What [reset] leaves and what it keeps *)

Lemma peekReg_zero_writes (l : list Z) :
  (forall r, In r l -> 0 <= r < 512) ->
  forall c a, wf c ->
  peekReg a (fold_left (fun c r => writeRegForce r 0 c) l c) =
  if existsb (Z.eqb a) l then 0 else peekReg a c.
Proof.
  induction l as [| r0 l IH]; intros Hl c a H; cbn [fold_left existsb]; [reflexivity |].
  rewrite IH; [| intros r Hr; apply Hl; right; exact Hr | apply wf_writeRegForce, H].
  rewrite peekReg_writeRegForce; [| exact H | apply Hl; left; reflexivity].
  destruct (a =? r0), (existsb (Z.eqb a) l); reflexivity.
Qed.

Lemma existsb_regs_down (hi : Z) (n : nat) (a : Z) :
  existsb (Z.eqb a) (regs_down hi n) = (hi - Z.of_nat n <? a) && (a <=? hi).
Proof.
  apply eq_true_iff_eq. rewrite existsb_exists, andb_true_iff, Z.ltb_lt, Z.leb_le. split.
  - intros (x & Hx & E). apply Z.eqb_eq in E. subst x. apply In_regs_down, Hx.
  - intros Ha. exists a. split; [apply In_regs_down, Ha | apply Z.eqb_refl].
Qed.

Lemma outside_zero_writes (l : list Z) :
  (forall r, In r l -> reset_register r) ->
  forall c,
  outside_voices (fold_left (fun c r => writeRegForce r 0 c) l c) =
  with_reg (reg (fold_left (fun c r => writeRegForce r 0 c) l c)) (outside_voices c).
Proof.
  induction l as [| r0 l IH]; intros Hl c; cbn [fold_left].
  - destruct c; reflexivity.
  - rewrite IH by (intros r Hr; apply Hl; right; exact Hr).
    destruct (reset_register_block r0 (Hl r0 (or_introl eq_refl))) as (H1 & H4 & H5 & Hb & _).
    rewrite outside_writeRegForce by assumption. reflexivity.
Qed.

Lemma outside_reset_operators (l : list Z) (c : YMF262Impl) :
  outside_voices (fold_left (fun c n => reset_operator n 1 (reset_operator n 0 c)) l c) =
  outside_voices c.
Proof.
  revert c. induction l as [| n l IH]; intros c; cbn [fold_left]; [reflexivity |].
  rewrite IH. reflexivity.
Qed.

(** [reset] outside the voices: the counters, the status and the control
    registers are reinitialised, the register file is cleared where the
    loops write, the rest is kept. *)
Lemma outside_reset_sequence (c c4 c5 c6 c7 : YMF262Impl) :
  c4 = writeRegForce 0x04 0 (writeRegForce 0x03 0 (writeRegForce 0x02 0 (writeRegForce 0x01 0
         (resetStatus 0x60 (with_nts false (with_noise_rng 1 (with_eg_cnt 0 c))))))) ->
  c5 = fold_left (fun c r => writeRegForce r 0 c) (regs_down 0xFF (Z.to_nat (0xFF - 0x20 + 1))) c4 ->
  c6 = fold_left (fun c r => writeRegForce r 0 c)
         (regs_down 0x1FF (Z.to_nat (0x1FF - 0x120 + 1))) c5 ->
  c7 = fold_left (fun c n => reset_operator n 1 (reset_operator n 0 c))
         (map Z.of_nat (seq 0 (9 * 2))) c6 ->
  outside_voices c7 =
  with_timer2 (mkTimer 0 false) (with_timer1 (mkTimer 0 false)
    (with_irq false (with_status 0 (with_statusMask 0x60
       (with_reg (reg c7)
          (with_nts false (with_noise_rng 1 (with_eg_cnt 0 (outside_voices c))))))))).
Proof.
  intros E4 E5 E6 E7.
  assert (O7 : outside_voices c7 = outside_voices c6)
    by (rewrite E7; apply outside_reset_operators).
  assert (O6 : outside_voices c6 = with_reg (reg c6) (outside_voices c5)).
  { rewrite E6. apply outside_zero_writes.
    intros r Hr. apply In_regs_down in Hr. right. lia. }
  assert (O5 : outside_voices c5 = with_reg (reg c5) (outside_voices c4)).
  { rewrite E5. apply outside_zero_writes.
    intros r Hr. apply In_regs_down in Hr. left. lia. }
  rewrite reset_controls_eq in E4.
  assert (R7 : reg c7 = reg c6) by (rewrite (reg_outside c7), O7; reflexivity).
  rewrite R7, O7, O6, O5, E4. reflexivity.
Qed.

Lemma outside_reset (c : YMF262Impl) :
  outside_voices (reset c) =
  with_timer2 (mkTimer 0 false) (with_timer1 (mkTimer 0 false)
    (with_irq false (with_status 0 (with_statusMask 0x60
       (with_reg (reg (reset c))
          (with_nts false (with_noise_rng 1 (with_eg_cnt 0 (outside_voices c))))))))).
Proof. eapply outside_reset_sequence; reflexivity. Qed.

Lemma reg_reset_operators (l : list Z) (c : YMF262Impl) :
  reg (fold_left (fun c n => reset_operator n 1 (reset_operator n 0 c)) l c) = reg c.
Proof. rewrite reg_outside, outside_reset_operators. reflexivity. Qed.

Lemma peekReg_reset (c : YMF262Impl) (r : Z) :
  wf c -> peekReg r (reset c) = if reset_writes r then 0 else peekReg r c.
Proof.
  intros H. unfold reset. cbv zeta.
  assert (HC := reset_controls c H). cbv zeta in HC.
  set (c4 := writeRegForce 4 0 _) in *.
  destruct HC as (H4 & _ & _ & _ & _ & _ & _ & _ & _ & Z4 & K4 & _).
  clearbody c4.
  match goal with
  | |- peekReg r (fold_left ?f ?l ?x) = _ =>
      assert (E : peekReg r (fold_left f l x) = peekReg r x)
        by (unfold peekReg; rewrite reg_reset_operators; reflexivity);
      rewrite E; clear E
  end.
  unfold clear_regs.
  rewrite peekReg_zero_writes;
    [| intros x Hx; apply In_regs_down in Hx; lia | apply wf_fold_writes, H4].
  rewrite peekReg_zero_writes;
    [| intros x Hx; apply In_regs_down in Hx; lia | exact H4].
  rewrite !existsb_regs_down. unfold reset_writes.
  change (Z.of_nat (Z.to_nat (511 - 288 + 1))) with 224.
  change (Z.of_nat (Z.to_nat (255 - 32 + 1))) with 224.
  destruct ((1 <=? r) && (r <=? 4)) eqn:E1.
  - rewrite Z4 by lia. cbn [orb].
    destruct ((511 - 224 <? r) && (r <=? 511)), ((255 - 224 <? r) && (r <=? 255)),
      ((32 <=? r) && (r <=? 255)), ((288 <=? r) && (r <=? 511)); reflexivity.
  - rewrite K4 by lia. cbn [orb].
    destruct ((511 - 224 <? r) && (r <=? 511)) eqn:E2,
             ((255 - 224 <? r) && (r <=? 255)) eqn:E3,
             ((32 <=? r) && (r <=? 255)) eqn:E4,
             ((288 <=? r) && (r <=? 511)) eqn:E5; try reflexivity; lia.
Qed.

(** X1.  [reset] clears the register file exactly where it writes: registers
    01-04, 20-ff and 120-1ff read zero afterwards, every other register
    (00, 05-1f, and 100-11f with the mode registers 104 and 105) reads what
    it read before. *)
Theorem reset_clears_registers (c : YMF262Impl) (r : Z) :
  wf c ->
  fst (readReg r (reset c)) = if reset_writes r then 0 else fst (readReg r c).
Proof. intros H. cbn [readReg fst]. apply peekReg_reset, H. Qed.

Lemma reset_clears_registers_witness :
  fst (readReg 0xB0 four_op_voice) = 0x3F /\
  fst (readReg 0xB0 (reset four_op_voice)) = 0 /\
  fst (readReg 0x105 (reset four_op_voice)) = 1.
Proof.
  split; [vm_compute; reflexivity |].
  assert (H : wf four_op_voice) by (vm_compute; repeat split).
  split.
  - rewrite (reset_clears_registers four_op_voice 0xB0 H). reflexivity.
  - rewrite (reset_clears_registers four_op_voice 0x105 H). vm_compute. reflexivity.
Defined.

Lemma all_off_muted (c : YMF262Impl) :
  (forall m j, state (cslot c m j) = EG_OFF) -> checkMuteHelper c = true.
Proof.
  intros H. unfold checkMuteHelper. apply forallb_forall. intros n _.
  unfold slot_muted. rewrite !H. reflexivity.
Qed.

(** X2.  After [reset] the chip is silent: [generateChannels] finds every
    operator off, nulls the buffers and leaves the state as it is, for any
    number of samples. *)
Theorem reset_is_silent (T : Tables) (num : nat) (c : YMF262Impl) :
  wf c -> generateChannels T num (reset c) = (Muted, reset c).
Proof.
  intros H. unfold generateChannels.
  rewrite all_off_muted; [reflexivity |]. apply reset_all_off, H.
Qed.

Lemma reset_is_silent_witness :
  fst (generateChannels (mkTables [] []) 1 four_op_voice) <> Muted /\
  fst (generateChannels (mkTables [] []) 1 (reset four_op_voice)) = Muted.
Proof.
  split; [vm_compute; discriminate |].
  rewrite (reset_is_silent (mkTables [] []) 1 four_op_voice); [reflexivity |].
  vm_compute. repeat split.
Defined.

(** X3.  [reset] leaves every operator off at the largest attenuation, its
    channel key released, and with the parameters a zero in each of its
    registers decodes to: multiplier 1 (the table entry for 0), no tremolo,
    vibrato or sustain, key scale rate 2, no key scale level, total level,
    attack, decay, sustain level and release 0, the first waveform; the
    block and F-number of every channel are zero. *)
Theorem reset_operator_defaults (c : YMF262Impl) (n i : Z) :
  wf c -> 0 <= n < 18 ->
  let s := cslot (reset c) n i in
  state s = EG_OFF /\ volume s = MAX_ATT_INDEX /\ Z.land (key s) 1 = 0 /\
  mul s = 1 /\ AMmask s = 0 /\ vib s = false /\ eg_type s = false /\ KSR s = 2 /\
  ksl s = 31 /\ TL s = 0 /\
  ar s = 0 /\ dr s = 0 /\ sl s = 0 /\ rr s = 0 /\
  waveform_number s = 0 /\ wavetable s = 0 /\
  block_fnum (chan (reset c) n) = 0.
Proof.
  intros H Hn s.
  destruct (reset_reaches_reset_state c H)
    as (_ & _ & _ & _ & _ & _ & _ & _ & _ & _ & _ & _ & Hbf & _ & Hs).
  apply in18_range in Hn.
  assert (S := fun f => Hs n i f Hn). unfold settled in S. fold s in S.
  destruct (S ClearedEnvelope eq_refl) as (E1 & E2).
  destruct (S (ClearedKey 1) eq_refl) as (_ & E3).
  destruct (S ClearedMultiple eq_refl) as (M1 & M2 & M3 & M4 & M5 & _).
  destruct (S ClearedLevel eq_refl) as (L1 & L2 & _).
  destruct (S ClearedAttack eq_refl) as (A1 & A2 & _).
  destruct (S ClearedRelease eq_refl) as (R1 & R2 & _).
  destruct (S ClearedWaveform eq_refl) as (W1 & W2).
  repeat (split; [assumption |]). apply Hbf, Hn.
Qed.

Lemma reset_operator_defaults_witness :
  state (cslot four_op_voice 3 SLOT2) = EG_ATTACK /\
  state (cslot (reset four_op_voice) 3 SLOT2) = EG_OFF /\
  block_fnum (chan (reset four_op_voice) 0) = 0.
Proof.
  split; [vm_compute; reflexivity |].
  assert (H : wf four_op_voice) by (vm_compute; repeat split).
  destruct (reset_operator_defaults four_op_voice 3 SLOT2 H ltac:(lia)) as (E & _).
  split; [exact E |].
  apply (reset_operator_defaults four_op_voice 0 SLOT1 H ltac:(lia)).
Defined.

Lemma extended_reset (c : YMF262Impl) (n : Z) :
  wf c -> extended (chan (reset c) n) = extended (chan c n).
Proof.
  intros H. unfold reset. cbv zeta.
  assert (HC := reset_controls c H). cbv zeta in HC.
  set (c4 := writeRegForce 4 0 _) in *.
  destruct HC as (H4 & _ & _ & _ & _ & _ & _ & _ & _ & _ & _ & C4 & _).
  assert (HL := reset_loops_settle c4 H4). cbv zeta in HL.
  set (c5 := clear_regs 511 _ _) in *.
  destruct HL as [S5 _].
  destruct (S5 H4) as (H5 & _ & A2 & _).
  destruct (reset_operators_settle (map Z.of_nat (seq 0 (9 * 2))) c5 H5) as [S6 _].
  set (c6 := fold_left _ _ c5) in *.
  destruct (S6 H5) as (_ & _ & B2 & _).
  clearbody c6 c5 c4.
  rewrite B2, A2. unfold chan. rewrite C4. reflexivity.
Qed.

Lemma reset_kept_fields (c c' : YMF262Impl) :
  outside_voices c' =
  with_timer2 (mkTimer 0 false) (with_timer1 (mkTimer 0 false)
    (with_irq false (with_status 0 (with_statusMask 0x60
       (with_reg (reg c')
          (with_nts false (with_noise_rng 1 (with_eg_cnt 0 (outside_voices c))))))))) ->
  OPL3_mode c' = OPL3_mode c /\ status2 c' = status2 c /\
  lfo_am_cnt c' = lfo_am_cnt c /\ lfo_pm_cnt c' = lfo_pm_cnt c /\
  LFO_AM c' = LFO_AM c /\ LFO_PM c' = LFO_PM c /\
  chanout c' = chanout c.
Proof.
  intros E.
  split; [exact (f_equal OPL3_mode E) |].
  split; [exact (f_equal status2 E) |].
  split; [exact (f_equal lfo_am_cnt E) |].
  split; [exact (f_equal lfo_pm_cnt E) |].
  split; [exact (f_equal LFO_AM E) |].
  split; [exact (f_equal LFO_PM E) |].
  exact (f_equal chanout E).
Qed.

(** X4.  [reset] does not leave OPL3 mode and does not dissolve the
    4-operator voices: the mode flag of register 105, the pairing flags of
    register 104 and the transient status bits are what they were, and so
    are the LFO counters and values; only the counters, the status and the
    registers [reset] writes are reinitialised. *)
Theorem reset_keeps_mode (c : YMF262Impl) :
  wf c ->
  OPL3_mode (reset c) = OPL3_mode c /\
  (forall n, extended (chan (reset c) n) = extended (chan c n)) /\
  status2 (reset c) = status2 c /\
  lfo_am_cnt (reset c) = lfo_am_cnt c /\ lfo_pm_cnt (reset c) = lfo_pm_cnt c /\
  LFO_AM (reset c) = LFO_AM c /\ LFO_PM (reset c) = LFO_PM c /\
  chanout (reset c) = chanout c.
Proof.
  intros H.
  destruct (reset_kept_fields c (reset c) (outside_reset c))
    as (E1 & E2 & E3 & E4 & E5 & E6 & E7).
  split; [exact E1 |].
  split; [intros n; exact (extended_reset c n H) |].
  repeat (split; [assumption |]). assumption.
Qed.

Lemma reset_keeps_mode_witness :
  OPL3_mode four_op_voice = true /\ extended (chan four_op_voice 0) = 1 /\
  OPL3_mode (reset four_op_voice) = true /\ extended (chan (reset four_op_voice) 0) = 1.
Proof.
  split; [vm_compute; reflexivity |]. split; [vm_compute; reflexivity |].
  assert (H : wf four_op_voice) by (vm_compute; repeat split).
  destruct (reset_keeps_mode four_op_voice H) as (E1 & E2 & _).
  split; [rewrite E1 | rewrite E2]; vm_compute; reflexivity.
Defined.


(** ** What a sample leaves alone *)

Lemma map_insert_same {A B : Type} (f : A -> B) (l : list A) (i : nat) (x : A) :
  (forall y, l !! i = Some y -> f x = f y) -> map f (<[i := x]> l) = map f l.
Proof.
  revert i. induction l as [| a l IH]; intros i H; [reflexivity |].
  destruct i as [| i]; cbn [map].
  - cbn. rewrite (H a eq_refl). reflexivity.
  - cbn. f_equal. apply IH. intros y Hy. apply H. exact Hy.
Qed.

Lemma map_aset_same {A B : Type} (f : A -> B) (d : A) (l : list A) (n : Z) (x : A) :
  f x = f (aget d l n) -> map f (aset l n x) = map f l.
Proof.
  unfold aset, aget. destruct (n <? 0); [reflexivity |]. intros H.
  apply map_insert_same. intros y Hy. rewrite Hy in H. exact H.
Qed.

Lemma settings_put_chan (n : Z) (ch : YMF262Channel) (c : YMF262Impl) :
  settings_channel ch = settings_channel (chan c n) ->
  settings (put_chan n ch c) = settings c.
Proof.
  intros H. unfold settings, put_chan.
  cbn [channels with_channels].
  rewrite (map_aset_same settings_channel new_channel _ _ _ H).
  destruct c; reflexivity.
Qed.

Lemma settings_put_cslot (n i : Z) (x : YMF262Slot) (c : YMF262Impl) :
  settings_slot x = settings_slot (cslot c n i) ->
  settings (put_cslot n i x c) = settings c.
Proof.
  intros H. unfold put_cslot. apply settings_put_chan.
  unfold cslot, slots in H. unfold with_slots, settings_channel.
  destruct (chan c n), (i =? 0); cbn in *; rewrite H; reflexivity.
Qed.

Lemma settings_slot_Cnt (x : Z) (s : YMF262Slot) :
  settings_slot (with_Cnt x s) = settings_slot s.
Proof. reflexivity. Qed.

Lemma settings_slot_op1_out0 (x : Z) (s : YMF262Slot) :
  settings_slot (with_op1_out0 x s) = settings_slot s.
Proof. reflexivity. Qed.

Lemma settings_slot_op1_out1 (x : Z) (s : YMF262Slot) :
  settings_slot (with_op1_out1 x s) = settings_slot s.
Proof. reflexivity. Qed.

Lemma settings_slot_volume (x : Z) (s : YMF262Slot) :
  settings_slot (with_volume x s) = settings_slot s.
Proof. reflexivity. Qed.

Lemma settings_slot_state (x : EnvelopeState) (s : YMF262Slot) :
  settings_slot (with_state x s) = settings_slot s.
Proof. reflexivity. Qed.

Lemma settings_advanceEnvelopeGenerator (eg_cnt : Z) (s : YMF262Slot) :
  settings_slot (advanceEnvelopeGenerator eg_cnt s) = settings_slot s.
Proof.
  unfold advanceEnvelopeGenerator. cbv zeta.
  destruct (state s);
    repeat match goal with |- context [if ?b then _ else _] => destruct b end;
    reflexivity.
Qed.

Lemma settings_advancePhaseGenerator (ch : YMF262Channel) (pm : Z) (s : YMF262Slot) :
  settings_slot (advancePhaseGenerator ch pm s) = settings_slot s.
Proof.
  unfold advancePhaseGenerator. cbv zeta.
  repeat match goal with |- context [if ?b then _ else _] => destruct b end;
    reflexivity.
Qed.

Lemma settings_connect_add (cn : Connect) (x : Z) (c : YMF262Impl) :
  settings (connect_add cn x c) = settings c.
Proof. destruct cn; reflexivity. Qed.

Lemma settings_chanout_add (n x : Z) (c : YMF262Impl) :
  settings (chanout_add n x c) = settings c.
Proof. reflexivity. Qed.

Lemma settings_phase_modulation (x : Z) (c : YMF262Impl) :
  settings (with_phase_modulation x c) = settings c.
Proof. reflexivity. Qed.

Lemma settings_phase_modulation2 (x : Z) (c : YMF262Impl) :
  settings (with_phase_modulation2 x c) = settings c.
Proof. reflexivity. Qed.

Lemma settings_chanout (x : list Z) (c : YMF262Impl) :
  settings (with_chanout x c) = settings c.
Proof. reflexivity. Qed.

Lemma settings_eg_cnt (x : Z) (c : YMF262Impl) : settings (with_eg_cnt x c) = settings c.
Proof. reflexivity. Qed.

Lemma settings_noise_rng (x : Z) (c : YMF262Impl) :
  settings (with_noise_rng x c) = settings c.
Proof. reflexivity. Qed.

Ltac settings_peel :=
  repeat first
    [ rewrite settings_connect_add
    | rewrite settings_chanout_add
    | rewrite settings_phase_modulation
    | rewrite settings_phase_modulation2
    | rewrite settings_chanout
    | rewrite settings_eg_cnt
    | rewrite settings_noise_rng
    | rewrite settings_put_cslot
        by first [ apply settings_slot_op1_out0 | apply settings_slot_op1_out1
                 | apply settings_advanceEnvelopeGenerator
                 | apply settings_advancePhaseGenerator ]
    | lazymatch goal with
      | |- settings (if ?b then _ else _) = _ => destruct b
      end ];
  try reflexivity.

Lemma settings_chan_calc (T : Tables) (n a : Z) (c : YMF262Impl) :
  settings (chan_calc T n a c) = settings c.
Proof. unfold chan_calc. cbv zeta. settings_peel. Qed.

Lemma settings_chan_calc_ext (T : Tables) (n a : Z) (c : YMF262Impl) :
  settings (chan_calc_ext T n a c) = settings c.
Proof. unfold chan_calc_ext. cbv zeta. settings_peel. Qed.

Lemma settings_chan_calc_rhythm (T : Tables) (c : YMF262Impl) :
  settings (chan_calc_rhythm T c) = settings c.
Proof.
  unfold chan_calc_rhythm. cbv zeta.
  match goal with |- context [if negb ?b then _ else _] => destruct b end;
    cbn [negb]; settings_peel.
Qed.

Lemma settings_calc_pair (T : Tables) (n : Z) (c : YMF262Impl) :
  settings (calc_pair T n c) = settings c.
Proof.
  unfold calc_pair. cbv zeta.
  match goal with |- settings (if ?b then _ else _) = _ => destruct b end;
    rewrite ?settings_chan_calc_ext, ?settings_chan_calc; reflexivity.
Qed.

Lemma settings_advance_lfo (c : YMF262Impl) : settings (advance_lfo c) = settings c.
Proof.
  unfold advance_lfo. cbv zeta.
  match goal with |- context [if ?b then with_lfo_am_cnt 0 ?x else ?x] => destruct b end;
    reflexivity.
Qed.

Lemma settings_advance_slot (n i : Z) (c : YMF262Impl) :
  settings (advance_slot n i c) = settings c.
Proof. unfold advance_slot. cbv zeta. settings_peel. Qed.

Lemma settings_advance (c : YMF262Impl) : settings (advance c) = settings c.
Proof.
  unfold advance. cbv zeta.
  assert (F : forall l c0,
            settings (fold_left (fun c n => advance_slot n 1 (advance_slot n 0 c)) l c0) =
            settings c0).
  { induction l as [| n l IH]; intros c0; cbn [fold_left]; [reflexivity |].
    rewrite IH, !settings_advance_slot. reflexivity. }
  rewrite settings_noise_rng.
  match goal with |- settings (if ?b then _ else _) = _ => destruct b end;
    rewrite ?settings_noise_rng, F; reflexivity.
Qed.

Lemma settings_generate_sample (T : Tables) (b : bool) (c : YMF262Impl) :
  settings (snd (generate_sample T b c)) = settings c.
Proof.
  unfold generate_sample. cbv zeta. cbn [snd].
  rewrite settings_advance, !settings_chan_calc, !settings_calc_pair.
  destruct (negb b).
  - rewrite !settings_chan_calc, !settings_calc_pair, settings_chanout.
    apply settings_advance_lfo.
  - rewrite settings_chan_calc_rhythm, !settings_calc_pair, settings_chanout.
    apply settings_advance_lfo.
Qed.

Lemma settings_generate_loop (T : Tables) (b : bool) (num : nat) :
  forall c, settings (snd (generate_loop T b num c)) = settings c.
Proof.
  induction num as [| k IH]; intros c; cbn [generate_loop]; [reflexivity |].
  assert (E := settings_generate_sample T b c).
  destruct (generate_sample T b c) as [row c1]. cbn [snd] in E.
  specialize (IH c1). destruct (generate_loop T b k c1) as [rows c2]. cbn [snd] in *.
  rewrite IH. exact E.
Qed.

Lemma settings_generateChannels (T : Tables) (num : nat) (c : YMF262Impl) :
  settings (snd (generateChannels T num c)) = settings c.
Proof.
  unfold generateChannels, generateChannels_full.
  destruct (checkMuteHelper c); [reflexivity |]. cbv zeta.
  assert (E := settings_generate_loop T (nz (Z.land (rhythm c) 32)) num c).
  destruct (generate_loop T _ num c) as [rows c1]. exact E.
Qed.

(** X5.  Rendering samples changes nothing the registers program:
    [generateChannels] leaves the register file, the status bytes, the
    interrupt line, the timers, the mode flags, the output masks, the
    frequency data of the channels and every operator parameter as they
    were; only the phase counters, the feedback memories, the envelope
    levels and states, the outputs, the LFO, the envelope counter and the
    noise generator move. *)
Theorem samples_keep_settings (T : Tables) (num : nat) (c : YMF262Impl) :
  let c' := snd (generateChannels T num c) in
  settings c' = settings c /\
  (forall r, peekReg r c' = peekReg r c) /\
  peekStatus c' = peekStatus c /\ irq c' = irq c /\
  timer1 c' = timer1 c /\ timer2 c' = timer2 c /\
  OPL3_mode c' = OPL3_mode c /\ pan c' = pan c.
Proof.
  intros c'. assert (E := settings_generateChannels T num c). fold c' in E.
  clearbody c'.
  split; [exact E |].
  split; [intros r; unfold peekReg; exact (f_equal (fun x => aget 0 (reg x) r) E) |].
  split; [exact (f_equal peekStatus E) |].
  split; [exact (f_equal irq E) |].
  split; [exact (f_equal timer1 E) |].
  split; [exact (f_equal timer2 E) |].
  split; [exact (f_equal OPL3_mode E) |].
  exact (f_equal pan E).
Qed.

(** ** The clocks of the generator *)

(** The channel evaluation reads the clocks and never writes them. *)
Lemma clocks_let (v : YMF262Impl) (f : YMF262Impl -> YMF262Impl) (c0 : YMF262Impl) :
  clocks v = clocks c0 ->
  (forall y, clocks y = clocks c0 -> clocks (f y) = clocks c0) ->
  clocks (let x := v in f x) = clocks c0.
Proof. intros Hv Hf. cbv zeta. apply Hf, Hv. Qed.

Lemma clocks_connect_add (cn : Connect) (x : Z) (c : YMF262Impl) :
  clocks (connect_add cn x c) = clocks c.
Proof. destruct cn; reflexivity. Qed.

Ltac clocks_step :=
  lazymatch goal with
  | |- clocks (let x := ?v in _) = _ =>
      lazymatch type of v with
      | YMF262Impl => apply clocks_let; [| let y := fresh "c" in let H := fresh "H" in intros y H]
      | _ => cbv zeta
      end
  | |- clocks (if ?b then _ else _) = _ => destruct b
  | |- clocks (connect_add _ _ ?c) = _ => rewrite clocks_connect_add
  | |- clocks (chanout_add _ _ ?c) = ?r => change (clocks c = r)
  | |- clocks (put_cslot _ _ _ ?c) = ?r => change (clocks c = r)
  | |- clocks (with_phase_modulation _ ?c) = ?r => change (clocks c = r)
  | |- clocks (with_phase_modulation2 _ ?c) = ?r => change (clocks c = r)
  | |- clocks (with_chanout _ ?c) = ?r => change (clocks c = r)
  end.

Lemma clocks_chan_calc (T : Tables) (n a : Z) (c : YMF262Impl) :
  clocks (chan_calc T n a c) = clocks c.
Proof. unfold chan_calc. repeat clocks_step; assumption || reflexivity. Qed.

Lemma clocks_chan_calc_ext (T : Tables) (n a : Z) (c : YMF262Impl) :
  clocks (chan_calc_ext T n a c) = clocks c.
Proof. unfold chan_calc_ext. repeat clocks_step; assumption || reflexivity. Qed.

Lemma clocks_chan_calc_rhythm (T : Tables) (c : YMF262Impl) :
  clocks (chan_calc_rhythm T c) = clocks c.
Proof. unfold chan_calc_rhythm. repeat clocks_step; assumption || reflexivity. Qed.

Lemma clocks_calc_pair (T : Tables) (n : Z) (c : YMF262Impl) :
  clocks (calc_pair T n c) = clocks c.
Proof.
  unfold calc_pair. cbv zeta.
  match goal with |- clocks (if ?b then _ else _) = _ => destruct b end;
    rewrite ?clocks_chan_calc_ext, ?clocks_chan_calc; reflexivity.
Qed.

Lemma clocks_advance_slots (l : list Z) (c : YMF262Impl) :
  clocks (fold_left (fun c n => advance_slot n 1 (advance_slot n 0 c)) l c) = clocks c.
Proof.
  revert c. induction l as [| n l IH]; intros c; cbn [fold_left]; [reflexivity |].
  rewrite IH. reflexivity.
Qed.

Lemma clocks_advance_sequence (c c1 c2 c3 : YMF262Impl) :
  c1 = with_eg_cnt (uint32 (eg_cnt c + 1)) c ->
  c2 = fold_left (fun c n => advance_slot n 1 (advance_slot n 0 c))
         (map Z.of_nat (seq 0 18)) c1 ->
  c3 = (if nz (Z.land (noise_rng c2) 1)
        then with_noise_rng (Z.lxor (noise_rng c2) 0x800302) c2 else c2) ->
  clocks (with_noise_rng (Z.shiftr (noise_rng c3) 1) c3) =
  (uint32 (eg_cnt c + 1), noise_step (noise_rng c), lfo_am_cnt c, lfo_pm_cnt c,
   LFO_AM c, LFO_PM c).
Proof.
  intros E1 E2 E3.
  assert (E : clocks c2 = clocks c1) by (rewrite E2; apply clocks_advance_slots).
  rewrite E1 in E. clear E1 E2. unfold clocks in *.
  cbn [eg_cnt noise_rng lfo_am_cnt lfo_pm_cnt LFO_AM LFO_PM with_eg_cnt] in E.
  inversion E as [[A1 A2 A3 A4 A5 A6]]. clear E.
  subst c3. unfold noise_step.
  destruct (nz (Z.land (noise_rng c2) 1)); reflexivity.
Qed.

Lemma clocks_advance (c : YMF262Impl) :
  clocks (advance c) =
  (uint32 (eg_cnt c + 1), noise_step (noise_rng c), lfo_am_cnt c, lfo_pm_cnt c,
   LFO_AM c, LFO_PM c).
Proof. exact (clocks_advance_sequence c _ _ _ eq_refl eq_refl eq_refl). Qed.

Lemma advance_lfo_keeps (c : YMF262Impl) :
  eg_cnt (advance_lfo c) = eg_cnt c /\ noise_rng (advance_lfo c) = noise_rng c.
Proof.
  unfold advance_lfo. cbv zeta.
  match goal with |- context [if ?b then with_lfo_am_cnt 0 ?x else ?x] => destruct b end;
    split; reflexivity.
Qed.

Lemma clocks_evaluated (c c2 : YMF262Impl) :
  clocks c2 = clocks (advance_lfo c) ->
  clocks (advance c2) =
  (uint32 (eg_cnt c + 1), noise_step (noise_rng c),
   lfo_am_cnt (advance_lfo c), lfo_pm_cnt (advance_lfo c),
   LFO_AM (advance_lfo c), LFO_PM (advance_lfo c)).
Proof.
  intros E. rewrite clocks_advance.
  destruct (advance_lfo_keeps c) as [K1 K2].
  revert E K1 K2. generalize (advance_lfo c). intros c1 E K1 K2.
  unfold clocks in E. injection E as A1 A2 A3 A4 A5 A6.
  rewrite A1, A2, A3, A4, A5, A6, K1, K2. reflexivity.
Qed.

(** One sample: the envelope counter counts, the noise generator and the
    LFOs step, whatever the channels compute. *)
Lemma clocks_generate_sample (T : Tables) (b : bool) (c : YMF262Impl) :
  clocks (snd (generate_sample T b c)) =
  (uint32 (eg_cnt c + 1), noise_step (noise_rng c),
   lfo_am_cnt (advance_lfo c), lfo_pm_cnt (advance_lfo c),
   LFO_AM (advance_lfo c), LFO_PM (advance_lfo c)).
Proof.
  unfold generate_sample. cbv zeta. cbn [snd].
  apply clocks_evaluated.
  assert (K : forall x c0, clocks (with_chanout x c0) = clocks c0) by reflexivity.
  rewrite !clocks_chan_calc, !clocks_calc_pair.
  destruct (negb b).
  - rewrite !clocks_chan_calc, !clocks_calc_pair. apply K.
  - rewrite clocks_chan_calc_rhythm, !clocks_calc_pair. apply K.
Qed.

Lemma clocks_outside (c : YMF262Impl) : clocks c = clocks (outside_voices c).
Proof. reflexivity. Qed.

Lemma clocks_write_control (r v : Z) (c : YMF262Impl) :
  clocks (write_control r v c) = clocks c.
Proof.
  unfold write_control, resetStatus, changeStatusMask. cbv zeta.
  destruct (Z.land r 31) as [| p | p]; try reflexivity.
  do 5 (try destruct p as [p | p |]; try reflexivity);
    repeat match goal with |- context [if ?b then _ else _] => destruct b end; reflexivity.
Qed.

Lemma clocks_set_extended (n bit v : Z) (c : YMF262Impl) :
  clocks (set_extended n bit v c) = clocks c.
Proof.
  unfold set_extended, update_channels. cbv zeta.
  repeat match goal with |- context [if ?b then _ else _] => destruct b end; reflexivity.
Qed.

(** No register write touches the clocks of the generator. *)
Lemma clocks_writeRegForce (r v : Z) (c : YMF262Impl) :
  clocks (writeRegForce r v c) = clocks c.
Proof.
  destruct (Z.eq_dec r 0x101) as [-> | H1]; [reflexivity |].
  destruct (Z.eq_dec r 0x104) as [-> | H4].
  { rewrite writeRegForce_extended, !clocks_set_extended. reflexivity. }
  destruct (Z.eq_dec r 0x105) as [-> | H5].
  { rewrite writeRegForce_mode. cbv zeta.
    match goal with |- context [if ?b then _ else _] => destruct b end; reflexivity. }
  rewrite writeRegForce_page by assumption.
  destruct (Z.eq_dec (Z.land (Z.land r 0xFF) 0xE0) 0) as [Hb | Hb].
  - rewrite write_page_control by exact Hb. rewrite clocks_write_control. reflexivity.
  - rewrite clocks_outside, outside_write_page by exact Hb. reflexivity.
Qed.

Lemma clocks_writeReg (r v : Z) (c : YMF262Impl) : clocks (writeReg r v c) = clocks c.
Proof. unfold writeReg. cbv zeta. apply clocks_writeRegForce. Qed.

Lemma clocks_setStatus (flag : Z) (c : YMF262Impl) : clocks (setStatus flag c) = clocks c.
Proof.
  unfold setStatus. cbv zeta.
  match goal with |- context [if ?b then _ else _] => destruct b end; reflexivity.
Qed.

(** ** Invariants of the reachable states *)

(** A property of the constructed chip that every register write, every
    sample, every timer expiry, every status read and [reset] keep holds in
    every reachable state. *)
Lemma reachable_ind (P : YMF262Impl -> Prop) :
  P power_on ->
  (forall c r v, P c -> P (writeRegForce r v c)) ->
  (forall c T b, P c -> P (snd (generate_sample T b c))) ->
  (forall c flag, P c -> P (setStatus flag c)) ->
  (forall c, P c -> P (with_status2 0 c)) ->
  (forall c, P c -> P (reset c)) ->
  forall c, reachable c -> P c.
Proof.
  intros H0 Hw Hs Hc Hr Hreset c [actions ->].
  induction actions as [| a l IH] using rev_ind; [exact H0 |].
  rewrite fold_left_app. cbn [fold_left].
  destruct a; cbn [run].
  - unfold writeReg. cbv zeta. apply Hw, IH.
  - apply Hw, IH.
  - apply Hs, IH.
  - apply Hreset, IH.
  - unfold callback. apply Hc, IH.
  - unfold readStatus. cbv zeta. cbn [snd]. apply Hr, IH.
Qed.

(** *** The noise generator *)

Lemma testbit_lower_bound (x k : Z) :
  0 <= k -> 0 <= x -> Z.testbit x k = true -> 2 ^ k <= x.
Proof.
  intros Hk Hx Hb.
  destruct (Z_lt_le_dec x (2 ^ k)) as [Hlt | Hge]; [| exact Hge].
  exfalso. destruct (Z.eq_dec x 0) as [-> | Hne].
  - rewrite Z.bits_0 in Hb. discriminate.
  - rewrite Z.bits_above_log2 in Hb; [discriminate | exact Hx |].
    apply Z.log2_lt_pow2; lia.
Qed.

Lemma lxor_upper_bound (a b k : Z) :
  0 <= k -> 0 <= a < 2 ^ k -> 0 <= b < 2 ^ k -> 0 <= Z.lxor a b < 2 ^ k.
Proof.
  intros Hk Ha Hb.
  assert (H0 : 0 <= Z.lxor a b) by (apply Z.lxor_nonneg; lia).
  split; [exact H0 |].
  destruct (Z.eq_dec (Z.lxor a b) 0) as [E | Hne]; [rewrite E; lia |].
  apply Z.log2_lt_pow2; [lia |].
  pose proof (Z.log2_lxor a b ltac:(lia) ltac:(lia)) as Hl.
  assert (La : a = 0 \/ Z.log2 a < k).
  { destruct (Z.eq_dec a 0); [left; assumption | right; apply Z.log2_lt_pow2; lia]. }
  assert (Lb : b = 0 \/ Z.log2 b < k).
  { destruct (Z.eq_dec b 0); [left; assumption | right; apply Z.log2_lt_pow2; lia]. }
  assert (Hk0 : 0 < k).
  { destruct (Z.eq_dec k 0) as [-> | ]; [| lia]. change (2 ^ 0) with 1 in *.
    assert (a = 0) by lia. assert (b = 0) by lia. subst. exfalso. apply Hne. reflexivity. }
  destruct La as [-> | La], Lb as [-> | Lb]; change (Z.log2 0) with 0 in Hl; lia.
Qed.

(** The shift register never runs empty and stays within its 23 bits. *)
Lemma noise_step_range (n : Z) : 1 <= n < 2 ^ 23 -> 1 <= noise_step n < 2 ^ 23.
Proof.
  intros Hn. unfold noise_step. rewrite Z.shiftr_div_pow2 by lia. change (2 ^ 1) with 2.
  destruct (nz (Z.land n 1)) eqn:Hodd.
  - assert (Hx : 0 <= Z.lxor n 0x800302 < 2 ^ 24)
      by (apply lxor_upper_bound; lia).
    assert (Hb : 2 ^ 23 <= Z.lxor n 0x800302).
    { apply testbit_lower_bound; [lia | lia |].
      rewrite Z.lxor_spec.
      rewrite (Z.bits_above_log2 n 23) by
        (try lia; apply Z.log2_lt_pow2; lia).
      reflexivity. }
    split.
    + apply Z.div_le_lower_bound; lia.
    + apply Z.div_lt_upper_bound; lia.
  - assert (Hev : Z.land n 1 = 0).
    { unfold nz in Hodd. apply negb_false_iff, Z.eqb_eq in Hodd. exact Hodd. }
    change 1 with (Z.ones 1) in Hev. rewrite Z.land_ones in Hev by lia.
    change (2 ^ 1) with 2 in Hev.
    pose proof (Z.div_mod n 2 ltac:(lia)) as Hd.
    split.
    + apply Z.div_le_lower_bound; lia.
    + apply Z.div_lt_upper_bound; lia.
Qed.

Lemma reset_set_fields (c c' : YMF262Impl) :
  outside_voices c' =
  with_timer2 (mkTimer 0 false) (with_timer1 (mkTimer 0 false)
    (with_irq false (with_status 0 (with_statusMask 0x60
       (with_reg (reg c')
          (with_nts false (with_noise_rng 1 (with_eg_cnt 0 (outside_voices c))))))))) ->
  eg_cnt c' = 0 /\ noise_rng c' = 1 /\ nts c' = false /\
  status c' = 0 /\ statusMask c' = 0x60 /\ irq c' = false /\
  timer1 c' = mkTimer 0 false /\ timer2 c' = mkTimer 0 false.
Proof.
  intros E.
  split; [exact (f_equal eg_cnt E) |].
  split; [exact (f_equal noise_rng E) |].
  split; [exact (f_equal nts E) |].
  split; [exact (f_equal status E) |].
  split; [exact (f_equal statusMask E) |].
  split; [exact (f_equal irq E) |].
  split; [exact (f_equal timer1 E) | exact (f_equal timer2 E)].
Qed.

Lemma noise_rng_reset (c : YMF262Impl) : noise_rng (reset c) = 1.
Proof. apply (reset_set_fields c (reset c) (outside_reset c)). Qed.

Lemma noise_rng_clocks (c c' : YMF262Impl) :
  clocks c' = clocks c -> noise_rng c' = noise_rng c.
Proof. intros E. unfold clocks in E. congruence. Qed.

Lemma noise_rng_sample (T : Tables) (b : bool) (c : YMF262Impl) :
  noise_rng (snd (generate_sample T b c)) = noise_step (noise_rng c).
Proof.
  assert (E := clocks_generate_sample T b c).
  set (c' := snd (generate_sample T b c)) in *. clearbody c'.
  revert E. generalize (advance_lfo c). intros c1 E.
  unfold clocks in E. congruence.
Qed.

(** X6.  The noise generator never sticks: in every reachable state the
    shift register holds a value from 1 to 2^23 - 1, so the feedback keeps
    it running ([reset] loads 1, a sample shifts it once, nothing else
    writes it). *)
Theorem noise_never_zero (c : YMF262Impl) :
  reachable c -> 1 <= noise_rng c < 2 ^ 23.
Proof.
  revert c. apply reachable_ind.
  - unfold power_on. rewrite noise_rng_reset. lia.
  - intros c r v H. rewrite (noise_rng_clocks _ _ (clocks_writeRegForce r v c)). exact H.
  - intros c T b H. rewrite noise_rng_sample. apply noise_step_range, H.
  - intros c flag H. rewrite (noise_rng_clocks _ _ (clocks_setStatus flag c)). exact H.
  - intros c H. exact H.
  - intros c _. rewrite noise_rng_reset. lia.
Qed.

Lemma noise_never_zero_witness :
  noise_rng (run (Sample (mkTables [] []) false) power_on) = 0x400181 /\
  1 <= noise_rng (run (Sample (mkTables [] []) false) power_on) < 2 ^ 23.
Proof.
  split; [vm_compute; reflexivity |].
  apply noise_never_zero. exists [Sample (mkTables [] []) false]. reflexivity.
Defined.

(** *** The sample loop *)

Lemma generate_sample_row (T : Tables) (b : bool) (c : YMF262Impl) :
  length (fst (generate_sample T b c)) = 18%nat.
Proof.
  unfold generate_sample. cbv zeta. cbn [fst].
  rewrite !length_map, length_seq. reflexivity.
Qed.

Lemma eg_cnt_sample (T : Tables) (b : bool) (c : YMF262Impl) :
  eg_cnt (snd (generate_sample T b c)) = uint32 (eg_cnt c + 1).
Proof.
  assert (E := clocks_generate_sample T b c).
  set (c' := snd (generate_sample T b c)) in *. clearbody c'.
  revert E. generalize (advance_lfo c). intros c1 E.
  unfold clocks in E. congruence.
Qed.

Lemma generate_loop_clocks (T : Tables) (b : bool) (num : nat) :
  forall c, 0 <= eg_cnt c < 2 ^ 32 ->
  length (fst (generate_loop T b num c)) = num /\
  Forall (fun row => length row = 18%nat) (fst (generate_loop T b num c)) /\
  eg_cnt (snd (generate_loop T b num c)) = uint32 (eg_cnt c + Z.of_nat num) /\
  noise_rng (snd (generate_loop T b num c)) = Nat.iter num noise_step (noise_rng c).
Proof.
  induction num as [| k IH]; intros c Hc; cbn [generate_loop].
  - cbn [fst snd length Nat.iter]. repeat split; [constructor |].
    unfold uint32. rewrite Z.add_0_r, Z.mod_small by exact Hc. reflexivity.
  - assert (Hrow := generate_sample_row T b c).
    assert (He := eg_cnt_sample T b c).
    assert (Hn := noise_rng_sample T b c).
    destruct (generate_sample T b c) as [row c1]. cbn [fst snd] in Hrow, He, Hn.
    assert (Hc1 : 0 <= eg_cnt c1 < 2 ^ 32).
    { rewrite He. unfold uint32. apply Z.mod_pos_bound. lia. }
    specialize (IH c1 Hc1).
    destruct (generate_loop T b k c1) as [rows c2]. cbn [fst snd length] in *.
    destruct IH as (L & F & E & N).
    split; [rewrite L; reflexivity |].
    split; [constructor; assumption |].
    split.
    + rewrite E, He. unfold uint32. rewrite Zplus_mod_idemp_l. f_equal. lia.
    + rewrite N, Hn. symmetry. apply Nat.iter_succ_r.
Qed.

(** X7.  When some operator is audible, [generateChannels] fills all 18
    buffers with [num] stereo samples (one row of 18 pairs each), counts
    the envelope counter up by [num] (modulo 2^32) and steps the noise
    generator [num] times, whatever the tables hold and whatever the
    channels compute. *)
Theorem generateChannels_counts (T : Tables) (num : nat) (c : YMF262Impl) :
  checkMuteHelper c = false -> 0 <= eg_cnt c < 2 ^ 32 ->
  exists rows,
    fst (generateChannels T num c) = Samples rows /\
    length rows = num /\ Forall (fun row => length row = 18%nat) rows /\
    eg_cnt (snd (generateChannels T num c)) = uint32 (eg_cnt c + Z.of_nat num) /\
    noise_rng (snd (generateChannels T num c)) = Nat.iter num noise_step (noise_rng c).
Proof.
  intros Hm Hc. unfold generateChannels, generateChannels_full. rewrite Hm. cbv zeta.
  assert (H := generate_loop_clocks T (nz (Z.land (rhythm c) 32)) num c Hc).
  destruct (generate_loop T _ num c) as [rows c1]. cbn [fst snd] in *.
  exists rows. split; [reflexivity | exact H].
Qed.

Lemma generateChannels_counts_witness :
  exists rows,
    fst (generateChannels (mkTables [] []) 3 four_op_voice) = Samples rows /\
    length rows = 3%nat /\ Forall (fun row => length row = 18%nat) rows /\
    eg_cnt (snd (generateChannels (mkTables [] []) 3 four_op_voice)) = 3 /\
    noise_rng (snd (generateChannels (mkTables [] []) 3 four_op_voice)) =
    Nat.iter 3 noise_step 1.
Proof.
  apply (generateChannels_counts (mkTables [] []) 3 four_op_voice);
    vm_compute; [reflexivity | split; [discriminate | reflexivity]].
Defined.

(** *** The interrupt line *)

Lemma irq_consistent_view (c c' : YMF262Impl) :
  status_view c' = status_view c -> irq_consistent c' = irq_consistent c.
Proof.
  unfold status_view, irq_consistent. intros E. injection E as -> -> ->. reflexivity.
Qed.

Lemma setStatus_view (flag : Z) (c : YMF262Impl) :
  status_view (setStatus flag c) =
  status_view (setStatus flag (status_chip (status c) (statusMask c) (irq c))).
Proof.
  unfold setStatus, status_chip. cbv zeta.
  cbn [status statusMask irq with_status with_irq].
  match goal with |- context [if ?b then _ else _] => destruct b end; reflexivity.
Qed.

Lemma resetStatus_view (flag : Z) (c : YMF262Impl) :
  status_view (resetStatus flag c) =
  status_view (resetStatus flag (status_chip (status c) (statusMask c) (irq c))).
Proof.
  unfold resetStatus, status_chip. cbv zeta.
  cbn [status statusMask irq with_status with_irq].
  match goal with |- context [if ?b then _ else _] => destruct b end; reflexivity.
Qed.

Lemma changeStatusMask_view (flag : Z) (c : YMF262Impl) :
  status_view (changeStatusMask flag c) =
  status_view (changeStatusMask flag (status_chip (status c) (statusMask c) (irq c))).
Proof.
  unfold changeStatusMask, status_chip. cbv zeta.
  cbn [status statusMask irq with_status with_irq with_statusMask].
  match goal with |- context [if ?b then _ else _] => destruct b end; reflexivity.
Qed.

Lemma timer_mask_cases (x : Z) : In (Z.land x 0x60) [0; 0x20; 0x40; 0x60].
Proof.
  assert (E : Z.land x 0x60 = Z.land (Z.land x 0xFF) 0x60).
  { rewrite <- Z.land_assoc. reflexivity. }
  rewrite E. pose proof (land255_range x) as Hx.
  assert (H : existsb (Z.eqb (Z.land (Z.land x 255) 0x60)) [0; 0x20; 0x40; 0x60] = true).
  { revert Hx. generalize (Z.land x 255). apply byte_forallb. vm_compute. reflexivity. }
  apply existsb_exists in H. destruct H as (y & Hy & Ey). apply Z.eqb_eq in Ey.
  rewrite Ey. exact Hy.
Qed.

(** A property checked for every status byte, mask and level holds for the
    consistent chip. *)
Lemma status_cases (f : Z -> Z -> bool -> bool) :
  forallb (fun s => forallb (fun m => f s m true && f s m false) [0; 0x20; 0x40; 0x60])
          (map Z.of_nat (seq 0 256)) = true ->
  forall c, irq_consistent c = true -> f (status c) (statusMask c) (irq c) = true.
Proof.
  intros H c Hc. unfold irq_consistent in Hc.
  apply andb_true_iff in Hc. destruct Hc as [Hc _].
  apply andb_true_iff in Hc. destruct Hc as [Hc _].
  apply andb_true_iff in Hc. destruct Hc as [Hc Hm].
  apply andb_true_iff in Hc. destruct Hc as [H0 H1].
  apply Z.eqb_eq in Hm.
  assert (Hs : 0 <= status c < 256) by lia.
  pose proof (byte_forallb _ H _ Hs) as Hf. cbv beta in Hf.
  rewrite forallb_forall in Hf.
  specialize (Hf (statusMask c)). rewrite <- Hm in Hf at 1.
  specialize (Hf (timer_mask_cases _)).
  apply andb_true_iff in Hf. destruct Hf as [Ht Hf].
  destruct (irq c); assumption.
Qed.

Lemma status_chip_consistent (c : YMF262Impl) :
  irq_consistent (status_chip (status c) (statusMask c) (irq c)) = irq_consistent c.
Proof. reflexivity. Qed.

Lemma setStatus_consistent (flag : Z) (c : YMF262Impl) :
  timer_flag flag = true -> irq_consistent c = true ->
  irq_consistent (setStatus flag c) = true.
Proof.
  intros Hf Hc. rewrite (irq_consistent_view _ _ (setStatus_view flag c)).
  unfold timer_flag in Hf.
  apply andb_true_iff in Hf. destruct Hf as [Hf H7].
  apply andb_true_iff in Hf. destruct Hf as [F0 F1].
  assert (Hb : 0 <= flag < 256) by lia.
  assert (H := status_cases
             (fun s m i =>
                implb (irq_consistent (status_chip s m i))
                  (forallb (fun fl => implb (Z.land fl 0x80 =? 0)
                              (irq_consistent (setStatus fl (status_chip s m i))))
                           (map Z.of_nat (seq 0 256))))
             ltac:(vm_compute; reflexivity) c Hc).
  cbv beta in H. rewrite status_chip_consistent, Hc in H. cbn [implb] in H.
  pose proof (byte_forallb _ H flag Hb) as Hfl. cbv beta in Hfl.
  rewrite H7 in Hfl. exact Hfl.
Qed.

Lemma resetStatus_consistent (c : YMF262Impl) :
  irq_consistent c = true -> irq_consistent (resetStatus 0x60 c) = true.
Proof.
  intros Hc. rewrite (irq_consistent_view _ _ (resetStatus_view 0x60 c)).
  assert (H := status_cases
             (fun s m i =>
                implb (irq_consistent (status_chip s m i))
                  (irq_consistent (resetStatus 0x60 (status_chip s m i))))
             ltac:(vm_compute; reflexivity) c Hc).
  cbv beta in H. rewrite status_chip_consistent, Hc in H. exact H.
Qed.

Lemma changeStatusMask_consistent (x : Z) (c : YMF262Impl) :
  irq_consistent c = true ->
  irq_consistent (changeStatusMask (Z.land x 0x60) c) = true.
Proof.
  intros Hc. rewrite (irq_consistent_view _ _ (changeStatusMask_view _ c)).
  assert (H := status_cases
             (fun s m i =>
                implb (irq_consistent (status_chip s m i))
                  (forallb (fun k => irq_consistent (changeStatusMask k (status_chip s m i)))
                           [0; 0x20; 0x40; 0x60]))
             ltac:(vm_compute; reflexivity) c Hc).
  cbv beta in H. rewrite status_chip_consistent, Hc in H. cbn [implb] in H.
  rewrite forallb_forall in H. apply H, timer_mask_cases.
Qed.

Lemma status_view_outside (c : YMF262Impl) : status_view c = status_view (outside_voices c).
Proof. reflexivity. Qed.

Lemma write_control_consistent (r v : Z) (c : YMF262Impl) :
  irq_consistent c = true -> irq_consistent (write_control r v c) = true.
Proof.
  intros Hc. unfold write_control.
  destruct (Z.land r 31) as [| p | p]; try exact Hc.
  do 5 (try destruct p as [p | p |]; try exact Hc).
  destruct (nz (Z.land v 128)).
  - apply resetStatus_consistent, Hc.
  - cbv zeta.
    match goal with
    | |- irq_consistent (with_timer2 ?a (with_timer1 ?b ?x)) = true =>
        change (irq_consistent x = true)
    end.
    apply changeStatusMask_consistent, Hc.
Qed.

Lemma set_extended_view (n bit v : Z) (c : YMF262Impl) :
  status_view (set_extended n bit v c) = status_view c.
Proof.
  unfold set_extended, update_channels. cbv zeta.
  repeat match goal with |- context [if ?b then _ else _] => destruct b end; reflexivity.
Qed.

Lemma writeRegForce_consistent (r v : Z) (c : YMF262Impl) :
  irq_consistent c = true -> irq_consistent (writeRegForce r v c) = true.
Proof.
  intros Hc.
  destruct (Z.eq_dec r 0x101) as [-> | H1]; [exact Hc |].
  destruct (Z.eq_dec r 0x104) as [-> | H4].
  { rewrite <- Hc. apply irq_consistent_view.
    rewrite writeRegForce_extended, !set_extended_view. reflexivity. }
  destruct (Z.eq_dec r 0x105) as [-> | H5].
  { rewrite <- Hc. apply irq_consistent_view. rewrite writeRegForce_mode. cbv zeta.
    match goal with |- context [if ?b then _ else _] => destruct b end; reflexivity. }
  rewrite writeRegForce_page by assumption.
  destruct (Z.eq_dec (Z.land (Z.land r 0xFF) 0xE0) 0) as [Hb | Hb].
  - rewrite write_page_control by exact Hb. apply write_control_consistent. exact Hc.
  - rewrite <- Hc. apply irq_consistent_view.
    rewrite status_view_outside, outside_write_page by exact Hb. reflexivity.
Qed.

Lemma status_view_settings (c : YMF262Impl) : status_view c = status_view (settings c).
Proof. reflexivity. Qed.

Lemma sample_view (T : Tables) (b : bool) (c : YMF262Impl) :
  status_view (snd (generate_sample T b c)) = status_view c.
Proof.
  rewrite (status_view_settings (snd (generate_sample T b c))).
  rewrite settings_generate_sample. symmetry. apply status_view_settings.
Qed.

Lemma reset_consistent (c : YMF262Impl) : irq_consistent (reset c) = true.
Proof.
  destruct (reset_set_fields c (reset c) (outside_reset c))
    as (_ & _ & _ & E1 & E2 & E3 & _).
  unfold irq_consistent. rewrite E1, E2, E3. reflexivity.
Qed.

Lemma run_consistent (a : Action) (c : YMF262Impl) :
  timer_callback a = true -> irq_consistent c = true -> irq_consistent (run a c) = true.
Proof.
  intros Ha Hc. destruct a; cbn [run timer_callback] in *.
  - unfold writeReg. cbv zeta. apply writeRegForce_consistent, Hc.
  - apply writeRegForce_consistent, Hc.
  - rewrite (irq_consistent_view _ _ (sample_view T rhythmEnabled c)). exact Hc.
  - apply reset_consistent.
  - unfold callback. apply setStatus_consistent; assumption.
  - exact Hc.
Qed.

(** X8.  The interrupt line follows the status byte.  From the constructed
    chip, through any register writes, samples, resets, status reads and
    timer expiries (which report a flag below bit 7, as [STATUS_T1] and
    [STATUS_T2] are), the line is up exactly when bit 7 of the status byte
    is set, and exactly when a timer flag that the mask lets through is
    pending; the mask never holds anything but the two timer bits. *)
Theorem irq_follows_status (actions : list Action) :
  forallb timer_callback actions = true ->
  let c := fold_left (fun c a => run a c) actions power_on in
  irq c = nz (Z.land (status c) 0x80) /\
  irq c = nz (Z.land (status c) (statusMask c)) /\
  Z.land (statusMask c) 0x60 = statusMask c.
Proof.
  intros Ha c.
  assert (H : irq_consistent c = true).
  { unfold c. clear c. induction actions as [| a l IH] using rev_ind.
    - apply reset_consistent.
    - rewrite forallb_app in Ha. apply andb_true_iff in Ha. destruct Ha as [Hl Ha].
      cbn [forallb] in Ha. rewrite andb_true_r in Ha.
      rewrite fold_left_app. cbn [fold_left]. apply run_consistent; [exact Ha |].
      apply IH, Hl. }
  clearbody c. unfold irq_consistent in H.
  apply andb_true_iff in H. destruct H as [H H5].
  apply andb_true_iff in H. destruct H as [H H4].
  apply andb_true_iff in H. destruct H as [_ H3].
  apply Z.eqb_eq in H3. apply eqb_prop in H4, H5. auto.
Qed.

Lemma irq_follows_status_witness :
  let c := fold_left (fun c a => run a c) [Write 0x04 0x00; Callback 0x40] power_on in
  irq c = true /\ status c = 0xC0 /\
  irq c = nz (Z.land (status c) 0x80) /\
  irq c = nz (Z.land (status c) (statusMask c)) /\
  Z.land (statusMask c) 0x60 = statusMask c.
Proof.
  split; [vm_compute; reflexivity |]. split; [vm_compute; reflexivity |].
  apply (irq_follows_status [Write 0x04 0x00; Callback 0x40]). reflexivity.
Defined.

(** ** What the operator registers leave alone *)

(** An observation of the chip that no operator update and no output mask
    changes is not changed by the handlers of the operator registers, of
    the waveform, connection and key registers. *)
Section VoiceFrame.
Context {A : Type} (obs : YMF262Impl -> A).
Hypothesis obs_put_cslot : forall n i x c, obs (put_cslot n i x c) = obs c.
Hypothesis obs_pan : forall x c, obs (with_pan x c) = obs c.

Lemma obs_let (v : YMF262Impl) (f : YMF262Impl -> YMF262Impl) (c0 : YMF262Impl) :
  obs v = obs c0 ->
  (forall y, obs y = obs c0 -> obs (f y) = obs c0) ->
  obs (let x := v in f x) = obs c0.
Proof. intros Hv Hf. cbv zeta. apply Hf, Hv. Qed.

Ltac obs_step obs :=
  lazymatch goal with
  | |- obs (let x := ?v in _) = _ =>
      lazymatch type of v with
      | YMF262Impl =>
          apply obs_let; [| let y := fresh "c" in let H := fresh "H" in intros y H]
      | _ => cbv zeta
      end
  | |- obs (if ?b then _ else _) = _ => destruct b
  | |- obs (match channel_kind ?n with _ => _ end) = _ => destruct (channel_kind n)
  | |- obs (match ?b with true => _ | false => _ end) = _ => destruct b
  | |- obs (put_cslot _ _ _ _) = _ => rewrite obs_put_cslot
  | |- obs (with_pan _ _) = _ => rewrite obs_pan
  | |- obs (set_connect _ _ _ _) = _ => unfold set_connect at 1
  | |- obs (key_slot _ _ _ _ _) = _ => unfold key_slot at 1
  | |- obs (key_channel _ _ _ _) = _ => unfold key_channel at 1
  | |- obs (refresh_TLL _ _ _ _) = _ => unfold refresh_TLL at 1
  | |- obs (refresh_FC _ _ _ _) = _ => unfold refresh_FC at 1
  | |- obs (connect_2op _ _) = _ => unfold connect_2op at 1
  | |- obs (connect_4op _ _ _) = _ => unfold connect_4op at 1
  | |- obs (refresh2 _ _) = _ => unfold refresh2 at 1
  | |- obs (refresh4 _ _) = _ => unfold refresh4 at 1
  end.

Ltac obs_walk obs := repeat obs_step obs; first [assumption | reflexivity].

Lemma obs_set_mul (sl_ v : Z) (c : YMF262Impl) : obs (set_mul sl_ v c) = obs c.
Proof. unfold set_mul. cbv zeta. apply obs_put_cslot. Qed.

Lemma obs_set_ksl_tl (sl_ v : Z) (c : YMF262Impl) : obs (set_ksl_tl sl_ v c) = obs c.
Proof. unfold set_ksl_tl. cbv zeta. apply obs_put_cslot. Qed.

Lemma obs_set_ar_dr (sl_ v : Z) (c : YMF262Impl) : obs (set_ar_dr sl_ v c) = obs c.
Proof. unfold set_ar_dr. cbv zeta. apply obs_put_cslot. Qed.

Lemma obs_set_sl_rr (sl_ v : Z) (c : YMF262Impl) : obs (set_sl_rr sl_ v c) = obs c.
Proof. unfold set_sl_rr. cbv zeta. apply obs_put_cslot. Qed.

Lemma obs_write_waveform (ch_offset r v : Z) (c : YMF262Impl) :
  obs (write_waveform ch_offset r v c) = obs c.
Proof. unfold write_waveform. obs_walk obs. Qed.

Lemma obs_write_connect (ch_offset r v : Z) (c : YMF262Impl) :
  obs (write_connect ch_offset r v c) = obs c.
Proof. unfold write_connect. obs_walk obs. Qed.

Lemma obs_key_onoff (on : bool) (n : Z) (c : YMF262Impl) : obs (key_onoff on n c) = obs c.
Proof. unfold key_onoff. obs_walk obs. Qed.

Lemma obs_refresh2 (n : Z) (c : YMF262Impl) : obs (refresh2 n c) = obs c.
Proof. obs_walk obs. Qed.

Lemma obs_refresh4 (n : Z) (c : YMF262Impl) : obs (refresh4 n c) = obs c.
Proof. obs_walk obs. Qed.

(** Register bd, but for its three settings. *)
Lemma obs_write_rhythm (ch_offset v : Z) (c : YMF262Impl) :
  obs (write_rhythm ch_offset v c) =
  obs (if negb (ch_offset =? 0) then c
       else with_rhythm (Z.land v 0x3F)
              (with_lfo_pm_depth_range (if nz (Z.land v 0x40) then 8 else 0)
                 (with_lfo_am_depth (nz (Z.land v 0x80)) c))).
Proof.
  unfold write_rhythm. destruct (negb (ch_offset =? 0)); [reflexivity |].
  cbv zeta. set (c1 := with_rhythm _ _). clearbody c1.
  obs_walk obs.
Qed.

(** Registers a0-a8 and b0-b8, but for the channel record they store. *)
Lemma obs_update_fnum (n bf : Z) (c : YMF262Impl) :
  obs (update_fnum n bf c) =
  obs (if negb (block_fnum (chan c n) =? bf)
       then put_chan n (retuned (nts c) bf (chan c n)) c else c).
Proof.
  unfold update_fnum. destruct (negb (block_fnum (chan c n) =? bf)); [| reflexivity].
  cbv zeta.
  match goal with
  | |- obs (if OPL3_mode ?x then _ else _) = obs ?y =>
      change y with x; generalize x
  end.
  intros c1. obs_walk obs.
Qed.
End VoiceFrame.

(** Case analysis on the register: a property of the state with the byte
    stored that every handler keeps is a property of [writeRegForce]. *)
Lemma writeRegForce_cases (P : YMF262Impl -> Prop) (r v : Z) (c : YMF262Impl) :
  (forall c0, P c0 -> forall n bit, P (set_extended n bit (byte_of v) c0)) ->
  (forall c0, P c0 -> P (with_OPL3_mode (nz (Z.land (byte_of v) 0x01)) c0)) ->
  (forall c0, P c0 -> P (with_status2 0x02 c0)) ->
  (forall c0, P c0 -> forall r', P (write_control r' (byte_of v) c0)) ->
  (forall c0, P c0 -> forall sl_, P (set_mul sl_ (byte_of v) c0)) ->
  (forall c0, P c0 -> forall sl_, P (set_ksl_tl sl_ (byte_of v) c0)) ->
  (forall c0, P c0 -> forall sl_, P (set_ar_dr sl_ (byte_of v) c0)) ->
  (forall c0, P c0 -> forall sl_, P (set_sl_rr sl_ (byte_of v) c0)) ->
  (forall c0, P c0 -> forall ch_offset, P (write_rhythm ch_offset (byte_of v) c0)) ->
  (forall c0, P c0 -> forall ch_offset r', P (write_fnum ch_offset r' (byte_of v) c0)) ->
  (forall c0, P c0 -> forall ch_offset r', P (write_connect ch_offset r' (byte_of v) c0)) ->
  (forall c0, P c0 -> forall ch_offset r', P (write_waveform ch_offset r' (byte_of v) c0)) ->
  P (with_reg (aset (reg c) r (byte_of v)) c) ->
  P (writeRegForce r v c).
Proof.
  intros Hext Hmode Hst2 Hctl Hmul Hksl Har Hsl Hrh Hfn Hcon Hwav H0.
  destruct (Z.eq_dec r 0x101) as [-> | H1]; [exact H0 |].
  destruct (Z.eq_dec r 0x104) as [-> | H4].
  { rewrite writeRegForce_extended. repeat apply Hext. exact H0. }
  destruct (Z.eq_dec r 0x105) as [-> | H5].
  { rewrite writeRegForce_mode. cbv zeta.
    match goal with |- context [if ?b then _ else _] => destruct b end;
      [apply Hst2 |]; apply Hmode, H0. }
  rewrite writeRegForce_page by assumption.
  apply write_page_cases; auto.
Qed.

(** A property that the start of [reset], every register write and the
    reinitialisation of an operator keep is kept by [reset]. *)
Lemma reset_preserves (P : YMF262Impl -> Prop) :
  (forall c, P c -> P (resetStatus 0x60 (with_nts false (with_noise_rng 1 (with_eg_cnt 0 c))))) ->
  (forall c r v, P c -> P (writeRegForce r v c)) ->
  (forall c n i, P c -> P (reset_operator n i c)) ->
  forall c, P c -> P (reset c).
Proof.
  intros Hstart Hw Hop c Hc.
  assert (Fw : forall l c0, P c0 -> P (fold_left (fun c r => writeRegForce r 0 c) l c0)).
  { induction l as [| r l IH]; intros c0 H0; cbn [fold_left]; [exact H0 |].
    apply IH, Hw, H0. }
  assert (Fo : forall l c0, P c0 ->
            P (fold_left (fun c n => reset_operator n 1 (reset_operator n 0 c)) l c0)).
  { induction l as [| n l IH]; intros c0 H0; cbn [fold_left]; [exact H0 |].
    apply IH, Hop, Hop, H0. }
  unfold reset, clear_regs. cbv zeta.
  apply Fo, Fw, Fw. repeat apply Hw. apply Hstart, Hc.
Qed.

(** *** The frequency data of the channels *)

Lemma map_aset {A B : Type} (f : A -> B) (l : list A) (n : Z) (x : A) :
  map f (aset l n x) = aset (map f l) n (f x).
Proof.
  unfold aset. destruct (n <? 0); [reflexivity |].
  generalize (Z.to_nat n). clear n. intros i. revert i.
  induction l as [| a l IH]; intros [| i]; cbn; try reflexivity.
  f_equal. apply IH.
Qed.

Lemma aget_map {A B : Type} (f : A -> B) (d : A) (l : list A) (n : Z) :
  aget (f d) (map f l) n = f (aget d l n).
Proof.
  unfold aget. destruct (n <? 0); [reflexivity |].
  generalize (Z.to_nat n). clear n. intros i. revert i.
  induction l as [| a l IH]; intros [| i]; cbn; try reflexivity.
  apply IH.
Qed.

Lemma tuning_chan (c : YMF262Impl) (n : Z) :
  channel_tuning (chan c n) = aget (0, 0, 0, 0) (tuning c) n.
Proof.
  unfold chan, tuning. change (0, 0, 0, 0) with (channel_tuning new_channel).
  symmetry. apply aget_map.
Qed.

Lemma tuning_put_chan (n : Z) (ch : YMF262Channel) (c : YMF262Impl) :
  tuning (put_chan n ch c) = aset (tuning c) n (channel_tuning ch).
Proof. unfold tuning, put_chan. cbn [channels with_channels]. apply map_aset. Qed.

Lemma tuning_put_cslot (n i : Z) (x : YMF262Slot) (c : YMF262Impl) :
  tuning (put_cslot n i x c) = tuning c.
Proof.
  unfold put_cslot. rewrite tuning_put_chan.
  assert (E : channel_tuning (with_slots i x (chan c n)) = channel_tuning (chan c n)).
  { unfold with_slots. destruct (i =? 0); reflexivity. }
  rewrite E, tuning_chan. apply aset_same.
Qed.

Lemma tuning_with_pan (x : list Z) (c : YMF262Impl) : tuning (with_pan x c) = tuning c.
Proof. reflexivity. Qed.

Lemma tuning_set_extended (n bit v : Z) (c : YMF262Impl) :
  tuning (set_extended n bit v c) = tuning c.
Proof.
  unfold set_extended, update_channels. cbv zeta.
  assert (E : tuning (put_chan n (with_extended (Z.land (Z.shiftr v bit) 1) (chan c n)) c) =
              tuning c).
  { rewrite tuning_put_chan.
    change (channel_tuning (with_extended _ (chan c n))) with (channel_tuning (chan c n)).
    rewrite tuning_chan. apply aset_same. }
  repeat match goal with |- context [if ?b then _ else _] => destruct b end; exact E.
Qed.

Lemma tuning_write_control (r v : Z) (c : YMF262Impl) :
  tuning (write_control r v c) = tuning c.
Proof.
  unfold write_control, resetStatus, changeStatusMask. cbv zeta.
  destruct (Z.land r 31) as [| p | p]; try reflexivity.
  do 5 (try destruct p as [p | p |]; try reflexivity);
    repeat match goal with |- context [if ?b then _ else _] => destruct b end; reflexivity.
Qed.

Lemma bits_upper_bound (x k : Z) :
  0 <= k -> 0 <= x -> (forall n, k <= n -> Z.testbit x n = false) -> x < 2 ^ k.
Proof.
  intros Hk Hx Hb.
  destruct (Z.eq_dec x 0) as [-> | Hne]; [apply Z.pow_pos_nonneg; lia |].
  apply Z.log2_lt_pow2; [lia |].
  destruct (Z_lt_le_dec (Z.log2 x) k) as [Hlt | Hge]; [exact Hlt |].
  specialize (Hb _ Hge). rewrite Z.bit_log2 in Hb by lia. discriminate.
Qed.

Lemma bits_below (x k n : Z) : 0 <= x < 2 ^ k -> k <= n -> Z.testbit x n = false.
Proof.
  intros Hx Hn. destruct (Z.eq_dec x 0) as [-> | Hne]; [apply Z.bits_0 |].
  apply Z.bits_above_log2; [lia |].
  assert (Z.log2 x < k) by (apply Z.log2_lt_pow2; lia). lia.
Qed.

Lemma land_range (a b k : Z) : 0 <= k -> 0 <= b < 2 ^ k -> 0 <= Z.land a b < 2 ^ k.
Proof.
  intros Hk Hb.
  assert (H0 : 0 <= Z.land a b) by (apply Z.land_nonneg; right; lia).
  split; [exact H0 |]. apply bits_upper_bound; [exact Hk | exact H0 |].
  intros n Hn. rewrite Z.land_spec, (bits_below b k n Hb Hn). apply andb_false_r.
Qed.

Lemma lor_range (a b k : Z) :
  0 <= k -> 0 <= a < 2 ^ k -> 0 <= b < 2 ^ k -> 0 <= Z.lor a b < 2 ^ k.
Proof.
  intros Hk Ha Hb.
  assert (H0 : 0 <= Z.lor a b) by (apply Z.lor_nonneg; lia).
  split; [exact H0 |]. apply bits_upper_bound; [exact Hk | exact H0 |].
  intros n Hn. rewrite Z.lor_spec, (bits_below a k n Ha Hn), (bits_below b k n Hb Hn).
  reflexivity.
Qed.

Lemma shiftr_range (a k j : Z) :
  0 <= j <= k -> 0 <= a < 2 ^ k -> 0 <= Z.shiftr a j < 2 ^ (k - j).
Proof.
  intros Hj Ha. rewrite Z.shiftr_div_pow2 by lia.
  assert (Hp : 0 < 2 ^ j) by (apply Z.pow_pos_nonneg; lia).
  split; [apply Z.div_pos; lia |].
  apply Z.div_lt_upper_bound; [exact Hp |].
  rewrite <- Z.pow_add_r by lia. replace (j + (k - j)) with k by lia. lia.
Qed.

Lemma tuned_retuned (b : bool) (bf : Z) (ch : YMF262Channel) :
  0 <= bf < 8192 -> tuned (channel_tuning (retuned b bf ch)).
Proof.
  intros Hbf. unfold retuned. cbv zeta.
  assert (K1 : 0 <= Z.shiftr (Z.land bf 0x1C00) 9 < 2 ^ 4).
  { apply (shiftr_range _ 13 9); [lia |]. apply land_range; lia. }
  assert (K2 : 0 <= Z.shiftr (Z.land bf 0x100) 8 < 2 ^ 4).
  { assert (H : 0 <= Z.shiftr (Z.land bf 0x100) 8 < 2 ^ (9 - 8)).
    { apply shiftr_range; [lia |]. apply land_range; lia. }
    change (2 ^ (9 - 8)) with 2 in H. lia. }
  assert (K3 : 0 <= Z.shiftr (Z.land bf 0x200) 9 < 2 ^ 4).
  { assert (H : 0 <= Z.shiftr (Z.land bf 0x200) 9 < 2 ^ (10 - 9)).
    { apply shiftr_range; [lia |]. apply land_range; lia. }
    change (2 ^ (10 - 9)) with 2 in H. lia. }
  destruct b; unfold tuned, channel_tuning;
    cbn [block_fnum fc ksl_base kcode with_block_fnum with_ksl_base with_fc with_kcode];
    (split; [exact Hbf |]); (split; [reflexivity |]); (split; [reflexivity |]);
    apply (lor_range _ _ 4); assumption || lia.
Qed.

Lemma Forall_aset {A : Type} (P : A -> Prop) (l : list A) (n : Z) (x : A) :
  Forall P l -> P x -> Forall P (aset l n x).
Proof.
  intros Hl Hx. unfold aset. destruct (n <? 0); [exact Hl |].
  apply Forall_insert; assumption.
Qed.

Lemma Forall_aget {A : Type} (P : A -> Prop) (d : A) (l : list A) (n : Z) :
  Forall P l -> P d -> P (aget d l n).
Proof.
  intros Hl Hd. unfold aget. destruct (n <? 0); [exact Hd |].
  destruct (l !! Z.to_nat n) eqn:E; cbn [default]; [| exact Hd].
  exact (Forall_lookup_1 P l _ _ Hl E).
Qed.

Lemma tuned_default : tuned (0, 0, 0, 0).
Proof. unfold tuned. repeat split; try lia; reflexivity. Qed.

Lemma tuned_chan (c : YMF262Impl) (n : Z) :
  Forall tuned (tuning c) -> tuned (channel_tuning (chan c n)).
Proof.
  intros H. rewrite tuning_chan. apply Forall_aget; [exact H | apply tuned_default].
Qed.

Lemma tuned_update_fnum (n bf : Z) (c : YMF262Impl) :
  0 <= bf < 8192 -> Forall tuned (tuning c) -> Forall tuned (tuning (update_fnum n bf c)).
Proof.
  intros Hbf H.
  rewrite (obs_update_fnum tuning tuning_put_cslot).
  destruct (negb (block_fnum (chan c n) =? bf)); [| exact H].
  rewrite tuning_put_chan. apply Forall_aset; [exact H |].
  apply tuned_retuned, Hbf.
Qed.

Lemma tuned_write_fnum (ch_offset r v : Z) (c : YMF262Impl) :
  0 <= v < 256 -> Forall tuned (tuning c) ->
  Forall tuned (tuning (write_fnum ch_offset r v c)).
Proof.
  intros Hv H. unfold write_fnum.
  destruct (Z.land r 15 >? 8); [exact H |]. cbv zeta.
  destruct (tuned_chan c (Z.land r 15 + ch_offset) H) as (Hb & _).
  unfold channel_tuning in Hb. cbn [fst] in Hb.
  destruct (negb (nz (Z.land r 16))).
  - apply tuned_update_fnum; [| exact H].
    apply (lor_range _ _ 13); [lia | apply land_range; lia | lia].
  - apply tuned_update_fnum.
    + apply (lor_range _ _ 13); [lia | | apply land_range; lia].
      rewrite Z.shiftl_mul_pow2 by lia.
      pose proof (land_range v 0x1F 5 ltac:(lia) ltac:(lia)) as Hl.
      change (2 ^ 5) with 32 in Hl. change (2 ^ 8) with 256. lia.
    + rewrite (obs_key_onoff tuning tuning_put_cslot). exact H.
Qed.

Lemma tuned_writeRegForce (r v : Z) (c : YMF262Impl) :
  Forall tuned (tuning c) -> Forall tuned (tuning (writeRegForce r v c)).
Proof.
  intros H. apply (writeRegForce_cases (fun c => Forall tuned (tuning c))).
  - intros c0 H0 n bit. rewrite tuning_set_extended. exact H0.
  - intros c0 H0. exact H0.
  - intros c0 H0. exact H0.
  - intros c0 H0 r'. rewrite tuning_write_control. exact H0.
  - intros c0 H0 sl_. rewrite (obs_set_mul tuning tuning_put_cslot). exact H0.
  - intros c0 H0 sl_. rewrite (obs_set_ksl_tl tuning tuning_put_cslot). exact H0.
  - intros c0 H0 sl_. rewrite (obs_set_ar_dr tuning tuning_put_cslot). exact H0.
  - intros c0 H0 sl_. rewrite (obs_set_sl_rr tuning tuning_put_cslot). exact H0.
  - intros c0 H0 off. rewrite (obs_write_rhythm tuning tuning_put_cslot).
    destruct (negb (off =? 0)); exact H0.
  - intros c0 H0 off r'. apply tuned_write_fnum; [apply byte_of_range | exact H0].
  - intros c0 H0 off r'.
    rewrite (obs_write_connect tuning tuning_put_cslot tuning_with_pan). exact H0.
  - intros c0 H0 off r'. rewrite (obs_write_waveform tuning tuning_put_cslot). exact H0.
  - exact H.
Qed.

Lemma tuning_settings (c : YMF262Impl) : tuning (settings c) = tuning c.
Proof.
  unfold tuning, settings. cbn [channels with_channels].
  rewrite map_map. apply map_ext. intros ch. reflexivity.
Qed.

Lemma tuning_sample (T : Tables) (b : bool) (c : YMF262Impl) :
  tuning (snd (generate_sample T b c)) = tuning c.
Proof.
  rewrite <- (tuning_settings (snd (generate_sample T b c))).
  rewrite settings_generate_sample. apply tuning_settings.
Qed.

Lemma tuning_setStatus (flag : Z) (c : YMF262Impl) : tuning (setStatus flag c) = tuning c.
Proof.
  unfold setStatus. cbv zeta.
  match goal with |- context [if ?b then _ else _] => destruct b end; reflexivity.
Qed.

Lemma tuned_reset (c : YMF262Impl) :
  Forall tuned (tuning c) -> Forall tuned (tuning (reset c)).
Proof.
  apply (reset_preserves (fun c => Forall tuned (tuning c))).
  - intros c0 H0. unfold resetStatus. cbv zeta.
    match goal with |- context [if ?b then _ else _] => destruct b end; exact H0.
  - intros c0 r v. apply tuned_writeRegForce.
  - intros c0 n i H0. unfold reset_operator. rewrite tuning_put_cslot. exact H0.
Qed.

Lemma tuned_reachable (c : YMF262Impl) : reachable c -> Forall tuned (tuning c).
Proof.
  revert c. apply reachable_ind.
  - unfold power_on. apply tuned_reset.
    change (tuning new_chip) with (repeat (0, 0, 0, 0) 18).
    apply List.Forall_forall. intros d Hd. apply repeat_spec in Hd. subst d.
    apply tuned_default.
  - intros c r v. apply tuned_writeRegForce.
  - intros c T b H. rewrite tuning_sample. exact H.
  - intros c flag H. rewrite tuning_setStatus. exact H.
  - intros c H. exact H.
  - intros c. apply tuned_reset.
Qed.

(** X9.  The frequency data of a channel always fits its block and
    F-number: in every reachable state [block_fnum] has 13 bits, the
    increment [fc] and the key scale level base are the ones computed from
    it, the key code has 4 bits; so [ksl_tab] is read within its 128
    entries. *)
Theorem channels_stay_tuned (c : YMF262Impl) (n : Z) :
  reachable c ->
  0 <= block_fnum (chan c n) < 8192 /\
  fc (chan c n) = fnumToIncrement (block_fnum (chan c n)) /\
  ksl_base (chan c n) = tbl ksl_tab (Z.shiftr (block_fnum (chan c n)) 6) /\
  0 <= Z.shiftr (block_fnum (chan c n)) 6 < 128 /\
  0 <= kcode (chan c n) < 16.
Proof.
  intros H. destruct (tuned_chan c n (tuned_reachable c H)) as (H1 & H2 & H3 & H4).
  unfold channel_tuning in *. cbn [fst snd] in *.
  repeat (split; [assumption |]). split; [| exact H4].
  apply (shiftr_range _ 13 6); lia.
Qed.

Lemma channels_stay_tuned_witness :
  block_fnum (chan four_op_voice 0) = 0x1F55 /\
  fc (chan four_op_voice 0) = fnumToIncrement 0x1F55 /\
  ksl_base (chan four_op_voice 0) = tbl ksl_tab 0x7D.
Proof.
  assert (E : block_fnum (chan four_op_voice 0) = 0x1F55) by (vm_compute; reflexivity).
  split; [exact E |].
  assert (R : reachable four_op_voice).
  { exists [Write 0x105 0x01; Write 0x104 0x01; Write 0xA0 0x55; Write 0xB0 0x3F].
    unfold four_op_voice. cbn [fold_left run]. exact eq_refl. }
  destruct (channels_stay_tuned four_op_voice 0 R) as (_ & H2 & H3 & _).
  rewrite E in H2, H3. split; [exact H2 | exact H3].
Defined.

(** *** Block and F-number from their two registers *)

Lemma writeRegForce_fnum_low (page n lo : Z) (c : YMF262Impl) :
  page = 0 \/ page = 1 -> 0 <= n <= 8 ->
  writeRegForce (0xA0 + 0x100 * page + n) lo c =
  update_fnum (9 * page + n)
    (Z.lor (Z.land (block_fnum (chan c (9 * page + n))) 0x1F00) (byte_of lo))
    (with_reg (aset (reg c) (0xA0 + 0x100 * page + n) (byte_of lo)) c).
Proof.
  intros Hp Hn.
  assert (C : n = 0 \/ n = 1 \/ n = 2 \/ n = 3 \/ n = 4 \/ n = 5 \/ n = 6 \/ n = 7 \/ n = 8)
    by lia.
  destruct Hp as [-> | ->];
    destruct C as [-> | [-> | [-> | [-> | [-> | [-> | [-> | [-> | ->]]]]]]]]; reflexivity.
Qed.

Lemma writeRegForce_fnum_high (page n hi : Z) (c : YMF262Impl) :
  page = 0 \/ page = 1 -> 0 <= n <= 8 ->
  writeRegForce (0xB0 + 0x100 * page + n) hi c =
  update_fnum (9 * page + n)
    (Z.lor (Z.shiftl (Z.land (byte_of hi) 0x1F) 8)
           (Z.land (block_fnum (chan c (9 * page + n))) 0xFF))
    (key_onoff (nz (Z.land (byte_of hi) 0x20)) (9 * page + n)
       (with_reg (aset (reg c) (0xB0 + 0x100 * page + n) (byte_of hi)) c)).
Proof.
  intros Hp Hn.
  assert (C : n = 0 \/ n = 1 \/ n = 2 \/ n = 3 \/ n = 4 \/ n = 5 \/ n = 6 \/ n = 7 \/ n = 8)
    by lia.
  destruct Hp as [-> | ->];
    destruct C as [-> | [-> | [-> | [-> | [-> | [-> | [-> | [-> | ->]]]]]]]]; reflexivity.
Qed.

Lemma tuning_length (c : YMF262Impl) : wf c -> length (tuning c) = 18%nat.
Proof. intros (H & _). unfold tuning. rewrite length_map. exact H. Qed.

Lemma block_fnum_tuning (c : YMF262Impl) (n : Z) :
  block_fnum (chan c n) = fst (fst (fst (aget (0, 0, 0, 0) (tuning c) n))).
Proof. rewrite <- tuning_chan. reflexivity. Qed.

(** [update_fnum] leaves the channel with the [block_fnum] it is given. *)
Lemma block_fnum_update_fnum (n bf : Z) (c : YMF262Impl) :
  wf c -> 0 <= n < 18 -> block_fnum (chan (update_fnum n bf c) n) = bf.
Proof.
  intros H Hn. rewrite block_fnum_tuning.
  rewrite (obs_update_fnum tuning tuning_put_cslot).
  destruct (negb (block_fnum (chan c n) =? bf)) eqn:E.
  - rewrite tuning_put_chan, aget_aset, tuning_length by exact H.
    assert (E1 : (n =? n) = true) by apply Z.eqb_refl.
    assert (E2 : (0 <=? n) = true) by (apply Z.leb_le; lia).
    assert (E3 : (n <? Z.of_nat 18) = true) by (apply Z.ltb_lt; lia).
    rewrite E1, E2, E3. unfold retuned. cbv zeta. destruct (nts c); reflexivity.
  - rewrite <- block_fnum_tuning. apply negb_false_iff, Z.eqb_eq in E. exact E.
Qed.

Lemma wf_with_reg (x : list Z) (c : YMF262Impl) :
  wf c -> length x = 512%nat -> wf (with_reg x c).
Proof. intros (H1 & H2 & H3 & H4) Hx. unfold wf. cbn. tauto. Qed.

Lemma wf_key_onoff (on : bool) (n : Z) (c : YMF262Impl) : wf c -> wf (key_onoff on n c).
Proof. apply (key_key_onoff on n c). Qed.

Lemma fnum_low_byte (bf lo : Z) :
  0 <= lo < 256 -> Z.land (Z.lor (Z.land bf 0x1F00) lo) 0xFF = lo.
Proof.
  intros Hlo. rewrite Z.land_lor_distr_l, land_high_low, Z.lor_0_l. apply land_byte, Hlo.
Qed.

Lemma fnum_high_bits (bf hi : Z) :
  Z.land (Z.lor (Z.shiftl (Z.land hi 0x1F) 8) (Z.land bf 0xFF)) 0x1F00 =
  Z.shiftl (Z.land hi 0x1F) 8.
Proof.
  rewrite Z.land_lor_distr_l, land_low_high, Z.lor_0_r.
  change 0x1F00 with (Z.shiftl 0x1F 8). rewrite <- Z.shiftl_land.
  rewrite <- Z.land_assoc. reflexivity.
Qed.

(** X10.  The 13 bits of block and F-number of a channel are put together
    from its two registers, in either order of the writes: the low byte
    from a0-a8 (1a0-1a8 for the channels 9-17), block and F-number high
    bits from the low five bits of b0-b8; the key-on write keeps the low
    byte and the F-number write keeps the block. *)
Theorem fnum_assembled (page n lo hi : Z) (c : YMF262Impl) :
  wf c -> page = 0 \/ page = 1 -> 0 <= n <= 8 ->
  let a0 := 0xA0 + 0x100 * page + n in
  let b0 := 0xB0 + 0x100 * page + n in
  let v := Z.lor (Z.shiftl (Z.land (byte_of hi) 0x1F) 8) (byte_of lo) in
  block_fnum (chan (writeRegForce b0 hi (writeRegForce a0 lo c)) (9 * page + n)) = v /\
  block_fnum (chan (writeRegForce a0 lo (writeRegForce b0 hi c)) (9 * page + n)) = v.
Proof.
  intros H Hp Hn a0 b0 v.
  assert (Hch : 0 <= 9 * page + n < 18) by lia.
  assert (Wr : forall r x c0, wf c0 -> wf (with_reg (aset (reg c0) r x) c0)).
  { intros r x c0 H0. apply wf_with_reg; [exact H0 |].
    rewrite aset_length. apply H0. }
  split.
  - assert (H1 : wf (writeRegForce a0 lo c)) by apply wf_writeRegForce, H.
    assert (B1 : block_fnum (chan (writeRegForce a0 lo c) (9 * page + n)) =
                 Z.lor (Z.land (block_fnum (chan c (9 * page + n))) 0x1F00) (byte_of lo)).
    { unfold a0. rewrite writeRegForce_fnum_low by assumption.
      apply block_fnum_update_fnum; [apply Wr, H | exact Hch]. }
    revert H1 B1. generalize (writeRegForce a0 lo c). intros c1 H1 B1.
    unfold b0. rewrite writeRegForce_fnum_high by assumption.
    rewrite block_fnum_update_fnum; [| apply wf_key_onoff, Wr, H1 | exact Hch].
    rewrite B1, fnum_low_byte by apply byte_of_range. reflexivity.
  - assert (H1 : wf (writeRegForce b0 hi c)) by apply wf_writeRegForce, H.
    assert (B1 : block_fnum (chan (writeRegForce b0 hi c) (9 * page + n)) =
                 Z.lor (Z.shiftl (Z.land (byte_of hi) 0x1F) 8)
                       (Z.land (block_fnum (chan c (9 * page + n))) 0xFF)).
    { unfold b0. rewrite writeRegForce_fnum_high by assumption.
      apply block_fnum_update_fnum; [apply wf_key_onoff, Wr, H | exact Hch]. }
    revert H1 B1. generalize (writeRegForce b0 hi c). intros c1 H1 B1.
    unfold a0. rewrite writeRegForce_fnum_low by assumption.
    rewrite block_fnum_update_fnum; [| apply Wr, H1 | exact Hch].
    rewrite B1, fnum_high_bits. reflexivity.
Qed.

Lemma fnum_assembled_witness :
  block_fnum (chan (writeRegForce 0x1B2 0x2E (writeRegForce 0x1A2 0x55 power_on)) 11) = 0xE55 /\
  block_fnum (chan (writeRegForce 0x1A2 0x55 (writeRegForce 0x1B2 0x2E power_on)) 11) = 0xE55.
Proof.
  apply (fnum_assembled 1 2 0x55 0x2E power_on); [apply wf_power_on | right; reflexivity | lia].
Defined.

(** *** The LFOs *)

Lemma tbl_range (tab : list Z) (lo hi : Z) :
  lo <= 0 <= hi -> forallb (fun x => (lo <=? x) && (x <=? hi)) tab = true ->
  forall k, lo <= tbl tab k <= hi.
Proof.
  intros H0 Ht k. unfold tbl. destruct (k <? 0); [lia |].
  rewrite forallb_forall in Ht.
  destruct (nth_in_or_default (Z.to_nat k) tab 0) as [Hin | ->]; [| lia].
  specialize (Ht _ Hin). lia.
Qed.

Lemma advance_lfo_in_range (c : YMF262Impl) : lfo_in_range c -> lfo_in_range (advance_lfo c).
Proof.
  intros (Hc & _ & _ & Hd). unfold lfo_in_range, advance_lfo. cbv zeta.
  change (Z.shiftl LFO_AM_TAB_ELEMENTS 6) with 13440 in *.
  cbn [lfo_am_cnt with_lfo_am_cnt].
  rewrite (sint32_small (lfo_am_cnt c + 1)) by lia.
  assert (Ham : forall k, 0 <= tbl lfo_am_table k <= 26)
    by (apply tbl_range; [lia | vm_compute; reflexivity]).
  assert (Hpm : forall x d, d = 0 \/ d = 8 ->
            0 <= byte_of (Z.lor (Z.land x 7) d) < 16).
  { intros x d Hx.
    assert (H : 0 <= Z.lor (Z.land x 7) d < 2 ^ 4).
    { apply lor_range; [lia | | destruct Hx; subst; lia].
      pose proof (land_range x 7 3 ltac:(lia) ltac:(lia)) as H3.
      change (2 ^ 3) with 8 in H3. lia. }
    change (2 ^ 4) with 16 in H. unfold byte_of. rewrite Z.mod_small by lia. exact H. }
  assert (Hq : forall k, 0 <= (if lfo_am_depth c then tbl lfo_am_table k
                               else tbl lfo_am_table k / 4) <= 26).
  { intros k. specialize (Ham k). destruct (lfo_am_depth c); [exact Ham |].
    split; [apply Z.div_pos; lia |]. apply Z.div_le_upper_bound; lia. }
  destruct (lfo_am_cnt c + 1 =? 13440) eqn:E;
    cbn [lfo_am_cnt lfo_pm_cnt LFO_AM LFO_PM lfo_am_depth lfo_pm_depth_range
         with_lfo_am_cnt with_lfo_pm_cnt with_LFO_AM with_LFO_PM];
    (split; [lia |]); (split; [apply Hq |]); (split; [apply Hpm, Hd | exact Hd]).
Qed.

Lemma lfo_in_range_fields (c c' : YMF262Impl) :
  clocks c' = clocks c -> lfo_pm_depth_range c' = lfo_pm_depth_range c ->
  lfo_in_range c -> lfo_in_range c'.
Proof.
  unfold clocks, lfo_in_range. intros E Ed. injection E as _ _ -> _ -> ->.
  rewrite Ed. tauto.
Qed.

Lemma depth_put_cslot (n i : Z) (x : YMF262Slot) (c : YMF262Impl) :
  lfo_pm_depth_range (put_cslot n i x c) = lfo_pm_depth_range c.
Proof. reflexivity. Qed.

Lemma depth_put_chan (n : Z) (x : YMF262Channel) (c : YMF262Impl) :
  lfo_pm_depth_range (put_chan n x c) = lfo_pm_depth_range c.
Proof. reflexivity. Qed.

Lemma depth_with_pan (x : list Z) (c : YMF262Impl) :
  lfo_pm_depth_range (with_pan x c) = lfo_pm_depth_range c.
Proof. reflexivity. Qed.

Lemma depth_write_control (r v : Z) (c : YMF262Impl) :
  lfo_pm_depth_range (write_control r v c) = lfo_pm_depth_range c.
Proof.
  unfold write_control, resetStatus, changeStatusMask. cbv zeta.
  destruct (Z.land r 31) as [| p | p]; try reflexivity.
  do 5 (try destruct p as [p | p |]; try reflexivity);
    repeat match goal with |- context [if ?b then _ else _] => destruct b end; reflexivity.
Qed.

Lemma depth_set_extended (n bit v : Z) (c : YMF262Impl) :
  lfo_pm_depth_range (set_extended n bit v c) = lfo_pm_depth_range c.
Proof.
  unfold set_extended, update_channels. cbv zeta.
  repeat match goal with |- context [if ?b then _ else _] => destruct b end; reflexivity.
Qed.

Lemma depth_write_fnum (ch_offset r v : Z) (c : YMF262Impl) :
  lfo_pm_depth_range (write_fnum ch_offset r v c) = lfo_pm_depth_range c.
Proof.
  unfold write_fnum. cbv zeta.
  repeat match goal with
         | |- lfo_pm_depth_range (if ?b then _ else _) = _ => destruct b
         end; try reflexivity;
    rewrite (obs_update_fnum lfo_pm_depth_range depth_put_cslot);
    match goal with |- context [if ?b then _ else _] => destruct b end;
    rewrite ?depth_put_chan, ?(obs_key_onoff lfo_pm_depth_range depth_put_cslot);
    reflexivity.
Qed.

(** The vibrato depth is written by register bd alone, which offers two
    values. *)
Lemma depth_writeRegForce (r v : Z) (c : YMF262Impl) :
  lfo_pm_depth_range (writeRegForce r v c) = lfo_pm_depth_range c \/
  lfo_pm_depth_range (writeRegForce r v c) = 0 \/
  lfo_pm_depth_range (writeRegForce r v c) = 8.
Proof.
  apply (writeRegForce_cases
           (fun c' => lfo_pm_depth_range c' = lfo_pm_depth_range c \/
                      lfo_pm_depth_range c' = 0 \/ lfo_pm_depth_range c' = 8)).
  - intros c0 H0 n bit. rewrite depth_set_extended. exact H0.
  - intros c0 H0. exact H0.
  - intros c0 H0. exact H0.
  - intros c0 H0 r'. rewrite depth_write_control. exact H0.
  - intros c0 H0 sl_. rewrite (obs_set_mul lfo_pm_depth_range depth_put_cslot). exact H0.
  - intros c0 H0 sl_. rewrite (obs_set_ksl_tl lfo_pm_depth_range depth_put_cslot). exact H0.
  - intros c0 H0 sl_. rewrite (obs_set_ar_dr lfo_pm_depth_range depth_put_cslot). exact H0.
  - intros c0 H0 sl_. rewrite (obs_set_sl_rr lfo_pm_depth_range depth_put_cslot). exact H0.
  - intros c0 H0 off. rewrite (obs_write_rhythm lfo_pm_depth_range depth_put_cslot).
    destruct (negb (off =? 0)); [exact H0 |].
    cbn [lfo_pm_depth_range with_rhythm with_lfo_pm_depth_range].
    destruct (nz (Z.land (byte_of v) 64)); auto.
  - intros c0 H0 off r'. rewrite depth_write_fnum. exact H0.
  - intros c0 H0 off r'.
    rewrite (obs_write_connect lfo_pm_depth_range depth_put_cslot depth_with_pan). exact H0.
  - intros c0 H0 off r'.
    rewrite (obs_write_waveform lfo_pm_depth_range depth_put_cslot). exact H0.
  - left. reflexivity.
Qed.

Lemma lfo_writeRegForce (r v : Z) (c : YMF262Impl) :
  lfo_in_range c -> lfo_in_range (writeRegForce r v c).
Proof.
  intros H. assert (E := clocks_writeRegForce r v c).
  assert (D := depth_writeRegForce r v c).
  revert E D. generalize (writeRegForce r v c). intros c' E D.
  destruct H as (H1 & H2 & H3 & H4). unfold clocks in E. injection E as _ _ E1 _ E2 E3.
  unfold lfo_in_range. rewrite E1, E2, E3.
  repeat (split; [assumption |]).
  destruct D as [D | D]; [rewrite D; exact H4 | exact D].
Qed.

Lemma depth_settings (c : YMF262Impl) :
  lfo_pm_depth_range c = lfo_pm_depth_range (settings c).
Proof. reflexivity. Qed.

Lemma lfo_sample (T : Tables) (b : bool) (c : YMF262Impl) :
  lfo_in_range c -> lfo_in_range (snd (generate_sample T b c)).
Proof.
  intros H. apply advance_lfo_in_range in H.
  assert (E := clocks_generate_sample T b c).
  assert (D : lfo_pm_depth_range (snd (generate_sample T b c)) =
              lfo_pm_depth_range (advance_lfo c)).
  { rewrite (depth_settings (snd (generate_sample T b c))).
    rewrite settings_generate_sample, <- depth_settings. unfold advance_lfo. cbv zeta.
    match goal with
    | |- context [if ?b then with_lfo_am_cnt 0 ?x else ?x] => destruct b
    end; reflexivity. }
  revert H E D. generalize (advance_lfo c), (snd (generate_sample T b c)).
  intros c1 c' H E D.
  destruct H as (H1 & H2 & H3 & H4). unfold clocks in E. injection E as _ _ E1 _ E2 E3.
  unfold lfo_in_range. rewrite E1, E2, E3, D. tauto.
Qed.

Lemma lfo_reset (c : YMF262Impl) : lfo_in_range c -> lfo_in_range (reset c).
Proof.
  apply (reset_preserves lfo_in_range).
  - intros c0 H0. unfold resetStatus. cbv zeta.
    match goal with |- context [if ?b then _ else _] => destruct b end; exact H0.
  - intros c0 r v. apply lfo_writeRegForce.
  - intros c0 n i H0. exact H0.
Qed.

Lemma lfo_reachable (c : YMF262Impl) : reachable c -> lfo_in_range c.
Proof.
  revert c. apply reachable_ind.
  - unfold power_on. apply lfo_reset. unfold lfo_in_range, new_chip.
    cbn [lfo_am_cnt LFO_AM LFO_PM lfo_pm_depth_range].
    change (Z.shiftl LFO_AM_TAB_ELEMENTS 6) with 13440.
    split; [lia |]. split; [lia |]. split; [lia |]. left. reflexivity.
  - intros c r v. apply lfo_writeRegForce.
  - intros c T b. apply lfo_sample.
  - intros c flag H. unfold setStatus. cbv zeta.
    match goal with |- context [if ?b then _ else _] => destruct b end; exact H.
  - intros c H. exact H.
  - intros c. apply lfo_reset.
Qed.

(** X11.  The LFOs stay within their tables.  In every reachable state the
    tremolo counter is within the 210 entries of [lfo_am_table], the
    tremolo value is one of the levels 0 to 26, and the vibrato value is
    below 16, so that the index [LFO_PM + 16 * fnum_lfo] with which
    [advancePhaseGenerator] reads [lfo_pm_table] is within its 128 entries
    for every block and F-number. *)
Theorem lfo_stays_in_range (c : YMF262Impl) (block_fnum_ : Z) :
  reachable c ->
  0 <= toInt 6 (lfo_am_cnt c) < Z.of_nat (length lfo_am_table) /\
  0 <= LFO_AM c <= 26 /\
  0 <= LFO_PM c + 16 * Z.shiftr (Z.land (uint32 block_fnum_) 0x0380) 7
    < Z.of_nat (length lfo_pm_table).
Proof.
  intros H. destruct (lfo_reachable c H) as (H1 & H2 & H3 & _).
  change (Z.shiftl LFO_AM_TAB_ELEMENTS 6) with (2 ^ 6 * 210) in H1.
  split.
  { unfold toInt. rewrite Z.shiftr_div_pow2 by lia.
    change (Z.of_nat (length lfo_am_table)) with 210.
    split; [apply Z.div_pos; lia | apply Z.div_lt_upper_bound; lia]. }
  split; [exact H2 |].
  assert (K : 0 <= Z.shiftr (Z.land (uint32 block_fnum_) 0x0380) 7 < 2 ^ (10 - 7)).
  { apply shiftr_range; [lia |]. apply land_range; lia. }
  change (2 ^ (10 - 7)) with 8 in K.
  change (Z.of_nat (length lfo_pm_table)) with 128. lia.
Qed.

Lemma lfo_stays_in_range_witness :
  LFO_PM (writeReg 0xBD 0x40 power_on) + 16 * Z.shiftr (Z.land (uint32 0x1FFF) 0x0380) 7
  < Z.of_nat (length lfo_pm_table).
Proof.
  apply (lfo_stays_in_range (writeReg 0xBD 0x40 power_on) 0x1FFF).
  exists [Write 0xBD 0x40]. reflexivity.
Defined.

(** ** Register writes seen from outside *)

(** X12.  What the debugger writes it reads back: a write to one of the
    0x200 register addresses stores the byte, whatever the register
    decodes to (also at the addresses that decode to nothing and at the
    mode registers), and changes the byte at no other address. *)
Theorem debugger_write_read (address value a : Z) (c : YMF262Impl) :
  wf c -> 0 <= address < 0x200 ->
  YMF262Debuggable_read a (YMF262Debuggable_write address value c) =
  if a =? address then byte_of value else YMF262Debuggable_read a c.
Proof.
  intros H Ha. unfold YMF262Debuggable_read, YMF262Debuggable_write.
  apply peekReg_writeRegForce; assumption.
Qed.

Lemma debugger_write_read_witness :
  YMF262Debuggable_read 0x101 (YMF262Debuggable_write 0x101 0xAB power_on) = 0xAB /\
  YMF262Debuggable_read 0x20 (YMF262Debuggable_write 0x101 0xAB power_on) = 0.
Proof.
  split.
  - rewrite (debugger_write_read 0x101 0xAB 0x101 power_on wf_power_on); [reflexivity | lia].
  - rewrite (debugger_write_read 0x101 0xAB 0x20 power_on wf_power_on); [reflexivity | lia].
Defined.

Lemma voice_register_reset (r : Z) : voice_register r = true -> reset_register r.
Proof. unfold voice_register, reset_register. lia. Qed.

Lemma voice_write_fields (c c' : YMF262Impl) (x : list Z) :
  outside_voices c' = with_reg x (outside_voices c) ->
  timer1 c' = timer1 c /\ timer2 c' = timer2 c /\ irq c' = irq c /\
  status c' = status c /\ status2 c' = status2 c /\ statusMask c' = statusMask c /\
  nts c' = nts c /\ OPL3_mode c' = OPL3_mode c /\
  clocks c' = clocks c /\ chanout c' = chanout c.
Proof.
  intros E.
  split; [exact (f_equal timer1 E) |].
  split; [exact (f_equal timer2 E) |].
  split; [exact (f_equal irq E) |].
  split; [exact (f_equal status E) |].
  split; [exact (f_equal status2 E) |].
  split; [exact (f_equal statusMask E) |].
  split; [exact (f_equal nts E) |].
  split; [exact (f_equal OPL3_mode E) |].
  split; [exact (f_equal clocks E) |].
  exact (f_equal chanout E).
Qed.

(** X13.  A write to an operator or channel register (20-ff, 120-1ff)
    reaches the voices only: the timers, the status bytes and their mask,
    the interrupt line, the note select and mode flags, the envelope
    counter, the noise generator, the LFO counters and the outputs are as
    they were, and so is every other byte of the register file. *)
Theorem voice_write_frame (r v : Z) (c : YMF262Impl) :
  wf c -> voice_register r = true ->
  let c' := writeRegForce r v c in
  timer1 c' = timer1 c /\ timer2 c' = timer2 c /\ irq c' = irq c /\
  status c' = status c /\ status2 c' = status2 c /\ statusMask c' = statusMask c /\
  nts c' = nts c /\ OPL3_mode c' = OPL3_mode c /\
  clocks c' = clocks c /\ chanout c' = chanout c /\
  forall a, a <> r -> peekReg a c' = peekReg a c.
Proof.
  intros H Hr c'.
  destruct (reset_register_block r (voice_register_reset r Hr)) as (H1 & H4 & H5 & Hb & Hrange).
  assert (E := outside_writeRegForce r v c H1 H4 H5 Hb).
  assert (P := fun a => peekReg_writeRegForce a r v c H Hrange).
  fold c' in E, P. clearbody c'.
  destruct (voice_write_fields c c' _ E) as (A1 & A2 & A3 & A4 & A5 & A6 & A7 & A8 & A9 & A10).
  repeat (split; [assumption |]).
  intros a Ha. rewrite P. destruct (a =? r) eqn:Ea; [| reflexivity].
  apply Z.eqb_eq in Ea. contradiction.
Qed.

Lemma voice_write_frame_witness :
  status (writeRegForce 0xB0 0x3F power_on) = status power_on /\
  clocks (writeRegForce 0xB0 0x3F power_on) = clocks power_on.
Proof.
  destruct (voice_write_frame 0xB0 0x3F power_on wf_power_on eq_refl)
    as (_ & _ & _ & E1 & _ & _ & _ & _ & E2 & _).
  split; [exact E1 | exact E2].
Defined.

(** ** The envelope of the reachable chip *)

Lemma slot_ok_new : slot_ok new_slot.
Proof.
  split; [reflexivity |]. unfold envelope_in_range.
  change (volume new_slot) with 0. change (state new_slot) with EG_OFF.
  change MIN_ATT_INDEX with 0. change MAX_ATT_INDEX with 511.
  split; [lia | discriminate].
Qed.

Lemma slots_ok_chan (c : YMF262Impl) (n : Z) :
  slots_ok c -> slot_ok (slot1 (chan c n)) /\ slot_ok (slot2 (chan c n)).
Proof.
  intros H. unfold chan.
  apply (Forall_aget (fun ch => slot_ok (slot1 ch) /\ slot_ok (slot2 ch))); [exact H |].
  split; apply slot_ok_new.
Qed.

Lemma slots_ok_cslot (c : YMF262Impl) (n i : Z) : slots_ok c -> slot_ok (cslot c n i).
Proof.
  intros H. destruct (slots_ok_chan c n H) as [H1 H2].
  unfold cslot, slots. destruct (i =? 0); assumption.
Qed.

Lemma slots_ok_put_chan (n : Z) (ch : YMF262Channel) (c : YMF262Impl) :
  slots_ok c -> slot_ok (slot1 ch) -> slot_ok (slot2 ch) -> slots_ok (put_chan n ch c).
Proof.
  intros H H1 H2. unfold slots_ok, put_chan. cbn [channels with_channels].
  apply Forall_aset; [exact H | split; assumption].
Qed.

Lemma slots_ok_put_cslot (n i : Z) (x : YMF262Slot) (c : YMF262Impl) :
  slots_ok c -> slot_ok x -> slots_ok (put_cslot n i x c).
Proof.
  intros H Hx. unfold put_cslot. destruct (slots_ok_chan c n H) as [H1 H2].
  unfold with_slots.
  destruct (i =? 0); apply slots_ok_put_chan; cbn [slot1 slot2 with_slot1 with_slot2];
    assumption.
Qed.

(** An update that keeps the rate selectors, the sustain level, the
    envelope counter and the envelope state keeps the operator in order. *)
Lemma slot_ok_same (s s' : YMF262Slot) :
  eg_sel_ar s' = eg_sel_ar s -> eg_sel_dr s' = eg_sel_dr s ->
  eg_sel_rr s' = eg_sel_rr s -> sl s' = sl s ->
  volume s' = volume s -> state s' = state s ->
  slot_ok s -> slot_ok s'.
Proof.
  unfold slot_ok, programmed, envelope_in_range.
  intros -> -> -> -> -> ->. tauto.
Qed.

Lemma rate_select_row (k : Z) :
  existsb (Z.eqb (tbl eg_rate_select k)) eg_rate_select = true.
Proof.
  apply existsb_exists. exists (tbl eg_rate_select k). split; [| apply Z.eqb_refl].
  unfold tbl. destruct (k <? 0); [vm_compute; tauto |].
  destruct (nth_in_or_default (Z.to_nat k) eg_rate_select 0) as [H | ->];
    [exact H | vm_compute; tauto].
Qed.

Lemma sustain_level_entry (k : Z) : existsb (Z.eqb (tbl sl_tab k)) sl_tab = true.
Proof.
  apply existsb_exists. exists (tbl sl_tab k). split; [| apply Z.eqb_refl].
  unfold tbl. destruct (k <? 0); [vm_compute; tauto |].
  destruct (nth_in_or_default (Z.to_nat k) sl_tab 0) as [H | ->];
    [exact H | vm_compute; tauto].
Qed.

Lemma slot_ok_eg_sel_ar (k : Z) (s : YMF262Slot) :
  slot_ok s -> slot_ok (with_eg_sel_ar (tbl eg_rate_select k) s).
Proof.
  intros [Hp He]. split; [| exact He].
  destruct (programmed_fields s Hp) as (_ & H2 & H3 & H4).
  unfold programmed. cbn [eg_sel_ar eg_sel_dr eg_sel_rr sl with_eg_sel_ar].
  rewrite rate_select_row, H2, H3, H4. reflexivity.
Qed.

Lemma slot_ok_eg_sel_ar_zero_time (s : YMF262Slot) :
  slot_ok s -> slot_ok (with_eg_sel_ar (13 * RATE_STEPS) s).
Proof.
  intros [Hp He]. split; [| exact He].
  destruct (programmed_fields s Hp) as (_ & H2 & H3 & H4).
  unfold programmed. cbn [eg_sel_ar eg_sel_dr eg_sel_rr sl with_eg_sel_ar].
  rewrite Z.eqb_refl, orb_true_r, H2, H3, H4. reflexivity.
Qed.

Lemma slot_ok_eg_sel_dr (k : Z) (s : YMF262Slot) :
  slot_ok s -> slot_ok (with_eg_sel_dr (tbl eg_rate_select k) s).
Proof.
  intros [Hp He]. split; [| exact He].
  destruct (programmed_fields s Hp) as (H1 & _ & H3 & H4).
  unfold programmed. cbn [eg_sel_ar eg_sel_dr eg_sel_rr sl with_eg_sel_dr].
  rewrite rate_select_row, H1, H3, H4. reflexivity.
Qed.

Lemma slot_ok_eg_sel_rr (k : Z) (s : YMF262Slot) :
  slot_ok s -> slot_ok (with_eg_sel_rr (tbl eg_rate_select k) s).
Proof.
  intros [Hp He]. split; [| exact He].
  destruct (programmed_fields s Hp) as (H1 & H2 & _ & H4).
  unfold programmed. cbn [eg_sel_ar eg_sel_dr eg_sel_rr sl with_eg_sel_rr].
  rewrite rate_select_row, H1, H2, H4. reflexivity.
Qed.

Lemma slot_ok_sl (k : Z) (s : YMF262Slot) :
  slot_ok s -> slot_ok (with_sl (tbl sl_tab k) s).
Proof.
  intros [Hp He]. split; [| exact He].
  destruct (programmed_fields s Hp) as (H1 & H2 & H3 & _).
  unfold programmed. cbn [eg_sel_ar eg_sel_dr eg_sel_rr sl with_sl].
  rewrite sustain_level_entry, H1, H2, H3. reflexivity.
Qed.

Lemma slot_ok_let (v : YMF262Slot) (f : YMF262Slot -> YMF262Slot) :
  slot_ok v -> (forall y, slot_ok y -> slot_ok (f y)) -> slot_ok (let x := v in f x).
Proof. intros Hv Hf. cbv zeta. apply Hf, Hv. Qed.

(** The operator updates of the handlers, one step at a time. *)
Ltac slot_ok_step :=
  lazymatch goal with
  | |- slot_ok (if ?b then _ else _) => destruct b
  | |- slot_ok (match channel_kind ?n with _ => _ end) => destruct (channel_kind n)
  | |- slot_ok (let x := ?v in @?f x) =>
      lazymatch type of v with
      | YMF262Slot =>
          apply (slot_ok_let v f);
          [| let y := fresh "s" in let H := fresh "H" in intros y H; cbv beta]
      | _ => change (slot_ok (f v)); cbv beta
      end
  | |- slot_ok (cslot _ _ _) => apply slots_ok_cslot; assumption
  | |- slot_ok (slots (chan ?c ?n) ?i) => apply (slots_ok_cslot c n i); assumption
  | |- slot_ok (with_eg_sel_ar (tbl eg_rate_select _) _) => apply slot_ok_eg_sel_ar
  | |- slot_ok (with_eg_sel_ar (13 * RATE_STEPS) _) => apply slot_ok_eg_sel_ar_zero_time
  | |- slot_ok (with_eg_sel_dr (tbl eg_rate_select _) _) => apply slot_ok_eg_sel_dr
  | |- slot_ok (with_eg_sel_rr (tbl eg_rate_select _) _) => apply slot_ok_eg_sel_rr
  | |- slot_ok (with_sl (tbl sl_tab _) _) => apply slot_ok_sl
  | |- slot_ok (?f ?x ?s) => apply (slot_ok_same s); [reflexivity .. |]
  end.

Lemma slot_ok_CALC_FCSLOT (ch : YMF262Channel) (s : YMF262Slot) :
  slot_ok s -> slot_ok (CALC_FCSLOT ch s).
Proof. intros H. cbv beta delta [CALC_FCSLOT]. repeat slot_ok_step; assumption. Qed.

Lemma slot_ok_state (st : EnvelopeState) (s : YMF262Slot) :
  st <> EG_DECAY -> slot_ok s -> slot_ok (with_state st s).
Proof.
  intros Hst [Hp [Hv _]]. split; [exact Hp |].
  split; [exact Hv |]. cbn [state with_state]. intros E. contradiction.
Qed.

Lemma slot_ok_FM_KEYON (k : Z) (s : YMF262Slot) : slot_ok s -> slot_ok (FM_KEYON k s).
Proof.
  intros H. cbv beta delta [FM_KEYON]. slot_ok_step.
  - destruct (key s =? 0); [| exact H].
    apply slot_ok_state; [discriminate |]. repeat slot_ok_step. exact H.
  - repeat slot_ok_step. assumption.
Qed.

Lemma slot_ok_FM_KEYOFF (k : Z) (s : YMF262Slot) : slot_ok s -> slot_ok (FM_KEYOFF k s).
Proof.
  intros H. cbv beta delta [FM_KEYOFF]. destruct (key s =? 0); [exact H |].
  slot_ok_step; [repeat slot_ok_step; exact H |].
  match goal with Hy : slot_ok ?y |- _ =>
    destruct (key y =? 0); [| exact Hy];
    destruct (state y) eqn:E; try exact Hy; (apply slot_ok_state; [discriminate | exact Hy])
  end.
Qed.

Lemma slot_ok_advanceEnvelopeGenerator (eg_cnt : Z) (s : YMF262Slot) :
  slot_ok s -> slot_ok (advanceEnvelopeGenerator eg_cnt s).
Proof.
  intros [Hp He]. split.
  - rewrite advanceEnvelopeGenerator_programmed. exact Hp.
  - apply advanceEnvelopeGenerator_in_range; assumption.
Qed.

Lemma slot_ok_advancePhaseGenerator (ch : YMF262Channel) (pm : Z) (s : YMF262Slot) :
  slot_ok s -> slot_ok (advancePhaseGenerator ch pm s).
Proof. intros H. cbv beta delta [advancePhaseGenerator]. repeat slot_ok_step; exact H. Qed.

Lemma slot_ok_reset_operator (s : YMF262Slot) :
  slot_ok s -> slot_ok (with_volume MAX_ATT_INDEX (with_state EG_OFF s)).
Proof.
  intros [Hp _]. split; [exact Hp |]. unfold envelope_in_range.
  cbn [volume state with_volume with_state].
  change MIN_ATT_INDEX with 0. change MAX_ATT_INDEX with 511.
  split; [lia | discriminate].
Qed.

Lemma slots_ok_let (v : YMF262Impl) (f : YMF262Impl -> YMF262Impl) :
  slots_ok v -> (forall y, slots_ok y -> slots_ok (f y)) -> slots_ok (let x := v in f x).
Proof. intros Hv Hf. cbv zeta. apply Hf, Hv. Qed.

Lemma slots_ok_slot_let (v : YMF262Slot) (f : YMF262Slot -> YMF262Impl) :
  slot_ok v -> (forall y, slot_ok y -> slots_ok (f y)) -> slots_ok (let x := v in f x).
Proof. intros Hv Hf. cbv zeta. apply Hf, Hv. Qed.

Lemma slots_ok_channels (c c' : YMF262Impl) :
  channels c' = channels c -> slots_ok c -> slots_ok c'.
Proof. unfold slots_ok. intros ->. tauto. Qed.

Lemma slots_ok_key_slot (on : bool) (k n i : Z) (c : YMF262Impl) :
  slots_ok c -> slots_ok (key_slot on k n i c).
Proof.
  intros H. unfold key_slot. apply slots_ok_put_cslot; [exact H |].
  destruct on; [apply slot_ok_FM_KEYON | apply slot_ok_FM_KEYOFF];
    apply slots_ok_cslot, H.
Qed.

Lemma slots_ok_set_connect (n i : Z) (cn : Connect) (c : YMF262Impl) :
  slots_ok c -> slots_ok (set_connect n i cn c).
Proof.
  intros H. unfold set_connect. apply slots_ok_put_cslot; [exact H |].
  slot_ok_step. apply slots_ok_cslot, H.
Qed.

Lemma slots_ok_refresh_TLL (src n i : Z) (c : YMF262Impl) :
  slots_ok c -> slots_ok (refresh_TLL src n i c).
Proof.
  intros H. unfold refresh_TLL, total_level. apply slots_ok_put_cslot; [exact H |].
  slot_ok_step. apply slots_ok_cslot, H.
Qed.

Lemma slots_ok_refresh_FC (src n i : Z) (c : YMF262Impl) :
  slots_ok c -> slots_ok (refresh_FC src n i c).
Proof.
  intros H. unfold refresh_FC. apply slots_ok_put_cslot; [exact H |].
  apply slot_ok_CALC_FCSLOT, slots_ok_cslot, H.
Qed.

(** The handlers, one step at a time. *)
Ltac slot_ok_op :=
  repeat first
    [ assumption
    | lazymatch goal with
      | |- slot_ok (CALC_FCSLOT _ _) => apply slot_ok_CALC_FCSLOT
      | |- slot_ok (FM_KEYON _ _) => apply slot_ok_FM_KEYON
      | |- slot_ok (FM_KEYOFF _ _) => apply slot_ok_FM_KEYOFF
      | |- slot_ok (advanceEnvelopeGenerator _ _) => apply slot_ok_advanceEnvelopeGenerator
      | |- slot_ok (advancePhaseGenerator _ _ _) => apply slot_ok_advancePhaseGenerator
      | |- slot_ok (total_level _ _) => cbv beta delta [total_level]
      | |- slot_ok (setFeedbackShift _ _) => cbv beta delta [setFeedbackShift]
      | |- slot_ok (with_volume MAX_ATT_INDEX (with_state EG_OFF _)) =>
          apply slot_ok_reset_operator
      | |- _ => slot_ok_step
      end ].

Ltac slots_ok_step :=
  lazymatch goal with
  | |- slots_ok (let x := ?v in @?f x) =>
      lazymatch type of v with
      | YMF262Impl =>
          apply (slots_ok_let v f);
          [| let y := fresh "c" in let H := fresh "H" in intros y H; cbv beta]
      | YMF262Slot =>
          apply (slots_ok_slot_let v f);
          [slot_ok_op | let y := fresh "s" in let H := fresh "H" in intros y H; cbv beta]
      | _ => change (slots_ok (f v)); cbv beta
      end
  | |- slots_ok (if ?b then _ else _) => destruct b
  | |- slots_ok (match channel_kind ?n with _ => _ end) => destruct (channel_kind n)
  | |- slots_ok (match ?b with true => _ | false => _ end) => destruct b
  | |- slots_ok (match ?cn with ConnNull => _ | _ => _ end) => destruct cn
  | |- slots_ok (put_cslot _ _ _ _) => apply slots_ok_put_cslot; [| slot_ok_op]
  | |- slots_ok (set_connect _ _ _ _) => apply slots_ok_set_connect
  | |- slots_ok (key_slot _ _ _ _ _) => apply slots_ok_key_slot
  | |- slots_ok (key_channel _ _ _ _) => cbv beta delta [key_channel]
  | |- slots_ok (refresh_TLL _ _ _ _) => apply slots_ok_refresh_TLL
  | |- slots_ok (refresh_FC _ _ _ _) => apply slots_ok_refresh_FC
  | |- slots_ok (connect_2op _ _) => cbv beta delta [connect_2op]
  | |- slots_ok (connect_4op _ _ _) => cbv beta delta [connect_4op]
  | |- slots_ok (refresh2 _ _) => cbv beta delta [refresh2]
  | |- slots_ok (refresh4 _ _) => cbv beta delta [refresh4]
  | |- slots_ok (connect_add _ _ _) => cbv beta delta [connect_add]
  | |- slots_ok (chanout_add _ _ _) => cbv beta delta [chanout_add]
  | |- slots_ok (?f ?x ?c) =>
      apply (slots_ok_channels c); [reflexivity |]
  end.

Ltac slots_ok_walk := repeat slots_ok_step; try assumption.

Lemma slots_ok_set_mul (sl_ v : Z) (c : YMF262Impl) :
  slots_ok c -> slots_ok (set_mul sl_ v c).
Proof. intros H. cbv beta delta [set_mul]. slots_ok_walk. Qed.

Lemma slots_ok_set_ksl_tl (sl_ v : Z) (c : YMF262Impl) :
  slots_ok c -> slots_ok (set_ksl_tl sl_ v c).
Proof. intros H. cbv beta delta [set_ksl_tl]. slots_ok_walk. Qed.

Lemma slots_ok_set_ar_dr (sl_ v : Z) (c : YMF262Impl) :
  slots_ok c -> slots_ok (set_ar_dr sl_ v c).
Proof. intros H. cbv beta delta [set_ar_dr]. slots_ok_walk. Qed.

Lemma slots_ok_set_sl_rr (sl_ v : Z) (c : YMF262Impl) :
  slots_ok c -> slots_ok (set_sl_rr sl_ v c).
Proof. intros H. cbv beta delta [set_sl_rr]. slots_ok_walk. Qed.

Lemma slots_ok_write_waveform (ch_offset r v : Z) (c : YMF262Impl) :
  slots_ok c -> slots_ok (write_waveform ch_offset r v c).
Proof. intros H. cbv beta delta [write_waveform]. slots_ok_walk. Qed.

Lemma slots_ok_write_connect (ch_offset r v : Z) (c : YMF262Impl) :
  slots_ok c -> slots_ok (write_connect ch_offset r v c).
Proof. intros H. cbv beta delta [write_connect]. slots_ok_walk. Qed.

Lemma slots_ok_write_rhythm (ch_offset v : Z) (c : YMF262Impl) :
  slots_ok c -> slots_ok (write_rhythm ch_offset v c).
Proof. intros H. cbv beta delta [write_rhythm]. slots_ok_walk. Qed.

Lemma slots_ok_key_onoff (on : bool) (n : Z) (c : YMF262Impl) :
  slots_ok c -> slots_ok (key_onoff on n c).
Proof. intros H. cbv beta delta [key_onoff]. slots_ok_walk. Qed.

Lemma slots_ok_retuned (n : Z) (b : bool) (bf : Z) (c : YMF262Impl) :
  slots_ok c -> slots_ok (put_chan n (retuned b bf (chan c n)) c).
Proof.
  intros H. destruct (slots_ok_chan c n H) as [H1 H2].
  apply slots_ok_put_chan; [exact H | |]; unfold retuned; cbv zeta;
    destruct b; assumption.
Qed.

Lemma slots_ok_update_fnum (n bf : Z) (c : YMF262Impl) :
  slots_ok c -> slots_ok (update_fnum n bf c).
Proof.
  intros H. cbv beta delta [update_fnum].
  destruct (negb (block_fnum (chan c n) =? bf)); [| exact H].
  assert (H1 := slots_ok_retuned n (nts c) bf c H).
  unfold retuned in H1. cbv zeta in H1.
  cbv zeta.
  match goal with
  | |- slots_ok (if OPL3_mode ?x then _ else _) =>
      assert (Hx : slots_ok x) by (destruct (nts c); exact H1);
      clear H1; revert Hx; generalize x
  end.
  intros c1 H1. slots_ok_walk.
Qed.

Lemma slots_ok_write_fnum (ch_offset r v : Z) (c : YMF262Impl) :
  slots_ok c -> slots_ok (write_fnum ch_offset r v c).
Proof.
  intros H. cbv beta delta [write_fnum].
  repeat lazymatch goal with
         | |- slots_ok (if ?b then _ else _) => destruct b
         | |- slots_ok (let x := ?v in @?f x) => change (slots_ok (f v)); cbv beta
         end;
    try exact H; apply slots_ok_update_fnum; try apply slots_ok_key_onoff; exact H.
Qed.

Lemma slots_ok_set_extended (n bit v : Z) (c : YMF262Impl) :
  slots_ok c -> slots_ok (set_extended n bit v c).
Proof.
  intros H. destruct (slots_ok_chan c n H) as [H1 H2].
  assert (E : slots_ok (put_chan n (with_extended (Z.land (Z.shiftr v bit) 1) (chan c n)) c))
    by (apply slots_ok_put_chan; assumption).
  unfold set_extended, update_channels. cbv zeta.
  repeat match goal with |- context [if ?b then _ else _] => destruct b end; exact E.
Qed.

Lemma slots_ok_write_control (r v : Z) (c : YMF262Impl) :
  slots_ok c -> slots_ok (write_control r v c).
Proof.
  intros H. apply (slots_ok_channels c); [| exact H].
  unfold write_control, resetStatus, changeStatusMask. cbv zeta.
  destruct (Z.land r 31) as [| p | p]; try reflexivity.
  do 5 (try destruct p as [p | p |]; try reflexivity);
    repeat match goal with |- context [if ?b then _ else _] => destruct b end; reflexivity.
Qed.

Lemma slots_ok_writeRegForce (r v : Z) (c : YMF262Impl) :
  slots_ok c -> slots_ok (writeRegForce r v c).
Proof.
  intros H. apply (writeRegForce_cases slots_ok).
  - intros c0 H0 n bit. apply slots_ok_set_extended, H0.
  - intros c0 H0. exact H0.
  - intros c0 H0. exact H0.
  - intros c0 H0 r'. apply slots_ok_write_control, H0.
  - intros c0 H0 sl_. apply slots_ok_set_mul, H0.
  - intros c0 H0 sl_. apply slots_ok_set_ksl_tl, H0.
  - intros c0 H0 sl_. apply slots_ok_set_ar_dr, H0.
  - intros c0 H0 sl_. apply slots_ok_set_sl_rr, H0.
  - intros c0 H0 off. apply slots_ok_write_rhythm, H0.
  - intros c0 H0 off r'. apply slots_ok_write_fnum, H0.
  - intros c0 H0 off r'. apply slots_ok_write_connect, H0.
  - intros c0 H0 off r'. apply slots_ok_write_waveform, H0.
  - exact H.
Qed.

Lemma slots_ok_chan_calc (T : Tables) (n a : Z) (c : YMF262Impl) :
  slots_ok c -> slots_ok (chan_calc T n a c).
Proof. intros H. cbv beta delta [chan_calc]. slots_ok_walk. Qed.

Lemma slots_ok_chan_calc_ext (T : Tables) (n a : Z) (c : YMF262Impl) :
  slots_ok c -> slots_ok (chan_calc_ext T n a c).
Proof. intros H. cbv beta delta [chan_calc_ext]. slots_ok_walk. Qed.

Lemma slots_ok_chan_calc_rhythm (T : Tables) (c : YMF262Impl) :
  slots_ok c -> slots_ok (chan_calc_rhythm T c).
Proof. intros H. cbv beta delta [chan_calc_rhythm]. slots_ok_walk. Qed.

Lemma slots_ok_calc_pair (T : Tables) (n : Z) (c : YMF262Impl) :
  slots_ok c -> slots_ok (calc_pair T n c).
Proof.
  intros H. cbv beta delta [calc_pair].
  slots_ok_step; [apply slots_ok_chan_calc, H |].
  slots_ok_step; [apply slots_ok_chan_calc_ext | apply slots_ok_chan_calc]; assumption.
Qed.

Lemma slots_ok_advance_lfo (c : YMF262Impl) : slots_ok c -> slots_ok (advance_lfo c).
Proof.
  intros H. apply (slots_ok_channels c); [| exact H].
  unfold advance_lfo. cbv zeta.
  match goal with |- context [if ?b then with_lfo_am_cnt 0 ?x else ?x] => destruct b end;
    reflexivity.
Qed.

Lemma slots_ok_advance_slot (n i : Z) (c : YMF262Impl) :
  slots_ok c -> slots_ok (advance_slot n i c).
Proof. intros H. cbv beta delta [advance_slot]. slots_ok_walk. Qed.

Lemma slots_ok_advance (c : YMF262Impl) : slots_ok c -> slots_ok (advance c).
Proof.
  intros H. cbv beta delta [advance].
  assert (F : forall l c0, slots_ok c0 ->
            slots_ok (fold_left (fun c n => advance_slot n 1 (advance_slot n 0 c)) l c0)).
  { induction l as [| n l IH]; intros c0 H0; cbn [fold_left]; [exact H0 |].
    apply IH. apply slots_ok_advance_slot, slots_ok_advance_slot, H0. }
  slots_ok_step; [exact H |].
  slots_ok_step; [apply F; assumption |].
  slots_ok_step; [slots_ok_step; assumption |].
  assumption.
Qed.

Lemma slots_ok_sample_let (v : YMF262Impl) (f : YMF262Impl -> list (Z * Z) * YMF262Impl) :
  slots_ok v -> (forall y, slots_ok y -> slots_ok (snd (f y))) ->
  slots_ok (snd (let x := v in f x)).
Proof. intros Hv Hf. cbv zeta. apply Hf, Hv. Qed.

Ltac sample_step :=
  lazymatch goal with
  | |- slots_ok (snd (let x := ?v in @?f x)) =>
      apply (slots_ok_sample_let v f);
      [| let y := fresh "c" in let H := fresh "H" in intros y H; cbv beta]
  end.

Lemma slots_ok_generate_sample (T : Tables) (b : bool) (c : YMF262Impl) :
  slots_ok c -> slots_ok (snd (generate_sample T b c)).
Proof.
  intros H. cbv beta delta [generate_sample].
  sample_step; [apply slots_ok_advance_lfo, H |].
  sample_step; [assumption |].
  do 3 (sample_step; [apply slots_ok_calc_pair; assumption |]).
  sample_step.
  { destruct (negb b).
    - do 2 (slots_ok_step; [apply slots_ok_chan_calc; assumption |]).
      apply slots_ok_chan_calc. assumption.
    - apply slots_ok_chan_calc_rhythm. assumption. }
  do 3 (sample_step; [apply slots_ok_calc_pair; assumption |]).
  do 3 (sample_step; [apply slots_ok_chan_calc; assumption |]).
  cbv zeta. cbn [snd]. apply slots_ok_advance. assumption.
Qed.

Lemma slots_ok_reset (c : YMF262Impl) : slots_ok c -> slots_ok (reset c).
Proof.
  apply (reset_preserves slots_ok).
  - intros c0 H0. apply (slots_ok_channels c0); [| exact H0].
    unfold resetStatus. cbv zeta.
    match goal with |- context [if ?b then _ else _] => destruct b end; reflexivity.
  - intros c0 r v. apply slots_ok_writeRegForce.
  - intros c0 n i H0. unfold reset_operator.
    apply slots_ok_put_cslot; [exact H0 |].
    apply slot_ok_reset_operator, slots_ok_cslot, H0.
Qed.

Lemma slots_ok_reachable (c : YMF262Impl) : reachable c -> slots_ok c.
Proof.
  revert c. apply reachable_ind.
  - unfold power_on. apply slots_ok_reset.
    unfold slots_ok. change (channels new_chip) with (repeat new_channel 18).
    apply List.Forall_forall. intros ch Hch. apply repeat_spec in Hch. subst ch.
    split; apply slot_ok_new.
  - intros c r v. apply slots_ok_writeRegForce.
  - intros c T b. apply slots_ok_generate_sample.
  - intros c flag H. apply (slots_ok_channels c); [| exact H].
    unfold setStatus. cbv zeta.
    match goal with |- context [if ?b then _ else _] => destruct b end; reflexivity.
  - intros c H. exact H.
  - intros c. apply slots_ok_reset.
Qed.

(** C1.  On the chip every operator's volume (attenuation) is in
    [0, MAX_ATT_INDEX = 511], and it is still in [0, 511] after any sequence
    of [advanceEnvelopeGenerator] calls, for any values of [eg_cnt].  This
    holds in every state the chip reaches from its construction by register
    writes, samples, resets, timer callbacks and status reads: in any
    envelope state (ATTACK, DECAY, SUSTAIN, RELEASE, OFF) and for any
    programmed rate and sustain-level settings. *)
Theorem envelope_volume_in_range (c : YMF262Impl) (n i : Z) (eg_cnts : list Z) :
  reachable c ->
  MIN_ATT_INDEX <= volume (cslot c n i) <= MAX_ATT_INDEX /\
  MIN_ATT_INDEX <= volume (advance_envelopes eg_cnts (cslot c n i)) <= MAX_ATT_INDEX.
Proof.
  intros H. destruct (slots_ok_cslot c n i (slots_ok_reachable c H)) as [Hp [Hv Hd]].
  split; [exact Hv |].
  apply advance_envelopes_in_range; assumption.
Qed.

Lemma envelope_volume_in_range_witness :
  state (cslot four_op_voice 0 SLOT1) = EG_ATTACK /\
  MIN_ATT_INDEX <= volume (cslot four_op_voice 0 SLOT1) <= MAX_ATT_INDEX /\
  MIN_ATT_INDEX <= volume (advance_envelopes [0; 1; 2] (cslot four_op_voice 0 SLOT1))
    <= MAX_ATT_INDEX.
Proof.
  split; [vm_compute; reflexivity |].
  apply (envelope_volume_in_range four_op_voice 0 SLOT1 [0; 1; 2]).
  exists [Write 0x105 0x01; Write 0x104 0x01; Write 0xA0 0x55; Write 0xB0 0x3F].
  unfold four_op_voice. cbn [fold_left run]. exact eq_refl.
Defined.

Lemma rate_row_bounds (sel k : Z) :
  existsb (Z.eqb sel) eg_rate_select || (sel =? 13 * RATE_STEPS) = true ->
  0 <= k <= 7 -> 0 <= sel + k < Z.of_nat (length eg_inc).
Proof.
  intros H Hk.
  assert (Hs : 0 <= sel <= 14 * 8).
  { apply orb_true_iff in H. destruct H as [H | H].
    - apply existsb_exists in H. destruct H as [x [Hin Heq]].
      apply Z.eqb_eq in Heq. subst x.
      assert (Hall : forallb (fun x => (0 <=? x) && (x <=? 14 * 8)) eg_rate_select = true)
        by (vm_compute; reflexivity).
      rewrite forallb_forall in Hall. specialize (Hall sel Hin).
      apply andb_true_iff in Hall. lia.
    - apply Z.eqb_eq in H. subst sel. vm_compute. split; discriminate. }
  change (Z.of_nat (length eg_inc)) with 120. lia.
Qed.

(** X14.  In every state the chip reaches, an operator in DECAY has a
    volume of at most 507 = 511 - 4, which is the room the unclamped DECAY
    step needs; the rate selectors and the sustain level of every operator
    are rows of [eg_rate_select] (or the zero-time attack row) and an entry
    of [sl_tab]; and so, for any value of the envelope counter and any
    shift, the envelope generator reads [eg_inc] within its 120 entries,
    in ATTACK, in DECAY and in SUSTAIN and RELEASE. *)
Theorem envelope_of_reachable_chip (c : YMF262Impl) (n i : Z) :
  reachable c ->
  (state (cslot c n i) = EG_DECAY ->
   volume (cslot c n i) <= MAX_ATT_INDEX - DECAY_STEP_MAX) /\
  programmed (cslot c n i) = true /\
  forall sh eg_cnt,
    0 <= eg_sel_ar (cslot c n i) + Z.land (Z.shiftr eg_cnt sh) 7
      < Z.of_nat (length eg_inc) /\
    0 <= eg_sel_dr (cslot c n i) + Z.land (Z.shiftr eg_cnt sh) 7
      < Z.of_nat (length eg_inc) /\
    0 <= eg_sel_rr (cslot c n i) + Z.land (Z.shiftr eg_cnt sh) 7
      < Z.of_nat (length eg_inc).
Proof.
  intros H. destruct (slots_ok_cslot c n i (slots_ok_reachable c H)) as [Hp [Hv Hd]].
  split; [exact Hd |]. split; [exact Hp |].
  destruct (programmed_fields _ Hp) as (H1 & H2 & H3 & _).
  intros sh eg_cnt. assert (R := land7_range (Z.shiftr eg_cnt sh)).
  split; [apply rate_row_bounds; [exact H1 | exact R] |].
  split; apply rate_row_bounds; try exact R; apply orb_true_iff; left; assumption.
Qed.

Lemma envelope_of_reachable_chip_witness :
  state (cslot four_op_voice 0 SLOT1) = EG_ATTACK /\
  programmed (cslot four_op_voice 0 SLOT1) = true.
Proof.
  split; [vm_compute; reflexivity |].
  apply (envelope_of_reachable_chip four_op_voice 0 SLOT1).
  exists [Write 0x105 0x01; Write 0x104 0x01; Write 0xA0 0x55; Write 0xB0 0x3F].
  unfold four_op_voice. cbn [fold_left run]. exact eq_refl.
Defined.

(** ** Key on *)

Lemma kst_state (s s' : YMF262Slot) : kst s' = kst s -> state s' = state s.
Proof. unfold kst. congruence. Qed.

Lemma forallb_false {A : Type} (f : A -> bool) (l : list A) (x : A) :
  In x l -> f x = false -> forallb f l = false.
Proof.
  intros Hin Hf. destruct (forallb f l) eqn:E; [| reflexivity].
  rewrite forallb_forall in E. rewrite (E x Hin) in Hf. discriminate.
Qed.

(** An operator in ATTACK is heard. *)
Lemma attack_not_muted (c : YMF262Impl) (n i : Z) :
  0 <= n < 18 -> state (cslot c n i) = EG_ATTACK -> checkMuteHelper c = false.
Proof.
  intros Hn Hs. unfold checkMuteHelper. apply (forallb_false _ _ n).
  - apply in_map_iff. exists (Z.to_nat n). split; [lia | apply in_seq; lia].
  - assert (E : slot_muted (cslot c n i) = false) by (unfold slot_muted; rewrite Hs; reflexivity).
    assert (Hi : cslot c n i = cslot c n 0 \/ cslot c n i = cslot c n 1).
    { unfold cslot, slots. destruct (i =? 0); [left | right]; reflexivity. }
    destruct Hi as [Hi | Hi]; rewrite Hi in E; rewrite E;
      [reflexivity | apply andb_false_r].
Qed.

Lemma not_muted_renders (T : Tables) (num : nat) (c : YMF262Impl) :
  checkMuteHelper c = false -> fst (generateChannels T num c) <> Muted.
Proof.
  intros H. unfold generateChannels, generateChannels_full. rewrite H. cbv zeta.
  destruct (generate_loop T _ num c). discriminate.
Qed.

Lemma writeReg_plain (r v : Z) (c : YMF262Impl) :
  0 <= r < 256 -> writeReg r v c = writeRegForce r v c.
Proof.
  intros Hr. unfold writeReg. cbv zeta.
  destruct (negb (OPL3_mode c) && negb (r =? 261)); [| reflexivity].
  assert (E : Z.land r (Z.lnot 256) = r).
  { apply land_lnot_clear. apply Z.bits_inj'. intros k Hk.
    rewrite Z.land_spec, Z.bits_0.
    destruct (Z_lt_le_dec k 8) as [Hlt | Hge].
    - assert (C : k = 0 \/ k = 1 \/ k = 2 \/ k = 3 \/ k = 4 \/ k = 5 \/ k = 6 \/ k = 7) by lia.
      destruct C as [-> | [-> | [-> | [-> | [-> | [-> | [-> | ->]]]]]]];
        apply andb_false_r.
    - rewrite (bits_below r 8 k) by (try lia; change (2 ^ 8) with 256; lia). reflexivity. }
  rewrite E. reflexivity.
Qed.

Lemma key_on_attack (n v : Z) (c : YMF262Impl) :
  wf c -> 0 <= n <= 8 -> OPL3_mode c = false ->
  nz (Z.land (byte_of v) 0x20) = true -> key (cslot c n SLOT1) = 0 ->
  state (cslot (writeRegForce (0xB0 + n) v c) n SLOT1) = EG_ATTACK.
Proof.
  intros H Hn Hm Hon Hk.
  assert (E := writeRegForce_fnum_high 0 n v c (or_introl eq_refl) Hn).
  change (0xB0 + 0x100 * 0 + n) with (0xB0 + n) in E.
  change (9 * 0 + n) with n in E. rewrite E. clear E.
  rewrite Hon.
  set (c0 := with_reg _ c).
  assert (H0 : wf c0).
  { unfold c0. apply wf_with_reg; [exact H |]. rewrite aset_length. apply H. }
  assert (S0 : cslot c0 n SLOT1 = cslot c n SLOT1) by reflexivity.
  assert (M0 : OPL3_mode c0 = false) by exact Hm.
  clearbody c0.
  assert (Hq := quiet_update_fnum n
                  (Z.lor (Z.shiftl (Z.land (byte_of v) 31) 8)
                         (Z.land (block_fnum (chan c n)) 255))
                  (key_onoff true n c0) (wf_key_onoff true n c0 H0)).
  destruct Hq as [_ Hq]. specialize (Hq n SLOT1). apply kst_state in Hq. rewrite Hq.
  unfold key_onoff. rewrite M0. unfold key_channel.
  rewrite cslot_key_slot_other;
    [| apply wf_key_slot, H0 | right; reflexivity].
  rewrite cslot_key_slot by exact H0.
  assert (E1 : (n =? n) && in18 n && same_slot SLOT1 SLOT1 = true).
  { rewrite Z.eqb_refl. unfold in18.
    assert (A : (0 <=? n) = true) by (apply Z.leb_le; lia).
    assert (B : (n <? 18) = true) by (apply Z.ltb_lt; lia).
    rewrite A, B. reflexivity. }
  rewrite E1, S0.
  assert (K := kst_FM_KEYON 1 (cslot c n SLOT1)).
  unfold kst, keyon_kst in K. cbn [fst snd] in K. rewrite Hk in K.
  cbn [Z.eqb] in K. congruence.
Qed.

(** X15.  A key-on is heard.  In OPL2 mode, a write to b0-b8 with the
    key-on bit set, to a channel whose first operator holds no key, puts
    that operator into ATTACK, and [generateChannels] then renders samples
    instead of nulling the buffers. *)
Theorem key_on_renders (T : Tables) (num : nat) (n v : Z) (c : YMF262Impl) :
  wf c -> 0 <= n <= 8 -> OPL3_mode c = false ->
  nz (Z.land (byte_of v) 0x20) = true -> key (cslot c n SLOT1) = 0 ->
  state (cslot (writeReg (0xB0 + n) v c) n SLOT1) = EG_ATTACK /\
  fst (generateChannels T num (writeReg (0xB0 + n) v c)) <> Muted.
Proof.
  intros H Hn Hm Hon Hk. rewrite writeReg_plain by lia.
  assert (E := key_on_attack n v c H Hn Hm Hon Hk).
  split; [exact E |].
  apply not_muted_renders. apply (attack_not_muted _ n SLOT1); [lia | exact E].
Qed.

Lemma key_on_renders_witness :
  fst (generateChannels (mkTables [] []) 1 power_on) = Muted /\
  state (cslot (writeReg 0xB3 0x20 power_on) 3 SLOT1) = EG_ATTACK /\
  fst (generateChannels (mkTables [] []) 1 (writeReg 0xB3 0x20 power_on)) <> Muted.
Proof.
  split; [vm_compute; reflexivity |].
  apply (key_on_renders (mkTables [] []) 1 3 0x20 power_on);
    [apply wf_power_on | lia | reflexivity | reflexivity | reflexivity].
Defined.

(** ** The second channel of a 4-operator voice *)

Lemma cslot_retuned (n m j : Z) (b : bool) (bf : Z) (c : YMF262Impl) :
  wf c -> cslot (put_chan n (retuned b bf (chan c n)) c) m j = cslot c m j.
Proof.
  intros H. unfold cslot. rewrite chan_put_chan by exact H.
  destruct ((n =? m) && in18 n) eqn:E; [| reflexivity].
  apply andb_true_iff in E. destruct E as [E _]. apply Z.eqb_eq in E. subst m.
  unfold retuned. cbv zeta. destruct b; reflexivity.
Qed.

Lemma update_fnum_paired (n bf : Z) (c : YMF262Impl) :
  wf c -> OPL3_mode c = true -> channel_kind n = SecondOfPair ->
  nz (extended (chan c (n - 3))) = true ->
  forall m j, cslot (update_fnum n bf c) m j = cslot c m j.
Proof.
  intros H Hm Hk He m j. unfold update_fnum.
  destruct (negb (block_fnum (chan c n) =? bf)); [| reflexivity].
  assert (R := cslot_retuned n m j (nts c) bf c H).
  unfold retuned in R. cbv zeta in R. cbv zeta.
  match goal with
  | |- cslot (if OPL3_mode ?x then _ else _) m j = _ =>
      assert (Ex : cslot x m j = cslot c m j) by (destruct (nts c); exact R);
      assert (Mx : OPL3_mode x = true) by exact Hm;
      assert (Xx : extended (chan x (n - 3)) = extended (chan c (n - 3)));
      [| revert Ex Mx Xx; generalize x]
  end.
  { rewrite chan_put_chan by exact H.
    assert (En : (n =? n - 3) = false) by (apply Z.eqb_neq; lia).
    rewrite En. reflexivity. }
  intros c1 E1 M1 X1. rewrite M1, Hk, X1, He. exact E1.
Qed.

Lemma key_onoff_paired (on : bool) (n : Z) (c : YMF262Impl) :
  OPL3_mode c = true -> channel_kind n = SecondOfPair ->
  nz (extended (chan c (n - 3))) = true -> key_onoff on n c = c.
Proof. intros Hm Hk He. unfold key_onoff. rewrite Hm, Hk, He. reflexivity. Qed.

(** X16.  In OPL3 mode the operators of the second channel of an enabled
    4-operator voice follow the first channel: a write to the F-number or
    key-on register of the second channel (a3-a5, b3-b5, and 1a3-1a5,
    1b3-1b5 on page 2) stores the block and F-number in the channel and
    changes none of the 36 operators, whether it keys on or off. *)
Theorem paired_channel_registers (page n v : Z) (c : YMF262Impl) :
  wf c -> OPL3_mode c = true -> page = 0 \/ page = 1 -> 3 <= n <= 5 ->
  nz (extended (chan c (9 * page + n - 3))) = true ->
  forall m j,
    cslot (writeRegForce (0xA0 + 0x100 * page + n) v c) m j = cslot c m j /\
    cslot (writeRegForce (0xB0 + 0x100 * page + n) v c) m j = cslot c m j.
Proof.
  intros H Hm Hp Hn He m j.
  assert (Hk : channel_kind (9 * page + n) = SecondOfPair).
  { assert (C : n = 3 \/ n = 4 \/ n = 5) by lia.
    destruct Hp as [-> | ->]; destruct C as [-> | [-> | ->]]; reflexivity. }
  assert (Wr : forall r x, wf (with_reg (aset (reg c) r x) c)).
  { intros r x. apply wf_with_reg; [exact H |]. rewrite aset_length. apply H. }
  split.
  - rewrite writeRegForce_fnum_low by (assumption || lia).
    rewrite update_fnum_paired; [reflexivity | apply Wr | exact Hm | exact Hk | exact He].
  - rewrite writeRegForce_fnum_high by (assumption || lia).
    rewrite key_onoff_paired; [| exact Hm | exact Hk | exact He].
    rewrite update_fnum_paired; [reflexivity | apply Wr | exact Hm | exact Hk | exact He].
Qed.

Lemma paired_channel_registers_witness :
  key (cslot four_op_voice 3 SLOT1) = 1 /\
  cslot (writeRegForce 0xB3 0x00 four_op_voice) 3 SLOT1 = cslot four_op_voice 3 SLOT1.
Proof.
  split; [vm_compute; reflexivity |].
  apply (paired_channel_registers 0 3 0x00 four_op_voice);
    [vm_compute; repeat split | reflexivity | left; reflexivity | lia | reflexivity].
Defined.

(** ** The table reads of the operator output *)

Lemma level_ok_new : level_ok new_slot.
Proof.
  unfold level_ok. change (TL new_slot) with 0. change (ksl new_slot) with 0.
  change (TLL new_slot) with 0. change (AMmask new_slot) with 0.
  change (wavetable new_slot) with 0. change KSL_BASE_MAX with 224.
  change SIN_LEN with 1024. lia.
Qed.

Lemma levels_ok_chan (c : YMF262Impl) (n : Z) :
  levels_ok c ->
  0 <= ksl_base (chan c n) <= KSL_BASE_MAX /\
  level_ok (slot1 (chan c n)) /\ level_ok (slot2 (chan c n)).
Proof.
  intros H. unfold chan.
  apply (Forall_aget (fun ch => 0 <= ksl_base ch <= KSL_BASE_MAX /\
                                level_ok (slot1 ch) /\ level_ok (slot2 ch)));
    [exact H |].
  split; [change (ksl_base new_channel) with 0; change KSL_BASE_MAX with 224; lia |].
  split; apply level_ok_new.
Qed.

Lemma levels_ok_cslot (c : YMF262Impl) (n i : Z) : levels_ok c -> level_ok (cslot c n i).
Proof.
  intros H. destruct (levels_ok_chan c n H) as (_ & H1 & H2).
  unfold cslot, slots. destruct (i =? 0); assumption.
Qed.

Lemma levels_ok_ksl_base (c : YMF262Impl) (n : Z) :
  levels_ok c -> 0 <= ksl_base (chan c n) <= KSL_BASE_MAX.
Proof. intros H. exact (proj1 (levels_ok_chan c n H)). Qed.

Lemma levels_ok_put_chan (n : Z) (ch : YMF262Channel) (c : YMF262Impl) :
  levels_ok c -> 0 <= ksl_base ch <= KSL_BASE_MAX ->
  level_ok (slot1 ch) -> level_ok (slot2 ch) -> levels_ok (put_chan n ch c).
Proof.
  intros H H0 H1 H2. unfold levels_ok, put_chan. cbn [channels with_channels].
  apply Forall_aset; [exact H | split; [exact H0 | split; assumption]].
Qed.

Lemma levels_ok_put_cslot (n i : Z) (x : YMF262Slot) (c : YMF262Impl) :
  levels_ok c -> level_ok x -> levels_ok (put_cslot n i x c).
Proof.
  intros H Hx. unfold put_cslot. destruct (levels_ok_chan c n H) as (H0 & H1 & H2).
  unfold with_slots.
  destruct (i =? 0); apply levels_ok_put_chan;
    cbn [slot1 slot2 ksl_base with_slot1 with_slot2]; assumption.
Qed.

(** An update that keeps the five level fields keeps the operator in
    order. *)
Lemma level_ok_same (s s' : YMF262Slot) :
  TL s' = TL s -> ksl s' = ksl s -> TLL s' = TLL s ->
  AMmask s' = AMmask s -> wavetable s' = wavetable s ->
  level_ok s -> level_ok s'.
Proof.
  unfold level_ok. intros -> -> -> -> ->. tauto.
Qed.

Lemma level_ok_TL (v : Z) (s : YMF262Slot) :
  level_ok s ->
  level_ok (with_TL (uint32 (Z.shiftl (Z.land v 0x3F) (ENV_BITS - 1 - 7))) s).
Proof.
  intros (H1 & H2 & H3 & H4 & H5). unfold level_ok.
  cbn [TL ksl TLL AMmask wavetable with_TL].
  repeat split; try tauto.
  - unfold uint32. apply Z.mod_pos_bound. lia.
  - assert (R : 0 <= Z.land v 0x3F < 2 ^ 6) by (apply land_range; lia).
    change (ENV_BITS - 1 - 7) with 2. rewrite Z.shiftl_mul_pow2 by lia.
    unfold uint32. rewrite Z.mod_small by lia. lia.
Qed.

Lemma level_ok_ksl (k : Z) (s : YMF262Slot) :
  level_ok s -> level_ok (with_ksl (if nz k then byte_of (3 - k) else 31) s).
Proof.
  intros (H1 & H2 & H3 & H4 & H5). unfold level_ok.
  cbn [TL ksl TLL AMmask wavetable with_ksl].
  repeat split; try tauto.
  destruct (nz k); [apply byte_of_range | lia].
Qed.

Lemma level_ok_AMmask (b : bool) (s : YMF262Slot) :
  level_ok s -> level_ok (with_AMmask (if b then byte_of (Z.lnot 0) else 0) s).
Proof.
  intros (H1 & H2 & H3 & H4 & H5). unfold level_ok.
  cbn [TL ksl TLL AMmask wavetable with_AMmask].
  repeat split; try tauto; destruct b; vm_compute; discriminate.
Qed.

Lemma level_ok_wavetable (v : Z) (s : YMF262Slot) :
  0 <= v <= 7 -> level_ok s -> level_ok (with_wavetable (v * SIN_LEN) s).
Proof.
  intros Hv (H1 & H2 & H3 & H4 & H5). unfold level_ok.
  cbn [TL ksl TLL AMmask wavetable with_wavetable].
  change SIN_LEN with 1024. repeat split; try tauto; lia.
Qed.

Lemma level_ok_total_level (ch : YMF262Channel) (s : YMF262Slot) :
  0 <= ksl_base ch <= KSL_BASE_MAX -> level_ok s -> level_ok (total_level ch s).
Proof.
  intros Hk (H1 & H2 & H3 & H4 & H5). unfold level_ok, total_level.
  cbn [TL ksl TLL AMmask wavetable with_TLL].
  assert (R : 0 <= Z.shiftr (ksl_base ch) (ksl s) <= KSL_BASE_MAX).
  { rewrite Z.shiftr_div_pow2 by lia.
    assert (Hp : 0 < 2 ^ ksl s) by (apply Z.pow_pos_nonneg; lia).
    split; [apply Z.div_pos; lia |].
    apply Z.le_trans with (ksl_base ch); [| lia].
    apply Z.div_le_upper_bound; [exact Hp |]. nia. }
  change KSL_BASE_MAX with 224 in *.
  rewrite sint32_small by lia.
  repeat split; try tauto; lia.
Qed.

Lemma level_ok_let (v : YMF262Slot) (f : YMF262Slot -> YMF262Slot) :
  level_ok v -> (forall y, level_ok y -> level_ok (f y)) -> level_ok (let x := v in f x).
Proof. intros Hv Hf. cbv zeta. apply Hf, Hv. Qed.

(** The operator updates of the handlers, one step at a time. *)
Ltac level_ok_step :=
  lazymatch goal with
  | |- level_ok (if ?b then _ else _) => destruct b
  | |- level_ok (match channel_kind ?n with _ => _ end) => destruct (channel_kind n)
  | |- level_ok (let x := ?v in @?f x) =>
      lazymatch type of v with
      | YMF262Slot =>
          apply (level_ok_let v f);
          [| let y := fresh "s" in let H := fresh "H" in intros y H; cbv beta]
      | _ => change (level_ok (f v)); cbv beta
      end
  | |- level_ok (cslot _ _ _) => apply levels_ok_cslot; assumption
  | |- level_ok (slots (chan ?c ?n) ?i) => apply (levels_ok_cslot c n i); assumption
  | |- level_ok (with_TL (uint32 (Z.shiftl (Z.land _ 0x3F) _)) _) => apply level_ok_TL
  | |- level_ok (with_ksl (if nz _ then _ else _) _) => apply level_ok_ksl
  | |- level_ok (with_AMmask (if nz _ then _ else _) _) => apply level_ok_AMmask
  | |- level_ok (total_level (chan _ _) _) =>
      apply level_ok_total_level; [apply levels_ok_ksl_base; assumption |]
  | |- level_ok (?f ?x ?s) => apply (level_ok_same s); [reflexivity .. |]
  end.

Lemma level_ok_CALC_FCSLOT (ch : YMF262Channel) (s : YMF262Slot) :
  level_ok s -> level_ok (CALC_FCSLOT ch s).
Proof. intros H. cbv beta delta [CALC_FCSLOT]. repeat level_ok_step; assumption. Qed.

Lemma level_ok_FM_KEYON (k : Z) (s : YMF262Slot) : level_ok s -> level_ok (FM_KEYON k s).
Proof.
  intros H. cbv beta delta [FM_KEYON]. repeat level_ok_step; assumption.
Qed.

Lemma level_ok_FM_KEYOFF (k : Z) (s : YMF262Slot) : level_ok s -> level_ok (FM_KEYOFF k s).
Proof.
  intros H. cbv beta delta [FM_KEYOFF]. destruct (key s =? 0); [exact H |].
  level_ok_step; [repeat level_ok_step; exact H |].
  match goal with Hy : level_ok ?y |- _ =>
    destruct (key y =? 0); [| exact Hy];
    destruct (state y) eqn:E; try exact Hy;
    (apply (level_ok_same y); [reflexivity .. | exact Hy])
  end.
Qed.

Lemma level_ok_advanceEnvelopeGenerator (eg_cnt : Z) (s : YMF262Slot) :
  level_ok s -> level_ok (advanceEnvelopeGenerator eg_cnt s).
Proof.
  intros H. rewrite advanceEnvelopeGenerator_frame.
  apply (level_ok_same s); [reflexivity .. | exact H].
Qed.

Lemma level_ok_advancePhaseGenerator (ch : YMF262Channel) (pm : Z) (s : YMF262Slot) :
  level_ok s -> level_ok (advancePhaseGenerator ch pm s).
Proof. intros H. cbv beta delta [advancePhaseGenerator]. repeat level_ok_step; exact H. Qed.

Lemma level_ok_reset_operator (s : YMF262Slot) :
  level_ok s -> level_ok (with_volume MAX_ATT_INDEX (with_state EG_OFF s)).
Proof. intros H. apply (level_ok_same s); [reflexivity .. | exact H]. Qed.

Lemma levels_ok_let (v : YMF262Impl) (f : YMF262Impl -> YMF262Impl) :
  levels_ok v -> (forall y, levels_ok y -> levels_ok (f y)) -> levels_ok (let x := v in f x).
Proof. intros Hv Hf. cbv zeta. apply Hf, Hv. Qed.

Lemma levels_ok_slot_let (v : YMF262Slot) (f : YMF262Slot -> YMF262Impl) :
  level_ok v -> (forall y, level_ok y -> levels_ok (f y)) -> levels_ok (let x := v in f x).
Proof. intros Hv Hf. cbv zeta. apply Hf, Hv. Qed.

Lemma levels_ok_channels (c c' : YMF262Impl) :
  channels c' = channels c -> levels_ok c -> levels_ok c'.
Proof. unfold levels_ok. intros ->. tauto. Qed.

Lemma levels_ok_key_slot (on : bool) (k n i : Z) (c : YMF262Impl) :
  levels_ok c -> levels_ok (key_slot on k n i c).
Proof.
  intros H. unfold key_slot. apply levels_ok_put_cslot; [exact H |].
  destruct on; [apply level_ok_FM_KEYON | apply level_ok_FM_KEYOFF];
    apply levels_ok_cslot, H.
Qed.

Lemma levels_ok_set_connect (n i : Z) (cn : Connect) (c : YMF262Impl) :
  levels_ok c -> levels_ok (set_connect n i cn c).
Proof.
  intros H. unfold set_connect. apply levels_ok_put_cslot; [exact H |].
  level_ok_step. apply levels_ok_cslot, H.
Qed.

Lemma levels_ok_refresh_TLL (src n i : Z) (c : YMF262Impl) :
  levels_ok c -> levels_ok (refresh_TLL src n i c).
Proof.
  intros H. unfold refresh_TLL. apply levels_ok_put_cslot; [exact H |].
  apply level_ok_total_level; [apply levels_ok_ksl_base, H | apply levels_ok_cslot, H].
Qed.

Lemma levels_ok_refresh_FC (src n i : Z) (c : YMF262Impl) :
  levels_ok c -> levels_ok (refresh_FC src n i c).
Proof.
  intros H. unfold refresh_FC. apply levels_ok_put_cslot; [exact H |].
  apply level_ok_CALC_FCSLOT, levels_ok_cslot, H.
Qed.

(** The handlers, one step at a time. *)
Ltac level_ok_op :=
  repeat first
    [ assumption
    | lazymatch goal with
      | |- level_ok (CALC_FCSLOT _ _) => apply level_ok_CALC_FCSLOT
      | |- level_ok (FM_KEYON _ _) => apply level_ok_FM_KEYON
      | |- level_ok (FM_KEYOFF _ _) => apply level_ok_FM_KEYOFF
      | |- level_ok (advanceEnvelopeGenerator _ _) => apply level_ok_advanceEnvelopeGenerator
      | |- level_ok (advancePhaseGenerator _ _ _) => apply level_ok_advancePhaseGenerator
      | |- level_ok (setFeedbackShift _ _) => cbv beta delta [setFeedbackShift]
      | |- level_ok (with_volume MAX_ATT_INDEX (with_state EG_OFF _)) =>
          apply level_ok_reset_operator
      | |- _ => level_ok_step
      end ].

Ltac levels_ok_step :=
  lazymatch goal with
  | |- levels_ok (let x := ?v in @?f x) =>
      lazymatch type of v with
      | YMF262Impl =>
          apply (levels_ok_let v f);
          [| let y := fresh "c" in let H := fresh "H" in intros y H; cbv beta]
      | YMF262Slot =>
          apply (levels_ok_slot_let v f);
          [level_ok_op | let y := fresh "s" in let H := fresh "H" in intros y H; cbv beta]
      | _ => change (levels_ok (f v)); cbv beta
      end
  | |- levels_ok (if ?b then _ else _) => destruct b
  | |- levels_ok (match channel_kind ?n with _ => _ end) => destruct (channel_kind n)
  | |- levels_ok (match ?b with true => _ | false => _ end) => destruct b
  | |- levels_ok (match ?cn with ConnNull => _ | _ => _ end) => destruct cn
  | |- levels_ok (put_cslot _ _ _ _) => apply levels_ok_put_cslot; [| level_ok_op]
  | |- levels_ok (set_connect _ _ _ _) => apply levels_ok_set_connect
  | |- levels_ok (key_slot _ _ _ _ _) => apply levels_ok_key_slot
  | |- levels_ok (key_channel _ _ _ _) => cbv beta delta [key_channel]
  | |- levels_ok (refresh_TLL _ _ _ _) => apply levels_ok_refresh_TLL
  | |- levels_ok (refresh_FC _ _ _ _) => apply levels_ok_refresh_FC
  | |- levels_ok (connect_2op _ _) => cbv beta delta [connect_2op]
  | |- levels_ok (connect_4op _ _ _) => cbv beta delta [connect_4op]
  | |- levels_ok (refresh2 _ _) => cbv beta delta [refresh2]
  | |- levels_ok (refresh4 _ _) => cbv beta delta [refresh4]
  | |- levels_ok (connect_add _ _ _) => cbv beta delta [connect_add]
  | |- levels_ok (chanout_add _ _ _) => cbv beta delta [chanout_add]
  | |- levels_ok (?f ?x ?c) =>
      apply (levels_ok_channels c); [reflexivity |]
  end.

Ltac levels_ok_walk := repeat levels_ok_step; try assumption.

Lemma levels_ok_set_mul (sl_ v : Z) (c : YMF262Impl) :
  levels_ok c -> levels_ok (set_mul sl_ v c).
Proof. intros H. cbv beta delta [set_mul]. levels_ok_walk. Qed.

Lemma levels_ok_set_ksl_tl (sl_ v : Z) (c : YMF262Impl) :
  levels_ok c -> levels_ok (set_ksl_tl sl_ v c).
Proof. intros H. cbv beta delta [set_ksl_tl]. levels_ok_walk. Qed.

Lemma levels_ok_set_ar_dr (sl_ v : Z) (c : YMF262Impl) :
  levels_ok c -> levels_ok (set_ar_dr sl_ v c).
Proof. intros H. cbv beta delta [set_ar_dr]. levels_ok_walk. Qed.

Lemma levels_ok_set_sl_rr (sl_ v : Z) (c : YMF262Impl) :
  levels_ok c -> levels_ok (set_sl_rr sl_ v c).
Proof. intros H. cbv beta delta [set_sl_rr]. levels_ok_walk. Qed.

Lemma levels_ok_write_waveform (ch_offset r v : Z) (c : YMF262Impl) :
  levels_ok c -> levels_ok (write_waveform ch_offset r v c).
Proof.
  intros H. cbv beta delta [write_waveform]. levels_ok_walk.
  apply level_ok_wavetable; [| apply levels_ok_cslot; assumption].
  assert (R7 := land7_range v).
  assert (R3 : 0 <= Z.land (Z.land v 7) 3 < 2 ^ 2) by (apply land_range; lia).
  destruct (negb (OPL3_mode _)); lia.
Qed.

Lemma levels_ok_write_connect (ch_offset r v : Z) (c : YMF262Impl) :
  levels_ok c -> levels_ok (write_connect ch_offset r v c).
Proof. intros H. cbv beta delta [write_connect]. levels_ok_walk. Qed.

Lemma levels_ok_write_rhythm (ch_offset v : Z) (c : YMF262Impl) :
  levels_ok c -> levels_ok (write_rhythm ch_offset v c).
Proof. intros H. cbv beta delta [write_rhythm]. levels_ok_walk. Qed.

Lemma levels_ok_key_onoff (on : bool) (n : Z) (c : YMF262Impl) :
  levels_ok c -> levels_ok (key_onoff on n c).
Proof. intros H. cbv beta delta [key_onoff]. levels_ok_walk. Qed.

Lemma ksl_tab_range (k : Z) : 0 <= tbl ksl_tab k <= KSL_BASE_MAX.
Proof.
  apply tbl_range; [change KSL_BASE_MAX with 224; lia | vm_compute; reflexivity].
Qed.

Lemma levels_ok_retuned (n : Z) (b : bool) (bf : Z) (c : YMF262Impl) :
  levels_ok c -> levels_ok (put_chan n (retuned b bf (chan c n)) c).
Proof.
  intros H. destruct (levels_ok_chan c n H) as (H0 & H1 & H2).
  apply levels_ok_put_chan; [exact H | | |]; unfold retuned; cbv zeta;
    destruct b; try assumption;
    cbn [ksl_base with_kcode with_fc with_ksl_base with_block_fnum];
    apply ksl_tab_range.
Qed.

Lemma levels_ok_update_fnum (n bf : Z) (c : YMF262Impl) :
  levels_ok c -> levels_ok (update_fnum n bf c).
Proof.
  intros H. cbv beta delta [update_fnum].
  destruct (negb (block_fnum (chan c n) =? bf)); [| exact H].
  assert (H1 := levels_ok_retuned n (nts c) bf c H).
  unfold retuned in H1. cbv zeta in H1.
  cbv zeta.
  match goal with
  | |- levels_ok (if OPL3_mode ?x then _ else _) =>
      assert (Hx : levels_ok x) by (destruct (nts c); exact H1);
      clear H1; revert Hx; generalize x
  end.
  intros c1 H1. levels_ok_walk.
Qed.

Lemma levels_ok_write_fnum (ch_offset r v : Z) (c : YMF262Impl) :
  levels_ok c -> levels_ok (write_fnum ch_offset r v c).
Proof.
  intros H. cbv beta delta [write_fnum].
  repeat lazymatch goal with
         | |- levels_ok (if ?b then _ else _) => destruct b
         | |- levels_ok (let x := ?v in @?f x) => change (levels_ok (f v)); cbv beta
         end;
    try exact H; apply levels_ok_update_fnum; try apply levels_ok_key_onoff; exact H.
Qed.

Lemma levels_ok_set_extended (n bit v : Z) (c : YMF262Impl) :
  levels_ok c -> levels_ok (set_extended n bit v c).
Proof.
  intros H. destruct (levels_ok_chan c n H) as (H0 & H1 & H2).
  assert (E : levels_ok (put_chan n (with_extended (Z.land (Z.shiftr v bit) 1) (chan c n)) c))
    by (apply levels_ok_put_chan; assumption).
  unfold set_extended, update_channels. cbv zeta.
  repeat match goal with |- context [if ?b then _ else _] => destruct b end; exact E.
Qed.

Lemma levels_ok_write_control (r v : Z) (c : YMF262Impl) :
  levels_ok c -> levels_ok (write_control r v c).
Proof.
  intros H. apply (levels_ok_channels c); [| exact H].
  unfold write_control, resetStatus, changeStatusMask. cbv zeta.
  destruct (Z.land r 31) as [| p | p]; try reflexivity.
  do 5 (try destruct p as [p | p |]; try reflexivity);
    repeat match goal with |- context [if ?b then _ else _] => destruct b end; reflexivity.
Qed.

Lemma levels_ok_writeRegForce (r v : Z) (c : YMF262Impl) :
  levels_ok c -> levels_ok (writeRegForce r v c).
Proof.
  intros H. apply (writeRegForce_cases levels_ok).
  - intros c0 H0 n bit. apply levels_ok_set_extended, H0.
  - intros c0 H0. exact H0.
  - intros c0 H0. exact H0.
  - intros c0 H0 r'. apply levels_ok_write_control, H0.
  - intros c0 H0 sl_. apply levels_ok_set_mul, H0.
  - intros c0 H0 sl_. apply levels_ok_set_ksl_tl, H0.
  - intros c0 H0 sl_. apply levels_ok_set_ar_dr, H0.
  - intros c0 H0 sl_. apply levels_ok_set_sl_rr, H0.
  - intros c0 H0 off. apply levels_ok_write_rhythm, H0.
  - intros c0 H0 off r'. apply levels_ok_write_fnum, H0.
  - intros c0 H0 off r'. apply levels_ok_write_connect, H0.
  - intros c0 H0 off r'. apply levels_ok_write_waveform, H0.
  - exact H.
Qed.

Lemma levels_ok_chan_calc (T : Tables) (n a : Z) (c : YMF262Impl) :
  levels_ok c -> levels_ok (chan_calc T n a c).
Proof. intros H. cbv beta delta [chan_calc]. levels_ok_walk. Qed.

Lemma levels_ok_chan_calc_ext (T : Tables) (n a : Z) (c : YMF262Impl) :
  levels_ok c -> levels_ok (chan_calc_ext T n a c).
Proof. intros H. cbv beta delta [chan_calc_ext]. levels_ok_walk. Qed.

Lemma levels_ok_chan_calc_rhythm (T : Tables) (c : YMF262Impl) :
  levels_ok c -> levels_ok (chan_calc_rhythm T c).
Proof. intros H. cbv beta delta [chan_calc_rhythm]. levels_ok_walk. Qed.

Lemma levels_ok_calc_pair (T : Tables) (n : Z) (c : YMF262Impl) :
  levels_ok c -> levels_ok (calc_pair T n c).
Proof.
  intros H. cbv beta delta [calc_pair].
  levels_ok_step; [apply levels_ok_chan_calc, H |].
  levels_ok_step; [apply levels_ok_chan_calc_ext | apply levels_ok_chan_calc]; assumption.
Qed.

Lemma levels_ok_advance_lfo (c : YMF262Impl) : levels_ok c -> levels_ok (advance_lfo c).
Proof.
  intros H. apply (levels_ok_channels c); [| exact H].
  unfold advance_lfo. cbv zeta.
  match goal with |- context [if ?b then with_lfo_am_cnt 0 ?x else ?x] => destruct b end;
    reflexivity.
Qed.

Lemma levels_ok_advance_slot (n i : Z) (c : YMF262Impl) :
  levels_ok c -> levels_ok (advance_slot n i c).
Proof. intros H. cbv beta delta [advance_slot]. levels_ok_walk. Qed.

Lemma levels_ok_advance (c : YMF262Impl) : levels_ok c -> levels_ok (advance c).
Proof.
  intros H. cbv beta delta [advance].
  assert (F : forall l c0, levels_ok c0 ->
            levels_ok (fold_left (fun c n => advance_slot n 1 (advance_slot n 0 c)) l c0)).
  { induction l as [| n l IH]; intros c0 H0; cbn [fold_left]; [exact H0 |].
    apply IH. apply levels_ok_advance_slot, levels_ok_advance_slot, H0. }
  levels_ok_step; [exact H |].
  levels_ok_step; [apply F; assumption |].
  levels_ok_step; [levels_ok_step; assumption |].
  assumption.
Qed.

Lemma levels_ok_sample_let (v : YMF262Impl) (f : YMF262Impl -> list (Z * Z) * YMF262Impl) :
  levels_ok v -> (forall y, levels_ok y -> levels_ok (snd (f y))) ->
  levels_ok (snd (let x := v in f x)).
Proof. intros Hv Hf. cbv zeta. apply Hf, Hv. Qed.

Ltac level_sample_step :=
  lazymatch goal with
  | |- levels_ok (snd (let x := ?v in @?f x)) =>
      apply (levels_ok_sample_let v f);
      [| let y := fresh "c" in let H := fresh "H" in intros y H; cbv beta]
  end.

Lemma levels_ok_generate_sample (T : Tables) (b : bool) (c : YMF262Impl) :
  levels_ok c -> levels_ok (snd (generate_sample T b c)).
Proof.
  intros H. cbv beta delta [generate_sample].
  level_sample_step; [apply levels_ok_advance_lfo, H |].
  level_sample_step; [assumption |].
  do 3 (level_sample_step; [apply levels_ok_calc_pair; assumption |]).
  level_sample_step.
  { destruct (negb b).
    - do 2 (levels_ok_step; [apply levels_ok_chan_calc; assumption |]).
      apply levels_ok_chan_calc. assumption.
    - apply levels_ok_chan_calc_rhythm. assumption. }
  do 3 (level_sample_step; [apply levels_ok_calc_pair; assumption |]).
  do 3 (level_sample_step; [apply levels_ok_chan_calc; assumption |]).
  cbv zeta. cbn [snd]. apply levels_ok_advance. assumption.
Qed.

Lemma levels_ok_reset (c : YMF262Impl) : levels_ok c -> levels_ok (reset c).
Proof.
  apply (reset_preserves levels_ok).
  - intros c0 H0. apply (levels_ok_channels c0); [| exact H0].
    unfold resetStatus. cbv zeta.
    match goal with |- context [if ?b then _ else _] => destruct b end; reflexivity.
  - intros c0 r v. apply levels_ok_writeRegForce.
  - intros c0 n i H0. unfold reset_operator.
    apply levels_ok_put_cslot; [exact H0 |].
    apply level_ok_reset_operator, levels_ok_cslot, H0.
Qed.

Lemma levels_ok_reachable (c : YMF262Impl) : reachable c -> levels_ok c.
Proof.
  revert c. apply reachable_ind.
  - unfold power_on. apply levels_ok_reset.
    unfold levels_ok. change (channels new_chip) with (repeat new_channel 18).
    apply List.Forall_forall. intros ch Hch. apply repeat_spec in Hch. subst ch.
    split; [change (ksl_base new_channel) with 0; change KSL_BASE_MAX with 224; lia |].
    split; apply level_ok_new.
  - intros c r v. apply levels_ok_writeRegForce.
  - intros c T b. apply levels_ok_generate_sample.
  - intros c flag H. apply (levels_ok_channels c); [| exact H].
    unfold setStatus. cbv zeta.
    match goal with |- context [if ?b then _ else _] => destruct b end; reflexivity.
  - intros c H. exact H.
  - intros c. apply levels_ok_reset.
Qed.


Lemma op_calc_indices (T : Tables) (s : YMF262Slot) (phase pm LFO_AM_ : Z) :
  op_calc T s phase pm LFO_AM_ =
  if tl_index T s phase pm LFO_AM_ <? TL_TAB_LEN
  then tbl (tl_tab T) (tl_index T s phase pm LFO_AM_) else 0.
Proof. reflexivity. Qed.

Lemma tbl_Forall (P : Z -> Prop) (tab : list Z) (k : Z) :
  Forall P tab -> P 0 -> P (tbl tab k).
Proof.
  intros Ht H0. unfold tbl. destruct (k <? 0); [exact H0 |].
  destruct (nth_in_or_default (Z.to_nat k) tab 0) as [Hin | ->]; [| exact H0].
  rewrite List.Forall_forall in Ht. apply Ht, Hin.
Qed.

Lemma silent_tables_ok : sin_tab_ok silent_tables.
Proof.
  split; [apply repeat_length |].
  apply List.Forall_forall. intros x Hx. apply repeat_spec in Hx. subst x.
  vm_compute. split; discriminate.
Qed.

(** X17.  The operator output reads its tables within their bounds.  In
    every state the chip reaches, for every operator and whatever phase,
    modulation and tremolo value [op_calc] is called with: the index into
    [sin_tab] is within its [SIN_LEN * 8] entries; and with a sine table
    whose entries are between 0 and [TL_TAB_LEN], as [init_tables] fills
    it, the attenuation sum does not overflow the [int] it is stored in
    and is not negative, so that [tl_tab] is read at an index from 0 to
    [TL_TAB_LEN - 1] or not at all. *)
Theorem op_calc_reads_in_bounds (T : Tables) (c : YMF262Impl)
    (n i phase pm LFO_AM_ : Z) :
  reachable c -> sin_tab_ok T ->
  0 <= sin_index (cslot c n i) phase pm < Z.of_nat (length (sin_tab T)) /\
  tl_index T (cslot c n i) phase pm LFO_AM_ =
    16 * (TLL (cslot c n i) + volume (cslot c n i)
          + Z.land LFO_AM_ (AMmask (cslot c n i)))
    + tbl (sin_tab T) (sin_index (cslot c n i) phase pm) /\
  0 <= tl_index T (cslot c n i) phase pm LFO_AM_ /\
  op_calc T (cslot c n i) phase pm LFO_AM_ =
    (if tl_index T (cslot c n i) phase pm LFO_AM_ <? TL_TAB_LEN
     then tbl (tl_tab T) (tl_index T (cslot c n i) phase pm LFO_AM_)
     else 0).
Proof.
  intros Hr [Hlen Hsin].
  destruct (levels_ok_cslot c n i (levels_ok_reachable c Hr))
    as (_ & _ & HTLL & HAM & Hw).
  destruct (slots_ok_cslot c n i (slots_ok_reachable c Hr)) as [_ [Hv _]].
  generalize dependent (cslot c n i). intros s HTLL HAM Hw Hv.
  change KSL_BASE_MAX with 224 in HTLL. change SIN_LEN with 1024 in Hw.
  change MIN_ATT_INDEX with 0 in Hv. change MAX_ATT_INDEX with 511 in Hv.
  assert (Hm : 0 <= Z.land (phase + pm) SIN_MASK < 2 ^ 10)
    by (apply land_range; [lia | vm_compute; split; [discriminate | reflexivity]]).
  assert (Ha : 0 <= Z.land LFO_AM_ (AMmask s) < 2 ^ 8)
    by (apply land_range; lia).
  assert (Hs : 0 <= tbl (sin_tab T) (sin_index s phase pm) <= TL_TAB_LEN)
    by (apply (tbl_Forall (fun x => 0 <= x <= TL_TAB_LEN));
        [exact Hsin | vm_compute; split; discriminate]).
  change TL_TAB_LEN with 6656 in Hs.
  assert (E : tl_index T s phase pm LFO_AM_ =
              16 * (TLL s + volume s + Z.land LFO_AM_ (AMmask s))
              + tbl (sin_tab T) (sin_index s phase pm)).
  { unfold tl_index. cbv zeta. rewrite Z.shiftl_mul_pow2 by lia.
    unfold uint32. rewrite Z.mod_small by lia.
    rewrite sint32_small by lia. lia. }
  split.
  - rewrite Hlen. unfold sin_index. change (SIN_LEN * 8) with 8192.
    rewrite Z2Nat.id by lia. lia.
  - split; [exact E |]. split; [rewrite E; lia | apply op_calc_indices].
Qed.

Lemma op_calc_reads_in_bounds_witness :
  sin_index (cslot four_op_voice 0 SLOT1) 0x3FF 1 = 0 /\
  0 <= tl_index silent_tables (cslot four_op_voice 0 SLOT1) 0x3FF 1 26.
Proof.
  split; [vm_compute; reflexivity |].
  apply (op_calc_reads_in_bounds silent_tables four_op_voice 0 SLOT1 0x3FF 1 26).
  - exists [Write 0x105 0x01; Write 0x104 0x01; Write 0xA0 0x55; Write 0xB0 0x3F].
    unfold four_op_voice. cbn [fold_left run]. exact eq_refl.
  - exact silent_tables_ok.
Defined.

(** ** The mode registers *)

Lemma set_extended_put (n bit v : Z) (c : YMF262Impl) :
  set_extended n bit v c =
  put_chan n (with_extended (Z.land (Z.shiftr v bit) 1) (chan c n)) c.
Proof.
  unfold set_extended, update_channels. cbv zeta.
  repeat match goal with |- context [if ?b then _ else _] => destruct b end; reflexivity.
Qed.

Lemma wf_set_extended (n bit v : Z) (c : YMF262Impl) :
  wf c -> wf (set_extended n bit v c).
Proof. intros H. rewrite set_extended_put. apply wf_put_chan, H. Qed.

Lemma chan_set_extended (n bit v m : Z) (c : YMF262Impl) :
  wf c ->
  chan (set_extended n bit v c) m =
  if (n =? m) && in18 n
  then with_extended (Z.land (Z.shiftr v bit) 1) (chan c n) else chan c m.
Proof. intros H. rewrite set_extended_put. apply chan_put_chan, H. Qed.

Lemma four_op_write (v : Z) (c : YMF262Impl) :
  writeRegForce 0x104 v c =
  set_extended 11 5 (byte_of v) (set_extended 10 4 (byte_of v)
    (set_extended 9 3 (byte_of v) (set_extended 2 2 (byte_of v)
       (set_extended 1 1 (byte_of v) (set_extended 0 0 (byte_of v)
          (with_reg (aset (reg c) 0x104 (byte_of v)) c)))))).
Proof. reflexivity. Qed.

(** X18.  The mode registers change the modes only.  A write to 0x105
    sets OPL3 mode from bit 0 and, when it enables it, the transient status
    bits to 2; a write to 0x104 gives the channels 0-2 and 9-11 the bits 0-5
    of the value as their 4-operator flags.  Neither write changes an
    operator (its waveform, its connection, its envelope), the frequency
    data of a channel or the output selectors, and the write to 0x105
    leaves the 4-operator flags as they are: the voices stay as they were
    programmed until their own registers are written. *)
Theorem mode_registers_keep_voices (v : Z) (c : YMF262Impl) :
  wf c ->
  (OPL3_mode (writeRegForce 0x105 v c) = nz (Z.land (byte_of v) 1) /\
   status2 (writeRegForce 0x105 v c) =
     (if nz (Z.land (byte_of v) 1) then 2 else status2 c) /\
   channels (writeRegForce 0x105 v c) = channels c /\
   pan (writeRegForce 0x105 v c) = pan c) /\
  (forall n, chan (writeRegForce 0x104 v c) n =
     match four_op_bit n with
     | Some b => with_extended (Z.land (Z.shiftr (byte_of v) b) 1) (chan c n)
     | None => chan c n
     end) /\
  (forall n i, cslot (writeRegForce 0x104 v c) n i = cslot c n i) /\
  pan (writeRegForce 0x104 v c) = pan c /\
  OPL3_mode (writeRegForce 0x104 v c) = OPL3_mode c /\
  status2 (writeRegForce 0x104 v c) = status2 c.
Proof.
  intros Hwf.
  assert (H0 : wf (with_reg (aset (reg c) 0x104 (byte_of v)) c)).
  { destruct Hwf as (H1 & H2 & H3 & H4). unfold wf. cbn -[aset].
    rewrite aset_length. tauto. }
  assert (Hch : forall n, chan (writeRegForce 0x104 v c) n =
            match four_op_bit n with
            | Some b => with_extended (Z.land (Z.shiftr (byte_of v) b) 1) (chan c n)
            | None => chan c n
            end).
  { intros n. rewrite four_op_write.
    rewrite !chan_set_extended by (repeat apply wf_set_extended; exact H0).
    change (chan (with_reg (aset (reg c) 0x104 (byte_of v)) c)) with (chan c).
    unfold four_op_bit. cbn [in18 Z.leb Z.ltb Z.compare Pos.compare Pos.compare_cont andb].
    rewrite !andb_true_r.
    rewrite (Z.eqb_sym 0 n), (Z.eqb_sym 1 n), (Z.eqb_sym 2 n),
      (Z.eqb_sym 9 n), (Z.eqb_sym 10 n), (Z.eqb_sym 11 n).
    destruct (Z.eqb_spec n 11) as [-> | _]; [reflexivity |].
    destruct (Z.eqb_spec n 10) as [-> | _]; [reflexivity |].
    destruct (Z.eqb_spec n 9) as [-> | _]; [reflexivity |].
    destruct (Z.eqb_spec n 2) as [-> | _]; [reflexivity |].
    destruct (Z.eqb_spec n 1) as [-> | _]; [reflexivity |].
    destruct (Z.eqb_spec n 0) as [-> | _]; reflexivity. }
  split.
  - change (writeRegForce 0x105 v c)
      with (let c1 := with_OPL3_mode (nz (Z.land (byte_of v) 0x01))
                        (with_reg (aset (reg c) 0x105 (byte_of v)) c) in
            if OPL3_mode c1 then with_status2 0x02 c1 else c1).
    cbv zeta. cbn [OPL3_mode with_OPL3_mode].
    destruct (nz (Z.land (byte_of v) 1)); repeat split; reflexivity.
  - split; [exact Hch |]. split.
    + intros n i. unfold cslot. rewrite Hch.
      destruct (four_op_bit n); reflexivity.
    + rewrite four_op_write, !set_extended_put. repeat split; reflexivity.
Qed.

Lemma mode_registers_keep_voices_witness :
  extended (chan four_op_voice 0) = 1 /\
  extended (chan (writeRegForce 0x104 0 four_op_voice) 0) = 0 /\
  cslot (writeRegForce 0x104 0 four_op_voice) 0 SLOT1 = cslot four_op_voice 0 SLOT1.
Proof.
  split; [vm_compute; reflexivity |].
  assert (Hwf : wf four_op_voice) by (vm_compute; repeat split).
  destruct (mode_registers_keep_voices 0 four_op_voice Hwf) as (_ & Hch & Hs & _).
  split; [rewrite Hch; vm_compute; reflexivity | apply Hs].
Defined.

(** ** The destinations of the operators *)

Lemma connected_cslot (c : YMF262Impl) (n i : Z) :
  connected c -> in18 n = true -> own_connect n (connect (cslot c n i)).
Proof. intros [_ H]. apply H. Qed.

Lemma connected_put_chan (n : Z) (ch : YMF262Channel) (c : YMF262Impl) :
  connected c ->
  (in18 n = true ->
   own_connect n (connect (slot1 ch)) /\ own_connect n (connect (slot2 ch))) ->
  connected (put_chan n ch c).
Proof.
  intros [Hl H] Hch. split.
  - unfold put_chan. cbn [channels with_channels]. rewrite aset_length. exact Hl.
  - intros m j Hm. unfold cslot, chan, put_chan. cbn [channels with_channels].
    rewrite aget_aset.
    destruct ((n =? m) && (0 <=? n) && (n <? Z.of_nat (length (channels c)))) eqn:E.
    + apply andb_true_iff in E. destruct E as [E _].
      apply andb_true_iff in E. destruct E as [E _]. apply Z.eqb_eq in E. subst m.
      destruct (Hch Hm) as [H1 H2]. unfold slots. destruct (j =? 0); assumption.
    + apply (H m j Hm).
Qed.

Lemma connected_put_cslot (n i : Z) (x : YMF262Slot) (c : YMF262Impl) :
  connected c -> (in18 n = true -> own_connect n (connect x)) ->
  connected (put_cslot n i x c).
Proof.
  intros H Hx. unfold put_cslot. apply connected_put_chan; [exact H |].
  intros Hn. specialize (Hx Hn).
  assert (H1 := connected_cslot c n 0 H Hn).
  assert (H2 := connected_cslot c n 1 H Hn).
  unfold with_slots. destruct (i =? 0); cbn [slot1 slot2 with_slot1 with_slot2];
    split; assumption.
Qed.

Lemma connected_channels (c c' : YMF262Impl) :
  channels c' = channels c -> connected c -> connected c'.
Proof. unfold connected, cslot, chan. intros ->. tauto. Qed.

Lemma connected_let (v : YMF262Impl) (f : YMF262Impl -> YMF262Impl) :
  connected v -> (forall y, connected y -> connected (f y)) -> connected (let x := v in f x).
Proof. intros Hv Hf. cbv zeta. apply Hf, Hv. Qed.

Lemma connected_slot_let (v : YMF262Slot) (f : YMF262Slot -> YMF262Impl) :
  (forall y, connect y = connect v -> connected (f y)) -> connected (let x := v in f x).
Proof. intros Hf. cbv zeta. apply Hf. reflexivity. Qed.

Lemma connect_CALC_FCSLOT (ch : YMF262Channel) (s : YMF262Slot) :
  connect (CALC_FCSLOT ch s) = connect s.
Proof.
  unfold CALC_FCSLOT. cbv zeta.
  repeat match goal with |- context [if ?b then _ else _] => destruct b end;
    reflexivity.
Qed.

Lemma connect_FM_KEYON (k : Z) (s : YMF262Slot) : connect (FM_KEYON k s) = connect s.
Proof. unfold FM_KEYON. cbv zeta. destruct (key s =? 0); reflexivity. Qed.

Lemma connect_FM_KEYOFF (k : Z) (s : YMF262Slot) : connect (FM_KEYOFF k s) = connect s.
Proof.
  unfold FM_KEYOFF. cbv zeta. destruct (key s =? 0); [reflexivity |].
  match goal with |- context [if ?b then _ else _] => destruct b end; [| reflexivity].
  match goal with |- context [match ?st with EG_OFF => _ | _ => _ end] => destruct st end;
    reflexivity.
Qed.

Lemma connect_advanceEnvelopeGenerator (eg_cnt : Z) (s : YMF262Slot) :
  connect (advanceEnvelopeGenerator eg_cnt s) = connect s.
Proof. rewrite advanceEnvelopeGenerator_frame. reflexivity. Qed.

Lemma connect_advancePhaseGenerator (ch : YMF262Channel) (pm : Z) (s : YMF262Slot) :
  connect (advancePhaseGenerator ch pm s) = connect s.
Proof.
  unfold advancePhaseGenerator. cbv zeta.
  repeat match goal with |- context [if ?b then _ else _] => destruct b end;
    reflexivity.
Qed.

(** The destination of an updated operator: the one a connection write
    gives it, or the one it had. *)
Ltac own_connect_step :=
  lazymatch goal with
  | |- own_connect _ (connect (cslot _ _ _)) => apply connected_cslot; assumption
  | |- own_connect ?n (connect (slots (chan ?c ?n) ?i)) =>
      apply (connected_cslot c n i); assumption
  | |- own_connect _ (connect (if ?b then _ else _)) => destruct b
  | |- own_connect ?n (connect (let x := ?v in @?f x)) =>
      change (own_connect n (connect (f v))); cbv beta
  | |- own_connect _ (connect (match channel_kind ?n with _ => _ end)) =>
      destruct (channel_kind n)
  | |- own_connect _ (connect (CALC_FCSLOT _ _)) => rewrite connect_CALC_FCSLOT
  | |- own_connect _ (connect (FM_KEYON _ _)) => rewrite connect_FM_KEYON
  | |- own_connect _ (connect (FM_KEYOFF _ _)) => rewrite connect_FM_KEYOFF
  | |- own_connect _ (connect (advanceEnvelopeGenerator _ _)) =>
      rewrite connect_advanceEnvelopeGenerator
  | |- own_connect _ (connect (advancePhaseGenerator _ _ _)) =>
      rewrite connect_advancePhaseGenerator
  | |- own_connect _ (connect (with_connect (if ?b then _ else _) _)) =>
      destruct b; unfold own_connect; cbn [connect with_connect]; tauto
  | |- own_connect _ (connect (with_connect _ _)) =>
      unfold own_connect; cbn [connect with_connect]; tauto
  | |- own_connect ?n (connect (?f ?a ?s)) => change (own_connect n (connect s))
  end.

Ltac own_connect_walk :=
  let Hn := fresh "Hn" in
  intros Hn;
  repeat first
    [ match goal with
      | E : connect ?y = _ |- own_connect _ (connect ?y) => rewrite E
      end
    | own_connect_step ].

Lemma connected_key_slot (on : bool) (k n i : Z) (c : YMF262Impl) :
  connected c -> connected (key_slot on k n i c).
Proof.
  intros H. unfold key_slot. apply connected_put_cslot; [exact H |].
  intros Hn. destruct on; repeat own_connect_step.
Qed.

Lemma connected_refresh_TLL (src n i : Z) (c : YMF262Impl) :
  connected c -> connected (refresh_TLL src n i c).
Proof.
  intros H. unfold refresh_TLL, total_level. apply connected_put_cslot; [exact H |].
  own_connect_walk.
Qed.

Lemma connected_refresh_FC (src n i : Z) (c : YMF262Impl) :
  connected c -> connected (refresh_FC src n i c).
Proof.
  intros H. unfold refresh_FC. apply connected_put_cslot; [exact H |].
  own_connect_walk.
Qed.

(** The handlers, one step at a time. *)
Ltac connected_step :=
  lazymatch goal with
  | |- connected (let x := ?v in @?f x) =>
      lazymatch type of v with
      | YMF262Impl =>
          apply (connected_let v f);
          [| let y := fresh "c" in let H := fresh "H" in intros y H; cbv beta]
      | YMF262Slot =>
          apply (connected_slot_let v f);
          let y := fresh "s" in let E := fresh "E" in intros y E; cbv beta
      | _ => change (connected (f v)); cbv beta
      end
  | |- connected (if ?b then _ else _) => destruct b
  | |- connected (match channel_kind ?n with _ => _ end) => destruct (channel_kind n)
  | |- connected (match ?b with true => _ | false => _ end) => destruct b
  | |- connected (match ?cn with ConnNull => _ | _ => _ end) => destruct cn
  | |- connected (put_cslot _ _ _ _) => apply connected_put_cslot; [| own_connect_walk]
  | |- connected (set_connect _ _ _ _) => cbv beta delta [set_connect]
  | |- connected (key_slot _ _ _ _ _) => apply connected_key_slot
  | |- connected (key_channel _ _ _ _) => cbv beta delta [key_channel]
  | |- connected (refresh_TLL _ _ _ _) => apply connected_refresh_TLL
  | |- connected (refresh_FC _ _ _ _) => apply connected_refresh_FC
  | |- connected (connect_2op _ _) => cbv beta delta [connect_2op]
  | |- connected (connect_4op _ _ _) => cbv beta delta [connect_4op]
  | |- connected (refresh2 _ _) => cbv beta delta [refresh2]
  | |- connected (refresh4 _ _) => cbv beta delta [refresh4]
  | |- connected (connect_add _ _ _) => cbv beta delta [connect_add]
  | |- connected (chanout_add _ _ _) => cbv beta delta [chanout_add]
  | |- connected (?f ?x ?c) =>
      apply (connected_channels c); [reflexivity |]
  end.

Ltac connected_walk := repeat connected_step; try assumption.

Lemma connected_set_mul (sl_ v : Z) (c : YMF262Impl) :
  connected c -> connected (set_mul sl_ v c).
Proof. intros H. cbv beta delta [set_mul]. connected_walk. Qed.

Lemma connected_set_ksl_tl (sl_ v : Z) (c : YMF262Impl) :
  connected c -> connected (set_ksl_tl sl_ v c).
Proof. intros H. cbv beta delta [set_ksl_tl total_level]. connected_walk. Qed.

Lemma connected_set_ar_dr (sl_ v : Z) (c : YMF262Impl) :
  connected c -> connected (set_ar_dr sl_ v c).
Proof. intros H. cbv beta delta [set_ar_dr]. connected_walk. Qed.

Lemma connected_set_sl_rr (sl_ v : Z) (c : YMF262Impl) :
  connected c -> connected (set_sl_rr sl_ v c).
Proof. intros H. cbv beta delta [set_sl_rr]. connected_walk. Qed.

Lemma connected_write_waveform (ch_offset r v : Z) (c : YMF262Impl) :
  connected c -> connected (write_waveform ch_offset r v c).
Proof. intros H. cbv beta delta [write_waveform]. connected_walk. Qed.

Lemma connected_write_connect (ch_offset r v : Z) (c : YMF262Impl) :
  connected c -> connected (write_connect ch_offset r v c).
Proof. intros H. cbv beta delta [write_connect setFeedbackShift]. connected_walk. Qed.

Lemma connected_write_rhythm (ch_offset v : Z) (c : YMF262Impl) :
  connected c -> connected (write_rhythm ch_offset v c).
Proof. intros H. cbv beta delta [write_rhythm]. connected_walk. Qed.

Lemma connected_key_onoff (on : bool) (n : Z) (c : YMF262Impl) :
  connected c -> connected (key_onoff on n c).
Proof. intros H. cbv beta delta [key_onoff]. connected_walk. Qed.

Lemma connected_retuned (n : Z) (b : bool) (bf : Z) (c : YMF262Impl) :
  connected c -> connected (put_chan n (retuned b bf (chan c n)) c).
Proof.
  intros H. apply connected_put_chan; [exact H |]. intros Hn.
  assert (H1 := connected_cslot c n 0 H Hn).
  assert (H2 := connected_cslot c n 1 H Hn).
  unfold retuned; cbv zeta; destruct b; split; assumption.
Qed.

Lemma connected_update_fnum (n bf : Z) (c : YMF262Impl) :
  connected c -> connected (update_fnum n bf c).
Proof.
  intros H. cbv beta delta [update_fnum].
  destruct (negb (block_fnum (chan c n) =? bf)); [| exact H].
  assert (H1 := connected_retuned n (nts c) bf c H).
  unfold retuned in H1. cbv zeta in H1.
  cbv zeta.
  match goal with
  | |- connected (if OPL3_mode ?x then _ else _) =>
      assert (Hx : connected x) by (destruct (nts c); exact H1);
      clear H1; revert Hx; generalize x
  end.
  intros c1 H1. connected_walk.
Qed.

Lemma connected_write_fnum (ch_offset r v : Z) (c : YMF262Impl) :
  connected c -> connected (write_fnum ch_offset r v c).
Proof.
  intros H. cbv beta delta [write_fnum].
  repeat lazymatch goal with
         | |- connected (if ?b then _ else _) => destruct b
         | |- connected (let x := ?v in @?f x) => change (connected (f v)); cbv beta
         end;
    try exact H; apply connected_update_fnum; try apply connected_key_onoff; exact H.
Qed.

Lemma connected_set_extended (n bit v : Z) (c : YMF262Impl) :
  connected c -> connected (set_extended n bit v c).
Proof.
  intros H. rewrite set_extended_put. apply connected_put_chan; [exact H |].
  intros Hn. split; [apply (connected_cslot c n 0 H Hn) | apply (connected_cslot c n 1 H Hn)].
Qed.

Lemma connected_write_control (r v : Z) (c : YMF262Impl) :
  connected c -> connected (write_control r v c).
Proof.
  intros H. apply (connected_channels c); [| exact H].
  unfold write_control, resetStatus, changeStatusMask. cbv zeta.
  destruct (Z.land r 31) as [| p | p]; try reflexivity.
  do 5 (try destruct p as [p | p |]; try reflexivity);
    repeat match goal with |- context [if ?b then _ else _] => destruct b end; reflexivity.
Qed.

Lemma connected_writeRegForce (r v : Z) (c : YMF262Impl) :
  connected c -> connected (writeRegForce r v c).
Proof.
  intros H. apply (writeRegForce_cases connected).
  - intros c0 H0 n bit. apply connected_set_extended, H0.
  - intros c0 H0. exact H0.
  - intros c0 H0. exact H0.
  - intros c0 H0 r'. apply connected_write_control, H0.
  - intros c0 H0 sl_. apply connected_set_mul, H0.
  - intros c0 H0 sl_. apply connected_set_ksl_tl, H0.
  - intros c0 H0 sl_. apply connected_set_ar_dr, H0.
  - intros c0 H0 sl_. apply connected_set_sl_rr, H0.
  - intros c0 H0 off. apply connected_write_rhythm, H0.
  - intros c0 H0 off r'. apply connected_write_fnum, H0.
  - intros c0 H0 off r'. apply connected_write_connect, H0.
  - intros c0 H0 off r'. apply connected_write_waveform, H0.
  - exact H.
Qed.

Lemma connected_chan_calc (T : Tables) (n a : Z) (c : YMF262Impl) :
  connected c -> connected (chan_calc T n a c).
Proof. intros H. cbv beta delta [chan_calc]. connected_walk. Qed.

Lemma connected_chan_calc_ext (T : Tables) (n a : Z) (c : YMF262Impl) :
  connected c -> connected (chan_calc_ext T n a c).
Proof. intros H. cbv beta delta [chan_calc_ext]. connected_walk. Qed.

Lemma connected_chan_calc_rhythm (T : Tables) (c : YMF262Impl) :
  connected c -> connected (chan_calc_rhythm T c).
Proof. intros H. cbv beta delta [chan_calc_rhythm]. connected_walk. Qed.

Lemma connected_calc_pair (T : Tables) (n : Z) (c : YMF262Impl) :
  connected c -> connected (calc_pair T n c).
Proof.
  intros H. cbv beta delta [calc_pair].
  connected_step; [apply connected_chan_calc, H |].
  connected_step; [apply connected_chan_calc_ext | apply connected_chan_calc]; assumption.
Qed.

Lemma connected_advance_lfo (c : YMF262Impl) : connected c -> connected (advance_lfo c).
Proof.
  intros H. apply (connected_channels c); [| exact H].
  unfold advance_lfo. cbv zeta.
  match goal with |- context [if ?b then with_lfo_am_cnt 0 ?x else ?x] => destruct b end;
    reflexivity.
Qed.

Lemma connected_advance_slot (n i : Z) (c : YMF262Impl) :
  connected c -> connected (advance_slot n i c).
Proof. intros H. cbv beta delta [advance_slot]. connected_walk. Qed.

Lemma connected_advance (c : YMF262Impl) : connected c -> connected (advance c).
Proof.
  intros H. cbv beta delta [advance].
  assert (F : forall l c0, connected c0 ->
            connected (fold_left (fun c n => advance_slot n 1 (advance_slot n 0 c)) l c0)).
  { induction l as [| n l IH]; intros c0 H0; cbn [fold_left]; [exact H0 |].
    apply IH. apply connected_advance_slot, connected_advance_slot, H0. }
  connected_step; [apply (connected_channels c); [reflexivity | exact H] |].
  connected_step; [apply F; assumption |].
  connected_step; [connected_step; assumption |].
  connected_step. assumption.
Qed.

Lemma connected_sample_let (v : YMF262Impl) (f : YMF262Impl -> list (Z * Z) * YMF262Impl) :
  connected v -> (forall y, connected y -> connected (snd (f y))) ->
  connected (snd (let x := v in f x)).
Proof. intros Hv Hf. cbv zeta. apply Hf, Hv. Qed.

Ltac connected_sample_step :=
  lazymatch goal with
  | |- connected (snd (let x := ?v in @?f x)) =>
      apply (connected_sample_let v f);
      [| let y := fresh "c" in let H := fresh "H" in intros y H; cbv beta]
  end.

Lemma connected_generate_sample (T : Tables) (b : bool) (c : YMF262Impl) :
  connected c -> connected (snd (generate_sample T b c)).
Proof.
  intros H. cbv beta delta [generate_sample].
  connected_sample_step; [apply connected_advance_lfo, H |].
  connected_sample_step; [apply (connected_channels c0); [reflexivity | assumption] |].
  do 3 (connected_sample_step; [apply connected_calc_pair; assumption |]).
  connected_sample_step.
  { destruct (negb b).
    - do 2 (connected_step; [apply connected_chan_calc; assumption |]).
      apply connected_chan_calc. assumption.
    - apply connected_chan_calc_rhythm. assumption. }
  do 3 (connected_sample_step; [apply connected_calc_pair; assumption |]).
  do 3 (connected_sample_step; [apply connected_chan_calc; assumption |]).
  cbv zeta. cbn [snd]. apply connected_advance. assumption.
Qed.

Lemma connected_reset (c : YMF262Impl) : connected c -> connected (reset c).
Proof.
  apply (reset_preserves connected).
  - intros c0 H0. apply (connected_channels c0); [| exact H0].
    unfold resetStatus. cbv zeta.
    match goal with |- context [if ?b then _ else _] => destruct b end; reflexivity.
  - intros c0 r v. apply connected_writeRegForce.
  - intros c0 n i H0. unfold reset_operator.
    apply connected_put_cslot; [exact H0 |]. own_connect_walk.
Qed.

Lemma own_reset_connect (c : YMF262Impl) (n i : Z) : own_connect n (reset_connect c n i).
Proof.
  unfold own_connect, reset_connect.
  destruct (i =? 0); [tauto |].
  destruct (four_op c n && first_of_pair n); tauto.
Qed.

Lemma connected_power_on : connected power_on.
Proof.
  destruct (reset_reaches_reset_state new_chip wf_new_chip)
    as ((Hl & _) & _ & _ & _ & _ & _ & _ & _ & _ & _ & _ & _ & _ & Hr & _).
  split; [exact Hl |].
  intros n i Hn. destruct (Hr n i Hn) as [E _]. fold power_on in E.
  rewrite E. apply own_reset_connect.
Qed.

Lemma connected_reachable (c : YMF262Impl) : reachable c -> connected c.
Proof.
  revert c. apply reachable_ind.
  - exact connected_power_on.
  - intros c r v. apply connected_writeRegForce.
  - intros c T b. apply connected_generate_sample.
  - intros c flag H. apply (connected_channels c); [| exact H].
    unfold setStatus. cbv zeta.
    match goal with |- context [if ?b then _ else _] => destruct b end; reflexivity.
  - intros c H. exact H.
  - intros c. apply connected_reset.
Qed.

(** X19.  Every operator output has a destination.  In every state the
    chip reaches, the [connect] pointer of each of the 36 operators is set:
    it points to one of the two phase modulation inputs or to the output
    [chanout] of the operator's own channel, never to null and never
    outside [chanout]; so [chan_calc] adds the operator output to a place
    that exists. *)
Theorem operators_stay_connected (c : YMF262Impl) (n i : Z) :
  reachable c -> 0 <= n < 18 ->
  connect (cslot c n i) <> ConnNull /\
  (connect (cslot c n i) = ConnPhaseMod \/
   connect (cslot c n i) = ConnPhaseMod2 \/
   connect (cslot c n i) = ConnChanout n).
Proof.
  intros H Hn.
  assert (Ho : own_connect n (connect (cslot c n i)))
    by (apply connected_cslot; [apply connected_reachable, H | apply in18_range, Hn]).
  split; [| exact Ho].
  destruct Ho as [E | [E | E]]; rewrite E; discriminate.
Qed.

Lemma operators_stay_connected_witness :
  connect (cslot four_op_voice 0 SLOT2) = ConnChanout 0 /\
  connect (cslot four_op_voice 3 SLOT2) <> ConnNull.
Proof.
  split; [vm_compute; reflexivity |].
  apply (operators_stay_connected four_op_voice 3 SLOT2); [| lia].
  exists [Write 0x105 0x01; Write 0x104 0x01; Write 0xA0 0x55; Write 0xB0 0x3F].
  unfold four_op_voice. cbn [fold_left run]. exact eq_refl.
Defined.
